(** * A shallow embedding of the Demucs GPU-rental orchestrator

    The development follows the four Python files of the repository:
    [server.py] (the job API that runs on a rented instance),
    [vastai_client.py] and [runpod_client.py] (the two marketplace
    clients with their [separate] workflow) and
    [test_concurrent_instances.py] (the batch launcher and its
    destroy-all pass).

    Python code that talks to the outside world is written in a small
    state-and-exception monad; the remote side is an explicit environment
    that answers each call from the history of calls made so far.

    A JSON object that the code reads with [d.get(k, default)] is a
    record whose field may be missing, [null] or a value ([field]): a
    [null] is not replaced by the default, so the code goes on with
    [None].  A key read with [d.get(k)] is an [option], both a missing
    key and a [null] giving [None], and a key read with [d[k]] is taken
    to be there.  A value that is there has the type the code expects. *)

From Stdlib Require Import ZArith QArith List String Ascii Bool Lia.
From Stdlib Require Import DecimalString Sorted.
From stdpp Require Import base gmap strings list.
Import ListNotations.

Local Open Scope string_scope.
Local Open Scope list_scope.
Local Open Scope Z_scope.

(** ** Python preliminaries *)

Module Py.

(** The exception classes the four files raise, catch or let through.
    [KeyboardInterrupt] and [SystemExit] derive from [BaseException]
    only, so [except Exception] does not catch them. *)
Inductive exn_class : Type :=
| Exception
| HTTPError            (* requests: raise_for_status *)
| ConnectionError      (* requests: unreachable host, read timeout *)
| TimeoutError
| AttributeError
| TypeError
| KeyError
| IndexError
| ZeroDivisionError
| OSError              (* also its subclasses, FileExistsError and the like *)
| UnicodeDecodeError
| KeyboardInterrupt
| SystemExit (code : Z)
| HTTPException (status_code : Z).   (* fastapi *)

Record exn : Type := mk_exn { exn_cls : exn_class; exn_str : string }.

Definition is_Exception (e : exn) : bool :=
  match exn_cls e with
  | KeyboardInterrupt | SystemExit _ => false
  | _ => true
  end.

Definition is_RequestException (e : exn) : bool :=
  match exn_cls e with
  | HTTPError | ConnectionError => true
  | _ => false
  end.

(** How a call ends.  The polling loops below are written with a bound
    on their iterations; [OutOfFuel] is what a loop answers when the
    bound is hit, and the bounds the callers pass are shown never to be
    hit. *)
Inductive result (A : Type) : Type :=
| Ret (a : A)
| Raise (e : exn)
| OutOfFuel.
Arguments Ret {A} a.
Arguments Raise {A} e.
Arguments OutOfFuel {A}.

(** Computations over a state [W]. *)
Definition M (W A : Type) : Type := W -> result A * W.

Definition ret {W A} (a : A) : M W A := fun w => (Ret a, w).
Definition raise {W A} (e : exn) : M W A := fun w => (Raise e, w).
Definition bind {W A B} (c : M W A) (k : A -> M W B) : M W B :=
  fun w => match c w with
           | (Ret a, w') => k a w'
           | (Raise e, w') => (Raise e, w')
           | (OutOfFuel, w') => (OutOfFuel, w')
           end.
Definition get {W} : M W W := fun w => (Ret w, w).
Definition modify {W} (f : W -> W) : M W unit := fun w => (Ret tt, f w).

(** [try: c  except <cls> as e: h e], where [catches] tells which
    exceptions the clause matches. *)
Definition try_except {W A} (c : M W A) (catches : exn -> bool)
    (h : exn -> M W A) : M W A :=
  fun w => match c w with
           | (Ret a, w') => (Ret a, w')
           | (Raise e, w') => if catches e then h e w' else (Raise e, w')
           | (OutOfFuel, w') => (OutOfFuel, w')
           end.

(** [try: c  finally: f].  The [finally] suite always runs; when it
    raises, its exception replaces the outcome of [c]. *)
Definition try_finally {W A} (c : M W A) (f : M W unit) : M W A :=
  fun w => match c w with
           | (OutOfFuel, w') => (OutOfFuel, w')
           | (r, w') => match f w' with
                        | (Ret _, w'') => (r, w'')
                        | (Raise e, w'') => (Raise e, w'')
                        | (OutOfFuel, w'') => (OutOfFuel, w'')
                        end
           end.

Definition raise_cls {W A} (c : exn_class) (msg : string) : M W A :=
  raise (mk_exn c msg).

(** [sys.exit(code)] *)
Definition sys_exit {W A} (code : Z) : M W A := raise_cls (SystemExit code) "".

(** A key of a JSON object: missing, present with [null], or present
    with a value.  [d.get(k, default)] yields [None] for a [null]. *)
Inductive field (A : Type) : Type :=
| Absent
| Null
| Val (a : A).
Arguments Absent {A}.
Arguments Null {A}.
Arguments Val {A} a.

Definition dict_get {A} (f : field A) : option A :=
  match f with Val a => Some a | _ => None end.

Definition dict_get_default {A} (f : field A) (default : A) : option A :=
  match f with
  | Absent => Some default
  | Null => None
  | Val a => Some a
  end.

(** Truthiness of the values the code tests with [if x] / [x or y]. *)
Definition truthy_str (s : option string) : bool :=
  match s with Some (String _ _) => true | _ => false end.

Definition truthy_list {A} (l : option (list A)) : bool :=
  match l with Some (_ :: _) => true | _ => false end.

(** [l[:n]] for an integer [n]: a negative [n] counts from the end. *)
Definition slice_to {A} (n : Z) (l : list A) : list A :=
  if (0 <=? n)%Z then firstn (Z.to_nat n) l
  else firstn (length l - Z.to_nat (- n)) l.

(** [str.lower()] on ASCII letters. *)
Definition lower_ascii (c : ascii) : ascii :=
  let n := nat_of_ascii c in
  if (65 <=? n)%nat && (n <=? 90)%nat then ascii_of_nat (n + 32) else c.

Fixpoint lower (s : string) : string :=
  match s with
  | EmptyString => EmptyString
  | String c s' => String (lower_ascii c) (lower s')
  end.

(** [str.rstrip("/")] *)
Fixpoint rstrip_slash (s : string) : string :=
  match s with
  | EmptyString => EmptyString
  | String c s' =>
      match rstrip_slash s' with
      | EmptyString => if Ascii.eqb c "/" then EmptyString else String c EmptyString
      | t => String c t
      end
  end.

(** [str(n)] for an integer, and for a value that may be [None]. *)
Definition str_Z (n : Z) : string := NilZero.string_of_int (Z.to_int n).

Definition str_opt (s : option string) : string := default "None" s.

(** [needle in hay] for strings. *)
Fixpoint contains (needle hay : string) : bool :=
  String.prefix needle hay ||
  match hay with
  | EmptyString => false
  | String _ hay' => contains needle hay'
  end.

(** [list.sort(key=...)] is stable; with rational keys it is this
    insertion sort, which puts an element before the first one that is
    not smaller. *)
Fixpoint insert_by {A} (key : A -> Q) (x : A) (l : list A) : list A :=
  match l with
  | [] => [x]
  | y :: l' =>
      if Qle_bool (key x) (key y) then x :: y :: l'
      else y :: insert_by key x l'
  end.

Definition sort_by {A} (key : A -> Q) (l : list A) : list A :=
  fold_right (insert_by key) [] l.

(** [list.sort(key=...)] with keys that may be [None].  Comparing
    [None] with anything raises [TypeError], and a sort of two or more
    entries compares each of them at least once; a list of fewer than
    two entries is left alone without any comparison.  [None] stands for
    the [TypeError]. *)
Definition sort_by_opt {A} (key : A -> option Q) (l : list A)
    : option (list A) :=
  match l with
  | [] | [_] => Some l
  | _ =>
      if forallb (fun x => bool_decide (is_Some (key x))) l
      then Some (sort_by (fun x => default 0%Q (key x)) l)
      else None
  end.

(** *** Paths

    [pathlib] on a POSIX host: a path is a root and its components;
    repeated slashes, a trailing slash and components that are ["."]
    are dropped when the path is made, [".."] is kept. *)

(** The pieces between the slashes, empty ones included. *)
Fixpoint split_slash (s : string) : list string :=
  match s with
  | EmptyString => [EmptyString]
  | String c s' =>
      if Ascii.eqb c "/" then EmptyString :: split_slash s'
      else match split_slash s' with
           | [] => [String c EmptyString]
           | part :: parts => String c part :: parts
           end
  end.

Definition path_parts (s : string) : list string :=
  List.filter (fun part => negb (String.eqb part "" || String.eqb part "."))
    (split_slash s).

(** Two leading slashes, and only two, are a root of their own. *)
Definition path_root (s : string) : string :=
  if String.prefix "///" s then "/"
  else if String.prefix "//" s then "//"
  else if String.prefix "/" s then "/"
  else "".

(** [str(path)] *)
Definition str_path (root : string) (parts : list string) : string :=
  match root, parts with
  | EmptyString, [] => "."
  | _, _ => root +:+ String.concat "/" parts
  end.

(** [str(Path(s))] *)
Definition Path (s : string) : string := str_path (path_root s) (path_parts s).

(** [str(Path(s) / name)]: an absolute [name] replaces [s]. *)
Definition Path_div (s name : string) : string :=
  if String.prefix "/" name then Path name
  else str_path (path_root s) (path_parts s ++ path_parts name).

(** *** The outside world of a client

    A client run sees a clock and leaves a trace: the remote calls it
    made and the lines it printed, oldest first.  The remote side is a
    function of the world at the time of the call, so it may answer two
    identical calls differently. *)
Record World (Ev : Type) : Type := mk_World {
  now : Z;             (* time.time(), in seconds *)
  trace : list Ev
}.
Arguments mk_World {Ev} now trace.
Arguments now {Ev} w.
Arguments trace {Ev} w.

Definition init {Ev} (t0 : Z) : World Ev := mk_World t0 [].

(** [time.time()] *)
Definition time_time {Ev} : M (World Ev) Z := fun w => (Ret (now w), w).

(** [time.sleep(seconds)] *)
Definition time_sleep {Ev} (seconds : Z) : M (World Ev) unit :=
  modify (fun w => mk_World (now w + seconds) (trace w)).

(** A line on standard output, or any other event worth recording. *)
Definition emit {Ev} (ev : Ev) : M (World Ev) unit :=
  modify (fun w => mk_World (now w) (trace w ++ [ev])).

(** What the outside answers to a call: a value, or an exception raised
    in the caller. *)
Inductive reply (A : Type) : Type :=
| Ok (a : A)
| Fail (e : exn).
Arguments Ok {A} a.
Arguments Fail {A} e.

Definition result_of {A} (r : reply A) : result A :=
  match r with
  | Ok a => Ret a
  | Fail e => Raise e
  end.

(** A blocking call to the outside: it is recorded, takes [latency]
    seconds and ends the way [answer] says. *)
Definition call {Ev A} (latency : World Ev -> N) (ev : Ev)
    (answer : World Ev -> reply A) : M (World Ev) A :=
  fun w => (result_of (answer w),
            mk_World (now w + Z.of_N (latency w)) (trace w ++ [ev])).

(** [while time.time() - start < timeout: body; time.sleep(interval)]
    followed by [orelse].  The body answers [inr a] for [return a] and
    [inl st] to go round again with loop variables [st]. *)
Fixpoint poll {Ev St A} (fuel : nat) (start timeout interval : Z)
    (body : St -> M (World Ev) (St + A)) (orelse : M (World Ev) A)
    (st : St) : M (World Ev) A :=
  match fuel with
  | O => fun w => (OutOfFuel, w)
  | S fuel' =>
      bind time_time (fun t =>
      if t - start <? timeout then
        bind (body st) (fun r =>
        match r with
        | inr a => ret a
        | inl st' =>
            bind (time_sleep interval) (fun _ =>
            poll fuel' start timeout interval body orelse st')
        end)
      else orelse)
  end.

(** Iterations that suffice for a loop that sleeps at least a second
    per round. *)
Definition enough (timeout : Z) : nat := S (Z.to_nat timeout).

End Py.

Export Py.

Declare Scope py_scope.
Delimit Scope py_scope with py.
Notation "x <- c ;; k" := (bind c (fun x => k))
  (at level 100, c at next level, right associativity) : py_scope.
Notation "c ;; k" := (bind c (fun _ => k))
  (at level 100, right associativity) : py_scope.

Local Open Scope py_scope.

(** ** [server.py]: the job API on the instance *)

Module Server.

(** [JobRequest] *)
Record JobRequest : Type := mk_JobRequest {
  input_url : string;
  interval_cut : option string;
  all_stems : bool;
  job_id : option string
}.

(** [JobResponse] *)
Record JobResponse : Type := mk_JobResponse {
  resp_job_id : string;
  resp_status : string;
  resp_message : string
}.

(** An entry of the [JOBS] table. *)
Record job : Type := mk_job {
  status : string;
  job_input_url : string;
  job_interval_cut : option string;
  job_all_stems : bool;
  created_at : string;
  started_at : option string;
  completed_at : option string;
  error : option string
}.

(** A call queued with [background_tasks.add_task(run_demucs_job, ...)]. *)
Record task : Type := mk_task {
  task_job_id : string;
  task_input_url : string;
  task_interval_cut : option string;
  task_all_stems : bool
}.

(** What a request handler reads and writes: the global [JOBS] dict, the
    file system as far as [MODELS_READY_FILE] goes, and the tasks queued
    for after the response. *)
Record state : Type := mk_state {
  JOBS : gmap string job;
  models_ready_file_exists : bool;
  background_tasks : list task
}.

(** [check_models_ready]: [os.path.exists(MODELS_READY_FILE)] *)
Definition check_models_ready : M state bool :=
  s <- get ;; ret (models_ready_file_exists s).

(** [health_check]: the body does not look at the state. *)
Definition health_check (timestamp : string) : M state (string * string) :=
  ret ("healthy", timestamp).

(** [create_job].  [uuid4] is the text of the [uuid.uuid4()] drawn for
    this request and [now] that of [datetime.now().isoformat()]. *)
Definition create_job (request : JobRequest) (uuid4 now : string)
    : M state JobResponse :=
  let job_id :=
    if truthy_str (job_id request) then default "" (job_id request)
    else String.substring 0 8 uuid4 in
  s <- get ;;
  if bool_decide (is_Some (JOBS s !! job_id)) then
    raise_cls (HTTPException 409) ("Job " +:+ job_id +:+ " already exists")
  else
    ready <- check_models_ready ;;
    if negb ready then
      raise_cls (HTTPException 503) "Models not ready yet. Please wait."
    else
      modify (fun s =>
        mk_state
          (<[job_id := mk_job "pending" (input_url request)
                         (interval_cut request) (all_stems request)
                         now None None None]> (JOBS s))
          (models_ready_file_exists s)
          (background_tasks s ++
             [mk_task job_id (input_url request) (interval_cut request)
                (all_stems request)])) ;;
      ret (mk_JobResponse job_id "pending"
             ("Job " +:+ job_id +:+ " created. Use GET /job/" +:+ job_id
              +:+ " to check progress.")).

(** The id a request is filed under. *)
Definition requested_id (request : JobRequest) (uuid4 : string) : string :=
  if truthy_str (job_id request) then default "" (job_id request)
  else String.substring 0 8 uuid4.

(** The status line FastAPI answers with: 200 for a handler that
    returns, the [status_code] of an [HTTPException], 500 otherwise. *)
Definition http_status {A} (r : result A) : Z :=
  match r with
  | Ret _ => 200
  | Raise e => match exn_cls e with
               | HTTPException c => c
               | _ => 500
               end
  | OutOfFuel => 500
  end.

(** *** Listing jobs *)

(** [l[n:]] for an integer [n]: a negative [n] counts from the end. *)
Definition slice_from {A} (n : Z) (l : list A) : list A :=
  if (0 <=? n)%Z then skipn (Z.to_nat n) l
  else skipn (length l - Z.to_nat (- n)) l.

(** An entry of the answer of [list_jobs]. *)
Record job_entry : Type := mk_job_entry {
  je_job_id : string;
  je_status : string;
  je_created_at : string;
  je_completed_at : option string
}.

Definition job_entry_of (item : string * job) : job_entry :=
  mk_job_entry item.1 (status item.2) (created_at item.2) (completed_at item.2).

(** [status is None or job['status'] == status] *)
Definition status_matches (filter_status : option string) (item : string * job)
    : bool :=
  match filter_status with
  | None => true
  | Some st => String.eqb (status item.2) st
  end.

(** [list_jobs].  The handler reads [JOBS] through [list(JOBS.items())]
    and [len(JOBS)] only; [items] is that list, the entries in the order
    of their insertion.  The answer is the pair of its ["jobs"] and its
    ["total"]. *)
Definition list_jobs (items : list (string * job))
    (filter_status : option string) (limit : Z) : list job_entry * Z :=
  (map job_entry_of
     (filter (fun item => status_matches filter_status item = true)
        (slice_from (- limit) items)),
   Z.of_nat (length items)).

(** *** The other handlers and the background task *)

(** [str.endswith] *)
Definition endswith (suffix s : string) : bool :=
  (String.length suffix <=? String.length s)%nat
  && String.eqb
       (String.substring (String.length s - String.length suffix)
          (String.length suffix) s)
       suffix.

(** A [progress.txt] that holds a JSON object, as [demucs-separate]
    writes it; a key may be missing. *)
Record progress : Type := mk_progress {
  progress_state : option string;
  progress_tasks : option (list (string * string));
  progress_details : option (list (string * string));
  progress_elapsed_seconds : option Q
}.

(** What [job_dir / 'progress.txt'] is at the time of a request. *)
Inductive progress_file : Type :=
| Missing                       (* the file does not exist *)
| Unreadable                    (* [open] or [json.load] raises *)
| Object (p : progress)
| NotObject (truthy : bool).    (* JSON that is no object: a list, a number, null *)

(** [read_progress_file]: what [json.load] gave, or [None]. *)
Definition read_progress_file (f : progress_file) : option (progress + bool) :=
  match f with
  | Missing | Unreadable => None
  | Object p => Some (inl p)
  | NotObject truthy => Some (inr truthy)
  end.

(** [JobStatus] *)
Record JobStatus : Type := mk_JobStatus {
  js_job_id : string;
  js_status : string;
  js_state : option string;
  js_tasks : option (list (string * string));
  js_details : option (list (string * string));
  js_elapsed_seconds : option Q;
  js_error : option string
}.

(** [ServerStatus] *)
Record ServerStatus : Type := mk_ServerStatus {
  ss_status : string;
  ss_models_ready : bool;
  ss_active_jobs : Z;
  ss_completed_jobs : Z;
  ss_uptime_seconds : Z
}.

(** [FileResponse] *)
Record FileResponse : Type := mk_FileResponse {
  fr_path : string;
  fr_filename : string;
  fr_media_type : string
}.

(** [sum(1 for j in JOBS.values() if j['status'] == st)] *)
Definition count_status (st : string) (jobs : gmap string job) : Z :=
  Z.of_nat
    (length (filter (fun kj => String.eqb (status kj.2) st = true)
               (map_to_list jobs))).

(** [get_status]; [uptime] is the whole seconds since [START_TIME]. *)
Definition get_status (uptime : Z) : M state ServerStatus :=
  s <- get ;;
  let active := count_status "running" (JOBS s) in
  let completed := count_status "completed" (JOBS s) in
  ready <- check_models_ready ;;
  ret (mk_ServerStatus "running" ready active completed uptime).

(** [get_job_status]; [file] is the [progress.txt] of the job's
    directory.  [progress.get(k) if progress else None] raises for a
    truthy value that is no dict. *)
Definition get_job_status (job_id : string) (file : progress_file)
    : M state JobStatus :=
  s <- get ;;
  match JOBS s !! job_id with
  | None => raise_cls (HTTPException 404) ("Job " +:+ job_id +:+ " not found")
  | Some job =>
      let progress :=
        if String.eqb (status job) "running" then read_progress_file file
        else if String.eqb (status job) "completed" then read_progress_file file
        else None in
      match progress with
      | Some (inr true) =>
          raise_cls AttributeError "object has no attribute 'get'"
      | Some (inl p) =>
          ret (mk_JobStatus job_id (status job) (progress_state p)
                 (progress_tasks p) (progress_details p)
                 (progress_elapsed_seconds p) (error job))
      | Some (inr false) | None =>
          ret (mk_JobStatus job_id (status job) None None None None (error job))
      end
  end.

(** [get_result]; [result_file] is the text of [job_dir / file],
    [exists_] what [result_file.exists()] answers and [available] the
    text of the list of the regular files of the job's directory. *)
Definition get_result (job_id file : string) (result_file : string)
    (exists_ : bool) (available : string) : M state FileResponse :=
  s <- get ;;
  match JOBS s !! job_id with
  | None => raise_cls (HTTPException 404) ("Job " +:+ job_id +:+ " not found")
  | Some job =>
      if negb (String.eqb (status job) "completed") then
        raise_cls (HTTPException 400)
          ("Job " +:+ job_id +:+ " is not completed. Status: " +:+ status job)
      else if negb exists_ then
        raise_cls (HTTPException 404)
          ("File '" +:+ file +:+ "' not found. Available: " +:+ available)
      else
        ret (mk_FileResponse result_file file
               (if endswith ".mp3" file then "audio/mpeg"
                else "application/octet-stream"))
  end.

(** [delete_job] and the background task also make and remove job
    directories; [job_dirs] holds the ids whose directory exists.
    [rmtree] is called with [ignore_errors=True]. *)
Record host : Type := mk_host {
  app : state;
  job_dirs : gset string
}.

(** A handler that touches [JOBS] only, run on the host. *)
Definition on_app {A} (c : M state A) : M host A :=
  fun h => let (r, s) := c (app h) in (r, mk_host s (job_dirs h)).

(** [delete_job] *)
Definition delete_job (job_id : string) : M host (string * string) :=
  h <- get ;;
  match JOBS (app h) !! job_id with
  | None => raise_cls (HTTPException 404) ("Job " +:+ job_id +:+ " not found")
  | Some job =>
      if String.eqb (status job) "running" then
        raise_cls (HTTPException 400) "Cannot delete running job"
      else
        modify (fun h =>
          mk_host
            (mk_state (delete job_id (JOBS (app h)))
               (models_ready_file_exists (app h))
               (background_tasks (app h)))
            (job_dirs h ∖ {[job_id]})) ;;
        ret ("deleted", job_id)
  end.

(** [JOBS[job_id][key] = value]: the lookup of [JOBS[job_id]] raises
    [KeyError] for an id that is not there. *)
Definition set_item (job_id : string) (f : job -> job) : M host unit :=
  h <- get ;;
  match JOBS (app h) !! job_id with
  | None => raise_cls KeyError ("'" +:+ job_id +:+ "'")
  | Some job =>
      modify (fun h =>
        mk_host
          (mk_state (<[job_id := f job]> (JOBS (app h)))
             (models_ready_file_exists (app h))
             (background_tasks (app h)))
          (job_dirs h))
  end.

Definition with_status (v : string) (j : job) : job :=
  mk_job v (job_input_url j) (job_interval_cut j) (job_all_stems j)
    (created_at j) (started_at j) (completed_at j) (error j).

Definition with_started_at (v : string) (j : job) : job :=
  mk_job (status j) (job_input_url j) (job_interval_cut j) (job_all_stems j)
    (created_at j) (Some v) (completed_at j) (error j).

Definition with_completed_at (v : string) (j : job) : job :=
  mk_job (status j) (job_input_url j) (job_interval_cut j) (job_all_stems j)
    (created_at j) (started_at j) (Some v) (error j).

Definition with_error (v : string) (j : job) : job :=
  mk_job (status j) (job_input_url j) (job_interval_cut j) (job_all_stems j)
    (created_at j) (started_at j) (completed_at j) (Some v).

Definition DEMUCS_CLI : string := "/usr/local/bin/demucs-separate".

(** The command line [run_demucs_job] builds; [job_dir] is the text of
    [JOBS_DIR / job_id]. *)
Definition command (job_dir input_url : string) (interval_cut : option string)
    (all_stems : bool) : list string :=
  ["python3"; DEMUCS_CLI; "--input"; input_url; "--output"; job_dir]
  ++ (if truthy_str interval_cut
      then ["--interval-cut"; default "" interval_cut] else [])
  ++ (if all_stems then ["--all-stems"] else []).

(** [job_dir.mkdir(parents=True, exist_ok=True)].  [made] is what the
    file system makes of it: the id of a job is any text a request
    gives, so the call may raise [OSError] (a name that is too long, a
    file in the way). *)
Definition mkdir (job_id : string) (made : reply unit) : M host unit :=
  match made with
  | Ok _ => modify (fun h => mk_host (app h) ({[job_id]} ∪ job_dirs h))
  | Fail e => raise e
  end.

(** The statements of [run_demucs_job] before its [try]. *)
Definition started_suite (job_id started : string) (made : reply unit)
    : M host unit :=
  mkdir job_id made ;;
  set_item job_id (with_status "running") ;;
  set_item job_id (with_started_at started).

(** The [stdout] that [communicate] hands back: no bytes, bytes that
    [decode()] turns into a text, or bytes it raises
    [UnicodeDecodeError] on ([msg] is the text of that error). *)
Inductive captured : Type :=
| NoBytes
| Text (text : string)
| Garbled (msg : string).

(** The statements after [communicate] has returned.  The right-hand
    side of the last assignment is evaluated before [JOBS] is
    touched. *)
Definition exited_suite (job_id completed : string) (out : Z * captured)
    : M host unit :=
  let '(returncode, stdout) := out in
  if returncode =? 0 then
    set_item job_id (with_status "completed") ;;
    set_item job_id (with_completed_at completed)
  else
    set_item job_id (with_status "failed") ;;
    match stdout with
    | NoBytes => set_item job_id (with_error "Unknown error")
    | Text text => set_item job_id (with_error text)
    | Garbled msg => raise_cls UnicodeDecodeError msg
    end.

(** The [except Exception as e] suite. *)
Definition except_suite (job_id : string) (e : exn) : M host unit :=
  set_item job_id (with_status "failed") ;;
  set_item job_id (with_error (exn_str e)).

(** [run_demucs_job].  [made] is the outcome of the [mkdir] and
    [subprocess cmd] stands for the two [await]s, of
    [create_subprocess_exec] and of [communicate]: it answers the return
    code and the output, or raises, and while it runs the server goes on
    with other work, so it may change the host.  [started] and
    [completed] are the texts of the two [datetime.now()]. *)
Definition run_demucs_job (job_id input_url : string)
    (interval_cut : option string) (all_stems : bool)
    (job_dir started completed : string) (made : reply unit)
    (subprocess : list string -> M host (Z * captured)) : M host unit :=
  started_suite job_id started made ;;
  let cmd := command job_dir input_url interval_cut all_stems in
  try_except
    (out <- subprocess cmd ;;
     exited_suite job_id completed out)
    is_Exception
    (except_suite job_id).

(** A request to the server. *)
Inductive request : Type :=
| PostJob (request : JobRequest) (uuid4 now : string)
| GetJob (job_id : string) (file : progress_file)
| GetResult (job_id file result_file : string) (exists_ : bool)
    (available : string)
| GetStatus (uptime : Z)
| GetHealth (timestamp : string)
| DeleteJob (job_id : string).

(** The handler of a request, with the answer reduced to its status
    line: a handler that raises has answered, and the server goes on. *)
Definition handle (r : request) : M host Z :=
  fun h =>
    match r with
    | PostJob request uuid4 now =>
        let (out, h') := on_app (create_job request uuid4 now) h in
        (Ret (http_status out), h')
    | GetJob job_id file =>
        let (out, h') := on_app (get_job_status job_id file) h in
        (Ret (http_status out), h')
    | GetResult job_id file result_file exists_ available =>
        let (out, h') :=
          on_app (get_result job_id file result_file exists_ available) h in
        (Ret (http_status out), h')
    | GetStatus uptime =>
        let (out, h') := on_app (get_status uptime) h in
        (Ret (http_status out), h')
    | GetHealth timestamp =>
        let (out, h') := on_app (health_check timestamp) h in
        (Ret (http_status out), h')
    | DeleteJob job_id =>
        let (out, h') := delete_job job_id h in
        (Ret (http_status out), h')
    end.

(** What the event loop runs between two [await]s of a task: the
    handler of a request, or a stretch of another background task.  A
    task that raises is dropped and the server goes on. *)
Inductive activity : Type :=
| Request (r : request)
| TaskStarts (job_id started : string) (made : reply unit)
| TaskExits (job_id completed : string) (out : Z * captured)
| TaskFails (job_id : string) (e : exn).

(** The job a stretch of a background task belongs to. *)
Definition task_of (a : activity) : option string :=
  match a with
  | Request _ => None
  | TaskStarts job_id _ _ | TaskExits job_id _ _ | TaskFails job_id _ =>
      Some job_id
  end.

Definition act (a : activity) : M host unit :=
  fun h =>
    match a with
    | Request r => (Ret tt, (handle r h).2)
    | TaskStarts job_id started made =>
        (Ret tt, (started_suite job_id started made h).2)
    | TaskExits job_id completed out =>
        (Ret tt,
         (try_except (exited_suite job_id completed out) is_Exception
            (except_suite job_id) h).2)
    | TaskFails job_id e =>
        (Ret tt, (try_except (raise e) is_Exception (except_suite job_id) h).2)
    end.

(** The activities of a list, one after the other. *)
Fixpoint acts (l : list activity) : M host unit :=
  match l with
  | [] => ret tt
  | a :: l' => act a ;; acts l'
  end.

End Server.

(** ** [vastai_client.py] *)

Module VastAI.

Definition API_PORT : Z := 8185.
Definition DEFAULT_DISK_GB : Z := 20.
Definition MIN_VRAM_GB : Z := 8.

(** An entry of [response["offers"]].  The keys that are only copied
    ([num_gpus], [disk_space], ...) are left out. *)
Record raw_offer : Type := mk_raw_offer {
  raw_id : option Z;               (* read with [.get("id")] *)
  raw_gpu_name : field string;
  raw_gpu_ram : field Q;           (* MB *)
  raw_dph_total : field Q;
  raw_reliability2 : field Q
}.

(** An offer as [search_offers] formats it; [None] is Python's [None],
    which a [null] of the marketplace leaves there. *)
Record offer : Type := mk_offer {
  offer_id : option Z;
  gpu_name : option string;
  gpu_ram : Q;                     (* GB *)
  price_per_hour : option Q;
  reliability : option Q
}.

(** The body of the answer to [PUT /asks/{id}/]. *)
Record create_response : Type := mk_create_response {
  success : bool;
  new_contract : option Z;
  create_repr : string             (* the dict as text, for messages *)
}.

(** What [create_instance] returns. *)
Record instance : Type := mk_instance {
  instance_id : option Z;
  instance_offer_id : option Z;
  instance_success : bool
}.

Record port_binding : Type := mk_port_binding { HostPort : option string }.

(** The instance object of the answer to [GET /instances/{id}/]. *)
Record raw_instance : Type := mk_raw_instance {
  actual_status : field string;
  raw_public_ipaddr : option string;
  raw_ports : field (gmap string (list port_binding))
}.

Inductive instances_answer : Type :=
| NoInstancesKey                    (* "instances" not in result *)
| NoInstance                        (* neither an object nor a non-empty list *)
| TheInstance (i : raw_instance).   (* the object, or the head of the list *)

(** What [get_instance] returns. *)
Record instance_view : Type := mk_instance_view {
  status : option string;
  public_ipaddr : option string;
  ports : field (gmap string (list port_binding))
}.

(** A job status as [GET /job/{id}] gives it. *)
Record job_status : Type := mk_job_status {
  job_state : string;                       (* status["status"] *)
  job_error : option string;
  job_details : option (field Z * field Z)
    (* [status.get("details") or {}]: [None] for a missing, null or
       empty [details], else its completed_segments and
       total_segments *)
}.

(** The answer to [GET /job/{id}/logs?offset=N]. *)
Record log_data : Type := mk_log_data {
  logs : option string;
  offset : field Z
}.

Inductive event : Type :=
| SearchOffers
| CreateInstance (offer : option Z) (label : string)
| GetInstance (inst : option Z)
| DestroyInstance (inst : option Z)
| Health (api_url : string)
| CreateJob (api_url input_url : string) (interval_cut : option string)
| GetJobStatus (api_url job : string)
| GetJobLogs (api_url job : string) (from : option Z)
    (* [requests] leaves a parameter that is [None] out of the URL *)
| DownloadResult (api_url job path : string)
| Mkdir (path : string)
| PrintInstanceCreated (inst : option Z)   (* "Instance created: ..." *)
| PrintLogs (text : string)                (* log text sent to stdout *)
| PrintProgress (completed total : Z).     (* the "Progress: ..%" line *)

(** The marketplace, the instance's API and the local disk. *)
Record env : Type := mk_env {
  latency : World event -> N;
  api_search : World event -> reply (option (list raw_offer));
  api_create : World event -> option Z -> string -> reply create_response;
  api_get : World event -> option Z -> reply instances_answer;
  api_delete : World event -> option Z -> reply (option bool);
  http_health : World event -> string -> reply Z;
  http_create_job :
    World event -> string -> string -> option string -> reply string;
  http_job_status : World event -> string -> string -> reply job_status;
  http_job_logs :
    World event -> string -> string -> option Z -> reply log_data;
  http_download : World event -> string -> string -> string -> reply unit;
  fs_mkdir : World event -> string -> reply unit
}.

(** The dict [search_offers] makes of an offer; [None] when the division
    of a null [gpu_ram] raises [TypeError]. *)
Definition format_offer (o : raw_offer) : option offer :=
  match dict_get_default (raw_gpu_ram o) 0%Q with
  | None => None
  | Some gpu_ram =>
      Some (mk_offer (raw_id o)
              (dict_get_default (raw_gpu_name o) "Unknown")
              (gpu_ram / inject_Z 1024)%Q
              (dict_get_default (raw_dph_total o) (inject_Z 999))
              (dict_get_default (raw_reliability2 o) 0%Q))
  end.

(** The [for offer in offers[:max_results]] loop of [search_offers]. *)
Fixpoint format_offers (offers : list raw_offer) : option (list offer) :=
  match offers with
  | [] => Some []
  | o :: offers' =>
      match format_offer o, format_offers offers' with
      | Some f, Some fs => Some (f :: fs)
      | _, _ => None
      end
  end.

(** [[o for o in offers if o.get("reliability", 0) >= 0.9]]: [None] when
    an offer without a reliability makes the comparison raise
    [TypeError]. *)
Definition reliable (offers : list offer) : option (list offer) :=
  if forallb (fun o => bool_decide (is_Some (reliability o))) offers
  then Some (filter (fun o => Qle_bool (9 # 10) (default 0%Q (reliability o)))
               offers)
  else None.

Section Client.

Variable E : env.

Local Abbreviation W := (World event).

(** [VastAIClient.search_offers].  [params["q"]] is the text
    [json.dumps] made, so the item assignment for a given [gpu_name]
    raises before the request. *)
Definition search_offers (min_gpu_ram : Z) (gpu_name : option string)
    (max_results : Z) : M W (list offer) :=
  if truthy_str gpu_name then raise_cls TypeError "'str' object does not support item assignment"
  else
    try_except
      (response <- call (latency E) SearchOffers (api_search E) ;;
       match response with
       | None => ret []
       | Some offers =>
           match format_offers (slice_to max_results offers) with
           | Some available => ret available
           | None =>
               raise_cls TypeError
                 "unsupported operand type(s) for /: 'NoneType' and 'int'"
           end
       end)
      is_Exception
      (fun _ => ret []).

(** [VastAIClient.get_ranked_offers].  The filter and the sort are
    outside any [try].  (Of the second [TypeError] only the class is
    meant: its text names the types of the two keys of the comparison
    that failed, in the order the sort took them.) *)
Definition get_ranked_offers (max_results : Z) : M W (list offer) :=
  offers <- search_offers MIN_VRAM_GB None (max_results * 2) ;;
  match offers with
  | [] => ret []
  | _ =>
      match reliable offers with
      | None =>
          raise_cls TypeError
            "'>=' not supported between instances of 'NoneType' and 'float'"
      | Some reliable =>
          match sort_by_opt price_per_hour reliable with
          | None =>
              raise_cls TypeError
                "'<' not supported between instances of 'NoneType' and 'float'"
          | Some sorted => ret (slice_to max_results sorted)
          end
      end
  end.

(** [VastAIClient.create_instance].  The [raise] of the [else] branch is
    inside the [try], so its exception is wrapped once more. *)
Definition create_instance (offer_id : option Z) (label : string)
    : M W instance :=
  try_except
    (result <- call (latency E) (CreateInstance offer_id label)
                 (fun w => api_create E w offer_id label) ;;
     if success result then
       ret (mk_instance (new_contract result) offer_id true)
     else
       raise_cls Exception ("Failed to create instance: " +:+ create_repr result))
    is_Exception
    (fun e => raise_cls Exception ("Failed to create instance: " +:+ exn_str e)).

Definition not_found_view : instance_view :=
  mk_instance_view (Some "not_found") None Absent.

Definition error_view : instance_view :=
  mk_instance_view (Some "error") None Absent.

(** [VastAIClient.get_instance] *)
Definition get_instance (instance_id : option Z) : M W instance_view :=
  try_except
    (result <- call (latency E) (GetInstance instance_id)
                 (fun w => api_get E w instance_id) ;;
     match result with
     | TheInstance i =>
         ret (mk_instance_view
                (dict_get_default (actual_status i) "unknown")
                (raw_public_ipaddr i)
                (match raw_ports i with
                 | Absent => Val ∅
                 | p => p
                 end))
     | NoInstance | NoInstancesKey => ret not_found_view
     end)
    is_Exception
    (fun _ => ret error_view).

(** [VastAIClient.destroy_instance] *)
Definition destroy_instance (instance_id : option Z) : M W bool :=
  try_except
    (result <- call (latency E) (DestroyInstance instance_id)
                 (fun w => api_delete E w instance_id) ;;
     ret (default false result))
    is_Exception
    (fun _ => ret false).

(** One round of the loop of [wait_for_instance_ready]: [inr (Some url)]
    is [return api_url]; anything else goes on to the sleep. *)
Definition ready_round (instance_id : option Z) (_ : unit)
    : M W (unit + option string) :=
  instance <- get_instance instance_id ;;
  if bool_decide (status instance = Some "running") then
    let public_ip := public_ipaddr instance in
    match dict_get_default (ports instance) ∅ with
    | None => raise_cls AttributeError "'NoneType' object has no attribute 'get'"
    | Some ports_map =>
        let api_port_info := ports_map !! "8185/tcp" in
        if truthy_str public_ip && truthy_list api_port_info then
          let external_port :=
            match api_port_info with
            | Some (b :: _) => HostPort b
            | _ => None
            end in
          if truthy_str external_port then
            let api_url :=
              "http://" +:+ default "" public_ip +:+ ":"
                +:+ default "" external_port in
            try_except
              (code <- call (latency E) (Health api_url)
                         (fun w => http_health E w api_url) ;;
               if code =? 200 then ret (inr (Some api_url))
               else ret (inl tt))
              is_Exception
              (fun _ => ret (inl tt))
          else ret (inl tt)
        else ret (inl tt)
    end
  else ret (inl tt).

(** [VastAIClient.wait_for_instance_ready]: the URL, or [None] once the
    time is up. *)
Definition wait_for_instance_ready (instance_id : option Z) (timeout : Z)
    : M W (option string) :=
  start <- time_time ;;
  poll (enough timeout) start timeout 10 (ready_round instance_id)
    (ret None) tt.

(** *** [DemucsClient]: the instance's API seen from the client *)

(** [DemucsClient.create_job] *)
Definition create_job (base_url input_url : string)
    (interval_cut : option string) : M W string :=
  let interval_cut := if truthy_str interval_cut then interval_cut else None in
  call (latency E) (CreateJob base_url input_url interval_cut)
    (fun w => http_create_job E w base_url input_url interval_cut).

(** [DemucsClient.get_job_status] *)
Definition get_job_status (base_url job_id : string) : M W job_status :=
  call (latency E) (GetJobStatus base_url job_id)
    (fun w => http_job_status E w base_url job_id).

(** [DemucsClient.get_job_logs] *)
Definition get_job_logs (base_url job_id : string) (offset : option Z)
    : M W log_data :=
  call (latency E) (GetJobLogs base_url job_id offset)
    (fun w => http_job_logs E w base_url job_id offset).

(** [DemucsClient.download_result] *)
Definition download_result (base_url job_id output_path : string)
    : M W unit :=
  call (latency E) (DownloadResult base_url job_id output_path)
    (fun w => http_download E w base_url job_id output_path).

(** The "Get final logs" suite of both terminal branches. *)
Definition final_logs (base_url job_id : string) (log_offset : option Z)
    (stream_logs : bool) : M W unit :=
  if stream_logs then
    log_data <- get_job_logs base_url job_id log_offset ;;
    if truthy_str (logs log_data) then emit (PrintLogs (default "" (logs log_data)))
    else ret tt
  else ret tt.

(** [log_data.get("offset", log_offset)]: a [null] offset makes the
    cursor [None]. *)
Definition new_offset (log_offset : option Z) (log_data : log_data)
    : option Z :=
  match offset log_data with
  | Absent => log_offset
  | Null => None
  | Val o => Some o
  end.

(** The "Show progress" suite.  It is outside the [try]: comparing a
    null [total_segments] with 0, and dividing a null
    [completed_segments], raise [TypeError]. *)
Definition show_progress (status : job_status) : M W unit :=
  match job_details status with
  | None => ret tt
  | Some (completed, total) =>
      match dict_get_default total 0 with
      | None =>
          raise_cls TypeError
            "'>' not supported between instances of 'NoneType' and 'int'"
      | Some total =>
          if 0 <? total then
            match dict_get_default completed 0 with
            | None =>
                raise_cls TypeError
                  "unsupported operand type(s) for /: 'NoneType' and 'int'"
            | Some completed => emit (PrintProgress completed total)
            end
          else ret tt
      end
  end.

(** One round of the loop of [wait_for_job] on the loop variables
    [log_offset] and [stream_logs]. *)
Definition job_round (base_url job_id : string) (st : option Z * bool)
    : M W (option Z * bool + job_status) :=
  let '(log_offset, stream_logs) := st in
  status <- get_job_status base_url job_id ;;
  if String.eqb (job_state status) "completed" then
    final_logs base_url job_id log_offset stream_logs ;;
    ret (inr status)
  else if String.eqb (job_state status) "failed" then
    final_logs base_url job_id log_offset stream_logs ;;
    raise_cls Exception ("Job failed: " +:+ str_opt (job_error status))
  else
    st' <- (if stream_logs then
              try_except
                (log_data <- get_job_logs base_url job_id log_offset ;;
                 if truthy_str (logs log_data) then
                   emit (PrintLogs (default "" (logs log_data))) ;;
                   ret (new_offset log_offset log_data, true)
                 else ret (log_offset, true))
                is_Exception
                (fun _ => ret (log_offset, false))
            else ret (log_offset, false)) ;;
    (if negb (snd st') then show_progress status else ret tt) ;;
    ret (inl st').

(** [DemucsClient.wait_for_job] *)
Definition wait_for_job (base_url job_id : string) (timeout : Z)
    (stream_logs : bool) : M W job_status :=
  start <- time_time ;;
  poll (enough timeout) start timeout 5 (job_round base_url job_id)
    (raise_cls Exception ("Job timeout after " +:+ str_Z timeout +:+ "s"))
    (Some 0, stream_logs).

(** *** The [separate] command *)

Record args : Type := mk_args {
  input_url : string;
  output : string;
  interval_cut : option string;
  keep_instance : bool
}.

(** The "Trying: ..." line of the offers loop, which is before the
    [try]: [f"{price:.3f}"] raises [TypeError] for a price that is
    [None]. *)
Definition print_trying (offer : offer) : M W unit :=
  match price_per_hour offer with
  | None =>
      raise_cls TypeError "unsupported format string passed to NoneType.__format__"
  | Some _ => ret tt
  end.

(** The [for offer in offers] loop of [cmd_separate]: the first offer
    whose [create_instance] returns. *)
Fixpoint try_offers (offers : list offer) : M W (option instance) :=
  match offers with
  | [] => ret None
  | offer :: offers' =>
      print_trying offer ;;
      created <- try_except
                   (i <- create_instance (offer_id offer) "demucs-worker" ;;
                    ret (Some i))
                   is_Exception
                   (fun _ => ret None) ;;
      match created with
      | Some i => ret (Some i)
      | None => try_offers offers'
      end
  end.

(** The [try] suite of [cmd_separate]. *)
Definition run_job (args : args) (instance_id : option Z) : M W unit :=
  api_url <- wait_for_instance_ready instance_id 600 ;;
  if negb (truthy_str api_url) then
    raise_cls Exception "Instance failed to start"
  else
    let demucs := rstrip_slash (default "" api_url) in
    job_id <- create_job demucs (input_url args) (interval_cut args) ;;
    _ <- wait_for_job demucs job_id 1800 true ;;
    let output_dir := Path (output args) in
    call (latency E) (Mkdir output_dir) (fun w => fs_mkdir E w output_dir) ;;
    download_result demucs job_id (Path_div (output args) "instrumental.mp3").

(** The [finally] suite of [cmd_separate]. *)
Definition teardown (args : args) (instance_id : option Z) : M W unit :=
  if negb (keep_instance args) then
    _ <- destroy_instance instance_id ;; ret tt
  else ret tt.

(** [cmd_separate]; [api_key] is [get_env_var("VASTAI_API_KEY")]. *)
Definition cmd_separate (api_key : option string) (args : args) : M W unit :=
  if negb (truthy_str api_key) then sys_exit 1
  else
    offers <- get_ranked_offers 10 ;;
    match offers with
    | [] => sys_exit 1
    | _ =>
        instance <- try_offers offers ;;
        match instance with
        | None => sys_exit 1
        | Some instance =>
            let instance_id := instance_id instance in
            emit (PrintInstanceCreated instance_id) ;;
            try_finally (run_job args instance_id) (teardown args instance_id)
        end
    end.

(** [cmd_destroy]; [api_key] is [get_env_var("VASTAI_API_KEY")] and the
    answer is the line the command prints last. *)
Definition cmd_destroy (api_key : option string) (instance_id : Z)
    : M W string :=
  if negb (truthy_str api_key) then sys_exit 1
  else
    success <- destroy_instance (Some instance_id) ;;
    if success then ret ("Instance " +:+ str_Z instance_id +:+ " destroyed")
    else ret ("Failed to destroy instance " +:+ str_Z instance_id).

End Client.

End VastAI.

(** ** [runpod_client.py] *)

Module RunPod.

Definition MIN_VRAM_GB : Z := 8.
Definition DEFAULT_DISK_GB : Z := 20.
Definition API_PORT : Z := 8185.

Definition PREFERRED_GPUS : list string :=
  [ "NVIDIA RTX 3090"; "NVIDIA RTX 4090"; "NVIDIA RTX A4000";
    "NVIDIA RTX A5000"; "NVIDIA A40"; "NVIDIA RTX 3080";
    "NVIDIA RTX 4080" ].

(** An entry of [gpuTypes]. *)
Record gpu_type : Type := mk_gpu_type {
  gt_id : string;
  displayName : field string;
  memoryInGb : field Z;
  secureCloud : field bool;
  communityCloud : field bool;
  lowestPrice : option (option Q * option Q)
    (* [gpu.get("lowestPrice", {}) or {}]: [None] for a missing, null
       or empty object, else its minimumBidPrice and
       uninterruptablePrice *)
}.

(** A GPU as [get_available_gpus] formats it; [None] is Python's
    [None], which a [null] of the marketplace leaves there. *)
Record gpu : Type := mk_gpu {
  id : string;
  name : option string;
  vram_gb : option Z;
  price_per_hour : Q;
  secure : option bool;
  community : option bool
}.

(** The three GraphQL answers; [errors] holds the text of
    [result['errors']] when the key is there, and [data] what
    [result.get("data", {})] is read from. *)
Record gpu_types_response : Type := mk_gpu_types_response {
  gt_errors : option string;
  gt_data : field (field (list gpu_type))      (* data, and its gpuTypes *)
}.

Record created_pod : Type := mk_created_pod { pod_id : string }.

Record create_pod_response : Type := mk_create_pod_response {
  cp_errors : option string;
  cp_data : field (field created_pod)
    (* data, and its podFindAndDeployOnDemand *)
}.

Record port : Type := mk_port {
  privatePort : option Z;
  ip : option string;
  publicPort : option Z
}.

Record runtime_info : Type := mk_runtime_info { rt_ports : field (list port) }.

Record pod_info : Type := mk_pod_info { runtime : field runtime_info }.

Record get_pod_response : Type := mk_get_pod_response {
  gp_errors : option string;
  gp_data : field (field pod_info)            (* data, and its pod *)
}.

(** A job as [GET /job/{id}] gives it. *)
Record job_info : Type := mk_job_info {
  job_status : option string;
  job_error : option string;
  job_details : option (field Z)
    (* [None] for a missing, null or empty [details], else its
       'percent' *)
}.

Inductive event : Type :=
| GpuTypes
| CreatePod (gpu_id name : string)
| GetPod (pod : string)
| TerminatePod (pod : string)
| Health (url : string)
| Status (url : string)
| CreateJob (url input_url : string) (interval_cut : option string)
    (all_stems : bool)
| GetJob (url job : string)
| DownloadResult (url job path : string)
| PrintPodCreated (pod : string)
| PrintProgress (text : string).

Record env : Type := mk_env {
  latency : World event -> N;
  gql_gpu_types : World event -> reply gpu_types_response;
  gql_create_pod :
    World event -> string -> string -> reply create_pod_response;
  gql_get_pod : World event -> string -> reply get_pod_response;
  gql_terminate : World event -> string -> reply (option string);
  http_health : World event -> string -> reply Z;
  http_status : World event -> string -> reply (option bool);
  http_create_job :
    World event -> string -> string -> option string -> bool -> reply string;
  http_get_job : World event -> string -> string -> reply job_info;
  http_download : World event -> string -> string -> string -> reply unit
}.

(** [a or b] on prices: [None] and [0] are falsy. *)
Definition truthy_Q (q : option Q) : bool :=
  match q with
  | Some q => negb (Qeq_bool q 0)
  | None => false
  end.

Definition truthy_Z (z : option Z) : bool :=
  match z with
  | Some z => negb (z =? 0)
  | None => false
  end.

(** [gpu.get("memoryInGb", 0)] *)
Definition memory (g : gpu_type) : option Z := dict_get_default (memoryInGb g) 0.

(** The dict the [for gpu in gpus] loop of [get_available_gpus] appends
    for an entry. *)
Definition format_gpu (g : gpu_type) : gpu :=
  let price_info := default (None, None) (lowestPrice g) in
  let price :=
    if truthy_Q (fst price_info) then default 0%Q (fst price_info)
    else if truthy_Q (snd price_info) then default 0%Q (snd price_info)
    else inject_Z 999 in
  mk_gpu (gt_id g) (dict_get_default (displayName g) (gt_id g))
    (memory g) price
    (dict_get_default (secureCloud g) false)
    (dict_get_default (communityCloud g) false).

(** [gpu.get("memoryInGb", 0) >= MIN_VRAM_GB] for a memory that is not
    [None]. *)
Definition big_enough (g : gpu_type) : bool :=
  match memory g with
  | Some m => MIN_VRAM_GB <=? m
  | None => false
  end.

(** The list [get_available_gpus] builds from [gpuTypes]; [None] when
    an entry with a null [memoryInGb] makes the comparison raise
    [TypeError]. *)
Definition available (gpus : list gpu_type) : option (list gpu) :=
  if forallb (fun g => bool_decide (is_Some (memory g))) gpus
  then Some (sort_by price_per_hour (map format_gpu (filter big_enough gpus)))
  else None.

(** The inner [for gpu in gpus[:10]] loop with its [break]: the GPU it
    stops at, if any; [None] when [gpu["name"].lower()] raises
    [AttributeError] for a name that is [None]. *)
Fixpoint first_match (preferred : string) (used_ids : gset string)
    (gpus : list gpu) : option (option gpu) :=
  match gpus with
  | [] => Some None
  | gpu :: gpus' =>
      match name gpu with
      | None => None
      | Some name =>
          if contains (lower preferred) (lower name)
             && bool_decide (id gpu ∉ used_ids)
          then Some (Some gpu)
          else first_match preferred used_ids gpus'
      end
  end.

(** "First: add preferred GPUs from top 10 cheapest" *)
Fixpoint add_preferred (preferred_gpus : list string) (gpus : list gpu)
    (acc : list gpu * gset string) : option (list gpu * gset string) :=
  match preferred_gpus with
  | [] => Some acc
  | preferred :: preferred_gpus' =>
      match first_match preferred acc.2 (firstn 10 gpus) with
      | None => None
      | Some (Some gpu) =>
          add_preferred preferred_gpus' gpus
            (acc.1 ++ [gpu], {[id gpu]} ∪ acc.2)
      | Some None => add_preferred preferred_gpus' gpus acc
      end
  end.

(** "Then: add remaining GPUs by price" *)
Definition add_remaining (gpus : list gpu) (acc : list gpu * gset string)
    : list gpu * gset string :=
  fold_left
    (fun '(ranked, used_ids) gpu =>
       if bool_decide (id gpu ∈ used_ids) then (ranked, used_ids)
       else (ranked ++ [gpu], {[id gpu]} ∪ used_ids))
    gpus acc.

(** What [get_ranked_gpus] makes of the list of available GPUs; [None]
    for the [AttributeError] of the first loop. *)
Definition rank (max_results : Z) (gpus : list gpu) : option (list gpu) :=
  match gpus with
  | [] => Some []
  | _ =>
      match add_preferred PREFERRED_GPUS gpus ([], ∅) with
      | None => None
      | Some acc => Some (slice_to max_results (fst (add_remaining gpus acc)))
      end
  end.

(** What [None.get(...)] raises. *)
Definition AttributeError_get : exn :=
  mk_exn AttributeError "'NoneType' object has no attribute 'get'".

Section Client.

Variable E : env.

Local Abbreviation W := (World event).

(** [RunPodClient.get_available_gpus] *)
Definition get_available_gpus : M W (list gpu) :=
  result <- call (latency E) GpuTypes (gql_gpu_types E) ;;
  match gt_errors result with
  | Some errors => raise_cls Exception ("GraphQL error: " +:+ errors)
  | None =>
      match dict_get_default (gt_data result) Absent with
      | None => raise AttributeError_get
      | Some data =>
          match dict_get_default data [] with
          | None => raise_cls TypeError "'NoneType' object is not iterable"
          | Some gpus =>
              match available gpus with
              | None =>
                  raise_cls TypeError
                    "'>=' not supported between instances of 'NoneType' and 'int'"
              | Some available => ret available
              end
          end
      end
  end.

(** [RunPodClient.get_ranked_gpus] *)
Definition get_ranked_gpus (max_results : Z) : M W (list gpu) :=
  gpus <- get_available_gpus ;;
  match rank max_results gpus with
  | None => raise_cls AttributeError "'NoneType' object has no attribute 'lower'"
  | Some ranked => ret ranked
  end.

(** [RunPodClient.find_cheapest_gpu]: [gpus[0] if gpus else None] *)
Definition find_cheapest_gpu : M W (option gpu) :=
  gpus <- get_ranked_gpus 10 ;;
  ret (match gpus with
       | g :: _ => Some g
       | [] => None
       end).

(** [RunPodClient.create_pod]; [None] stands for the empty dict that
    [.get("podFindAndDeployOnDemand", {})] falls back to.  A [data] that
    is [null] fails the second [.get], a pod that is [null] the
    [pod.get("id")]. *)
Definition create_pod (gpu_id name : string) : M W (option created_pod) :=
  result <- call (latency E) (CreatePod gpu_id name)
              (fun w => gql_create_pod E w gpu_id name) ;;
  match cp_errors result with
  | Some errors => raise_cls Exception ("Failed to create pod: " +:+ errors)
  | None =>
      match dict_get_default (cp_data result) Absent with
      | None => raise AttributeError_get
      | Some Absent => ret None
      | Some Null => raise AttributeError_get
      | Some (Val pod) => ret (Some pod)
      end
  end.

(** The test of [try_create_pod] on the text of an exception. *)
Definition gpu_unavailable (e : exn) : bool :=
  let error_msg := lower (exn_str e) in
  contains "resources" error_msg || contains "not have" error_msg.

(** [RunPodClient.try_create_pod] *)
Definition try_create_pod (gpu_id name : string) : M W (option created_pod) :=
  try_except (create_pod gpu_id name) is_Exception
    (fun e => if gpu_unavailable e then ret None else raise e).

(** [RunPodClient.get_pod]; [None] is Python's [None], an empty dict is
    a pod without [runtime]. *)
Definition get_pod (pod_id : string) : M W (option pod_info) :=
  result <- call (latency E) (GetPod pod_id) (fun w => gql_get_pod E w pod_id) ;;
  match gp_errors result with
  | Some errors => raise_cls Exception ("Failed to get pod: " +:+ errors)
  | None =>
      match dict_get_default (gp_data result) Absent with
      | None => raise AttributeError_get
      | Some pod => ret (dict_get_default pod (mk_pod_info Absent))
      end
  end.

(** [RunPodClient.stop_pod] *)
Definition stop_pod (pod_id : string) : M W bool :=
  result <- call (latency E) (TerminatePod pod_id)
              (fun w => gql_terminate E w pod_id) ;;
  match result with
  | Some errors => raise_cls Exception ("Failed to stop pod: " +:+ errors)
  | None => ret true
  end.

(** The [for port in ports] loop of [wait_for_pod_ready]: [Some url] is
    [return url]. *)
Fixpoint probe_ports (ports : list port) : M W (option string) :=
  match ports with
  | [] => ret None
  | port :: ports' =>
      if bool_decide (privatePort port = Some API_PORT)
         && truthy_str (ip port) && truthy_Z (publicPort port)
      then
        let url :=
          "http://" +:+ default "" (ip port) +:+ ":"
            +:+ str_Z (default 0 (publicPort port)) in
        healthy <- try_except
                     (code <- call (latency E) (Health url)
                                (fun w => http_health E w url) ;;
                      ret (code =? 200))
                     is_RequestException
                     (fun _ => ret false) ;;
        if healthy then ret (Some url) else probe_ports ports'
      else probe_ports ports'
  end.

(** One round of the loop of [wait_for_pod_ready]. *)
Definition ready_round (pod_id : string) (_ : unit) : M W (unit + string) :=
  pod <- get_pod pod_id ;;
  match pod with
  | None => raise AttributeError_get
  | Some pod =>
      match dict_get_default (runtime pod) (mk_runtime_info Absent) with
      | None => raise AttributeError_get
      | Some runtime =>
          match dict_get_default (rt_ports runtime) [] with
          | None => raise_cls TypeError "'NoneType' object is not iterable"
          | Some ports =>
              found <- probe_ports ports ;;
              match found with
              | Some url => ret (inr url)
              | None => ret (inl tt)
              end
          end
      end
  end.

(** [RunPodClient.wait_for_pod_ready] *)
Definition wait_for_pod_ready (pod_id : string) (timeout : Z) : M W string :=
  start <- time_time ;;
  poll (enough timeout) start timeout 5 (ready_round pod_id)
    (raise_cls TimeoutError
       ("Pod " +:+ pod_id +:+ " did not become ready in " +:+ str_Z timeout
        +:+ "s"))
    tt.

(** *** [DemucsClient] *)

(** [DemucsClient.status], read through [.get("models_ready")] *)
Definition status (base_url : string) : M W bool :=
  models_ready <- call (latency E) (Status base_url)
                    (fun w => http_status E w base_url) ;;
  ret (default false models_ready).

(** [DemucsClient.create_job], read through [["job_id"]] *)
Definition create_job (base_url input_url : string)
    (interval_cut : option string) (all_stems : bool) : M W string :=
  let interval_cut := if truthy_str interval_cut then interval_cut else None in
  call (latency E) (CreateJob base_url input_url interval_cut all_stems)
    (fun w => http_create_job E w base_url input_url interval_cut all_stems).

(** [DemucsClient.get_job] *)
Definition get_job (base_url job_id : string) : M W job_info :=
  call (latency E) (GetJob base_url job_id)
    (fun w => http_get_job E w base_url job_id).

(** [DemucsClient.download_result] *)
Definition download_result (base_url job_id output_path : string) : M W unit :=
  call (latency E) (DownloadResult base_url job_id output_path)
    (fun w => http_download E w base_url job_id output_path).

(** One round of the loop of [wait_for_job] on [last_progress]. *)
Definition job_round (base_url job_id : string) (last_progress : string)
    : M W (string + job_info) :=
  job <- get_job base_url job_id ;;
  if bool_decide (job_status job = Some "completed") then ret (inr job)
  else if bool_decide (job_status job = Some "failed") then
    raise_cls Exception ("Job failed: " +:+ str_opt (job_error job))
  else
    let progress :=
      match job_details job with
      | Some percent =>
          match dict_get_default percent 0 with
          | Some percent => str_Z percent +:+ "%"
          | None => "None%"
          end
      | None => ""
      end in
    if bool_decide (progress = last_progress) then ret (inl last_progress)
    else emit (PrintProgress progress) ;; ret (inl progress).

(** [DemucsClient.wait_for_job] *)
Definition wait_for_job (base_url job_id : string) (timeout : Z)
    : M W job_info :=
  start <- time_time ;;
  poll (enough timeout) start timeout 5 (job_round base_url job_id)
    (raise_cls TimeoutError
       ("Job " +:+ job_id +:+ " did not complete in " +:+ str_Z timeout
        +:+ "s"))
    "".

(** *** The [separate] command *)

Record args : Type := mk_args {
  input : string;
  output : string;
  interval_cut : option string;
  all_stems : bool;
  keep_pod : bool
}.

(** The [for gpu in gpus] loop of [cmd_separate]: the first GPU for
    which [try_create_pod] returns a pod. *)
Fixpoint try_gpus (gpus : list gpu) : M W (option (created_pod * gpu)) :=
  match gpus with
  | [] => ret None
  | gpu :: gpus' =>
      pod <- try_create_pod (id gpu) "demucs-worker" ;;
      match pod with
      | Some pod => ret (Some (pod, gpu))
      | None => try_gpus gpus'
      end
  end.

(** The [for _ in range(60)] loop that waits for the models. *)
Fixpoint wait_models (rounds : nat) (base_url : string) : M W unit :=
  match rounds with
  | O => ret tt
  | S rounds' =>
      time_sleep 5 ;;
      models_ready <- status base_url ;;
      if models_ready then ret tt else wait_models rounds' base_url
  end.

(** The [try] suite of [cmd_separate]. *)
Definition run_job (args : args) (pod_id : string) : M W unit :=
  url <- wait_for_pod_ready pod_id 300 ;;
  let demucs := rstrip_slash url in
  models_ready <- status demucs ;;
  (if negb models_ready then wait_models 60 demucs else ret tt) ;;
  job_id <- create_job demucs (input args) (interval_cut args) (all_stems args) ;;
  _ <- wait_for_job demucs job_id 1800 ;;
  download_result demucs job_id (Path_div (output args) "instrumental.mp3").

(** The [finally] suite of [cmd_separate]. *)
Definition teardown (args : args) (pod_id : string) : M W unit :=
  if negb (keep_pod args) then _ <- stop_pod pod_id ;; ret tt
  else ret tt.

(** [cmd_separate]; [api_key] is [os.environ.get("RUNPOD_API_KEY")]. *)
Definition cmd_separate (api_key : option string) (args : args) : M W unit :=
  if negb (truthy_str api_key) then sys_exit 1
  else
    gpus <- get_ranked_gpus 10 ;;
    match gpus with
    | [] => sys_exit 1
    | _ =>
        pod <- try_gpus gpus ;;
        match pod with
        | None => sys_exit 1
        | Some (pod, selected_gpu) =>
            let pod_id := pod_id pod in
            emit (PrintPodCreated pod_id) ;;
            try_finally (run_job args pod_id) (teardown args pod_id)
        end
    end.

(** [cmd_stop]; [api_key] is [os.environ.get("RUNPOD_API_KEY")] and the
    answer is the line the command prints last. *)
Definition cmd_stop (api_key : option string) (pod_id : option string)
    : M W string :=
  if negb (truthy_str api_key) then sys_exit 1
  else if negb (truthy_str pod_id) then sys_exit 1
  else
    _ <- stop_pod (default "" pod_id) ;;
    ret ("Pod " +:+ default "" pod_id +:+ " stopped.").

End Client.

End RunPod.

(** ** [test_concurrent_instances.py] *)

Module Batch.

Import VastAI.

(** An entry of [self.instances]. *)
Record instance_info : Type := mk_instance_info {
  index : Z;
  info_id : option Z;
  info_offer_id : option Z;
  gpu : option string;
  price : option Q;
  created_at : string
}.

(** An entry of the list read back from [INSTANCES_FILE]; the two keys
    the destroy pass reads may be missing. *)
Record saved_instance : Type := mk_saved_instance {
  saved_index : option Z;
  saved_id : option (option Z)
}.

Definition saved (i : instance_info) : saved_instance :=
  mk_saved_instance (Some (index i)) (Some (info_id i)).

(** The attributes of an [InstanceTester]. *)
Record tester : Type := mk_tester {
  num_instances : Z;
  instances : list instance_info;
  success_count : Z;
  fail_count : Z;
  offer_index : Z;
  available_offers : list offer
}.

(** The lines of standard output the properties speak of. *)
Inductive line : Type :=
| Launching (instance_index : Z) (offer : offer)
| Launched (inst : option Z)                 (* the check mark *)
| LaunchFailed (msg : string)                (* the cross *)
| Destroying (inst : option Z)
| DestroyDone                                (* the check mark *)
| DestroyFailed (msg : string)               (* the cross *)
| Destroyed (success total : Z)
| Failed (failed : Z)
| Removed.

(** A run works on the tester, on [active_instances.json] in the working
    directory, on standard output, and on the marketplace. *)
Record state : Type := mk_state {
  self : tester;
  instances_file : option (list saved_instance);
  stdout : list line;
  world : World event
}.

Definition lift {A} (c : M (World event) A) : M state A :=
  fun s => match c (world s) with
           | (r, w) => (r, mk_state (self s) (instances_file s) (stdout s) w)
           end.

Definition print (l : line) : M state unit :=
  modify (fun s => mk_state (self s) (instances_file s) (stdout s ++ [l]) (world s)).

Definition update (f : tester -> tester) : M state unit :=
  modify (fun s => mk_state (f (self s)) (instances_file s) (stdout s) (world s)).

(** [f"{n:02d}"] *)
Definition pad2 (n : Z) : string :=
  if (0 <=? n) && (n <? 10) then "0" +:+ str_Z n else str_Z n.

Section Tester.

Variable E : env.

(** The line [__init__] prints for an offer: [f"{price:.3f}"] and
    [f"{reliability:.2f}"] raise [TypeError] for a value that is
    [None]. *)
Definition print_offer (offer : offer) : M state unit :=
  match VastAI.price_per_hour offer, reliability offer with
  | Some _, Some _ => ret tt
  | _, _ =>
      raise_cls TypeError "unsupported format string passed to NoneType.__format__"
  end.

Fixpoint print_offers (offers : list offer) : M state unit :=
  match offers with
  | [] => ret tt
  | offer :: offers' => print_offer offer ;; print_offers offers'
  end.

(** [InstanceTester.__init__]; the new tester replaces [self]. *)
Definition new_tester (api_key : option string) (num_instances : Z)
    : M state unit :=
  if negb (truthy_str api_key) then raise_cls Exception "VASTAI_API_KEY not set"
  else
    update (fun _ => mk_tester num_instances [] 0 0 0 []) ;;
    offers <- lift (get_ranked_offers E 20) ;;
    update (fun t => mk_tester (Batch.num_instances t) (instances t)
                       (success_count t) (fail_count t) (offer_index t) offers) ;;
    match offers with
    | [] => raise_cls Exception "No GPU offers available"
    | _ => print_offers (firstn 10 offers)
    end.

(** [InstanceTester.get_next_offer] *)
Definition get_next_offer : M state offer :=
  s <- get ;;
  let offers := available_offers (self s) in
  if Z.of_nat (length offers) =? 0 then
    raise_cls ZeroDivisionError "integer modulo by zero"
  else
    match offers !! Z.to_nat (offer_index (self s) mod Z.of_nat (length offers)) with
    | None => raise_cls IndexError "list index out of range"
    | Some offer =>
        update (fun t => mk_tester (Batch.num_instances t) (instances t)
                           (success_count t) (fail_count t)
                           (offer_index t + 1) (available_offers t)) ;;
        ret offer
    end.

(** [InstanceTester.launch_instance] *)
Definition launch_instance (instance_index : Z)
    : M state (option instance_info) :=
  try_except
    (offer <- get_next_offer ;;
     print (Launching instance_index offer) ;;
     instance <- lift (create_instance E (offer_id offer)
                         ("test-concurrent-" +:+ pad2 instance_index)) ;;
     if negb (instance_success instance) then
       raise_cls Exception "Instance creation failed"
     else
       let instance_id := instance_id instance in
       print (Launched instance_id) ;;
       update (fun t => mk_tester (Batch.num_instances t) (instances t)
                          (success_count t + 1) (fail_count t)
                          (offer_index t) (available_offers t)) ;;
       s <- get ;;
       let instance_info :=
         mk_instance_info instance_index instance_id (offer_id offer)
           (gpu_name offer) (VastAI.price_per_hour offer)
           (str_Z (now (world s))) in
       update (fun t => mk_tester (Batch.num_instances t)
                          (instances t ++ [instance_info])
                          (success_count t) (fail_count t)
                          (offer_index t) (available_offers t)) ;;
       ret (Some instance_info))
    is_Exception
    (fun e =>
       print (LaunchFailed (exn_str e)) ;;
       update (fun t => mk_tester (Batch.num_instances t) (instances t)
                          (success_count t) (fail_count t + 1)
                          (offer_index t) (available_offers t)) ;;
       ret None).

(** [InstanceTester.save_instances] *)
Definition save_instances : M state unit :=
  modify (fun s => mk_state (self s) (Some (map saved (instances (self s))))
                     (stdout s) (world s)).

(** [for i in range(n): self.launch_instance(i)], counting [i] up from
    [first]. *)
Fixpoint launch_from (first : Z) (n : nat) : M state unit :=
  match n with
  | O => ret tt
  | S n' => launch_instance first ;; launch_from (first + 1) n'
  end.

(** [sorted(gpu_groups.items())] on the groups of the launched
    instances: the keys are their GPU names, all different, so the sort
    compares names only, and comparing [None] with a text raises
    [TypeError].  (Only the class of the error is meant: its text
    names the types of the two keys of the comparison that failed, in
    the order the sort took them; it is given here for a [None] that
    comes after a text.) *)
Definition sorted_groups (instances : list instance_info) : M state unit :=
  if existsb (fun i => bool_decide (gpu i = None)) instances
     && existsb (fun i => bool_decide (is_Some (gpu i))) instances
  then
    raise_cls TypeError
      "'<' not supported between instances of 'NoneType' and 'str'"
  else ret tt.

(** [InstanceTester.run].  The summary divides by [num_instances]. *)
Definition run : M state unit :=
  s <- get ;;
  launch_from 0 (Z.to_nat (num_instances (self s))) ;;
  s <- get ;;
  if num_instances (self s) =? 0 then
    raise_cls ZeroDivisionError "division by zero"
  else if success_count (self s) =? 0 then ret tt
  else
    sorted_groups (instances (self s)) ;;
    save_instances.

(** The [for inst in instances] loop of [destroy_all_instances] on its
    two tallies. *)
Fixpoint destroy_each (instances : list saved_instance) (tally : Z * Z)
    : M state (Z * Z) :=
  match instances with
  | [] => ret tally
  | inst :: instances' =>
      tally' <- try_except
        (match saved_id inst, saved_index inst with
         | None, _ => raise_cls KeyError "'id'"
         | Some _, None => raise_cls KeyError "'index'"
         | Some inst_id, Some _ =>
             print (Destroying inst_id) ;;
             _ <- lift (destroy_instance E inst_id) ;;
             print DestroyDone ;;
             ret (fst tally + 1, snd tally)
         end)
        is_Exception
        (fun e =>
           print (DestroyFailed (exn_str e)) ;;
           ret (fst tally, snd tally + 1)) ;;
      destroy_each instances' tally'
  end.

(** [destroy_all_instances]; [api_key] is
    [os.environ.get("VASTAI_API_KEY")]. *)
Definition destroy_all_instances (api_key : option string) : M state unit :=
  s <- get ;;
  match instances_file s with
  | None => ret tt
  | Some [] => ret tt
  | Some instances =>
      if negb (truthy_str api_key) then ret tt
      else
        tally <- destroy_each instances (0, 0) ;;
        print (Destroyed (fst tally) (Z.of_nat (length instances))) ;;
        (if 0 <? snd tally then print (Failed (snd tally)) else ret tt) ;;
        modify (fun s => mk_state (self s) None (stdout s) (world s)) ;;
        print Removed
  end.

(** [main]; [api_key] is [os.environ.get("VASTAI_API_KEY")], the two
    other arguments are the parsed [--destroy-all] and
    [--num-instances]. *)
Definition main (api_key : option string) (destroy_all : bool)
    (num_instances : Z) : M state unit :=
  if negb (truthy_str api_key) then sys_exit 1
  else if destroy_all then destroy_all_instances api_key
  else
    new_tester api_key num_instances ;;
    try_except run
      (fun e => match exn_cls e with KeyboardInterrupt => true | _ => false end)
      (fun _ =>
         s <- get ;;
         match instances (self s) with
         | [] => ret tt
         | _ => save_instances
         end).

End Tester.

End Batch.

(** ** Concrete marketplaces and instances

    The environments below answer the calls of a run in a fixed way;
    the examples and the counterexamples of the second part run the
    clients against them. *)

Module Scenarios.

(** How many events of a trace satisfy [p]. *)
Definition count {Ev} (p : Ev -> bool) (w : World Ev) : nat :=
  length (filter p (trace w)).

Module Vast.

Import VastAI.

Definition is_create (ev : event) : bool :=
  match ev with CreateInstance _ _ => true | _ => false end.

Definition is_destroy (ev : event) : bool :=
  match ev with DestroyInstance _ => true | _ => false end.

Definition is_job_status (ev : event) : bool :=
  match ev with GetJobStatus _ _ => true | _ => false end.

Definition is_job_logs (ev : event) : bool :=
  match ev with GetJobLogs _ _ _ => true | _ => false end.

Definition is_get_instance (ev : event) : bool :=
  match ev with GetInstance _ => true | _ => false end.

Definition is_download (ev : event) : bool :=
  match ev with DownloadResult _ _ _ => true | _ => false end.

(** Three offers: B is cheap and unreliable, C and A are reliable. *)
Definition offer_A : raw_offer :=
  mk_raw_offer (Some 1) (Val "RTX 3090") (Val (inject_Z 24576))
    (Val (20 # 100)) (Val (95 # 100)).
Definition offer_B : raw_offer :=
  mk_raw_offer (Some 2) (Val "RTX 3080") (Val (inject_Z 10240))
    (Val (15 # 100)) (Val (80 # 100)).
Definition offer_C : raw_offer :=
  mk_raw_offer (Some 3) (Val "RTX 4090") (Val (inject_Z 24576))
    (Val (18 # 100)) (Val (92 # 100)).

(** An offer with 4 GB of memory, below [MIN_VRAM_GB]. *)
Definition offer_small : raw_offer :=
  mk_raw_offer (Some 4) (Val "GTX 1650") (Val (inject_Z 4096))
    (Val (5 # 100)) (Val (99 # 100)).

Definition running_instance : raw_instance :=
  mk_raw_instance (Val "running") (Some "1.2.3.4")
    (Val {[ "8185/tcp" := [mk_port_binding (Some "40123")] ]}).

Definition loading_instance : raw_instance :=
  mk_raw_instance (Val "loading") None Absent.

Definition unauthorized : exn := mk_exn HTTPError "401 Client Error: Unauthorized".
Definition not_found : exn := mk_exn HTTPError "404 Client Error: Not Found".
Definition unreachable : exn := mk_exn ConnectionError "Connection refused".
Definition interrupt : exn := mk_exn KeyboardInterrupt "".

(** A marketplace and an instance where everything works: offer 3 is
    taken, the instance is up at the first poll, the job is [running]
    at the first poll and [final] at the second. *)
Definition smooth (final : string) : env :=
  mk_env
    (fun _ => 1%N)
    (fun _ => Ok (Some [offer_A; offer_B; offer_C]))
    (fun _ _ _ => Ok (mk_create_response true (Some 77) "{'success': True}"))
    (fun _ _ => Ok (TheInstance running_instance))
    (fun _ _ => Ok (Some true))
    (fun _ _ => Ok 200)
    (fun _ _ _ _ => Ok "job1")
    (fun w _ _ =>
       if (count is_job_status w =? 0)%nat
       then Ok (mk_job_status "running" None (Some (Val 1, Val 4)))
       else Ok (mk_job_status final (Some "boom") None))
    (fun w _ _ from =>
       Ok (mk_log_data (Some "line") (Val (default 0 from + 4))))
    (fun _ _ _ _ => Ok tt)
    (fun _ _ => Ok tt).

Definition args_destroy : args := mk_args "http://in/a.mp3" "./results" None false.
Definition args_keep : args := mk_args "http://in/a.mp3" "./results" None true.

(** A marketplace that answers the create request for offer 3 with
    401 Unauthorized and grants every other one. *)
Definition unauthorized_for_3 : env :=
  mk_env
    (fun _ => 1%N)
    (fun _ => Ok (Some [offer_A; offer_B; offer_C]))
    (fun _ offer _ =>
       if bool_decide (offer = Some 3) then Fail unauthorized
       else Ok (mk_create_response true (Some 77) "{'success': True}"))
    (fun _ _ => Ok (TheInstance running_instance))
    (fun _ _ => Ok (Some true))
    (fun _ _ => Ok 200)
    (fun _ _ _ _ => Ok "job1")
    (fun _ _ _ => Ok (mk_job_status "completed" None None))
    (fun _ _ _ from => Ok (mk_log_data None Absent))
    (fun _ _ _ _ => Ok tt)
    (fun _ _ => Ok tt).

(** A marketplace whose instance stays in [loading]. *)
Definition never_running : env :=
  mk_env
    (fun _ => 1%N)
    (fun _ => Ok (Some [offer_A; offer_B; offer_C]))
    (fun _ _ _ => Ok (mk_create_response true (Some 77) "{'success': True}"))
    (fun _ _ => Ok (TheInstance loading_instance))
    (fun _ _ => Ok (Some true))
    (fun _ _ => Fail unreachable)
    (fun _ _ _ _ => Ok "job1")
    (fun _ _ _ => Ok (mk_job_status "completed" None None))
    (fun _ _ _ from => Ok (mk_log_data None Absent))
    (fun _ _ _ _ => Ok tt)
    (fun _ _ => Ok tt).

(** An instance whose job runs for two polls and whose log endpoint
    reports offset 10 with the first piece and offset 4 with the second
    (as after a truncation of the log file). *)
Definition rewinding : env :=
  mk_env
    (fun _ => 1%N)
    (fun _ => Ok (Some [offer_A; offer_B; offer_C]))
    (fun _ _ _ => Ok (mk_create_response true (Some 77) "{'success': True}"))
    (fun _ _ => Ok (TheInstance running_instance))
    (fun _ _ => Ok (Some true))
    (fun _ _ => Ok 200)
    (fun _ _ _ _ => Ok "job1")
    (fun w _ _ =>
       if (count is_job_status w <? 2)%nat
       then Ok (mk_job_status "running" None None)
       else Ok (mk_job_status "completed" None None))
    (fun w _ _ from =>
       if (count is_job_logs w =? 0)%nat
       then Ok (mk_log_data (Some "abcd") (Val 10))
       else if (count is_job_logs w =? 1)%nat
       then Ok (mk_log_data (Some "ef") (Val 4))
       else Ok (mk_log_data (Some "gh") (Val (default 0 from + 2))))
    (fun _ _ _ _ => Ok tt)
    (fun _ _ => Ok tt).

(** An instance whose job runs for one poll and whose log endpoint
    sends the text without an [offset] key. *)
Definition forgetful : env :=
  mk_env
    (fun _ => 1%N)
    (fun _ => Ok (Some [offer_A; offer_B; offer_C]))
    (fun _ _ _ => Ok (mk_create_response true (Some 77) "{'success': True}"))
    (fun _ _ => Ok (TheInstance running_instance))
    (fun _ _ => Ok (Some true))
    (fun _ _ => Ok 200)
    (fun _ _ _ _ => Ok "job1")
    (fun w _ _ =>
       if (count is_job_status w <? 1)%nat
       then Ok (mk_job_status "running" None None)
       else Ok (mk_job_status "completed" None None))
    (fun _ _ _ _ => Ok (mk_log_data (Some "abcd") Absent))
    (fun _ _ _ _ => Ok tt)
    (fun _ _ => Ok tt).

(** An instance whose job runs for one poll and whose log endpoint
    sends the text with an [offset] that is [null]. *)
Definition nulling : env :=
  mk_env
    (fun _ => 1%N)
    (fun _ => Ok (Some [offer_A; offer_B; offer_C]))
    (fun _ _ _ => Ok (mk_create_response true (Some 77) "{'success': True}"))
    (fun _ _ => Ok (TheInstance running_instance))
    (fun _ _ => Ok (Some true))
    (fun _ _ => Ok 200)
    (fun _ _ _ _ => Ok "job1")
    (fun w _ _ =>
       if (count is_job_status w <? 1)%nat
       then Ok (mk_job_status "running" None None)
       else Ok (mk_job_status "completed" None None))
    (fun _ _ _ _ => Ok (mk_log_data (Some "abcd") Null))
    (fun _ _ _ _ => Ok tt)
    (fun _ _ => Ok tt).

(** An instance that runs the server of this repository, which has no
    route for the logs: every log fetch is answered with 404.  The job
    is [final], with the error "boom", from the first poll on. *)
Definition no_log_route (final : string) : env :=
  mk_env
    (fun _ => 1%N)
    (fun _ => Ok (Some [offer_A; offer_B; offer_C]))
    (fun _ _ _ => Ok (mk_create_response true (Some 77) "{'success': True}"))
    (fun _ _ => Ok (TheInstance running_instance))
    (fun _ _ => Ok (Some true))
    (fun _ _ => Ok 200)
    (fun _ _ _ _ => Ok "job1")
    (fun _ _ _ => Ok (mk_job_status final (Some "boom") None))
    (fun _ _ _ _ => Fail not_found)
    (fun _ _ _ _ => Ok tt)
    (fun _ _ => Ok tt).

End Vast.

Module Registry.

Import VastAI Batch.

(** A marketplace that answers every destroy with 404, as for an
    instance that is gone, or that it could not reach. *)
Definition refusing : env :=
  mk_env
    (fun _ => 1%N)
    (fun _ => Ok (Some [Vast.offer_A; Vast.offer_B; Vast.offer_C]))
    (fun _ _ _ => Ok (mk_create_response true (Some 77) "{'success': True}"))
    (fun _ _ => Ok (TheInstance Vast.running_instance))
    (fun _ _ => Fail Vast.not_found)
    (fun _ _ => Ok 200)
    (fun _ _ _ _ => Ok "job1")
    (fun _ _ _ => Ok (mk_job_status "completed" None None))
    (fun _ _ _ from => Ok (mk_log_data None Absent))
    (fun _ _ _ _ => Ok tt)
    (fun _ _ => Ok tt).

(** A marketplace whose first destroy succeeds and whose later ones
    answer 404. *)
Definition destroys_once : env :=
  mk_env
    (fun _ => 1%N)
    (fun _ => Ok (Some [Vast.offer_A; Vast.offer_B; Vast.offer_C]))
    (fun _ _ _ => Ok (mk_create_response true (Some 77) "{'success': True}"))
    (fun _ _ => Ok (TheInstance Vast.running_instance))
    (fun w _ => if (count Vast.is_destroy w =? 0)%nat then Ok (Some true)
                else Fail Vast.not_found)
    (fun _ _ => Ok 200)
    (fun _ _ _ _ => Ok "job1")
    (fun _ _ _ => Ok (mk_job_status "completed" None None))
    (fun _ _ _ from => Ok (mk_log_data None Absent))
    (fun _ _ _ _ => Ok tt)
    (fun _ _ => Ok tt).

(** A marketplace one of whose two offers has a [gpu_name] that is
    [null]. *)
Definition offer_nameless : raw_offer :=
  mk_raw_offer (Some 5) Null (Val (inject_Z 24576)) (Val (21 # 100))
    (Val (95 # 100)).

Definition nameless : env :=
  mk_env
    (fun _ => 1%N)
    (fun _ => Ok (Some [Vast.offer_A; offer_nameless]))
    (fun _ _ _ => Ok (mk_create_response true (Some 77) "{'success': True}"))
    (fun _ _ => Ok (TheInstance Vast.running_instance))
    (fun _ _ => Ok (Some true))
    (fun _ _ => Ok 200)
    (fun _ _ _ _ => Ok "job1")
    (fun _ _ _ => Ok (mk_job_status "completed" None None))
    (fun _ _ _ from => Ok (mk_log_data None Absent))
    (fun _ _ _ _ => Ok tt)
    (fun _ _ => Ok tt).

(** The working directory after a launch that recorded instance 77. *)
Definition one_recorded : state :=
  mk_state (mk_tester 0 [] 0 0 0 [])
    (Some [mk_saved_instance (Some 0) (Some (Some 77))]) [] (init 0).

(** A working directory without [active_instances.json]. *)
Definition empty_directory : state :=
  mk_state (mk_tester 0 [] 0 0 0 []) None [] (init 0).

End Registry.

Module Pod.

Import RunPod.

Definition is_create (ev : event) : bool :=
  match ev with CreatePod _ _ => true | _ => false end.

Definition is_terminate (ev : event) : bool :=
  match ev with TerminatePod _ => true | _ => false end.

Definition is_get_job (ev : event) : bool :=
  match ev with GetJob _ _ => true | _ => false end.

Definition is_get_pod (ev : event) : bool :=
  match ev with GetPod _ => true | _ => false end.

Definition is_status (ev : event) : bool :=
  match ev with Status _ => true | _ => false end.

Definition is_download (ev : event) : bool :=
  match ev with DownloadResult _ _ _ => true | _ => false end.

Definition gpu_3090 : gpu_type :=
  mk_gpu_type "NVIDIA GeForce RTX 3090" (Val "NVIDIA RTX 3090") (Val 24)
    (Val true) (Val true) (Some (Some (22 # 100), Some (44 # 100))).
Definition gpu_a4000 : gpu_type :=
  mk_gpu_type "NVIDIA RTX A4000" (Val "NVIDIA RTX A4000") (Val 16)
    (Val true) (Val false) (Some (Some (17 # 100), None)).
Definition gpu_t4 : gpu_type :=
  mk_gpu_type "NVIDIA T4" (Val "Tesla T4") (Val 16)
    (Val false) (Val true) (Some (None, Some (10 # 100))).
Definition gpu_small : gpu_type :=
  mk_gpu_type "NVIDIA GTX 1650" (Val "GTX 1650") (Val 4)
    (Val false) (Val true) (Some (Some (3 # 100), None)).

Definition ready_pod : pod_info :=
  mk_pod_info
    (Val (mk_runtime_info
            (Val [mk_port (Some 22) (Some "10.0.0.1") (Some 10022);
                  mk_port (Some 8185) (Some "5.6.7.8") (Some 30001)]))).

(** The text RunPod answers with when no machine of the type is free. *)
Definition no_resources : string :=
  "[{'message': 'There are no longer any instances available with the requested specifications.'}, 'resources']".

(** A marketplace where the GPU type [taken] is out of machines, and
    everything else works; a second terminate of a pod finds it gone. *)
Definition smooth (taken : string) (final : string) : env :=
  mk_env
    (fun _ => 1%N)
    (fun _ => Ok (mk_gpu_types_response None
                    (Val (Val [gpu_3090; gpu_a4000; gpu_t4; gpu_small]))))
    (fun _ gpu_id _ =>
       if String.eqb gpu_id taken
       then Ok (mk_create_pod_response (Some no_resources) Null)
       else Ok (mk_create_pod_response None
                  (Val (Val (mk_created_pod "pod-1")))))
    (fun _ _ => Ok (mk_get_pod_response None (Val (Val ready_pod))))
    (fun w _ => if (count is_terminate w =? 0)%nat then Ok None
                else Ok (Some "[{'message': 'pod not found'}]"))
    (fun _ _ => Ok 200)
    (fun _ _ => Ok (Some true))
    (fun _ _ _ _ _ => Ok "job1")
    (fun w _ _ =>
       if (count is_get_job w =? 0)%nat
       then Ok (mk_job_info (Some "running") None (Some (Val 25)))
       else Ok (mk_job_info (Some final) (Some "boom") None))
    (fun _ _ _ _ => Ok tt).

Definition args_stop : args := mk_args "http://in/a.mp3" "./results" None false false.

End Pod.

Module Jobs.

Import Server.

Definition request_abc : JobRequest :=
  mk_JobRequest "http://in/a.mp3" None false (Some "abc").

Definition pending_abc : job :=
  mk_job "pending" "http://in/a.mp3" None false "2024-01-01T00:00:00"
    None None None.

(** A server with its models extracted and the job [abc] accepted. *)
Definition one_pending : host :=
  mk_host
    (mk_state {["abc" := pending_abc]} true
       [mk_task "abc" "http://in/a.mp3" None false])
    ∅.

(** A server with its models extracted and no job. *)
Definition idle : host := mk_host (mk_state ∅ true []) ∅.

(** What the server does while [abc] runs: it refuses to delete or to
    file [abc] again, and starts and fails a task of a job it does not
    know. *)
Definition busy : list activity :=
  [ Request (DeleteJob "abc");
    Request (PostJob request_abc "0f8fad5b-d9cb-469f-a165-70867728950e"
               "2024-01-01T00:00:05");
    TaskStarts "xyz" "2024-01-01T00:00:06" (Ok tt);
    TaskFails "xyz" (mk_exn OSError "No such file or directory");
    Request (GetStatus 12) ].

End Jobs.

End Scenarios.

(** * Properties *)

(** ** Facts about the monad and the polling loop *)

Module PyProps.

Section Runs.

Context {Ev : Type}.

(** A computation {e runs within} [Q] when, from every world, it ends
    (the iteration bound is not hit), leaves the clock where it was or
    later, and adds to the trace only events of [Q]. *)
Definition runs {A} (Q : Ev -> Prop) (c : M (World Ev) A) : Prop :=
  forall w,
    (c w).1 <> OutOfFuel
    /\ now w <= now (c w).2
    /\ exists evs, trace (c w).2 = trace w ++ evs /\ Forall Q evs.

Lemma runs_ret {A} Q (a : A) : runs Q (ret a).
Proof.
  intros w; cbn. repeat split; [discriminate|lia|].
  exists []. rewrite app_nil_r. auto.
Qed.

Lemma runs_raise {A} Q e : runs Q (@raise (World Ev) A e).
Proof.
  intros w; cbn. repeat split; [discriminate|lia|].
  exists []. rewrite app_nil_r. auto.
Qed.

Lemma runs_raise_cls {A} Q c msg : runs Q (@raise_cls (World Ev) A c msg).
Proof. apply runs_raise. Qed.

Lemma runs_sys_exit {A} Q code : runs Q (@sys_exit (World Ev) A code).
Proof. apply runs_raise. Qed.

Lemma runs_time_time Q : runs Q (@time_time Ev).
Proof.
  intros w; cbn. repeat split; [discriminate|lia|].
  exists []. rewrite app_nil_r. auto.
Qed.

Lemma runs_time_sleep Q seconds : 0 <= seconds -> runs Q (@time_sleep Ev seconds).
Proof.
  intros Hs w; cbn. repeat split; [discriminate|lia|].
  exists []. rewrite app_nil_r. auto.
Qed.

Lemma runs_emit (Q : Ev -> Prop) ev : Q ev -> runs Q (emit ev).
Proof.
  intros Hq w; cbn. repeat split; [discriminate|lia|].
  exists [ev]. auto.
Qed.

Lemma runs_call {A} (Q : Ev -> Prop) latency ev (answer : World Ev -> reply A) :
  Q ev -> runs Q (call latency ev answer).
Proof.
  intros Hq w; cbn. repeat split; [destruct (answer w); discriminate|lia|].
  exists [ev]. auto.
Qed.

Lemma runs_bind {A B} Q (c : M (World Ev) A) (k : A -> M (World Ev) B) :
  runs Q c -> (forall a, runs Q (k a)) -> runs Q (bind c k).
Proof.
  intros Hc Hk w. unfold bind. specialize (Hc w).
  destruct (c w) as [[a|e|] w1]; cbn in *; destruct Hc as (Hf & Hn & evs & Ht & Hq).
  - destruct (Hk a w1) as (Hf' & Hn' & evs' & Ht' & Hq').
    repeat split; [assumption|lia|].
    exists (evs ++ evs'). rewrite Ht', Ht, app_assoc. split; [reflexivity|].
    apply Forall_app; auto.
  - repeat split; [discriminate|lia|eauto].
  - congruence.
Qed.

Lemma runs_try_except {A} Q (c : M (World Ev) A) catches h :
  runs Q c -> (forall e, runs Q (h e)) -> runs Q (try_except c catches h).
Proof.
  intros Hc Hh w. unfold try_except. specialize (Hc w).
  destruct (c w) as [[a|e|] w1]; cbn in *; destruct Hc as (Hf & Hn & evs & Ht & Hq).
  - repeat split; [discriminate|lia|eauto].
  - destruct (catches e).
    + destruct (Hh e w1) as (Hf' & Hn' & evs' & Ht' & Hq').
      repeat split; [assumption|lia|].
      exists (evs ++ evs'). rewrite Ht', Ht, app_assoc. split; [reflexivity|].
      apply Forall_app; auto.
    + cbn. repeat split; [discriminate|lia|eauto].
  - congruence.
Qed.

Lemma runs_weaken {A} (Q Q' : Ev -> Prop) (c : M (World Ev) A) :
  (forall ev, Q ev -> Q' ev) -> runs Q c -> runs Q' c.
Proof.
  intros Hqq Hc w. destruct (Hc w) as (Hf & Hn & evs & Ht & Hq).
  repeat split; [assumption|lia|].
  exists evs. split; [assumption|]. eapply Forall_impl; eauto.
Qed.

Lemma poll_S {St A} fuel (start timeout interval : Z)
    (body : St -> M (World Ev) (St + A)) (orelse : M (World Ev) A) st w :
  poll (S fuel) start timeout interval body orelse st w =
  if now w - start <? timeout then
    match body st w with
    | (Ret (inl st'), w') =>
        poll fuel start timeout interval body orelse st'
          (mk_World (now w' + interval) (trace w'))
    | (Ret (inr a), w') => (Ret a, w')
    | (Raise e, w') => (Raise e, w')
    | (OutOfFuel, w') => (OutOfFuel, w')
    end
  else orelse w.
Proof.
  cbn [poll]. unfold bind at 1, time_time at 1.
  destruct (now w - start <? timeout); [|reflexivity].
  unfold bind at 1.
  destruct (body st w) as [[[st'|a]|e|] w1]; reflexivity.
Qed.

(** The rule for the polling loop: an invariant [I] of the loop
    variables and the world at the head of the loop, and what holds of
    the way the loop ends. *)
Lemma poll_rule {St A} (I : St -> World Ev -> Prop)
    (Post : result A * World Ev -> Prop)
    (start timeout interval : Z) (body : St -> M (World Ev) (St + A))
    (orelse : M (World Ev) A) :
  1 <= interval ->
  (forall st w, I st w -> now w - start < timeout ->
     match body st w with
     | (Ret (inl st'), w') =>
         now w <= now w' /\ I st' (mk_World (now w' + interval) (trace w'))
     | (Ret (inr a), w') => Post (Ret a, w')
     | (Raise e, w') => Post (Raise e, w')
     | (OutOfFuel, w') => Post (OutOfFuel, w')
     end) ->
  (forall st w, I st w -> timeout <= now w - start -> Post (orelse w)) ->
  forall fuel st w,
    I st w -> (Z.to_nat (start + timeout - now w) < fuel)%nat ->
    Post (poll fuel start timeout interval body orelse st w).
Proof.
  intros Hint Hbody Helse fuel.
  induction fuel as [|fuel IH]; intros st w Hi Hfuel; [lia|].
  rewrite poll_S.
  destruct (now w - start <? timeout) eqn:Hlt.
  - apply Z.ltb_lt in Hlt. specialize (Hbody st w Hi Hlt).
    destruct (body st w) as [[[st'|a]|e|] w1]; try assumption.
    destruct Hbody as [Hmono Hi'].
    apply IH; [assumption|]. cbn. lia.
  - apply Z.ltb_ge in Hlt. apply Helse with (st := st); assumption.
Qed.

Lemma runs_poll {St A} Q fuel (start timeout interval : Z)
    (body : St -> M (World Ev) (St + A)) orelse st :
  1 <= interval ->
  (forall st, runs Q (body st)) -> runs Q orelse ->
  forall w, (Z.to_nat (start + timeout - now w) < fuel)%nat ->
    (poll fuel start timeout interval body orelse st w).1 <> OutOfFuel
    /\ now w <= now (poll fuel start timeout interval body orelse st w).2
    /\ exists evs,
         trace (poll fuel start timeout interval body orelse st w).2
         = trace w ++ evs /\ Forall Q evs.
Proof.
  intros Hint Hbody Helse w0 Hfuel.
  apply (poll_rule
           (fun _ w => now w0 <= now w
                       /\ exists evs, trace w = trace w0 ++ evs /\ Forall Q evs)
           (fun out => out.1 <> OutOfFuel /\ now w0 <= now out.2
                       /\ exists evs, trace out.2 = trace w0 ++ evs
                                      /\ Forall Q evs)
           start timeout interval body orelse Hint).
  - intros st' w (Hn & evs & Ht & Hq) _.
    destruct (Hbody st' w) as (Hf & Hn' & evs' & Ht' & Hq').
    assert (Hall : exists evs0,
               trace (body st' w).2 = trace w0 ++ evs0 /\ Forall Q evs0).
    { exists (evs ++ evs'). rewrite Ht', Ht, app_assoc. split; [reflexivity|].
      apply Forall_app; auto. }
    destruct (body st' w) as [[[st''|a]|e|] w1]; cbn in *.
    + repeat split; [lia|lia|assumption].
    + repeat split; [discriminate|lia|assumption].
    + repeat split; [discriminate|lia|assumption].
    + congruence.
  - intros st' w (Hn & evs & Ht & Hq) _.
    destruct (Helse w) as (Hf & Hn' & evs' & Ht' & Hq').
    repeat split; [assumption|lia|].
    exists (evs ++ evs'). rewrite Ht', Ht, app_assoc. split; [reflexivity|].
    apply Forall_app; auto.
  - split; [lia|]. exists []. rewrite app_nil_r. auto.
  - assumption.
Qed.

(** A loop entered with the clock at [start] and the bound [enough
    timeout] runs within [Q] as soon as its parts do. *)
Lemma runs_timed_poll {St A} Q (timeout interval : Z)
    (body : St -> M (World Ev) (St + A)) orelse st :
  1 <= interval ->
  (forall st, runs Q (body st)) -> runs Q orelse ->
  runs Q (bind time_time (fun start =>
            poll (enough timeout) start timeout interval body orelse st)).
Proof.
  intros Hint Hbody Helse w. unfold bind at 1, time_time at 1.
  apply runs_poll; try assumption. unfold enough. lia.
Qed.

End Runs.

(** *** The rounds of a polling loop *)

Section Rounds.

Context {Ev St A : Type}.
Variables (start timeout interval : Z).
Variable body : St -> M (World Ev) (St + A).

(** [reaches st0 w0 st w]: the loop entered with variables [st0] in
    world [w0] comes to the head of a round with variables [st] in
    world [w]: every round before it began in time and asked for another
    one, and was followed by the sleep. *)
Inductive reaches (st0 : St) (w0 : World Ev) : St -> World Ev -> Prop :=
| reaches_first : reaches st0 w0 st0 w0
| reaches_next st w st' w' :
    reaches st0 w0 st w ->
    now w - start < timeout ->
    body st w = (Ret (inl st'), w') ->
    reaches st0 w0 st' (mk_World (now w' + interval) (trace w')).

(** How the last round of a loop ends it. *)
Definition ended (r : result (St + A)) (r' : result A) : Prop :=
  match r with
  | Ret (inl _) => False
  | Ret (inr a) => r' = Ret a
  | Raise e => r' = Raise e
  | OutOfFuel => r' = OutOfFuel
  end.

(** A loop with enough fuel ends at the head of a round it reaches:
    either the time is up there and the [else] suite runs, or the round
    begins in time and returns or raises. *)
Lemma poll_ends (orelse : M (World Ev) A) fuel st0 w0 :
  1 <= interval ->
  (forall st w, now w <= now (body st w).2) ->
  (Z.to_nat (start + timeout - now w0) < fuel)%nat ->
  exists st w,
    reaches st0 w0 st w
    /\ ((timeout <= now w - start
         /\ poll fuel start timeout interval body orelse st0 w0 = orelse w)
        \/ (now w - start < timeout
            /\ ended (body st w).1
                 (poll fuel start timeout interval body orelse st0 w0).1
            /\ (poll fuel start timeout interval body orelse st0 w0).2
               = (body st w).2)).
Proof.
  intros Hint Hmono Hfuel.
  apply (poll_rule
           (fun st w => reaches st0 w0 st w)
           (fun out =>
              exists st w,
                reaches st0 w0 st w
                /\ ((timeout <= now w - start /\ out = orelse w)
                    \/ (now w - start < timeout
                        /\ ended (body st w).1 out.1
                        /\ out.2 = (body st w).2)))
           start timeout interval body orelse Hint);
    [| |constructor|exact Hfuel].
  - intros st w Hreach Hlt. pose proof (Hmono st w) as Hle.
    destruct (body st w) as [[[st'|a]|e|] w'] eqn:Hbody; cbn [snd] in Hle.
    + split; [exact Hle|]. econstructor; eassumption.
    + exists st, w. split; [exact Hreach|]. right. rewrite Hbody.
      repeat split; assumption.
    + exists st, w. split; [exact Hreach|]. right. rewrite Hbody.
      repeat split; assumption.
    + exists st, w. split; [exact Hreach|]. right. rewrite Hbody.
      repeat split; assumption.
  - intros st w Hreach Hup. exists st, w. split; [exact Hreach|]. left. auto.
Qed.

(** The head of a round is not before the loop's entry, and the trace
    only grows. *)
Lemma reaches_later st0 w0 st w :
  0 <= interval ->
  (forall st w, now w <= now (body st w).2) ->
  reaches st0 w0 st w -> now w0 <= now w.
Proof.
  intros Hint Hmono. induction 1 as [|st w st' w' _ IH _ Hbody]; [lia|].
  pose proof (Hmono st w) as Hle. rewrite Hbody in Hle. cbn in *. lia.
Qed.

End Rounds.

(** *** How often a loop polls *)

Lemma count_app {Ev} (p : Ev -> bool) (w : World Ev) evs :
  Scenarios.count p (mk_World (now w) (trace w ++ evs))
  = (Scenarios.count p w + length (filter p evs))%nat.
Proof. unfold Scenarios.count. cbn. rewrite filter_app, length_app. reflexivity. Qed.

Lemma count_none {Ev} (p : Ev -> bool) evs :
  Forall (fun ev => p ev = false) evs -> length (filter p evs) = 0%nat.
Proof.
  induction 1 as [|ev evs Hev _ IH]; [reflexivity|].
  rewrite filter_cons_False; [exact IH|]. rewrite Hev. intros [].
Qed.

Lemma count_trace {Ev} (p : Ev -> bool) (w w' : World Ev) evs :
  trace w' = trace w ++ evs ->
  Scenarios.count p w' = (Scenarios.count p w + length (filter p evs))%nat.
Proof.
  intros Ht. unfold Scenarios.count. rewrite Ht, filter_app, length_app.
  reflexivity.
Qed.

(** A computation that ends and leaves the calls that [p] picks out
    alone. *)
Lemma runs_count {Ev A} (p : Ev -> bool) (c : M (World Ev) A) w :
  runs (fun ev => p ev = false) c ->
  (c w).1 <> OutOfFuel /\ now w <= now (c w).2
  /\ Scenarios.count p (c w).2 = Scenarios.count p w.
Proof.
  intros Hc. destruct (Hc w) as (Hf & Hn & evs & Ht & Hq).
  split; [exact Hf|]. split; [exact Hn|].
  unfold Scenarios.count. rewrite Ht, filter_app, length_app.
  rewrite (count_none p evs Hq). lia.
Qed.

(** A loop whose rounds make at most one call of the kind [p] each and
    then sleep for [interval] seconds makes at most one such call per
    [interval] seconds of its [timeout]: none for a [timeout] that is
    not positive, and otherwise [k] calls only if the [k]-th round
    began before the time was up. *)
Lemma poll_rate {Ev St A} (p : Ev -> bool) (timeout interval : Z)
    (body : St -> M (World Ev) (St + A)) (orelse : M (World Ev) A) st w :
  1 <= interval ->
  (forall st w,
     (body st w).1 <> OutOfFuel /\ now w <= now (body st w).2
     /\ (Scenarios.count p (body st w).2 <= Scenarios.count p w + 1)%nat) ->
  runs (fun ev => p ev = false) orelse ->
  let out := bind time_time (fun start =>
               poll (enough timeout) start timeout interval body orelse st) w in
  out.1 <> OutOfFuel
  /\ exists k : nat,
       (Scenarios.count p out.2 <= Scenarios.count p w + k)%nat
       /\ (k = 0%nat \/ interval * (Z.of_nat k - 1) < timeout).
Proof.
  intros Hint Hbody Helse. cbv zeta. unfold bind at 1, time_time at 1.
  apply (poll_rule
           (fun _ w1 =>
              exists k : nat,
                (Scenarios.count p w1 <= Scenarios.count p w + k)%nat
                /\ interval * Z.of_nat k <= now w1 - now w
                /\ (k = 0%nat \/ interval * (Z.of_nat k - 1) < timeout))
           (fun out =>
              out.1 <> OutOfFuel
              /\ exists k : nat,
                   (Scenarios.count p out.2 <= Scenarios.count p w + k)%nat
                   /\ (k = 0%nat \/ interval * (Z.of_nat k - 1) < timeout))
           (now w) timeout interval body orelse Hint).
  - intros st1 w1 (k & Hk & Ht & Hprev) Hlt.
    destruct (Hbody st1 w1) as (Hf & Hn & Hc).
    destruct (body st1 w1) as [[[st2|a]|e|] w2]; cbn [fst snd] in *.
    + split; [exact Hn|]. exists (S k).
      split; [unfold Scenarios.count in *; cbn [trace]; lia|].
      split; [cbn [now]; nia|]. right. nia.
    + split; [discriminate|]. exists (S k). split; [lia|]. right. nia.
    + split; [discriminate|]. exists (S k). split; [lia|]. right. nia.
    + congruence.
  - intros st1 w1 (k & Hk & Ht & Hprev) _.
    destruct (runs_count p orelse w1 Helse) as (Hf & _ & Hc).
    split; [exact Hf|]. exists k. split; [lia|exact Hprev].
  - exists 0%nat. split; [lia|]. split; [lia|]. left. reflexivity.
  - unfold enough. lia.
Qed.

(** [c] ends and makes at most one call of the kind [p]. *)
Definition one_poll {Ev A} (p : Ev -> bool) (c : M (World Ev) A) : Prop :=
  forall w,
    (c w).1 <> OutOfFuel /\ now w <= now (c w).2
    /\ (Scenarios.count p (c w).2 <= Scenarios.count p w + 1)%nat.

Lemma one_poll_call {Ev A} (p : Ev -> bool) latency ev
    (answer : World Ev -> reply A) :
  one_poll p (call latency ev answer).
Proof.
  intros w. unfold call, Scenarios.count. cbn [fst snd now trace].
  split; [destruct (answer w); discriminate|]. split; [lia|].
  rewrite filter_app, length_app.
  pose proof (length_filter p [ev]) as Hle. cbn [length] in Hle. lia.
Qed.

Lemma one_poll_bind {Ev A B} (p : Ev -> bool) (c : M (World Ev) A)
    (k : A -> M (World Ev) B) :
  one_poll p c -> (forall a, runs (fun ev => p ev = false) (k a)) ->
  one_poll p (bind c k).
Proof.
  intros Hc Hk w. unfold bind. destruct (Hc w) as (Hf & Hn & Hcount).
  destruct (c w) as [[a|e|] w1]; cbn [fst snd] in *; [| |congruence].
  - destruct (runs_count p (k a) w1 (Hk a)) as (Hf' & Hn' & Hc').
    split; [exact Hf'|]. split; lia.
  - split; [discriminate|]. split; lia.
Qed.

Lemma one_poll_try_except {Ev A} (p : Ev -> bool) (c : M (World Ev) A)
    catches h :
  one_poll p c -> (forall e, runs (fun ev => p ev = false) (h e)) ->
  one_poll p (try_except c catches h).
Proof.
  intros Hc Hh w. unfold try_except. destruct (Hc w) as (Hf & Hn & Hcount).
  destruct (c w) as [[a|e|] w1]; cbn [fst snd] in *; [| |congruence].
  - split; [discriminate|]. split; lia.
  - destruct (catches e); cbn [fst snd]; [|split; [discriminate|split; lia]].
    destruct (runs_count p (h e) w1 (Hh e)) as (Hf' & Hn' & Hc').
    split; [exact Hf'|]. split; lia.
Qed.

(** *** Strings *)

Lemma prefix_app (p s : string) : String.prefix p (p +:+ s) = true.
Proof.
  induction p as [|c p IH]; [destruct s; reflexivity|].
  change (String c p +:+ s) with (String c (p +:+ s)). cbn [String.prefix].
  destruct (Ascii.ascii_dec c c) as [_|Hne]; [exact IH|congruence].
Qed.

(** *** Sorting and slicing *)

Section Sorting.

Context {A : Type} (key : A -> Q).

(** [a] is not dearer than [b]. *)
Definition key_le (a b : A) : Prop := (key a <= key b)%Q.

Lemma insert_by_perm x l : Permutation (insert_by key x l) (x :: l).
Proof.
  induction l as [|y l IH]; cbn; [reflexivity|].
  destruct (Qle_bool (key x) (key y)); [reflexivity|].
  rewrite IH. apply perm_swap.
Qed.

Lemma sort_by_perm l : Permutation (sort_by key l) l.
Proof.
  induction l as [|x l IH]; cbn; [reflexivity|].
  rewrite insert_by_perm. constructor. exact IH.
Qed.

Lemma insert_by_sorted x l :
  StronglySorted key_le l -> StronglySorted key_le (insert_by key x l).
Proof.
  induction 1 as [|y l Hs IH Hy]; cbn.
  - repeat constructor.
  - destruct (Qle_bool (key x) (key y)) eqn:Hle.
    + apply Qle_bool_iff in Hle.
      constructor; [constructor; assumption|].
      constructor; [exact Hle|].
      eapply Forall_impl; [exact Hy|]. unfold key_le. intros z Hz.
      eapply Qle_trans; eassumption.
    + assert (Hyx : (key y <= key x)%Q).
      { apply Qlt_le_weak, Qnot_le_lt. intros Hxy.
        apply Qle_bool_iff in Hxy. congruence. }
      constructor; [exact IH|].
      eapply Permutation_Forall; [symmetry; apply insert_by_perm|].
      constructor; assumption.
Qed.

Lemma sort_by_sorted l : StronglySorted key_le (sort_by key l).
Proof.
  induction l as [|x l IH]; cbn; [constructor|].
  apply insert_by_sorted. exact IH.
Qed.

Lemma sort_by_In x l : In x (sort_by key l) <-> In x l.
Proof.
  split; apply Permutation_in; [|symmetry]; apply sort_by_perm.
Qed.

End Sorting.

(** The sort is stable: entries with the same key stay in the order
    they came in. *)
Lemma filter_insert_by {A} (key : A -> Q) (q : Q) x l :
  filter (fun z => Qeq_bool (key z) q = true) (insert_by key x l)
  = filter (fun z => Qeq_bool (key z) q = true) (x :: l).
Proof.
  induction l as [|y l IH]; [reflexivity|]. cbn [insert_by].
  destruct (Qle_bool (key x) (key y)) eqn:Hle; [reflexivity|].
  rewrite filter_cons, IH, !filter_cons.
  destruct (decide (Qeq_bool (key y) q = true)) as [Hy|Hy];
    destruct (decide (Qeq_bool (key x) q = true)) as [Hx|Hx]; try reflexivity.
  apply Qeq_bool_iff in Hx, Hy.
  assert (Hxy : Qle_bool (key x) (key y) = true).
  { apply Qle_bool_iff. rewrite Hx, Hy. apply Qle_refl. }
  congruence.
Qed.

Lemma sort_by_stable {A} (key : A -> Q) (q : Q) l :
  filter (fun z => Qeq_bool (key z) q = true) (sort_by key l)
  = filter (fun z => Qeq_bool (key z) q = true) l.
Proof.
  induction l as [|x l IH]; [reflexivity|].
  cbn [sort_by fold_right]. fold (sort_by key l).
  rewrite filter_insert_by, !filter_cons, IH. reflexivity.
Qed.

(** [sort_by_opt] sorts as [sort_by] does when it sorts at all, and
    fails exactly on a list of two or more entries one of which has no
    key. *)
Lemma sort_by_opt_Some {A} (key : A -> option Q) l l' :
  sort_by_opt key l = Some l' ->
  l' = sort_by (fun x => default 0%Q (key x)) l.
Proof.
  unfold sort_by_opt. destruct l as [|x [|y l]].
  - intros [= <-]. reflexivity.
  - intros [= <-]. reflexivity.
  - destruct (forallb _ _); [|discriminate]. intros [= <-]. reflexivity.
Qed.

Lemma sort_by_opt_None {A} (key : A -> option Q) l :
  sort_by_opt key l = None
  <-> (2 <= length l)%nat /\ exists x, In x l /\ key x = None.
Proof.
  assert (Hall : forall k : list A,
             forallb (fun x => bool_decide (is_Some (key x))) k = false
             <-> exists x, In x k /\ key x = None).
  { intros k. rewrite <- not_true_iff_false, forallb_forall. split.
    - intros Hn. induction k as [|x k IH]; [exfalso; apply Hn; intros ? []|].
      destruct (key x) as [q|] eqn:Hx.
      + destruct IH as (y & Hy & Hky).
        * intros Hk. apply Hn. intros z [<-|Hz]; [|auto].
          rewrite Hx. apply bool_decide_eq_true_2. eauto.
        * exists y. split; [right; exact Hy|exact Hky].
      + exists x. split; [left; reflexivity|exact Hx].
    - intros (x & Hx & Hkx) Hk. specialize (Hk x Hx).
      apply bool_decide_eq_true_1 in Hk. rewrite Hkx in Hk.
      destruct Hk as [? Hk]. discriminate. }
  unfold sort_by_opt. destruct l as [|x [|y l]].
  - split; [discriminate|]. cbn. lia.
  - split; [discriminate|]. cbn. lia.
  - destruct (forallb _ (x :: y :: l)) eqn:Hf.
    + split; [discriminate|]. intros [_ Hex]. apply Hall in Hex. congruence.
    + split; [|reflexivity]. intros _. split; [cbn; lia|]. apply Hall. exact Hf.
Qed.

Lemma sublist_map_filter {A B} (f : A -> B) (P : A -> Prop)
    `{forall x, Decision (P x)} (l k : list A) :
  sublist l k -> sublist (map f (filter P l)) (map f (filter P k)).
Proof.
  induction 1 as [|x l k Hs IH|x l k Hs IH]; [constructor| |].
  - rewrite !filter_cons. destruct (decide (P x)); [cbn [map]; constructor|];
      exact IH.
  - rewrite filter_cons. destruct (decide (P x)); [cbn [map]; constructor|];
      exact IH.
Qed.

Lemma filter_slice_to_prefix {A} (P : A -> Prop) `{forall x, Decision (P x)}
    (n : Z) (l : list A) :
  filter P (slice_to n l) `prefix_of` filter P l.
Proof.
  assert (Hfirst : forall k, filter P (firstn k l) `prefix_of` filter P l).
  { intros k. exists (filter P (skipn k l)).
    rewrite <- filter_app, firstn_skipn. reflexivity. }
  unfold slice_to. destruct (0 <=? n); apply Hfirst.
Qed.

Lemma firstn_In {A} (x : A) n : forall l, In x (firstn n l) -> In x l.
Proof.
  induction n as [|n IH]; intros [|y l]; cbn; try tauto.
  intros [H|H]; [left; exact H|right; apply IH; exact H].
Qed.

Lemma firstn_sorted {A} (R : A -> A -> Prop) n : forall l,
  StronglySorted R l -> StronglySorted R (firstn n l).
Proof.
  induction n as [|n IH]; intros l Hs; [constructor|].
  destruct Hs as [|x l Hs Hx]; cbn; [constructor|].
  constructor; [apply IH; assumption|].
  rewrite List.Forall_forall in *. intros y Hy. apply Hx.
  eapply firstn_In; eassumption.
Qed.

Lemma slice_to_In {A} (n : Z) (l : list A) x : In x (slice_to n l) -> In x l.
Proof. unfold slice_to. destruct (0 <=? n); apply firstn_In. Qed.

Lemma slice_to_sorted {A} (R : A -> A -> Prop) n l :
  StronglySorted R l -> StronglySorted R (slice_to n l).
Proof. unfold slice_to. destruct (0 <=? n); apply firstn_sorted. Qed.

Lemma slice_to_length {A} (n : Z) (l : list A) :
  0 <= n -> (length (slice_to n l) <= Z.to_nat n)%nat.
Proof.
  intros Hn. unfold slice_to.
  replace (0 <=? n) with true by (symmetry; apply Z.leb_le; assumption).
  rewrite length_firstn. lia.
Qed.

Lemma slice_to_nil {A} (n : Z) : slice_to n (@nil A) = [].
Proof. unfold slice_to. destruct (0 <=? n); apply firstn_nil. Qed.

End PyProps.

Import PyProps.

Create HintDb runs.

#[export] Hint Resolve runs_ret runs_raise runs_raise_cls runs_sys_exit
  runs_time_time runs_emit : runs.

(** ** The job API *)

Module ServerProps.

Import Server.

Lemma create_job_unfold request uuid4 now s :
  create_job request uuid4 now s =
  let id := requested_id request uuid4 in
  match JOBS s !! id with
  | Some _ =>
      (Raise (mk_exn (HTTPException 409) ("Job " +:+ id +:+ " already exists")), s)
  | None =>
      if models_ready_file_exists s then
        (Ret (mk_JobResponse id "pending"
                ("Job " +:+ id +:+ " created. Use GET /job/" +:+ id
                 +:+ " to check progress.")),
         mk_state
           (<[id := mk_job "pending" (input_url request) (interval_cut request)
                      (all_stems request) now None None None]> (JOBS s))
           (models_ready_file_exists s)
           (background_tasks s ++
              [mk_task id (input_url request) (interval_cut request)
                 (all_stems request)]))
      else
        (Raise (mk_exn (HTTPException 503) "Models not ready yet. Please wait."), s)
  end.
Proof.
  destruct s as [jobs ready tasks].
  unfold create_job, requested_id, check_models_ready.
  unfold bind, get, raise_cls, raise, modify, ret; cbv zeta.
  cbn [JOBS models_ready_file_exists background_tasks].
  destruct (jobs !! _) as [j|] eqn:Hj.
  - rewrite bool_decide_eq_true_2 by eauto. reflexivity.
  - rewrite bool_decide_eq_false_2 by (intros [? ?]; congruence).
    destruct ready; reflexivity.
Qed.

(** C10.  A request to [POST /job] creates a job record, with status
    [pending], exactly when the models-ready file exists and the id the
    request is filed under is not a key of [JOBS].  A taken id is
    answered with 409 and missing models with 503, in both cases with
    the state as it was; [GET /health] answers 200 whatever the state,
    missing models included. *)
Theorem create_job_iff_ready_and_fresh
    (request : JobRequest) (uuid4 now timestamp : string) (s : state) :
  let id := requested_id request uuid4 in
  let out := create_job request uuid4 now s in
  ((exists resp, out.1 = Ret resp) <->
     (models_ready_file_exists s = true /\ JOBS s !! id = None))
  /\ ((models_ready_file_exists s = true /\ JOBS s !! id = None) ->
        (exists resp, out.1 = Ret resp /\ resp_job_id resp = id
                      /\ resp_status resp = "pending")
        /\ JOBS out.2 =
             <[id := mk_job "pending" (input_url request) (interval_cut request)
                       (all_stems request) now None None None]> (JOBS s)
        /\ status <$> (JOBS out.2 !! id) = Some "pending")
  /\ (is_Some (JOBS s !! id) -> http_status out.1 = 409 /\ out.2 = s)
  /\ (JOBS s !! id = None -> models_ready_file_exists s = false ->
        http_status out.1 = 503 /\ out.2 = s)
  /\ (http_status (health_check timestamp s).1 = 200
      /\ (health_check timestamp s).2 = s).
Proof.
  intros id out. subst out. rewrite create_job_unfold. cbv zeta. fold id.
  destruct (JOBS s !! id) as [j|] eqn:Hj;
    [|destruct (models_ready_file_exists s) eqn:Hr];
    cbn [fst snd http_status exn_cls JOBS health_check ret].
  all: repeat split; intros; try reflexivity;
    repeat match goal with
           | H : _ /\ _ |- _ => destruct H
           | H : ex _ |- _ => destruct H
           | H : is_Some _ |- _ => destruct H
           end;
    try discriminate; eauto.
  rewrite lookup_insert_eq. reflexivity.
Qed.

(** *** The handlers that only read *)

Lemma get_job_status_reads job_id file s : (get_job_status job_id file s).2 = s.
Proof.
  unfold get_job_status, bind, get. cbn.
  destruct (JOBS s !! job_id) as [j|]; [|reflexivity].
  destruct (String.eqb (status j) "running");
    [|destruct (String.eqb (status j) "completed")];
    try reflexivity; destruct file as [| |p|[|]]; reflexivity.
Qed.

Lemma get_result_reads job_id file result_file exists_ available s :
  (get_result job_id file result_file exists_ available s).2 = s.
Proof.
  unfold get_result, bind, get. cbn.
  destruct (JOBS s !! job_id) as [j|]; [|reflexivity].
  destruct (String.eqb (status j) "completed"); [|reflexivity].
  destruct exists_; reflexivity.
Qed.

Lemma get_status_reads uptime s : (get_status uptime s).2 = s.
Proof. reflexivity. Qed.

(** *** The host *)

Lemma set_item_present job_id f h j :
  JOBS (app h) !! job_id = Some j ->
  set_item job_id f h =
  (Ret tt,
   mk_host
     (mk_state (<[job_id := f j]> (JOBS (app h)))
        (models_ready_file_exists (app h)) (background_tasks (app h)))
     (job_dirs h)).
Proof.
  intros Hj. unfold set_item, bind, get. cbn. rewrite Hj. reflexivity.
Qed.

Lemma set_item_absent job_id f h :
  JOBS (app h) !! job_id = None ->
  set_item job_id f h = (Raise (mk_exn KeyError ("'" +:+ job_id +:+ "'")), h).
Proof.
  intros Hj. unfold set_item, bind, get. cbn. rewrite Hj. reflexivity.
Qed.

(** [c] leaves the entry of [job_id] alone. *)
Definition spares {A} (job_id : string) (c : M host A) : Prop :=
  forall h, JOBS (app (c h).2) !! job_id = JOBS (app h) !! job_id.

Lemma spares_ret {A} job_id (a : A) : spares job_id (ret a).
Proof. intros h. reflexivity. Qed.

Lemma spares_raise {A} job_id e : spares job_id (@raise host A e).
Proof. intros h. reflexivity. Qed.

Lemma spares_bind {A B} job_id (c : M host A) (k : A -> M host B) :
  spares job_id c -> (forall a, spares job_id (k a)) -> spares job_id (bind c k).
Proof.
  intros Hc Hk h. unfold bind. specialize (Hc h).
  destruct (c h) as [[a|e|] h1]; cbn [snd] in *; try exact Hc.
  rewrite Hk. exact Hc.
Qed.

Lemma spares_try_except {A} job_id (c : M host A) catches handler :
  spares job_id c -> (forall e, spares job_id (handler e)) ->
  spares job_id (try_except c catches handler).
Proof.
  intros Hc Hh h. unfold try_except. specialize (Hc h).
  destruct (c h) as [[a|e|] h1]; cbn [snd] in *; try exact Hc.
  destruct (catches e); [|exact Hc]. rewrite Hh. exact Hc.
Qed.

Lemma spares_set_item job_id other f :
  other <> job_id -> spares job_id (set_item other f).
Proof.
  intros Hne h. destruct (JOBS (app h) !! other) as [j|] eqn:Hj.
  - rewrite (set_item_present _ _ _ _ Hj). cbn.
    apply lookup_insert_ne. exact Hne.
  - rewrite (set_item_absent _ _ _ Hj). reflexivity.
Qed.

Lemma spares_mkdir job_id other made : spares job_id (mkdir other made).
Proof. intros h. destruct made; reflexivity. Qed.

Lemma spares_started_suite job_id other started made :
  other <> job_id -> spares job_id (started_suite other started made).
Proof.
  intros Hne. unfold started_suite.
  apply spares_bind; [apply spares_mkdir|intros _].
  apply spares_bind; intros; apply spares_set_item; exact Hne.
Qed.

Lemma spares_exited_suite job_id other completed out :
  other <> job_id -> spares job_id (exited_suite other completed out).
Proof.
  intros Hne. unfold exited_suite. destruct out as [returncode stdout].
  destruct (returncode =? 0);
    (apply spares_bind; [apply spares_set_item; exact Hne|intros _]);
    [apply spares_set_item; exact Hne|].
  destruct stdout; try (apply spares_set_item; exact Hne). apply spares_raise.
Qed.

Lemma spares_except_suite job_id other e :
  other <> job_id -> spares job_id (except_suite other e).
Proof.
  intros Hne. unfold except_suite.
  apply spares_bind; intros; apply spares_set_item; exact Hne.
Qed.

(** No request touches the entry of a job that is running. *)
Lemma handle_spares_running job_id j r h :
  JOBS (app h) !! job_id = Some j -> status j = "running" ->
  JOBS (app (handle r h).2) !! job_id = Some j.
Proof.
  intros Hj Hrun. destruct h as [s dirs]. cbn [app] in Hj.
  destruct r as [request uuid4 now|id file|id file result_file exists_ available
                |uptime|timestamp|id]; unfold handle, on_app; cbn [app job_dirs].
  - rewrite create_job_unfold. cbv zeta.
    destruct (JOBS s !! requested_id request uuid4) as [j'|] eqn:Hid;
      [exact Hj|].
    destruct (models_ready_file_exists s); [|exact Hj].
    cbn. rewrite lookup_insert_ne; [exact Hj|]. congruence.
  - pose proof (get_job_status_reads id file s) as Hr.
    destruct (get_job_status id file s) as [out s']. cbn in *. subst s'. exact Hj.
  - pose proof (get_result_reads id file result_file exists_ available s) as Hr.
    destruct (get_result id file result_file exists_ available s) as [out s'].
    cbn in *. subst s'. exact Hj.
  - exact Hj.
  - exact Hj.
  - unfold delete_job, bind, get. cbn.
    destruct (JOBS s !! id) as [j'|] eqn:Hid; [|exact Hj].
    destruct (String.eqb (status j') "running") eqn:Hst; [exact Hj|].
    cbn. rewrite lookup_delete_ne; [exact Hj|].
    intros ->. rewrite Hj in Hid. injection Hid as <-.
    rewrite Hrun in Hst. discriminate.
Qed.

Lemma act_returns a h : (act a h).1 = Ret tt.
Proof. destruct a; reflexivity. Qed.

Lemma act_spares_running job_id j a h :
  task_of a <> Some job_id ->
  JOBS (app h) !! job_id = Some j -> status j = "running" ->
  JOBS (app (act a h).2) !! job_id = Some j.
Proof.
  intros Hne Hj Hrun.
  destruct a as [r|id started made|id completed out|id e];
    cbn [act snd task_of] in *.
  - apply handle_spares_running; assumption.
  - rewrite spares_started_suite; [exact Hj|congruence].
  - rewrite spares_try_except; [exact Hj| |].
    + apply spares_exited_suite. congruence.
    + intros e. apply spares_except_suite. congruence.
  - rewrite spares_try_except; [exact Hj|apply spares_raise|].
    intros e'. apply spares_except_suite. congruence.
Qed.

Lemma acts_spares_running job_id j l : forall h,
  Forall (fun a => task_of a <> Some job_id) l ->
  JOBS (app h) !! job_id = Some j -> status j = "running" ->
  (acts l h).1 = Ret tt /\ JOBS (app (acts l h).2) !! job_id = Some j.
Proof.
  induction l as [|a l IH]; intros h Hl Hj Hrun; cbn [acts].
  - split; [reflexivity|exact Hj].
  - apply Forall_cons in Hl as [Ha Hl].
    unfold bind. pose proof (act_returns a h) as Hr.
    pose proof (act_spares_running job_id j a h Ha Hj Hrun) as Hj1.
    destruct (act a h) as [out h1]. cbn [fst snd] in *. subst out.
    apply IH; assumption.
Qed.

Lemma set_item_twice job_id f g h j :
  JOBS (app h) !! job_id = Some j ->
  ((set_item job_id f ;; set_item job_id g) h).1 = Ret tt
  /\ JOBS (app ((set_item job_id f ;; set_item job_id g) h).2) !! job_id
     = Some (g (f j)).
Proof.
  intros Hj. unfold bind. rewrite (set_item_present _ _ _ _ Hj).
  rewrite (set_item_present _ _ _ (f j)) by (cbn; apply lookup_insert_eq).
  cbn. split; [reflexivity|apply lookup_insert_eq].
Qed.

(** A [mkdir] that the file system refuses ends the task before it has
    written anything. *)
Lemma started_suite_refused job_id started e h :
  started_suite job_id started (Fail e) h = (Raise e, h).
Proof. reflexivity. Qed.

Lemma started_suite_present job_id started u h j :
  JOBS (app h) !! job_id = Some j ->
  (started_suite job_id started (Ok u) h).1 = Ret tt
  /\ JOBS (app (started_suite job_id started (Ok u) h).2) !! job_id
     = Some (with_started_at started (with_status "running" j)).
Proof.
  intros Hj. unfold started_suite, mkdir. unfold bind at 1, modify.
  unfold bind at 2.
  apply (set_item_twice job_id _ _ (mk_host (app h) ({[job_id]} ∪ job_dirs h))).
  exact Hj.
Qed.

Lemma started_suite_absent job_id started u h :
  JOBS (app h) !! job_id = None ->
  started_suite job_id started (Ok u) h =
  (Raise (mk_exn KeyError ("'" +:+ job_id +:+ "'")),
   mk_host (app h) ({[job_id]} ∪ job_dirs h)).
Proof.
  intros Hj. unfold started_suite, mkdir, bind, modify.
  rewrite set_item_absent by exact Hj. reflexivity.
Qed.

(** The error the task files for an exit code that is not 0. *)
Definition failure_text (stdout : captured) : string :=
  match stdout with
  | NoBytes => "Unknown error"
  | Text text => text
  | Garbled msg => msg
  end.

(** What the task makes of a job once the subprocess has exited. *)
Definition exited (completed : string) (out : Z * captured) (j : job) : job :=
  if out.1 =? 0
  then with_completed_at completed (with_status "completed" j)
  else with_error (failure_text out.2) (with_status "failed" j).

(** The [try] of the task from the return of [communicate] on, with its
    [except]: an output that does not decode is filed as the error of
    the decoding. *)
Definition task_end (job_id completed : string) (out : Z * captured)
    : M host unit :=
  try_except (exited_suite job_id completed out) is_Exception
    (except_suite job_id).

Lemma set_item_twice_run job_id f g h j :
  JOBS (app h) !! job_id = Some j ->
  (set_item job_id f ;; set_item job_id g) h =
  (Ret tt,
   mk_host
     (mk_state (<[job_id := g (f j)]> (JOBS (app h)))
        (models_ready_file_exists (app h)) (background_tasks (app h)))
     (job_dirs h)).
Proof.
  intros Hj. unfold bind. rewrite (set_item_present _ _ _ _ Hj).
  rewrite (set_item_present _ _ _ (f j)) by (cbn; apply lookup_insert_eq).
  cbn. rewrite insert_insert_eq. reflexivity.
Qed.

Lemma task_end_run job_id completed out h j :
  JOBS (app h) !! job_id = Some j ->
  task_end job_id completed out h =
  (Ret tt,
   mk_host
     (mk_state (<[job_id := exited completed out j]> (JOBS (app h)))
        (models_ready_file_exists (app h)) (background_tasks (app h)))
     (job_dirs h)).
Proof.
  intros Hj. destruct out as [returncode stdout].
  unfold task_end, try_except, exited_suite, exited. cbn [fst snd].
  destruct (returncode =? 0).
  - rewrite (set_item_twice_run _ _ _ _ _ Hj). reflexivity.
  - destruct stdout as [|text|msg]; cbn [failure_text].
    + rewrite (set_item_twice_run _ _ _ _ _ Hj). reflexivity.
    + rewrite (set_item_twice_run _ _ _ _ _ Hj). reflexivity.
    + unfold bind at 1. rewrite (set_item_present _ _ _ _ Hj).
      cbn [raise_cls raise is_Exception exn_cls].
      unfold except_suite.
      rewrite (set_item_twice_run job_id _ _ _ (with_status "failed" j))
        by (cbn; apply lookup_insert_eq).
      cbn [fst snd app JOBS exn_str models_ready_file_exists background_tasks
           job_dirs].
      rewrite insert_insert_eq. reflexivity.
Qed.

Lemma task_end_jobs job_id completed out h j :
  JOBS (app h) !! job_id = Some j ->
  (task_end job_id completed out h).1 = Ret tt
  /\ JOBS (app (task_end job_id completed out h).2)
     = <[job_id := exited completed out j]> (JOBS (app h)).
Proof.
  intros Hj. rewrite (task_end_run _ _ _ _ _ Hj). split; reflexivity.
Qed.

Lemma task_end_present job_id completed out h j :
  JOBS (app h) !! job_id = Some j ->
  (task_end job_id completed out h).1 = Ret tt
  /\ JOBS (app (task_end job_id completed out h).2) !! job_id
     = Some (exited completed out j).
Proof.
  intros Hj. destruct (task_end_jobs job_id completed out h j Hj) as [Hr Hjobs].
  split; [exact Hr|]. rewrite Hjobs. apply lookup_insert_eq.
Qed.

Lemma except_suite_present job_id e h j :
  JOBS (app h) !! job_id = Some j ->
  (except_suite job_id e h).1 = Ret tt
  /\ JOBS (app (except_suite job_id e h).2) !! job_id
     = Some (with_error (exn_str e) (with_status "failed" j)).
Proof. intros Hj. unfold except_suite. apply set_item_twice. exact Hj. Qed.

Lemma delete_job_unfold job_id h :
  delete_job job_id h =
  match JOBS (app h) !! job_id with
  | None =>
      (Raise (mk_exn (HTTPException 404) ("Job " +:+ job_id +:+ " not found")), h)
  | Some job =>
      if String.eqb (status job) "running" then
        (Raise (mk_exn (HTTPException 400) "Cannot delete running job"), h)
      else
        (Ret ("deleted", job_id),
         mk_host
           (mk_state (delete job_id (JOBS (app h)))
              (models_ready_file_exists (app h)) (background_tasks (app h)))
           (job_dirs h ∖ {[job_id]}))
  end.
Proof.
  unfold delete_job, bind, get. cbn.
  destruct (JOBS (app h) !! job_id) as [j|]; [|reflexivity].
  destruct (String.eqb (status j) "running"); reflexivity.
Qed.

Lemma get_job_status_unknown job_id file s :
  JOBS s !! job_id = None ->
  http_status (get_job_status job_id file s).1 = 404.
Proof.
  intros Hj. unfold get_job_status, bind, get. cbn. rewrite Hj. reflexivity.
Qed.

Lemma get_result_unknown job_id file result_file exists_ available s :
  JOBS s !! job_id = None ->
  http_status (get_result job_id file result_file exists_ available s).1 = 404.
Proof.
  intros Hj. unfold get_result, bind, get. cbn. rewrite Hj. reflexivity.
Qed.

(** *** Counting jobs *)

Definition one_if (b : bool) : Z := if b then 1 else 0.

Lemma count_status_insert_fresh st (m : gmap string job) i x :
  m !! i = None ->
  count_status st (<[i := x]> m)
  = one_if (String.eqb (status x) st) + count_status st m.
Proof.
  intros Hi. unfold count_status.
  rewrite (Permutation_length
             (filter_Permutation _ _ _ (map_to_list_insert m i x Hi))).
  rewrite filter_cons. cbn [snd].
  destruct (decide (String.eqb (status x) st = true)) as [Hx|Hx].
  - rewrite Hx. cbn [length one_if]. lia.
  - destruct (String.eqb (status x) st); [congruence|]. cbn [one_if]. lia.
Qed.

Lemma count_status_present st (m : gmap string job) i j :
  m !! i = Some j ->
  count_status st m
  = one_if (String.eqb (status j) st) + count_status st (delete i m).
Proof.
  intros Hi. rewrite <- (insert_delete_id m i j Hi) at 1.
  apply count_status_insert_fresh. apply lookup_delete_eq.
Qed.

Lemma count_status_update st (m : gmap string job) i j x :
  m !! i = Some j ->
  count_status st (<[i := x]> m)
  = count_status st m - one_if (String.eqb (status j) st)
    + one_if (String.eqb (status x) st).
Proof.
  intros Hi. rewrite (count_status_present st m i j Hi).
  rewrite <- (insert_delete_eq m i x).
  rewrite count_status_insert_fresh by apply lookup_delete_eq. lia.
Qed.

(** [JOBS] after two writes to a job that is there. *)
Lemma set_item_twice_jobs job_id f g h j :
  JOBS (app h) !! job_id = Some j ->
  JOBS (app ((set_item job_id f ;; set_item job_id g) h).2)
  = <[job_id := g (f j)]> (JOBS (app h)).
Proof.
  intros Hj. unfold bind. rewrite (set_item_present _ _ _ _ Hj).
  rewrite (set_item_present _ _ _ (f j)) by (cbn; apply lookup_insert_eq).
  cbn. apply insert_insert_eq.
Qed.

Lemma started_suite_jobs job_id started u h j :
  JOBS (app h) !! job_id = Some j ->
  JOBS (app (started_suite job_id started (Ok u) h).2)
  = <[job_id := with_started_at started (with_status "running" j)]>
      (JOBS (app h)).
Proof.
  intros Hj. unfold started_suite, mkdir. unfold bind at 1, modify.
  apply (set_item_twice_jobs job_id _ _
           (mk_host (app h) ({[job_id]} ∪ job_dirs h))).
  exact Hj.
Qed.

(** [run_demucs_job] is its first suite followed by the subprocess and
    the end of the task, with the [except] around both. *)
Lemma run_demucs_job_returned job_id input_url interval_cut all_stems job_dir
    started completed made subprocess h h1 out h2 :
  started_suite job_id started made h = (Ret tt, h1) ->
  subprocess (command job_dir input_url interval_cut all_stems) h1
  = (Ret out, h2) ->
  run_demucs_job job_id input_url interval_cut all_stems job_dir started
    completed made subprocess h
  = task_end job_id completed out h2.
Proof.
  intros Hstart Hsub. unfold run_demucs_job, task_end.
  unfold bind at 1. rewrite Hstart. cbv zeta.
  unfold try_except, bind. rewrite Hsub. reflexivity.
Qed.

(** The task of a job that is there, with nothing else going on. *)
Lemma run_demucs_job_alone job_id input_url interval_cut all_stems job_dir
    started completed u out h j :
  JOBS (app h) !! job_id = Some j ->
  (run_demucs_job job_id input_url interval_cut all_stems job_dir started
     completed (Ok u) (fun _ => ret out) h).1 = Ret tt
  /\ JOBS (app (run_demucs_job job_id input_url interval_cut all_stems job_dir
                  started completed (Ok u) (fun _ => ret out) h).2)
       !! job_id
     = Some (exited completed out
               (with_started_at started (with_status "running" j))).
Proof.
  intros Hj.
  destruct (started_suite_present job_id started u h j Hj) as [Hr1 Hj1].
  destruct (started_suite job_id started (Ok u) h) as [o1 h1] eqn:Hstart.
  cbn [fst snd] in Hr1, Hj1. subst o1.
  rewrite (run_demucs_job_returned _ _ _ _ _ _ _ _ _ h h1 out h1 Hstart eq_refl).
  apply task_end_present. exact Hj1.
Qed.

(** [get_result] on a job that is there. *)
Lemma get_result_known job_id file result_file exists_ available s j :
  JOBS s !! job_id = Some j ->
  http_status (get_result job_id file result_file exists_ available s).1
  = if String.eqb (status j) "completed"
    then if exists_ then 200 else 404
    else 400.
Proof.
  intros Hj. unfold get_result, bind, get. cbn [fst]. rewrite Hj.
  destruct (String.eqb (status j) "completed"); cbn [negb]; [|reflexivity].
  destruct exists_; reflexivity.
Qed.

(** *** What every job of the table satisfies *)

Definition valid_status (st : string) : Prop :=
  In st ["pending"; "running"; "completed"; "failed"].

(** Every job has one of the four statuses, and a task was queued under
    its id. *)
Definition table_ok (h : host) : Prop :=
  forall id j,
    JOBS (app h) !! id = Some j ->
    valid_status (status j)
    /\ In id (map task_job_id (background_tasks (app h))).

Definition preserves {A} (c : M host A) : Prop :=
  forall h, table_ok h -> table_ok (c h).2.

Lemma preserves_ret {A} (a : A) : preserves (ret a).
Proof. intros h Hok. exact Hok. Qed.

Lemma preserves_raise {A} e : preserves (@raise host A e).
Proof. intros h Hok. exact Hok. Qed.

Lemma preserves_bind {A B} (c : M host A) (k : A -> M host B) :
  preserves c -> (forall a, preserves (k a)) -> preserves (bind c k).
Proof.
  intros Hc Hk h Hok. unfold bind. specialize (Hc h Hok).
  destruct (c h) as [[a|e|] h1]; cbn [snd] in *; try exact Hc.
  apply Hk. exact Hc.
Qed.

Lemma preserves_try_except {A} (c : M host A) catches handler :
  preserves c -> (forall e, preserves (handler e)) ->
  preserves (try_except c catches handler).
Proof.
  intros Hc Hh h Hok. unfold try_except. specialize (Hc h Hok).
  destruct (c h) as [[a|e|] h1]; cbn [snd] in *; try exact Hc.
  destruct (catches e); [|exact Hc]. apply Hh. exact Hc.
Qed.

Lemma preserves_set_item job_id f :
  (forall j, valid_status (status j) -> valid_status (status (f j))) ->
  preserves (set_item job_id f).
Proof.
  intros Hf h Hok. destruct (JOBS (app h) !! job_id) as [j|] eqn:Hj.
  - rewrite (set_item_present _ _ _ _ Hj). cbn [snd].
    intros id j'. cbn [app JOBS background_tasks]. intros Hl.
    apply lookup_insert_Some in Hl as [[<- <-]|[Hne Hl]].
    + destruct (Hok job_id j Hj) as [Hv Hq]. split; [apply Hf; exact Hv|exact Hq].
    + apply Hok. exact Hl.
  - rewrite (set_item_absent _ _ _ Hj). exact Hok.
Qed.

Lemma valid_running : valid_status "running".
Proof. right. left. reflexivity. Qed.

Lemma valid_completed : valid_status "completed".
Proof. right. right. left. reflexivity. Qed.

Lemma valid_failed : valid_status "failed".
Proof. right. right. right. left. reflexivity. Qed.

Lemma preserves_set_status job_id v :
  valid_status v -> preserves (set_item job_id (with_status v)).
Proof.
  intros Hv. apply preserves_set_item. intros j _. exact Hv.
Qed.

Lemma preserves_set_other job_id f :
  (forall j, status (f j) = status j) -> preserves (set_item job_id f).
Proof.
  intros Hf. apply preserves_set_item. intros j. rewrite Hf. tauto.
Qed.

Lemma preserves_started_suite job_id started made :
  preserves (started_suite job_id started made).
Proof.
  unfold started_suite.
  apply preserves_bind; [intros h Hok; destruct made; exact Hok|].
  intros _. apply preserves_bind; [apply preserves_set_status, valid_running|].
  intros _. apply preserves_set_other. reflexivity.
Qed.

Lemma preserves_exited_suite job_id completed out :
  preserves (exited_suite job_id completed out).
Proof.
  unfold exited_suite. destruct out as [returncode stdout].
  destruct (returncode =? 0); apply preserves_bind;
    try (apply preserves_set_status; [apply valid_completed || apply valid_failed]);
    intros _; [apply preserves_set_other; reflexivity|].
  destruct stdout; try (apply preserves_set_other; reflexivity).
  apply preserves_raise.
Qed.

Lemma preserves_except_suite job_id e : preserves (except_suite job_id e).
Proof.
  unfold except_suite. apply preserves_bind;
    [apply preserves_set_status, valid_failed|].
  intros _. apply preserves_set_other. reflexivity.
Qed.

Lemma preserves_handle r : preserves (handle r).
Proof.
  intros h Hok. destruct h as [s dirs].
  destruct r as [request uuid4 now|id file|id file result_file exists_ available
                |uptime|timestamp|id]; unfold handle, on_app; cbn [app job_dirs].
  - rewrite create_job_unfold. cbv zeta.
    destruct (JOBS s !! requested_id request uuid4) as [j'|] eqn:Hid;
      [exact Hok|].
    destruct (models_ready_file_exists s); [|exact Hok].
    cbn. intros id j Hl. cbn [app JOBS background_tasks] in *.
    rewrite map_app, in_app_iff. cbn [map task_job_id In].
    apply lookup_insert_Some in Hl as [[<- <-]|[Hne Hl]].
    + split; [left; reflexivity|right; left; reflexivity].
    + destruct (Hok id j Hl) as [Hv Hq]. split; [exact Hv|left; exact Hq].
  - pose proof (get_job_status_reads id file s) as Hr.
    destruct (get_job_status id file s) as [out s']. cbn in *. subst s'. exact Hok.
  - pose proof (get_result_reads id file result_file exists_ available s) as Hr.
    destruct (get_result id file result_file exists_ available s) as [out s'].
    cbn in *. subst s'. exact Hok.
  - exact Hok.
  - exact Hok.
  - rewrite delete_job_unfold. cbn [app job_dirs].
    destruct (JOBS s !! id) as [j'|] eqn:Hid; [|exact Hok].
    destruct (String.eqb (status j') "running"); [exact Hok|].
    cbn. intros id' j Hl. cbn [app JOBS background_tasks] in *.
    apply lookup_delete_Some in Hl as [_ Hl].
    apply (Hok id' j Hl).
Qed.

Lemma preserves_act a : preserves (act a).
Proof.
  intros h Hok.
  destruct a as [r|job_id started made|job_id completed out|job_id e];
    unfold act; cbn [snd].
  - apply preserves_handle. exact Hok.
  - apply preserves_started_suite. exact Hok.
  - apply preserves_try_except;
      [apply preserves_exited_suite|apply preserves_except_suite|exact Hok].
  - apply preserves_try_except;
      [apply preserves_raise|apply preserves_except_suite|exact Hok].
Qed.

Lemma preserves_acts l : preserves (acts l).
Proof.
  induction l as [|a l IH]; cbn [acts]; [apply preserves_ret|].
  apply preserves_bind; [apply preserves_act|intros _; exact IH].
Qed.

End ServerProps.

(** Steps through a computation built from the combinators above. *)
Ltac runs_go :=
  repeat first
    [ assumption
    | solve [auto with runs]
    | progress cbv zeta
    | apply runs_time_sleep; lia
    | apply runs_emit; exact I
    | apply runs_call; exact I
    | apply runs_bind; [|intros]
    | apply runs_try_except; [|intros]
    | match goal with
      | |- runs _ (if ?b then _ else _) => destruct b
      | |- runs _ (match ?x with _ => _ end) => destruct x
      end ].

(** ** The Vast.ai client *)

Module VastAIProps.

Import VastAI.

(** Events other than a destroy call and the "Instance created" line. *)
Definition quiet (ev : event) : Prop :=
  match ev with
  | DestroyInstance _ | PrintInstanceCreated _ => False
  | _ => True
  end.

Section Facts.

Variable E : env.

Lemma runs_search_offers min_gpu_ram gpu_name max_results :
  runs quiet (search_offers E min_gpu_ram gpu_name max_results).
Proof. unfold search_offers. runs_go. Qed.

Lemma runs_get_ranked_offers max_results :
  runs quiet (get_ranked_offers E max_results).
Proof.
  unfold get_ranked_offers. apply runs_bind; [apply runs_search_offers|].
  intros. runs_go.
Qed.

Lemma runs_create_instance offer_id label :
  runs quiet (create_instance E offer_id label).
Proof. unfold create_instance. runs_go. Qed.

Lemma runs_get_instance instance_id : runs quiet (get_instance E instance_id).
Proof. unfold get_instance. runs_go. Qed.

Lemma runs_ready_round instance_id st : runs quiet (ready_round E instance_id st).
Proof.
  unfold ready_round. apply runs_bind; [apply runs_get_instance|].
  intros. runs_go.
Qed.

Lemma runs_wait_for_instance_ready instance_id timeout :
  runs quiet (wait_for_instance_ready E instance_id timeout).
Proof.
  unfold wait_for_instance_ready.
  apply runs_timed_poll; [lia|apply runs_ready_round|apply runs_ret].
Qed.

Lemma runs_create_job base_url input_url interval_cut :
  runs quiet (create_job E base_url input_url interval_cut).
Proof. unfold create_job. runs_go. Qed.

Lemma runs_get_job_status base_url job_id :
  runs quiet (get_job_status E base_url job_id).
Proof. unfold get_job_status. runs_go. Qed.

Lemma runs_get_job_logs base_url job_id offset :
  runs quiet (get_job_logs E base_url job_id offset).
Proof. unfold get_job_logs. runs_go. Qed.

Lemma runs_download_result base_url job_id path :
  runs quiet (download_result E base_url job_id path).
Proof. unfold download_result. runs_go. Qed.

Hint Resolve runs_get_job_status runs_get_job_logs : runs.

Lemma runs_final_logs base_url job_id log_offset stream_logs :
  runs quiet (final_logs E base_url job_id log_offset stream_logs).
Proof. unfold final_logs. runs_go. Qed.

Lemma runs_show_progress status : runs quiet (show_progress status).
Proof. unfold show_progress. runs_go. Qed.

Lemma runs_print_trying offer : runs quiet (print_trying offer).
Proof. unfold print_trying. runs_go. Qed.

Hint Resolve runs_final_logs runs_show_progress runs_print_trying : runs.

Lemma runs_job_round base_url job_id st :
  runs quiet (job_round E base_url job_id st).
Proof. unfold job_round. destruct st as [log_offset stream_logs]. runs_go. Qed.

Lemma runs_wait_for_job base_url job_id timeout stream_logs :
  runs quiet (wait_for_job E base_url job_id timeout stream_logs).
Proof.
  unfold wait_for_job.
  apply runs_timed_poll; [lia|apply runs_job_round|apply runs_raise_cls].
Qed.

Lemma runs_try_offers offers : runs quiet (try_offers E offers).
Proof.
  induction offers as [|offer offers IH]; cbn [try_offers]; [apply runs_ret|].
  apply runs_bind; [apply runs_print_trying|intros _].
  apply runs_bind.
  - apply runs_try_except; [|intros; apply runs_ret].
    apply runs_bind; [apply runs_create_instance|intros; apply runs_ret].
  - intros [i|]; [apply runs_ret|exact IH].
Qed.

Hint Resolve runs_wait_for_instance_ready runs_create_job runs_wait_for_job
  runs_download_result : runs.

Lemma runs_run_job args instance_id : runs quiet (run_job E args instance_id).
Proof. unfold run_job. runs_go. Qed.

(** The instances a trace destroys, and those it reports as created. *)
Definition destroys (tr : list event) : list (option Z) :=
  flat_map (fun ev => match ev with DestroyInstance i => [i] | _ => [] end) tr.

Definition created (tr : list event) : list (option Z) :=
  flat_map (fun ev => match ev with PrintInstanceCreated i => [i] | _ => [] end) tr.

Lemma quiet_destroys evs : Forall quiet evs -> destroys evs = [].
Proof.
  induction 1 as [|ev evs Hq _ IH]; [reflexivity|].
  unfold destroys in *. cbn. rewrite IH. destruct ev; cbn in *; tauto.
Qed.

Lemma quiet_created evs : Forall quiet evs -> created evs = [].
Proof.
  induction 1 as [|ev evs Hq _ IH]; [reflexivity|].
  unfold created in *. cbn. rewrite IH. destruct ev; cbn in *; tauto.
Qed.

Lemma destroys_app tr1 tr2 : destroys (tr1 ++ tr2) = destroys tr1 ++ destroys tr2.
Proof. unfold destroys. apply flat_map_app. Qed.

Lemma created_app tr1 tr2 : created (tr1 ++ tr2) = created tr1 ++ created tr2.
Proof. unfold created. apply flat_map_app. Qed.

(** The [finally] suite ends, and calls destroy once or not at all. *)
Lemma teardown_trace args instance_id w :
  (teardown E args instance_id w).1 <> OutOfFuel
  /\ trace (teardown E args instance_id w).2
     = trace w ++ (if keep_instance args then [] else [DestroyInstance instance_id]).
Proof.
  unfold teardown. destruct (keep_instance args); cbn.
  - split; [discriminate|]. rewrite app_nil_r. reflexivity.
  - unfold destroy_instance, bind, try_except, call, ret.
    destruct (api_delete E w instance_id) as [r|e]; cbn.
    + split; [discriminate|reflexivity].
    + destruct (is_Exception e); cbn; split; try discriminate; reflexivity.
Qed.

(** What a whole run of [cmd_separate] leaves in the trace: it ends;
    either no instance is reported and none destroyed, or one is
    reported and it is destroyed once, last of all, unless it is kept. *)
Definition separate_post (args : args) (w : World event)
    (out : result unit * World event) : Prop :=
  out.1 <> OutOfFuel
  /\ exists evs, trace out.2 = trace w ++ evs
     /\ ((created evs = [] /\ destroys evs = [])
         \/ exists instance_id,
              created evs = [instance_id]
              /\ destroys evs = (if keep_instance args then [] else [instance_id])
              /\ (keep_instance args = false ->
                    last evs = Some (DestroyInstance instance_id))).

Lemma separate_post_quiet args w r w' evs :
  r <> OutOfFuel -> trace w' = trace w ++ evs -> Forall quiet evs ->
  separate_post args w (r, w').
Proof.
  intros Hr Ht Hq. split; [assumption|]. exists evs. split; [assumption|].
  left. auto using quiet_created, quiet_destroys.
Qed.

Lemma cmd_separate_trace api_key args w :
  separate_post args w (cmd_separate E api_key args w).
Proof.
  unfold cmd_separate.
  destruct (negb (truthy_str api_key)).
  { apply separate_post_quiet with (evs := []); cbn;
      [discriminate|rewrite app_nil_r; reflexivity|constructor]. }
  unfold bind at 1.
  destruct (runs_get_ranked_offers 10 w) as (Hf1 & _ & evs1 & Ht1 & Hq1).
  destruct (get_ranked_offers E 10 w) as [[offers|e|] w1]; cbn [fst snd] in *;
    [|apply separate_post_quiet with (evs := evs1); auto; discriminate
     |congruence].
  destruct offers as [|offer offers].
  { apply separate_post_quiet with (evs := evs1); auto; discriminate. }
  unfold bind at 1.
  destruct (runs_try_offers (offer :: offers) w1) as (Hf2 & _ & evs2 & Ht2 & Hq2).
  destruct (try_offers E (offer :: offers) w1) as [[[inst|]|e|] w2];
    cbn [fst snd] in *; try congruence.
  2,3: apply separate_post_quiet with (evs := evs1 ++ evs2);
       [discriminate|rewrite Ht2, Ht1, app_assoc; reflexivity
       |apply Forall_app; auto].
  unfold bind at 1, emit at 1, modify at 1.
  set (w3 := mk_World (now w2) (trace w2 ++ [PrintInstanceCreated (instance_id inst)])).
  unfold try_finally.
  destruct (runs_run_job args (instance_id inst) w3) as (Hf4 & _ & evs4 & Ht4 & Hq4).
  destruct (teardown_trace args (instance_id inst)
              (run_job E args (instance_id inst) w3).2) as (Hf5 & Ht5).
  assert (Hall : forall r w5, r <> OutOfFuel ->
            trace w5 = trace (run_job E args (instance_id inst) w3).2
                   ++ (if keep_instance args then []
                       else [DestroyInstance (instance_id inst)]) ->
            separate_post args w (r, w5)).
  { intros r w5 Hr Ht. split; [assumption|].
    exists (evs1 ++ evs2 ++ [PrintInstanceCreated (instance_id inst)] ++ evs4
            ++ (if keep_instance args then []
                else [DestroyInstance (instance_id inst)])).
    split.
    { cbn [snd]. rewrite Ht, Ht4. subst w3. cbn [trace]. rewrite Ht2, Ht1.
      rewrite <- !app_assoc. reflexivity. }
    right. exists (instance_id inst).
    rewrite !created_app, !destroys_app.
    rewrite (quiet_created evs1), (quiet_created evs2), (quiet_created evs4),
      (quiet_destroys evs1), (quiet_destroys evs2), (quiet_destroys evs4)
      by assumption.
    destruct (keep_instance args); cbn; repeat split; try reflexivity;
      try discriminate.
    intros _.
    change (PrintInstanceCreated (instance_id inst)
              :: evs4 ++ [DestroyInstance (instance_id inst)])
      with ((PrintInstanceCreated (instance_id inst) :: evs4)
              ++ [DestroyInstance (instance_id inst)]).
    rewrite !app_assoc. apply last_snoc. }
  destruct (run_job E args (instance_id inst) w3) as [[u|e|] w4];
    cbn [fst snd] in *; try congruence.
  all: destruct (teardown E args (instance_id inst) w4) as [[u'|e'|] w5];
    cbn [fst snd] in *; try congruence.
  all: apply Hall; [discriminate|assumption].
Qed.

(** When the offers loop ends with an instance, the run reports it and
    then makes only quiet calls until the [finally] suite. *)
Lemma provisioned_trace api_key args w offers w1 inst w2 :
  truthy_str api_key = true ->
  get_ranked_offers E 10 w = (Ret offers, w1) ->
  try_offers E offers w1 = (Ret (Some inst), w2) ->
  exists evs,
    trace (cmd_separate E api_key args w).2
    = trace w2 ++ [PrintInstanceCreated (instance_id inst)] ++ evs
        ++ (if keep_instance args then []
            else [DestroyInstance (instance_id inst)])
    /\ Forall quiet evs.
Proof.
  intros Hkey Hrank Htry. unfold cmd_separate. rewrite Hkey. cbn [negb].
  unfold bind at 1. rewrite Hrank.
  destruct offers as [|offer offers]; [discriminate|].
  unfold bind at 1. rewrite Htry.
  unfold bind at 1, emit at 1, modify at 1.
  set (w3 := mk_World (now w2) (trace w2 ++ [PrintInstanceCreated (instance_id inst)])).
  unfold try_finally.
  destruct (runs_run_job args (instance_id inst) w3) as (Hf4 & _ & evs4 & Ht4 & Hq4).
  destruct (teardown_trace args (instance_id inst)
              (run_job E args (instance_id inst) w3).2) as (Hf5 & Ht5).
  exists evs4. split; [|assumption].
  destruct (run_job E args (instance_id inst) w3) as [[u|e|] w4];
    cbn [fst snd] in *; try congruence.
  all: destruct (teardown E args (instance_id inst) w4) as [[u'|e'|] w5];
    cbn [fst snd] in *; try congruence.
  all: rewrite Ht5, Ht4; subst w3; cbn [trace]; rewrite <- !app_assoc;
    reflexivity.
Qed.

Lemma provisioned_created api_key args t0 offers w1 inst w2 :
  truthy_str api_key = true ->
  get_ranked_offers E 10 (init t0) = (Ret offers, w1) ->
  try_offers E offers w1 = (Ret (Some inst), w2) ->
  created (trace (cmd_separate E api_key args (init t0)).2) = [instance_id inst].
Proof.
  intros Hkey Hrank Htry.
  destruct (provisioned_trace api_key args _ _ _ _ _ Hkey Hrank Htry)
    as (evs & Ht & Hq).
  rewrite Ht.
  destruct (runs_get_ranked_offers 10 (init t0)) as (_ & _ & evs1 & Ht1 & Hq1).
  rewrite Hrank in Ht1. cbn [snd init trace] in Ht1.
  destruct (runs_try_offers offers w1) as (_ & _ & evs2 & Ht2 & Hq2).
  rewrite Htry in Ht2. cbn [snd] in Ht2.
  cbn [app] in Ht1. rewrite Ht2, Ht1.
  rewrite !created_app.
  rewrite (quiet_created evs1), (quiet_created evs2), (quiet_created evs)
    by assumption.
  destruct (keep_instance args); reflexivity.
Qed.

(** *** Provisioning *)

(** The offers a trace asks an instance of, in order. *)
Definition creates (tr : list event) : list (option Z) :=
  flat_map (fun ev => match ev with CreateInstance o _ => [o] | _ => [] end) tr.

Lemma creates_app tr1 tr2 : creates (tr1 ++ tr2) = creates tr1 ++ creates tr2.
Proof. unfold creates. apply flat_map_app. Qed.

(** An offer whose price the "Trying" line can format. *)
Definition priced (o : offer) : Prop := is_Some (price_per_hour o).

(** One round of the offers loop, written out. *)
Lemma try_offers_cons offer offers w :
  priced offer ->
  try_offers E (offer :: offers) w =
  let w' := mk_World (now w + Z.of_N (latency E w))
              (trace w ++ [CreateInstance (offer_id offer) "demucs-worker"]) in
  match api_create E w (offer_id offer) "demucs-worker" with
  | Ok resp =>
      if success resp then
        (Ret (Some (mk_instance (new_contract resp) (offer_id offer) true)), w')
      else try_offers E offers w'
  | Fail e => if is_Exception e then try_offers E offers w' else (Raise e, w')
  end.
Proof.
  intros [price Hprice].
  cbn [try_offers]. unfold print_trying. rewrite Hprice.
  unfold bind at 1, ret at 1.
  unfold bind at 1, try_except at 1, bind at 1.
  unfold create_instance, try_except, bind, call, ret, raise_cls, raise.
  destruct (api_create E w (offer_id offer) "demucs-worker") as [resp|e];
    cbn [result_of].
  - destruct (success resp); reflexivity.
  - destruct (is_Exception e) eqn:He; cbn; rewrite ?He; reflexivity.
Qed.

(** The loop stops at an offer without a price, before any request for
    it: the "Trying" line is outside the [try]. *)
Lemma try_offers_unpriced_head offer offers w :
  price_per_hour offer = None ->
  try_offers E (offer :: offers) w
  = (Raise (mk_exn TypeError
              "unsupported format string passed to NoneType.__format__"), w).
Proof.
  intros Hprice. cbn [try_offers]. unfold print_trying. rewrite Hprice.
  reflexivity.
Qed.

(** An answer to the create request after which the loop goes on to the
    next offer: a refusal, or any [Exception] raised by the request. *)
Definition swallowed (r : reply create_response) : Prop :=
  match r with
  | Ok resp => success resp = false
  | Fail e => is_Exception e = true
  end.

(** An answer that grants the instance [inst]. *)
Definition grants (r : reply create_response) (inst : option Z) : Prop :=
  exists resp, r = Ok resp /\ success resp = true /\ new_contract resp = inst.

Lemma try_offers_first_success pre offer post inst : forall w,
  Forall priced (pre ++ [offer]) ->
  (forall o w', In o pre -> swallowed (api_create E w' (offer_id o) "demucs-worker")) ->
  (forall w', grants (api_create E w' (offer_id offer) "demucs-worker") inst) ->
  (try_offers E (pre ++ offer :: post) w).1
  = Ret (Some (mk_instance inst (offer_id offer) true))
  /\ creates (trace (try_offers E (pre ++ offer :: post) w).2)
     = creates (trace w) ++ map offer_id (pre ++ [offer]).
Proof.
  induction pre as [|o pre IH]; intros w Hpriced Hpre Hok;
    cbn [app] in Hpriced; apply List.Forall_cons_iff in Hpriced as [Hp Hps].
  - cbn [app map]. rewrite try_offers_cons by exact Hp. cbv zeta.
    destruct (Hok w) as (resp & -> & -> & <-). cbn [fst snd trace].
    split; [reflexivity|]. rewrite creates_app. reflexivity.
  - cbn [app map]. rewrite try_offers_cons by exact Hp. cbv zeta.
    pose proof (Hpre o w (or_introl eq_refl)) as Hsw. unfold swallowed in Hsw.
    destruct (IH (mk_World (now w + Z.of_N (latency E w))
                    (trace w ++ [CreateInstance (offer_id o) "demucs-worker"])))
      as (Hr & Hc);
      [assumption|intros; apply Hpre; right; assumption|assumption|].
    cbn [trace] in Hc. rewrite creates_app, <- app_assoc in Hc.
    destruct (api_create E w (offer_id o) "demucs-worker") as [resp|e];
      rewrite Hsw; auto.
Qed.

Lemma try_offers_exhausted offers : forall w,
  Forall priced offers ->
  (forall o w', In o offers ->
     swallowed (api_create E w' (offer_id o) "demucs-worker")) ->
  (try_offers E offers w).1 = Ret None
  /\ creates (trace (try_offers E offers w).2)
     = creates (trace w) ++ map offer_id offers.
Proof.
  induction offers as [|o offers IH]; intros w Hpriced Hall.
  - cbn. rewrite app_nil_r. auto.
  - apply List.Forall_cons_iff in Hpriced as [Hp Hps].
    cbn [map]. rewrite try_offers_cons by exact Hp. cbv zeta.
    pose proof (Hall o w (or_introl eq_refl)) as Hsw. unfold swallowed in Hsw.
    destruct (IH (mk_World (now w + Z.of_N (latency E w))
                    (trace w ++ [CreateInstance (offer_id o) "demucs-worker"])))
      as (Hr & Hc); [assumption|intros; apply Hall; right; assumption|].
    cbn [trace] in Hc. rewrite creates_app, <- app_assoc in Hc.
    destruct (api_create E w (offer_id o) "demucs-worker") as [resp|e];
      rewrite Hsw; auto.
Qed.

Lemma try_offers_interrupted pre offer post e : forall w,
  Forall priced (pre ++ [offer]) ->
  (forall o w', In o pre -> swallowed (api_create E w' (offer_id o) "demucs-worker")) ->
  (forall w', api_create E w' (offer_id offer) "demucs-worker" = Fail e) ->
  is_Exception e = false ->
  (try_offers E (pre ++ offer :: post) w).1 = Raise e
  /\ creates (trace (try_offers E (pre ++ offer :: post) w).2)
     = creates (trace w) ++ map offer_id (pre ++ [offer]).
Proof.
  induction pre as [|o pre IH]; intros w Hpriced Hpre Hko He;
    cbn [app] in Hpriced; apply List.Forall_cons_iff in Hpriced as [Hp Hps].
  - cbn [app map]. rewrite try_offers_cons by exact Hp. cbv zeta.
    rewrite Hko, He. cbn [fst snd trace].
    split; [reflexivity|]. rewrite creates_app. reflexivity.
  - cbn [app map]. rewrite try_offers_cons by exact Hp. cbv zeta.
    pose proof (Hpre o w (or_introl eq_refl)) as Hsw. unfold swallowed in Hsw.
    destruct (IH (mk_World (now w + Z.of_N (latency E w))
                    (trace w ++ [CreateInstance (offer_id o) "demucs-worker"])))
      as (Hr & Hc);
      [assumption|intros; apply Hpre; right; assumption|assumption|assumption|].
    cbn [trace] in Hc. rewrite creates_app, <- app_assoc in Hc.
    destruct (api_create E w (offer_id o) "demucs-worker") as [resp|e0];
      rewrite Hsw; auto.
Qed.

(** [cmd_separate] turns a loop that ends without an instance into
    [sys.exit(1)]. *)
(** The loop stops at the first offer without a price, after a request
    for each of the offers before it. *)
Lemma try_offers_unpriced pre offer post : forall w,
  Forall priced pre ->
  (forall o w', In o pre -> swallowed (api_create E w' (offer_id o) "demucs-worker")) ->
  price_per_hour offer = None ->
  (try_offers E (pre ++ offer :: post) w).1
  = Raise (mk_exn TypeError
             "unsupported format string passed to NoneType.__format__")
  /\ creates (trace (try_offers E (pre ++ offer :: post) w).2)
     = creates (trace w) ++ map offer_id pre.
Proof.
  induction pre as [|o pre IH]; intros w Hpriced Hpre Hnone.
  - cbn [app map]. rewrite try_offers_unpriced_head by exact Hnone.
    cbn [fst snd]. rewrite app_nil_r. split; reflexivity.
  - apply List.Forall_cons_iff in Hpriced as [Hp Hps].
    cbn [app map]. rewrite try_offers_cons by exact Hp. cbv zeta.
    pose proof (Hpre o w (or_introl eq_refl)) as Hsw. unfold swallowed in Hsw.
    destruct (IH (mk_World (now w + Z.of_N (latency E w))
                    (trace w ++ [CreateInstance (offer_id o) "demucs-worker"])))
      as (Hr & Hc);
      [assumption|intros; apply Hpre; right; assumption|assumption|].
    cbn [trace] in Hc. rewrite creates_app, <- app_assoc in Hc.
    destruct (api_create E w (offer_id o) "demucs-worker") as [resp|e0];
      rewrite Hsw; auto.
Qed.

Lemma cmd_separate_no_offer_left api_key args w offers w1 :
  truthy_str api_key = true ->
  get_ranked_offers E 10 w = (Ret offers, w1) ->
  Forall priced offers ->
  (forall o w', In o offers ->
     swallowed (api_create E w' (offer_id o) "demucs-worker")) ->
  (cmd_separate E api_key args w).1 = Raise (mk_exn (SystemExit 1) "").
Proof.
  intros Hkey Hrank Hpriced Hall. unfold cmd_separate. rewrite Hkey. cbn [negb].
  unfold bind at 1. rewrite Hrank.
  destruct offers as [|o offers]; [reflexivity|].
  unfold bind at 1.
  destruct (try_offers_exhausted (o :: offers) w1 Hpriced Hall) as (Hr & _).
  destruct (try_offers E (o :: offers) w1) as [r w2]. cbn [fst] in Hr. subst r.
  reflexivity.
Qed.

(** *** Readiness *)

(** The world in which the answer of the marketplace to the poll made
    in [w] arrives. *)
Definition polled (instance_id : option Z) (w : World event) : World event :=
  mk_World (now w + Z.of_N (latency E w)) (trace w ++ [GetInstance instance_id]).

(** The marketplace, polled in [w], says [running] and gives a public
    address and a binding of port [8185/tcp] to a host port, which
    together make [api_url]. *)
Definition announced (instance_id : option Z) (w : World event)
    (api_url : string) : Prop :=
  exists i ports b bs ip host_port,
    api_get E w instance_id = Ok (TheInstance i)
    /\ actual_status i = Val "running"
    /\ raw_public_ipaddr i = Some ip /\ ip <> ""
    /\ raw_ports i = Val ports
    /\ ports !! "8185/tcp" = Some (b :: bs)
    /\ HostPort b = Some host_port /\ host_port <> ""
    /\ api_url = "http://" +:+ ip +:+ ":" +:+ host_port.

(** A poll that finds the instance ready at [api_url]: the marketplace
    announces it there and the health probe sent there right after
    answers 200. *)
Definition healthy_poll (instance_id : option Z) (w : World event)
    (api_url : string) (w' : World event) : Prop :=
  announced instance_id w api_url
  /\ http_health E (polled instance_id w) api_url = Ok 200
  /\ trace w' = trace w ++ [GetInstance instance_id; Health api_url].

(** The three ways a round of the readiness loop raises.  A poll of the
    marketplace that fails with an [Exception] is not among them:
    [get_instance] turns it into the status ["error"]. *)
Definition round_raises (instance_id : option Z) (w : World event) (e : exn)
    : Prop :=
  (api_get E w instance_id = Fail e /\ is_Exception e = false)
  \/ (exists i, api_get E w instance_id = Ok (TheInstance i)
                /\ actual_status i = Val "running"
                /\ raw_ports i = Null
                /\ e = mk_exn AttributeError
                         "'NoneType' object has no attribute 'get'")
  \/ (exists api_url, announced instance_id w api_url
                      /\ http_health E (polled instance_id w) api_url = Fail e
                      /\ is_Exception e = false).

(** How one round of the readiness loop can end. *)
Definition ready_round_post (instance_id : option Z) (w : World event)
    (out : result (unit + option string) * World event) : Prop :=
  now w <= now out.2
  /\ match out with
     | (Ret (inl _), w') => True
     | (Ret (inr (Some api_url)), w') => healthy_poll instance_id w api_url w'
     | (Ret (inr None), _) => False
     | (Raise e, _) => round_raises instance_id w e
     | (OutOfFuel, _) => False
     end.

Lemma truthy_str_Some s : truthy_str s = true -> exists t, s = Some t /\ t <> "".
Proof.
  destruct s as [[|c t]|]; cbn; try discriminate.
  intros _. eexists. split; [reflexivity|discriminate].
Qed.

Lemma ready_round_cases instance_id w :
  ready_round_post instance_id w (ready_round E instance_id tt w).
Proof.
  unfold ready_round_post.
  destruct (ready_round E instance_id tt w) as [r w'] eqn:Hr. revert Hr.
  unfold round_raises, healthy_poll, announced.
  unfold ready_round. unfold bind at 1.
  unfold get_instance, try_except at 1, bind at 1, call at 1.
  fold (polled instance_id w).
  assert (Hw1 : now w <= now (polled instance_id w)) by (cbn; lia).
  destruct (api_get E w instance_id) as [[| |i]|e] eqn:Hget; cbn [result_of].
  1,2: cbn; intros [= <- <-]; auto.
  2: { destruct (is_Exception e) eqn:He; cbn; intros [= <- <-]; auto. }
  cbn [ret not_found_view VastAI.status VastAI.public_ipaddr VastAI.ports].
  destruct (bool_decide (dict_get_default (actual_status i) "unknown"
                         = Some "running")) eqn:Hrun;
    [|cbn; intros [= <- <-]; auto].
  apply bool_decide_eq_true in Hrun.
  assert (Hstatus : actual_status i = Val "running").
  { destruct (actual_status i); cbn in Hrun; congruence. }
  cbv zeta.
  destruct (raw_ports i) as [| |pm] eqn:Hports; cbn [dict_get_default].
  - rewrite lookup_empty. cbn [truthy_list]. rewrite andb_false_r. cbn.
    intros [= <- <-]; auto.
  - cbn. intros [= <- <-]. split; [assumption|]. right. left. exists i. auto.
  - destruct (truthy_str (raw_public_ipaddr i)) eqn:Hip;
      [|cbn; intros [= <- <-]; auto].
    destruct (truthy_list (pm !! "8185/tcp")) eqn:Hinfo;
      [|cbn; intros [= <- <-]; auto].
    cbn [andb].
    destruct (pm !! "8185/tcp") as [[|b bs]|] eqn:Hlook; try discriminate.
    destruct (truthy_str (HostPort b)) eqn:Hhp; [|cbn; intros [= <- <-]; auto].
    apply truthy_str_Some in Hip. destruct Hip as (ip & Hip & Hipne).
    apply truthy_str_Some in Hhp. destruct Hhp as (hp & Hhp & Hhpne).
    rewrite Hip, Hhp. cbn [default from_option]. unfold id.
    assert (Hann : exists i0 ports b0 bs0 ip0 host_port,
               Ok (TheInstance i) = Ok (TheInstance i0)
               /\ actual_status i0 = Val "running"
               /\ raw_public_ipaddr i0 = Some ip0 /\ ip0 <> ""
               /\ raw_ports i0 = Val ports
               /\ ports !! "8185/tcp" = Some (b0 :: bs0)
               /\ HostPort b0 = Some host_port /\ host_port <> ""
               /\ "http://" +:+ ip +:+ ":" +:+ hp
                  = "http://" +:+ ip0 +:+ ":" +:+ host_port).
    { exists i, pm, b, bs, ip, hp. repeat split; assumption. }
    unfold try_except, bind, call, ret.
    destruct (http_health E (polled instance_id w) _) as [code|e] eqn:Hh;
      cbn [result_of].
    + destruct (code =? 200) eqn:Hcode; intros [= <- <-];
        cbn [fst snd now polled].
      * apply Z.eqb_eq in Hcode. subst code.
        split; [lia|]. split; [exact Hann|]. split; [exact Hh|].
        cbn. rewrite <- app_assoc. reflexivity.
      * split; [lia|exact I].
    + destruct (is_Exception e) eqn:He; intros [= <- <-];
        cbn [fst snd now polled].
      * split; [lia|exact I].
      * split; [lia|]. right. right. eexists. split; [exact Hann|]. auto.
Qed.

(** What a round does with an instance that is announced at [api_url]:
    it sends the health probe there, and its outcome is the probe's. *)
Lemma announced_round instance_id w api_url :
  announced instance_id w api_url ->
  ready_round E instance_id tt w =
  (match http_health E (polled instance_id w) api_url with
   | Ok code => if code =? 200 then Ret (inr (Some api_url)) else Ret (inl tt)
   | Fail e => if is_Exception e then Ret (inl tt) else Raise e
   end,
   mk_World (now (polled instance_id w)
             + Z.of_N (latency E (polled instance_id w)))
     (trace (polled instance_id w) ++ [Health api_url])).
Proof.
  intros (i & ports & b & bs & ip & host_port & Hget & Hst & Hip & Hipne
          & Hports & Hlook & Hhp & Hhpne & ->).
  unfold ready_round. unfold bind at 1.
  unfold get_instance, try_except at 1, bind at 1, call at 1.
  fold (polled instance_id w).
  rewrite Hget. cbn [result_of ret VastAI.status VastAI.public_ipaddr VastAI.ports].
  rewrite Hst, Hports, Hip. cbn [dict_get_default]. cbv zeta.
  rewrite bool_decide_eq_true_2 by reflexivity.
  rewrite Hlook, Hhp.
  destruct ip as [|c1 ip]; [congruence|].
  destruct host_port as [|c2 hp]; [congruence|].
  cbn [truthy_str truthy_list andb default].
  unfold try_except, bind, call, ret.
  destruct (http_health E _ _) as [code|e]; cbn [result_of].
  - destruct (code =? 200); reflexivity.
  - destruct (is_Exception e); reflexivity.
Qed.

(** A round raises [e] exactly for one of the three causes. *)
Lemma ready_round_raises instance_id w e :
  (ready_round E instance_id tt w).1 = Raise e <-> round_raises instance_id w e.
Proof.
  split.
  - intros Hr. pose proof (ready_round_cases instance_id w) as [_ Hpost].
    destruct (ready_round E instance_id tt w) as [[[[]|[url|]]|e'|] w'];
      cbn [fst] in Hr; try discriminate.
    injection Hr as <-. exact Hpost.
  - intros [[Hget He]|[(i & Hget & Hst & Hports & ->)|(url & Hann & Hh & He)]].
    + unfold ready_round. unfold bind at 1.
      unfold get_instance, try_except at 1, bind at 1, call at 1.
      rewrite Hget. cbn [result_of]. rewrite He. reflexivity.
    + unfold ready_round. unfold bind at 1.
      unfold get_instance, try_except at 1, bind at 1, call at 1.
      rewrite Hget.
      cbn [result_of ret VastAI.status VastAI.public_ipaddr VastAI.ports].
      rewrite Hst, Hports. cbn [dict_get_default]. cbv zeta.
      rewrite bool_decide_eq_true_2 by reflexivity. reflexivity.
    + rewrite (announced_round _ _ _ Hann), Hh, He. reflexivity.
Qed.

(** A probe that answers anything but 200, or fails with an
    [Exception], sends the loop to its sleep and to the next round. *)
Lemma unhealthy_probe_goes_on instance_id w api_url :
  announced instance_id w api_url ->
  match http_health E (polled instance_id w) api_url with
  | Ok code => code <> 200
  | Fail e => is_Exception e = true
  end ->
  (ready_round E instance_id tt w).1 = Ret (inl tt).
Proof.
  intros Hann Hprobe. rewrite (announced_round _ _ _ Hann). cbn [fst].
  destruct (http_health E _ _) as [code|e].
  - destruct (code =? 200) eqn:Hc; [apply Z.eqb_eq in Hc; congruence|reflexivity].
  - rewrite Hprobe. reflexivity.
Qed.

(** A poll of the marketplace that fails with an [Exception] does not
    end the wait either. *)
Lemma failed_poll_goes_on instance_id w e :
  api_get E w instance_id = Fail e -> is_Exception e = true ->
  ready_round E instance_id tt w = (Ret (inl tt), polled instance_id w).
Proof.
  intros Hget He. unfold ready_round. unfold bind at 1.
  unfold get_instance, try_except at 1, bind at 1, call at 1.
  rewrite Hget. cbn [result_of]. rewrite He. reflexivity.
Qed.

Lemma ready_round_later instance_id st w :
  now w <= now (ready_round E instance_id st w).2.
Proof. destruct st. apply ready_round_cases. Qed.

(** How the whole wait can end: at the head [w1] of a round it reached. *)
Definition wait_post (instance_id : option Z) (timeout : Z) (w : World event)
    (out : result (option string) * World event) : Prop :=
  exists w1,
    reaches (now w) timeout 10 (ready_round E instance_id) tt w tt w1
    /\ match out with
       | (Ret (Some api_url), w') =>
           now w1 - now w < timeout /\ healthy_poll instance_id w1 api_url w'
       | (Ret None, w') => timeout <= now w1 - now w /\ w' = w1
       | (Raise e, w') =>
           now w1 - now w < timeout /\ round_raises instance_id w1 e
           /\ w' = (ready_round E instance_id tt w1).2
       | (OutOfFuel, _) => False
       end.

Lemma wait_for_instance_ready_cases instance_id timeout w :
  wait_post instance_id timeout w (wait_for_instance_ready E instance_id timeout w).
Proof.
  unfold wait_for_instance_ready. unfold bind at 1, time_time at 1.
  destruct (poll_ends (now w) timeout 10 (ready_round E instance_id) (ret None)
              (enough timeout) tt w)
    as ([] & w1 & Hreach & Hend);
    [lia|intros; apply ready_round_later|unfold enough; lia|].
  exists w1. split; [exact Hreach|].
  destruct Hend as [[Hup ->]|(Hlt & Hended & Hw)].
  - cbn. auto.
  - pose proof (ready_round_cases instance_id w1) as [_ Hpost].
    destruct (poll _ _ _ _ _ _ _ _) as [r w']. cbn [fst snd] in *. subst w'.
    destruct (ready_round E instance_id tt w1) as [[[[]|[url|]]|e|] w2];
      cbn [fst snd ended] in *; try contradiction; subst r; auto.
Qed.

(** A wait none of whose rounds returns a URL or raises returns [None]. *)
Lemma wait_for_instance_ready_none instance_id timeout w :
  (forall w1,
     reaches (now w) timeout 10 (ready_round E instance_id) tt w tt w1 ->
     now w1 - now w < timeout ->
     (ready_round E instance_id tt w1).1 = Ret (inl tt)) ->
  (wait_for_instance_ready E instance_id timeout w).1 = Ret None.
Proof.
  intros Hall.
  destruct (wait_for_instance_ready_cases instance_id timeout w)
    as (w1 & Hreach & Hpost).
  destruct (wait_for_instance_ready E instance_id timeout w)
    as [[[url|]|e|] w']; cbn [fst]; try reflexivity; try contradiction.
  - destruct Hpost as (Hlt & Hann & Hh & _).
    specialize (Hall w1 Hreach Hlt).
    rewrite (announced_round _ _ _ Hann), Hh in Hall. discriminate.
  - destruct Hpost as (Hlt & Hraise & _).
    apply ready_round_raises in Hraise. specialize (Hall w1 Hreach Hlt).
    congruence.
Qed.

(** *** Waiting for the job, and its logs *)

(** What a round of [wait_for_job] does about the logs: nothing, a
    fetch that was answered, or a fetch that failed. *)
Inductive log_step : Type :=
| NoFetch
| Fetched (r : log_data)
| FetchFailed (e : exn).

Definition log_events (base_url job_id : string) (cursor : option Z)
    (s : log_step) : list event :=
  match s with
  | NoFetch => []
  | Fetched r =>
      GetJobLogs base_url job_id cursor
        :: (if truthy_str (logs r) then [PrintLogs (default "" (logs r))] else [])
  | FetchFailed _ => [GetJobLogs base_url job_id cursor]
  end.

Definition next_cursor (cursor : option Z) (s : log_step) : option Z :=
  match s with
  | Fetched r => if truthy_str (logs r) then new_offset cursor r else cursor
  | _ => cursor
  end.

Definition answered (base_url job_id : string) (cursor : option Z)
    (w : World event) (s : log_step) : Prop :=
  match s with
  | NoFetch => True
  | Fetched r => http_job_logs E w base_url job_id cursor = Ok r
  | FetchFailed e => http_job_logs E w base_url job_id cursor = Fail e
  end.

Definition is_progress (ev : event) : Prop :=
  match ev with PrintProgress _ _ => True | _ => False end.

(** The world in which the answer to the status poll made in [w]
    arrives, and the one in which the answer to a log fetch made in
    [w] arrives. *)
Definition status_polled (base_url job_id : string) (w : World event)
    : World event :=
  mk_World (now w + Z.of_N (latency E w))
    (trace w ++ [GetJobStatus base_url job_id]).

Definition logs_fetched (base_url job_id : string) (cursor : option Z)
    (w : World event) : World event :=
  mk_World (now w + Z.of_N (latency E w))
    (trace w ++ [GetJobLogs base_url job_id cursor]).

Definition TypeError_gt : exn :=
  mk_exn TypeError "'>' not supported between instances of 'NoneType' and 'int'".

Definition TypeError_div : exn :=
  mk_exn TypeError "unsupported operand type(s) for /: 'NoneType' and 'int'".

(** The "Show progress" suite, case by case: nothing without details or
    without a positive total, the line for a positive total, and a
    [TypeError] for a null total, or a null count with a positive
    total. *)
Lemma show_progress_cases status w :
  match job_details status with
  | None => show_progress status w = (Ret tt, w)
  | Some (completed, total) =>
      match dict_get_default total 0 with
      | None => show_progress status w = (Raise TypeError_gt, w)
      | Some t =>
          if 0 <? t then
            match dict_get_default completed 0 with
            | None => show_progress status w = (Raise TypeError_div, w)
            | Some c =>
                show_progress status w
                = (Ret tt, mk_World (now w) (trace w ++ [PrintProgress c t]))
            end
          else show_progress status w = (Ret tt, w)
      end
  end.
Proof.
  unfold show_progress.
  destruct (job_details status) as [[completed total]|]; [|reflexivity].
  destruct (dict_get_default total 0) as [t|]; [|reflexivity].
  destruct (0 <? t); [|reflexivity].
  destruct (dict_get_default completed 0); reflexivity.
Qed.

Lemma show_progress_trace status w :
  (show_progress status w).1 <> OutOfFuel
  /\ now (show_progress status w).2 = now w
  /\ exists tail, trace (show_progress status w).2 = trace w ++ tail
                  /\ Forall is_progress tail
                  /\ (forall e, (show_progress status w).1 = Raise e -> tail = []).
Proof.
  pose proof (show_progress_cases status w) as H.
  destruct (job_details status) as [[completed total]|].
  2: { rewrite H. cbn. repeat split; [discriminate|].
       exists []. rewrite app_nil_r. repeat split; auto. }
  destruct (dict_get_default total 0) as [t|].
  2: { rewrite H. cbn. repeat split; [discriminate|].
       exists []. rewrite app_nil_r. repeat split; auto. }
  destruct (0 <? t).
  2: { rewrite H. cbn. repeat split; [discriminate|].
       exists []. rewrite app_nil_r. repeat split; auto. }
  destruct (dict_get_default completed 0) as [c|]; rewrite H; cbn.
  - repeat split; [discriminate|]. eexists [_]. repeat split.
    + repeat constructor.
    + discriminate.
  - repeat split; [discriminate|].
    exists []. rewrite app_nil_r. repeat split; auto.
Qed.

(** How one round of the job loop can end, from the loop variables
    [cursor] ([log_offset]) and [stream] ([stream_logs]). *)
Definition job_round_post (base_url job_id : string) (cursor : option Z)
    (stream : bool) (w : World event)
    (out : result (option Z * bool + job_status) * World event) : Prop :=
  exists s tail,
    trace out.2
    = trace w ++ GetJobStatus base_url job_id
                   :: log_events base_url job_id cursor s ++ tail
    /\ Forall is_progress tail
    /\ now w <= now out.2
    /\ (stream = false -> s = NoFetch)
    /\ answered base_url job_id cursor (status_polled base_url job_id w) s
    /\ match out.1 with
       | Ret (inl (cursor', stream')) =>
           cursor' = next_cursor cursor s
           /\ stream' = match s with Fetched _ => true | _ => false end
           /\ (stream = true -> s <> NoFetch)
       | Ret (inr status) =>
           tail = [] /\ job_state status = "completed"
           /\ match s with FetchFailed _ => False | _ => True end
       | Raise e => tail = []
       | OutOfFuel => False
       end.

(** The end of a round that goes on: the progress line, unless the
    round streamed. *)
Lemma round_end_post (st' : option Z * bool) status w :
  let out := ((if negb st'.2 then show_progress status else ret tt) ;;
              ret (inl st' : option Z * bool + job_status)) w in
  now out.2 = now w
  /\ exists tail, trace out.2 = trace w ++ tail
       /\ Forall is_progress tail
       /\ match out.1 with
          | Ret r => r = inl st'
          | Raise e => tail = []
          | OutOfFuel => False
          end.
Proof.
  cbv zeta. unfold bind. destruct (negb st'.2).
  - destruct (show_progress_trace status w) as (Hf & Hn & tail & Ht & Hp & Hr).
    destruct (show_progress status w) as [[[]|e|] w']; cbn [fst snd ret] in *;
      try congruence.
    + split; [exact Hn|]. exists tail. auto.
    + split; [exact Hn|]. exists tail. repeat split; auto.
      rewrite (Hr e eq_refl). reflexivity.
  - cbn. split; [reflexivity|]. exists []. rewrite app_nil_r. auto.
Qed.

Lemma job_round_cases base_url job_id cursor stream w :
  job_round_post base_url job_id cursor stream w
    (job_round E base_url job_id (cursor, stream) w).
Proof.
  unfold job_round_post.
  destruct (job_round E base_url job_id (cursor, stream) w) as [r w'] eqn:Hr.
  revert Hr. unfold job_round, final_logs, get_job_status, get_job_logs.
  unfold bind at 1, call at 1. fold (status_polled base_url job_id w).
  assert (Hw1 : now w <= now (status_polled base_url job_id w)) by (cbn; lia).
  assert (Ht1 : trace (status_polled base_url job_id w)
                = trace w ++ [GetJobStatus base_url job_id]) by reflexivity.
  generalize dependent (status_polled base_url job_id w). intros w1 Hw1 Ht1.
  destruct (http_job_status E w base_url job_id) as [status|e]; cbn [result_of].
  2: { intros [= <- <-]. exists NoFetch, []. cbn [fst snd log_events app answered].
       rewrite Ht1. repeat split; auto. }
  destruct (String.eqb (job_state status) "completed") eqn:Hc;
    [apply String.eqb_eq in Hc
    |destruct (String.eqb (job_state status) "failed") eqn:Hf].
  - (* completed *)
    destruct stream.
    + unfold bind, call, emit, modify, ret.
      destruct (http_job_logs E w1 base_url job_id cursor) as [r0|e] eqn:Hl;
        cbn [result_of].
      * destruct (truthy_str (logs r0)) eqn:Htext; intros [= <- <-];
          exists (Fetched r0), []; cbn [fst snd now trace log_events answered];
          rewrite Htext, Ht1, <- ?app_assoc; cbn [app];
          repeat split; auto; try lia; discriminate.
      * intros [= <- <-]. exists (FetchFailed e), [].
        cbn [fst snd now trace log_events answered].
        rewrite Ht1, <- ?app_assoc. cbn [app].
        repeat split; auto; try lia; discriminate.
    + unfold bind, ret. intros [= <- <-]. exists NoFetch, [].
      cbn [fst snd log_events app answered]. rewrite Ht1. repeat split; auto.
  - (* failed *)
    destruct stream.
    + unfold bind, call, emit, modify, ret, raise_cls, raise.
      destruct (http_job_logs E w1 base_url job_id cursor) as [r0|e] eqn:Hl;
        cbn [result_of].
      * destruct (truthy_str (logs r0)) eqn:Htext; intros [= <- <-];
          exists (Fetched r0), []; cbn [fst snd now trace log_events answered];
          rewrite Htext, Ht1, <- ?app_assoc; cbn [app];
          repeat split; auto; try lia; discriminate.
      * intros [= <- <-]. exists (FetchFailed e), [].
        cbn [fst snd now trace log_events answered].
        rewrite Ht1, <- ?app_assoc. cbn [app].
        repeat split; auto; try lia; discriminate.
    + unfold bind, ret, raise_cls, raise. intros [= <- <-]. exists NoFetch, [].
      cbn [fst snd log_events app answered]. rewrite Ht1. repeat split; auto.
  - (* the job goes on *)
    unfold bind at 1.
    destruct stream.
    + unfold try_except, bind at 1, call at 1.
      destruct (http_job_logs E w1 base_url job_id cursor) as [r0|e] eqn:Hl;
        cbn [result_of].
      * set (w2 := mk_World (now w1 + Z.of_N (latency E w1))
                     (trace w1 ++ [GetJobLogs base_url job_id cursor])).
        destruct (truthy_str (logs r0)) eqn:Htext.
        -- unfold bind at 1, emit at 1, modify at 1, ret at 1.
           set (w3 := mk_World (now w2) (trace w2 ++ [PrintLogs _])).
           destruct (round_end_post (new_offset cursor r0, true) status w3)
             as (Hn & tail & Ht & Hp & Hres).
           cbv zeta in Hn, Ht, Hres.
           destruct ((_ ;; ret (inl (new_offset cursor r0, true))) w3)
             as [r1 w4]; cbn [fst snd] in *.
           intros [= <- <-]. exists (Fetched r0), tail.
           cbn [log_events answered next_cursor]. rewrite Htext.
           split; [rewrite Ht; subst w3 w2; cbn [trace];
                   rewrite Ht1, <- !app_assoc; reflexivity|].
           split; [exact Hp|]. split; [subst w3 w2; cbn [now] in *; lia|].
           split; [discriminate|]. split; [exact Hl|].
           destruct r1 as [[[c' s']|status']|e'|]; try assumption;
             try discriminate.
           injection Hres as <- <-. repeat split. discriminate.
        -- unfold ret at 1.
           destruct (round_end_post (cursor, true) status w2)
             as (Hn & tail & Ht & Hp & Hres).
           cbv zeta in Hn, Ht, Hres.
           destruct ((_ ;; ret (inl (cursor, true))) w2)
             as [r1 w4]; cbn [fst snd] in *.
           intros [= <- <-]. exists (Fetched r0), tail.
           cbn [log_events answered next_cursor]. rewrite Htext.
           split; [rewrite Ht; subst w2; cbn [trace];
                   rewrite Ht1, <- !app_assoc; reflexivity|].
           split; [exact Hp|]. split; [subst w2; cbn [now] in *; lia|].
           split; [discriminate|]. split; [exact Hl|].
           destruct r1 as [[[c' s']|status']|e'|]; try assumption;
             try discriminate.
           injection Hres as <- <-. repeat split. discriminate.
      * set (w2 := mk_World (now w1 + Z.of_N (latency E w1))
                     (trace w1 ++ [GetJobLogs base_url job_id cursor])).
        destruct (is_Exception e) eqn:He.
        -- unfold ret at 1.
           destruct (round_end_post (cursor, false) status w2)
             as (Hn & tail & Ht & Hp & Hres).
           cbv zeta in Hn, Ht, Hres.
           destruct ((_ ;; ret (inl (cursor, false))) w2)
             as [r1 w4]; cbn [fst snd] in *.
           intros [= <- <-]. exists (FetchFailed e), tail.
           cbn [log_events answered next_cursor].
           split; [rewrite Ht; subst w2; cbn [trace];
                   rewrite Ht1, <- !app_assoc; reflexivity|].
           split; [exact Hp|]. split; [subst w2; cbn [now] in *; lia|].
           split; [discriminate|]. split; [exact Hl|].
           destruct r1 as [[[c' s']|status']|e'|]; try assumption;
             try discriminate.
           injection Hres as <- <-. repeat split. discriminate.
        -- intros [= <- <-]. exists (FetchFailed e), [].
           cbn [fst snd log_events answered]. subst w2. cbn [trace now].
           rewrite Ht1, <- !app_assoc. cbn [app].
           repeat split; auto; try lia; discriminate.
    + unfold ret at 1.
      destruct (round_end_post (cursor, false) status w1)
        as (Hn & tail & Ht & Hp & Hres).
      cbv zeta in Hn, Ht, Hres.
      destruct ((_ ;; ret (inl (cursor, false))) w1)
        as [r1 w4]; cbn [fst snd] in *.
      intros [= <- <-]. exists NoFetch, tail.
      cbn [log_events answered next_cursor app].
      split; [rewrite Ht, Ht1, <- !app_assoc; reflexivity|].
      split; [exact Hp|]. split; [lia|].
      split; [reflexivity|]. split; [exact I|].
      destruct r1 as [[[c' s']|status']|e'|]; try assumption;
        try discriminate.
      injection Hres as -> ->. repeat split. intros [=].
Qed.

Lemma job_round_later base_url job_id st w :
  now w <= now (job_round E base_url job_id st w).2.
Proof.
  destruct st as [cursor stream].
  destruct (job_round_cases base_url job_id cursor stream w)
    as (s & tail & _ & _ & Hnow & _). exact Hnow.
Qed.

(** The offsets a trace fetches logs from, in order; [None] is a fetch
    sent without an offset. *)
Definition froms (tr : list event) : list (option Z) :=
  flat_map (fun ev => match ev with GetJobLogs _ _ from => [from] | _ => [] end) tr.

(** The log text a trace prints, each piece with the offset of the fetch
    that brought it. *)
Definition deliver (st : option Z * list (option Z * string)) (ev : event)
    : option Z * list (option Z * string) :=
  match ev with
  | GetJobLogs _ _ from => (from, st.2)
  | PrintLogs text => (st.1, st.2 ++ [(st.1, text)])
  | _ => st
  end.

Definition deliveries (tr : list event) : list (option Z * string) :=
  (fold_left deliver tr (Some 0, [])).2.

(** Pieces that follow one another from offset [c] on: each starts
    where the one before it ended. *)
Fixpoint contiguous (c : Z) (ds : list (option Z * string)) : Prop :=
  match ds with
  | [] => True
  | (from, text) :: ds' =>
      from = Some c /\ contiguous (c + Z.of_nat (String.length text)) ds'
  end.

(** The end of the last piece. *)
Definition delivered_until (c : Z) (ds : list (option Z * string)) : Z :=
  fold_left (fun c d => c + Z.of_nat (String.length d.2)) ds c.

(** The server reports, with every piece of text, an offset that the
    client takes for an integer not before the one asked for (or no
    offset at all). *)
Definition reports_forward : Prop :=
  forall w base_url job_id from r,
    http_job_logs E w base_url job_id (Some from) = Ok r ->
    truthy_str (logs r) = true ->
    exists o, new_offset (Some from) r = Some o /\ from <= o.

(** The server reports, with every piece of text, the offset at which
    that piece ends. *)
Definition reports_end : Prop :=
  forall w base_url job_id from r,
    http_job_logs E w base_url job_id (Some from) = Ok r ->
    truthy_str (logs r) = true ->
    offset r = Val (from + Z.of_nat (String.length (default "" (logs r)))).

Lemma froms_app tr1 tr2 : froms (tr1 ++ tr2) = froms tr1 ++ froms tr2.
Proof. unfold froms. apply flat_map_app. Qed.

Lemma froms_progress tail : Forall is_progress tail -> froms tail = [].
Proof.
  induction 1 as [|ev tail Hp _ IH]; [reflexivity|].
  unfold froms in *. cbn. rewrite IH. destruct ev; cbn in *; tauto.
Qed.

Lemma froms_log_events base_url job_id cursor s :
  froms (log_events base_url job_id cursor s)
  = match s with NoFetch => [] | _ => [cursor] end.
Proof.
  destruct s as [|r|e]; cbn; try reflexivity.
  destruct (truthy_str (logs r)); reflexivity.
Qed.

(** A non-decreasing list whose entries are at most [c]. *)
Definition climbs (l : list Z) (c : Z) : Prop :=
  StronglySorted Z.le l /\ Forall (fun x => x <= c) l.

Lemma climbs_snoc l c c' : climbs l c -> c <= c' -> climbs (l ++ [c]) c'.
Proof.
  intros [Hs Hb] Hle. split.
  - induction Hs as [|x l Hs IH Hx]; cbn.
    + repeat constructor.
    + inversion Hb; subst. constructor; [apply IH; assumption|].
      apply Forall_app. split; [assumption|]. repeat constructor. assumption.
  - apply Forall_app. split.
    + eapply Forall_impl; [exact Hb|]. cbn. intros. lia.
    + repeat constructor. assumption.
Qed.

Lemma climbs_weaken l c c' : climbs l c -> c <= c' -> climbs l c'.
Proof.
  intros [Hs Hb] Hle. split; [assumption|].
  eapply Forall_impl; [exact Hb|]. cbn. intros. lia.
Qed.

Lemma next_cursor_forward base_url job_id cursor w s :
  reports_forward -> answered base_url job_id (Some cursor) w s ->
  exists cursor', next_cursor (Some cursor) s = Some cursor'
                  /\ cursor <= cursor'.
Proof.
  intros Hfw Hans. destruct s as [|r|e]; cbn [next_cursor];
    try (exists cursor; split; [reflexivity|lia]).
  destruct (truthy_str (logs r)) eqn:Ht;
    [|exists cursor; split; [reflexivity|lia]].
  eapply Hfw; eassumption.
Qed.

(** With a server that reports forward, every fetch of a wait carries
    an offset, and the offsets never go down. *)
Lemma wait_for_job_cursor_climbs base_url job_id timeout stream w :
  reports_forward ->
  exists evs l,
    trace (wait_for_job E base_url job_id timeout stream w).2 = trace w ++ evs
    /\ froms evs = map Some l
    /\ StronglySorted Z.le l
    /\ Forall (fun from => 0 <= from) l.
Proof.
  intros Hfw. unfold wait_for_job. unfold bind at 1, time_time at 1.
  set (Inv := fun (c : option Z) (w1 : World event) =>
         exists evs l c0, trace w1 = trace w ++ evs
                     /\ froms evs = map Some l
                     /\ climbs l c0
                     /\ Forall (fun from => 0 <= from) l /\ 0 <= c0
                     /\ c = Some c0).
  apply (poll_rule (fun st w1 => Inv st.1 w1)
           (fun out => exists evs l, trace out.2 = trace w ++ evs
                         /\ froms evs = map Some l
                         /\ StronglySorted Z.le l
                         /\ Forall (fun from => 0 <= from) l)
           (now w) timeout 5 (job_round E base_url job_id));
    [lia| | | |unfold enough; lia].
  - intros [cursor st] w1 (evs & l & c0 & Ht & Hfr & Hclimb & Hpos & Hc0 & Hc) _.
    cbn [fst] in *. subst cursor.
    destruct (job_round_cases base_url job_id (Some c0) st w1)
      as (s & tail & Htr & Hprog & Hnow & Hoff & Hans & Hres).
    destruct (next_cursor_forward _ _ _ _ _ Hfw Hans) as (c1 & Hnext & Hle).
    assert (Hall : exists evs' l',
               trace (job_round E base_url job_id (Some c0, st) w1).2
               = trace w ++ evs'
               /\ froms evs' = map Some l'
               /\ climbs l' c1
               /\ Forall (fun from => 0 <= from) l').
    { exists (evs ++ GetJobStatus base_url job_id
                    :: log_events base_url job_id (Some c0) s ++ tail).
      exists (l ++ match s with NoFetch => [] | _ => [c0] end).
      split; [rewrite Htr, Ht, <- app_assoc; reflexivity|].
      change (GetJobStatus base_url job_id
                :: log_events base_url job_id (Some c0) s ++ tail)
        with ([GetJobStatus base_url job_id]
                ++ log_events base_url job_id (Some c0) s ++ tail).
      rewrite !froms_app, froms_log_events, (froms_progress tail Hprog).
      cbn [froms flat_map app]. rewrite app_nil_r, Hfr, map_app.
      destruct s; rewrite ?app_nil_r.
      - split; [reflexivity|]. split; [|assumption].
        eapply climbs_weaken; eassumption.
      - split; [reflexivity|]. split; [apply climbs_snoc; assumption|].
        apply Forall_app. split; [assumption|]. repeat constructor. assumption.
      - split; [reflexivity|]. split; [apply climbs_snoc; assumption|].
        apply Forall_app. split; [assumption|]. repeat constructor. assumption. }
    destruct Hall as (evs' & l' & Ht' & Hfr' & Hclimb' & Hpos').
    destruct (job_round E base_url job_id (Some c0, st) w1)
      as [[[[c' st']|status]|e|] w2]; cbn [fst snd] in *.
    + destruct Hres as (-> & _ & _). split; [assumption|].
      exists evs', l', c1. cbn [trace]. repeat split; try assumption;
        try apply Hclimb'. lia.
    + exists evs', l'. repeat split; try assumption. apply Hclimb'.
    + exists evs', l'. repeat split; try assumption. apply Hclimb'.
    + contradiction.
  - intros [cursor st] w1 (evs & l & c0 & Ht & Hfr & Hclimb & Hpos & _) _. cbn.
    exists evs, l. repeat split; try assumption. apply Hclimb.
  - exists [], [], 0. rewrite app_nil_r. cbn. unfold climbs. cbn.
    repeat split; try constructor. lia.
Qed.

Lemma deliver_progress tail : forall st,
  Forall is_progress tail -> fold_left deliver tail st = st.
Proof.
  induction tail as [|ev tail IH]; intros st Hp; [reflexivity|].
  inversion Hp; subst. cbn [fold_left]. destruct ev; cbn in *; try tauto.
  apply IH. assumption.
Qed.

Lemma deliveries_round evs base_url job_id cursor s tail :
  Forall is_progress tail ->
  deliveries (evs ++ GetJobStatus base_url job_id
                :: log_events base_url job_id cursor s ++ tail)
  = deliveries evs
      ++ match s with
         | Fetched r =>
             if truthy_str (logs r) then [(cursor, default "" (logs r))] else []
         | _ => []
         end.
Proof.
  intros Hp. unfold deliveries. rewrite fold_left_app.
  destruct (fold_left deliver evs (Some 0, [])) as [l ds].
  cbn [fold_left deliver snd].
  destruct s as [|r|e]; cbn [log_events app fold_left deliver fst snd].
  - rewrite deliver_progress by assumption. cbn. rewrite app_nil_r. reflexivity.
  - destruct (truthy_str (logs r)); cbn [app fold_left deliver fst snd];
      rewrite deliver_progress by assumption; cbn; rewrite ?app_nil_r; reflexivity.
  - rewrite deliver_progress by assumption. cbn. rewrite app_nil_r. reflexivity.
Qed.

Lemma delivered_until_snoc c ds from text :
  delivered_until c (ds ++ [(from, text)])
  = delivered_until c ds + Z.of_nat (String.length text).
Proof. unfold delivered_until. rewrite fold_left_app. reflexivity. Qed.

Lemma contiguous_snoc ds : forall c text,
  contiguous c ds -> contiguous c (ds ++ [(Some (delivered_until c ds), text)]).
Proof.
  induction ds as [|[from t] ds IH]; intros c text Hc; cbn.
  - auto.
  - destruct Hc as [-> Hc]. split; [reflexivity|]. apply IH. assumption.
Qed.

(** With a server that reports where each piece ends, the pieces of log
    text a wait prints follow one another from offset 0: none is
    printed twice and none is skipped. *)
Lemma wait_for_job_delivers_once base_url job_id timeout stream w :
  reports_end ->
  exists evs,
    trace (wait_for_job E base_url job_id timeout stream w).2 = trace w ++ evs
    /\ contiguous 0 (deliveries evs).
Proof.
  intros Hend. unfold wait_for_job. unfold bind at 1, time_time at 1.
  apply (poll_rule
           (fun st w1 => exists evs, trace w1 = trace w ++ evs
                           /\ contiguous 0 (deliveries evs)
                           /\ st.1 = Some (delivered_until 0 (deliveries evs)))
           (fun out => exists evs, trace out.2 = trace w ++ evs
                         /\ contiguous 0 (deliveries evs))
           (now w) timeout 5 (job_round E base_url job_id));
    [lia| | | |unfold enough; lia].
  - intros [cursor st] w1 (evs & Ht & Hcont & Huntil) _. cbn [fst] in *.
    subst cursor.
    destruct (job_round_cases base_url job_id
                (Some (delivered_until 0 (deliveries evs))) st w1)
      as (s & tail & Htr & Hprog & Hnow & Hoff & Hans & Hres).
    assert (Hall : exists evs',
               trace (job_round E base_url job_id
                        (Some (delivered_until 0 (deliveries evs)), st) w1).2
               = trace w ++ evs'
               /\ contiguous 0 (deliveries evs')
               /\ next_cursor (Some (delivered_until 0 (deliveries evs))) s
                  = Some (delivered_until 0 (deliveries evs'))).
    { exists (evs ++ GetJobStatus base_url job_id
                    :: log_events base_url job_id
                         (Some (delivered_until 0 (deliveries evs))) s ++ tail).
      split; [rewrite Htr, Ht, <- app_assoc; reflexivity|].
      rewrite deliveries_round by assumption.
      destruct s as [|r|e]; cbn [next_cursor]; rewrite ?app_nil_r; auto.
      destruct (truthy_str (logs r)) eqn:Htext; rewrite ?app_nil_r; auto.
      cbn in Hans. unfold new_offset. rewrite (Hend _ _ _ _ _ Hans Htext).
      rewrite delivered_until_snoc. split; [|reflexivity].
      apply contiguous_snoc. assumption. }
    destruct Hall as (evs' & Ht' & Hcont' & Huntil').
    destruct (job_round E base_url job_id _ w1)
      as [[[[c' st']|status]|e|] w2]; cbn [fst snd] in *.
    + destruct Hres as (-> & _ & _). split; [assumption|].
      exists evs'. cbn [trace]. auto.
    + eauto.
    + eauto.
    + contradiction.
  - intros [cursor st] w1 (evs & Ht & Hcont & _) _. cbn. eauto.
  - exists []. rewrite app_nil_r. cbn. auto.
Qed.

(** Events that touch the logs. *)
Definition no_logs (ev : event) : Prop :=
  match ev with
  | GetJobLogs _ _ _ | PrintLogs _ => False
  | _ => True
  end.

(** From a round entered with [stream_logs] false the loop makes no
    further log fetch and prints no log text, however long it goes on. *)
Lemma streaming_stays_off base_url job_id start timeout orelse fuel :
  (forall w, trace (orelse w).2 = trace w) ->
  forall cursor w,
    exists evs,
      trace (poll fuel start timeout 5 (job_round E base_url job_id) orelse
               (cursor, false) w).2 = trace w ++ evs
      /\ Forall no_logs evs.
Proof.
  intros Helse. induction fuel as [|fuel IH]; intros cursor w.
  - cbn. exists []. rewrite app_nil_r. auto.
  - rewrite poll_S.
    destruct (now w - start <? timeout);
      [|exists []; rewrite Helse, app_nil_r; auto].
    destruct (job_round_cases base_url job_id cursor false w)
      as (s & tail & Htr & Hprog & _ & Hoff & _ & Hres).
    rewrite (Hoff eq_refl) in *. cbn [log_events app] in Htr.
    assert (Hq : Forall no_logs (GetJobStatus base_url job_id :: tail)).
    { constructor; [exact I|].
      eapply Forall_impl; [exact Hprog|]. intros [] Hp; cbn in *; tauto. }
    destruct (job_round E base_url job_id (cursor, false) w)
      as [[[[c' st']|status]|e|] w2]; cbn [fst snd] in *; try eauto.
    destruct Hres as (-> & -> & _). cbn [next_cursor].
    destruct (IH cursor (mk_World (now w2 + 5) (trace w2))) as (evs & Ht & Hq').
    exists ((GetJobStatus base_url job_id :: tail) ++ evs).
    split; [rewrite Ht; cbn [trace]; rewrite Htr, <- app_assoc; reflexivity|].
    apply Forall_app. auto.
Qed.

(** A round that streams and whose log fetch fails with an [Exception]
    switches streaming off and keeps the offset; it goes on to the
    "Show progress" suite, whose outcome is the round's. *)
Lemma failed_fetch_switches_streaming_off base_url job_id cursor w status e :
  http_job_status E w base_url job_id = Ok status ->
  job_state status <> "completed" -> job_state status <> "failed" ->
  http_job_logs E (status_polled base_url job_id w) base_url job_id cursor
  = Fail e ->
  is_Exception e = true ->
  let shown :=
    show_progress status
      (logs_fetched base_url job_id cursor (status_polled base_url job_id w)) in
  job_round E base_url job_id (cursor, true) w
  = (match shown.1 with
     | Ret _ => Ret (inl (cursor, false))
     | Raise e' => Raise e'
     | OutOfFuel => OutOfFuel
     end, shown.2).
Proof.
  intros Hst Hnc Hnf Hl He. cbv zeta.
  unfold job_round, get_job_status, get_job_logs.
  unfold bind at 1, call at 1. fold (status_polled base_url job_id w).
  rewrite Hst. cbn [result_of].
  replace (String.eqb (job_state status) "completed") with false
    by (symmetry; apply String.eqb_neq; assumption).
  replace (String.eqb (job_state status) "failed") with false
    by (symmetry; apply String.eqb_neq; assumption).
  unfold bind at 1, try_except, bind at 1, call at 1.
  rewrite Hl. cbn [result_of]. rewrite He. unfold ret at 1.
  fold (logs_fetched base_url job_id cursor (status_polled base_url job_id w)).
  cbn [snd negb]. unfold bind.
  destruct (show_progress status _) as [[[]|e'|] w']; reflexivity.
Qed.

(** The exception [wait_for_job] raises for a failed job. *)
Definition job_failed (status : job_status) : exn :=
  mk_exn Exception ("Job failed: " +:+ str_opt (job_error status)).

(** A round that polls a terminal status: without streaming it ends at
    once; with streaming it fetches the logs once, from the current
    offset; when the fetch returns, it prints what comes and ends the
    same way, and when the fetch fails, the round raises what the fetch
    raised, whatever that is. *)
Lemma terminal_round base_url job_id cursor stream w status :
  http_job_status E w base_url job_id = Ok status ->
  job_state status = "completed" \/ job_state status = "failed" ->
  let w1 := status_polled base_url job_id w in
  let ending : result (option Z * bool + job_status) :=
    if String.eqb (job_state status) "completed" then Ret (inr status)
    else Raise (job_failed status) in
  (stream = false ->
     job_round E base_url job_id (cursor, stream) w = (ending, w1))
  /\ (stream = true -> forall r,
        http_job_logs E w1 base_url job_id cursor = Ok r ->
        job_round E base_url job_id (cursor, stream) w
        = (ending,
           mk_World (now w1 + Z.of_N (latency E w1))
             (trace w1 ++ GetJobLogs base_url job_id cursor
                :: (if truthy_str (logs r)
                    then [PrintLogs (default "" (logs r))] else []))))
  /\ (stream = true -> forall e,
        http_job_logs E w1 base_url job_id cursor = Fail e ->
        job_round E base_url job_id (cursor, stream) w
        = (Raise e, logs_fetched base_url job_id cursor w1)).
Proof.
  intros Hst Hterm. cbv zeta.
  unfold job_round, final_logs, get_job_status, get_job_logs, job_failed.
  unfold logs_fetched, status_polled.
  unfold bind, try_except, call, emit, modify, ret, raise_cls, raise.
  rewrite Hst. cbn [result_of].
  assert (Hcase : String.eqb (job_state status) "completed" = true
                  \/ (String.eqb (job_state status) "completed" = false
                      /\ String.eqb (job_state status) "failed" = true)).
  { destruct Hterm as [H|H]; rewrite H; cbn; auto. }
  destruct Hcase as [Hc|[Hc Hf]]; rewrite Hc, ?Hf.
  - split; [intros ->; reflexivity|]. split; intros ->.
    + intros r Hr. rewrite Hr. cbn [result_of].
      destruct (truthy_str (logs r)); cbn; rewrite <- ?app_assoc; reflexivity.
    + intros e He. rewrite He. reflexivity.
  - split; [intros ->; reflexivity|]. split; intros ->.
    + intros r Hr. rewrite Hr. cbn [result_of].
      destruct (truthy_str (logs r)); cbn; rewrite <- ?app_assoc; reflexivity.
    + intros e He. rewrite He. reflexivity.
Qed.

(** How the whole job wait can end: at the head [w1] of a round it
    reached, with loop variables [st]. *)
Definition job_wait_post (base_url job_id : string) (timeout : Z)
    (stream : bool) (w : World event) (out : result job_status * World event)
    : Prop :=
  exists st w1,
    reaches (now w) timeout 5 (job_round E base_url job_id) (Some 0, stream) w
      st w1
    /\ match out with
       | (Ret status, w') =>
           now w1 - now w < timeout
           /\ job_state status = "completed"
           /\ job_round E base_url job_id st w1 = (Ret (inr status), w')
       | (Raise e, w') =>
           (timeout <= now w1 - now w
            /\ e = mk_exn Exception
                     ("Job timeout after " +:+ str_Z timeout +:+ "s")
            /\ w' = w1)
           \/ (now w1 - now w < timeout
               /\ job_round E base_url job_id st w1 = (Raise e, w'))
       | (OutOfFuel, _) => False
       end.

Lemma wait_for_job_cases base_url job_id timeout stream w :
  job_wait_post base_url job_id timeout stream w
    (wait_for_job E base_url job_id timeout stream w).
Proof.
  unfold wait_for_job. unfold bind at 1, time_time at 1.
  destruct (poll_ends (now w) timeout 5 (job_round E base_url job_id)
              (raise_cls Exception
                 ("Job timeout after " +:+ str_Z timeout +:+ "s"))
              (enough timeout) (Some 0, stream) w)
    as (st & w1 & Hreach & Hend);
    [lia|intros; apply job_round_later|unfold enough; lia|].
  exists st, w1. split; [exact Hreach|].
  destruct Hend as [[Hup ->]|(Hlt & Hended & Hw)].
  - cbn. left. auto.
  - destruct st as [cursor st].
    destruct (job_round_cases base_url job_id cursor st w1)
      as (s & tail & _ & _ & _ & _ & _ & Hres).
    destruct (poll _ _ _ _ _ _ _ _) as [r w']. cbn [fst snd] in *. subst w'.
    destruct (job_round E base_url job_id (cursor, st) w1)
      as [[[[c' st']|status]|e|] w2]; cbn [fst snd ended] in *;
      try contradiction; subst r.
    + split; [exact Hlt|]. split; [apply Hres|reflexivity].
    + right. auto.
Qed.

(** *** How often the two loops poll *)

Definition no_get_instance (ev : event) : Prop :=
  match ev with GetInstance _ => False | _ => True end.

Definition no_job_status (ev : event) : Prop :=
  match ev with GetJobStatus _ _ => False | _ => True end.

Lemma no_get_instance_count ev :
  no_get_instance ev -> Scenarios.Vast.is_get_instance ev = false.
Proof. destruct ev; cbn; intros H; try reflexivity; destruct H. Qed.

Lemma no_job_status_count ev :
  no_job_status ev -> Scenarios.Vast.is_job_status ev = false.
Proof. destruct ev; cbn; intros H; try reflexivity; destruct H. Qed.

Lemma ready_round_one_poll instance_id st :
  one_poll Scenarios.Vast.is_get_instance (ready_round E instance_id st).
Proof.
  unfold ready_round. apply one_poll_bind.
  - unfold get_instance.
    apply one_poll_try_except; [apply one_poll_bind; [apply one_poll_call|]|].
    + intros result.
      apply (runs_weaken no_get_instance); [apply no_get_instance_count|].
      runs_go.
    + intros e. apply runs_ret.
  - intros instance.
    apply (runs_weaken no_get_instance); [apply no_get_instance_count|].
    runs_go.
Qed.

Lemma job_round_one_poll base_url job_id st :
  one_poll Scenarios.Vast.is_job_status (job_round E base_url job_id st).
Proof.
  unfold job_round. destruct st as [log_offset stream_logs].
  apply one_poll_bind; [apply one_poll_call|].
  intros status.
  apply (runs_weaken no_job_status); [apply no_job_status_count|].
  unfold final_logs, get_job_logs, show_progress. runs_go.
Qed.

(** *** When the result is fetched *)

Definition no_download (ev : event) : Prop :=
  match ev with DownloadResult _ _ _ => False | _ => True end.

Lemma no_download_wait_for_instance_ready instance_id timeout :
  runs no_download (wait_for_instance_ready E instance_id timeout).
Proof.
  unfold wait_for_instance_ready.
  apply runs_timed_poll; [lia| |apply runs_ret].
  intros st. unfold ready_round, get_instance. runs_go.
Qed.

Lemma no_download_create_job base_url input_url interval_cut :
  runs no_download (create_job E base_url input_url interval_cut).
Proof. unfold create_job. runs_go. Qed.

Lemma no_download_wait_for_job base_url job_id timeout stream_logs :
  runs no_download (wait_for_job E base_url job_id timeout stream_logs).
Proof.
  unfold wait_for_job.
  apply runs_timed_poll; [lia| |apply runs_raise_cls].
  intros [log_offset stream].
  unfold job_round, final_logs, get_job_status, get_job_logs, show_progress.
  runs_go.
Qed.

(** The two ways the [try] suite of [cmd_separate] can go: without a
    download, or with one download as its last call, of the job it
    submitted, right after the directory is made and after a wait that
    returned [completed]. *)
Definition fetch_post (args : args) (w : World event)
    (out : result unit * World event) : Prop :=
  out.1 <> OutOfFuel
  /\ ((exists e evs, out.1 = Raise e /\ trace out.2 = trace w ++ evs
                      /\ Forall no_download evs)
      \/ (exists base_url job_id status w1,
            let created :=
              create_job E base_url (input_url args) (interval_cut args) w1 in
            let waited := wait_for_job E base_url job_id 1800 true created.2 in
            created.1 = Ret job_id
            /\ waited.1 = Ret status
            /\ job_state status = "completed"
            /\ (exists evs, trace waited.2 = trace w ++ evs
                            /\ Forall no_download evs)
            /\ trace out.2
               = trace waited.2
                   ++ [Mkdir (Path (output args));
                       DownloadResult base_url job_id
                         (Path_div (output args) "instrumental.mp3")])).

Lemma run_job_fetches args instance_id w :
  fetch_post args w (run_job E args instance_id w).
Proof.
  unfold run_job. unfold bind at 1.
  destruct (no_download_wait_for_instance_ready instance_id 600 w)
    as (Hf1 & _ & evs1 & Ht1 & Hq1).
  destruct (wait_for_instance_ready E instance_id 600 w) as [[api_url|e|] w1];
    cbn [fst snd] in *; [| |congruence].
  2: { split; [discriminate|]. left. cbn [fst snd]. eexists _, evs1.
       split; [reflexivity|]. split; assumption. }
  destruct (truthy_str api_url); cbn [negb].
  2: { split; [discriminate|]. left. cbn [fst snd]. eexists _, evs1.
       split; [reflexivity|]. split; assumption. }
  cbv zeta. set (demucs := rstrip_slash (default "" api_url)).
  unfold bind at 1.
  destruct (no_download_create_job demucs (input_url args) (interval_cut args) w1)
    as (Hf2 & _ & evs2 & Ht2 & Hq2).
  destruct (create_job E demucs (input_url args) (interval_cut args) w1)
    as [[job_id|e|] w2] eqn:Hcreate; cbn [fst snd] in *; [| |congruence].
  2: { split; [discriminate|]. left. cbn [fst snd]. eexists _, (evs1 ++ evs2).
       split; [reflexivity|]. rewrite Ht2, Ht1, app_assoc. split; [reflexivity|].
       apply Forall_app. split; assumption. }
  unfold bind at 1.
  destruct (no_download_wait_for_job demucs job_id 1800 true w2)
    as (Hf3 & _ & evs3 & Ht3 & Hq3).
  pose proof (wait_for_job_cases demucs job_id 1800 true w2) as Hwait.
  destruct (wait_for_job E demucs job_id 1800 true w2) as [[status|e|] w3]
    eqn:Hw; cbn [fst snd] in *; [| |congruence].
  2: { split; [discriminate|]. left. cbn [fst snd]. eexists _, (evs1 ++ evs2 ++ evs3).
       split; [reflexivity|]. rewrite Ht3, Ht2, Ht1, <- !app_assoc. split; [reflexivity|].
       repeat (apply Forall_app; split); assumption. }
  destruct Hwait as (st & w0 & _ & _ & Hcompleted & _).
  assert (Hpre : exists evs, trace w3 = trace w ++ evs /\ Forall no_download evs).
  { exists (evs1 ++ evs2 ++ evs3).
    rewrite Ht3, Ht2, Ht1, <- !app_assoc. split; [reflexivity|].
    repeat (apply Forall_app; split); assumption. }
  unfold bind, download_result, call.
  destruct (fs_mkdir E w3 (Path (output args))) as [[]|e];
    cbn [result_of fst snd].
  - unfold fetch_post. cbn [fst snd trace].
    split; [match goal with |- context [http_download ?a ?b ?c ?d ?e] =>
              destruct (http_download a b c d e) end; discriminate|]. right.
    exists demucs, job_id, status, w1. cbv zeta.
    rewrite Hcreate. cbn [fst snd]. rewrite Hw. cbn [fst snd trace].
    split; [reflexivity|]. split; [reflexivity|]. split; [exact Hcompleted|].
    split; [exact Hpre|]. rewrite <- app_assoc. reflexivity.
  - split; [discriminate|]. left. cbn [fst snd].
    destruct Hpre as (evs & Ht & Hq).
    eexists _, (evs ++ [Mkdir (Path (output args))]).
    split; [reflexivity|].
    cbn [trace]. rewrite Ht, <- app_assoc. split; [reflexivity|].
    apply Forall_app. split; [exact Hq|]. repeat constructor.
Qed.

Lemma no_download_count evs :
  Forall no_download evs ->
  length (filter Scenarios.Vast.is_download evs) = 0%nat.
Proof.
  intros Hq. apply count_none. eapply Forall_impl; [exact Hq|].
  intros ev. destruct ev; cbn; intros H; try reflexivity; destruct H.
Qed.

Lemma no_download_get_ranked_offers max_results :
  runs no_download (get_ranked_offers E max_results).
Proof. unfold get_ranked_offers, search_offers. cbn [truthy_str]. runs_go. Qed.

Lemma no_download_try_offers offers : runs no_download (try_offers E offers).
Proof.
  induction offers as [|offer offers IH]; cbn [try_offers];
    unfold create_instance, print_trying; runs_go.
Qed.

Lemma no_download_teardown args instance_id :
  runs no_download (teardown E args instance_id).
Proof. unfold teardown, destroy_instance. runs_go. Qed.

(** A [cmd_separate] that returns has fetched the result, once. *)
Lemma cmd_separate_success api_key args w :
  (cmd_separate E api_key args w).1 = Ret tt ->
  Scenarios.count Scenarios.Vast.is_download (cmd_separate E api_key args w).2
  = (Scenarios.count Scenarios.Vast.is_download w + 1)%nat.
Proof.
  remember (cmd_separate E api_key args w) as out eqn:Hout.
  unfold cmd_separate in Hout. destruct (truthy_str api_key); cbn [negb] in Hout;
    [|subst out; discriminate].
  unfold bind at 1 in Hout.
  destruct (no_download_get_ranked_offers 10 w) as (_ & _ & evs1 & Ht1 & Hq1).
  destruct (get_ranked_offers E 10 w) as [[offers|e|] w1]; cbn [fst snd] in *;
    try (subst out; discriminate).
  destruct offers as [|offer offers]; [subst out; discriminate|].
  unfold bind at 1 in Hout.
  destruct (no_download_try_offers (offer :: offers) w1)
    as (_ & _ & evs2 & Ht2 & Hq2).
  destruct (try_offers E (offer :: offers) w1) as [[[inst|]|e|] w2];
    cbn [fst snd] in *; try (subst out; discriminate).
  unfold bind at 1, emit, modify in Hout.
  set (w3 := mk_World (now w2)
               (trace w2 ++ [PrintInstanceCreated (instance_id inst)])) in Hout.
  unfold try_finally in Hout.
  pose proof (run_job_fetches args (instance_id inst) w3) as [_ Hfetch].
  destruct (run_job E args (instance_id inst) w3) as [[[]|e|] w4];
    cbn [fst snd] in *.
  - destruct (no_download_teardown args (instance_id inst) w4)
      as (_ & _ & evs5 & Ht5 & Hq5).
    destruct (teardown E args (instance_id inst) w4) as [[[]|e|] w5];
      cbn [fst snd] in *; try (subst out; discriminate).
    subst out. cbn [fst snd]. intros _.
    destruct Hfetch as [(e & evs & He & _)|Hfetch]; [discriminate He|].
    destruct Hfetch as (base_url & job_id & status & w0 & Hfetch).
    cbv zeta in Hfetch.
    destruct Hfetch as (_ & _ & _ & (evs4 & Ht4 & Hq4) & Hlast).
    rewrite (count_trace _ w4 w5 evs5 Ht5), (no_download_count _ Hq5).
    unfold Scenarios.count. rewrite Hlast, Ht4. subst w3. cbn [trace].
    rewrite Ht2, Ht1, !filter_app, !length_app.
    rewrite (no_download_count _ Hq1), (no_download_count _ Hq2),
      (no_download_count _ Hq4).
    generalize (length (filter (fun x => Scenarios.Vast.is_download x) (trace w))).
    intros n. vm_compute length. lia.
  - destruct (teardown E args (instance_id inst) w4) as [[[]|e'|] w5];
      subst out; discriminate.
  - subst out; discriminate.
Qed.

End Facts.

End VastAIProps.

(** ** The RunPod client *)

Module RunPodProps.

Import RunPod.

(** Events other than a terminate call and the "Pod created" line. *)
Definition quiet (ev : event) : Prop :=
  match ev with
  | TerminatePod _ | PrintPodCreated _ => False
  | _ => True
  end.

Section Facts.

Variable E : env.

Lemma runs_get_available_gpus : runs quiet (get_available_gpus E).
Proof. unfold get_available_gpus. runs_go. Qed.

Lemma runs_get_ranked_gpus max_results : runs quiet (get_ranked_gpus E max_results).
Proof.
  unfold get_ranked_gpus.
  apply runs_bind; [apply runs_get_available_gpus|intros; runs_go].
Qed.

Lemma runs_create_pod gpu_id name : runs quiet (create_pod E gpu_id name).
Proof. unfold create_pod. runs_go. Qed.

Lemma runs_try_create_pod gpu_id name : runs quiet (try_create_pod E gpu_id name).
Proof.
  unfold try_create_pod.
  apply runs_try_except; [apply runs_create_pod|intros; runs_go].
Qed.

Lemma runs_get_pod pod_id : runs quiet (get_pod E pod_id).
Proof. unfold get_pod. runs_go. Qed.

Lemma runs_probe_ports ports : runs quiet (probe_ports E ports).
Proof.
  induction ports as [|port ports IH]; cbn [probe_ports]; [apply runs_ret|].
  destruct (_ && _); [|exact IH].
  apply runs_bind.
  - apply runs_try_except; [|intros; apply runs_ret].
    apply runs_bind; [apply runs_call; exact I|intros; apply runs_ret].
  - intros [|]; [apply runs_ret|exact IH].
Qed.

Lemma pod_runs_ready_round pod_id st : runs quiet (ready_round E pod_id st).
Proof.
  unfold ready_round. apply runs_bind; [apply runs_get_pod|].
  intros [pod|]; [|apply runs_raise_cls].
  destruct (dict_get_default _ _) as [rt|]; [|apply runs_raise_cls].
  destruct (dict_get_default _ _) as [ports|]; [|apply runs_raise_cls].
  apply runs_bind; [apply runs_probe_ports|].
  intros [url|]; apply runs_ret.
Qed.

Lemma runs_wait_for_pod_ready pod_id timeout :
  runs quiet (wait_for_pod_ready E pod_id timeout).
Proof.
  unfold wait_for_pod_ready.
  apply runs_timed_poll; [lia|apply pod_runs_ready_round|apply runs_raise_cls].
Qed.

Lemma runs_status base_url : runs quiet (status E base_url).
Proof. unfold status. runs_go. Qed.

Lemma pod_runs_create_job base_url input_url interval_cut all_stems :
  runs quiet (create_job E base_url input_url interval_cut all_stems).
Proof. unfold create_job. runs_go. Qed.

Lemma runs_get_job base_url job_id : runs quiet (get_job E base_url job_id).
Proof. unfold get_job. runs_go. Qed.

Lemma pod_runs_download_result base_url job_id path :
  runs quiet (download_result E base_url job_id path).
Proof. unfold download_result. runs_go. Qed.

Lemma pod_runs_job_round base_url job_id last_progress :
  runs quiet (job_round E base_url job_id last_progress).
Proof.
  unfold job_round. apply runs_bind; [apply runs_get_job|].
  intros. runs_go.
Qed.

Lemma pod_runs_wait_for_job base_url job_id timeout :
  runs quiet (wait_for_job E base_url job_id timeout).
Proof.
  unfold wait_for_job.
  apply runs_timed_poll; [lia|apply pod_runs_job_round|apply runs_raise_cls].
Qed.

Lemma runs_try_gpus gpus : runs quiet (try_gpus E gpus).
Proof.
  induction gpus as [|gpu gpus IH]; cbn [try_gpus]; [apply runs_ret|].
  apply runs_bind; [apply runs_try_create_pod|].
  intros [pod|]; [apply runs_ret|exact IH].
Qed.

Lemma runs_wait_models rounds base_url : runs quiet (wait_models E rounds base_url).
Proof.
  induction rounds as [|rounds IH]; cbn [wait_models]; [apply runs_ret|].
  apply runs_bind; [apply runs_time_sleep; lia|intros _].
  apply runs_bind; [apply runs_status|].
  intros [|]; [apply runs_ret|exact IH].
Qed.

Hint Resolve runs_wait_for_pod_ready runs_status runs_wait_models
  pod_runs_create_job pod_runs_wait_for_job pod_runs_download_result : runs.

Lemma pod_runs_run_job args pod_id : runs quiet (run_job E args pod_id).
Proof. unfold run_job. runs_go. Qed.

(** The pods a trace terminates, and those it reports as created. *)
Definition terminates (tr : list event) : list string :=
  flat_map (fun ev => match ev with TerminatePod p => [p] | _ => [] end) tr.

Definition created (tr : list event) : list string :=
  flat_map (fun ev => match ev with PrintPodCreated p => [p] | _ => [] end) tr.

Lemma quiet_terminates evs : Forall quiet evs -> terminates evs = [].
Proof.
  induction 1 as [|ev evs Hq _ IH]; [reflexivity|].
  unfold terminates in *. cbn. rewrite IH. destruct ev; cbn in *; tauto.
Qed.

Lemma pod_quiet_created evs : Forall quiet evs -> created evs = [].
Proof.
  induction 1 as [|ev evs Hq _ IH]; [reflexivity|].
  unfold created in *. cbn. rewrite IH. destruct ev; cbn in *; tauto.
Qed.

Lemma terminates_app tr1 tr2 :
  terminates (tr1 ++ tr2) = terminates tr1 ++ terminates tr2.
Proof. unfold terminates. apply flat_map_app. Qed.

Lemma pod_created_app tr1 tr2 : created (tr1 ++ tr2) = created tr1 ++ created tr2.
Proof. unfold created. apply flat_map_app. Qed.

(** The [finally] suite ends, and calls terminate once or not at all. *)
Lemma pod_teardown_trace args pod_id w :
  (teardown E args pod_id w).1 <> OutOfFuel
  /\ trace (teardown E args pod_id w).2
     = trace w ++ (if keep_pod args then [] else [TerminatePod pod_id]).
Proof.
  unfold teardown. destruct (keep_pod args); cbn.
  - split; [discriminate|]. rewrite app_nil_r. reflexivity.
  - unfold stop_pod, bind, call, ret, raise_cls, raise.
    destruct (gql_terminate E w pod_id) as [[errors|]|e]; cbn;
      split; try discriminate; reflexivity.
Qed.

(** What a whole run of [cmd_separate] leaves in the trace. *)
Definition separate_post (args : args) (w : World event)
    (out : result unit * World event) : Prop :=
  out.1 <> OutOfFuel
  /\ exists evs, trace out.2 = trace w ++ evs
     /\ ((created evs = [] /\ terminates evs = [])
         \/ exists pod_id,
              created evs = [pod_id]
              /\ terminates evs = (if keep_pod args then [] else [pod_id])
              /\ (keep_pod args = false ->
                    last evs = Some (TerminatePod pod_id))).

Lemma pod_separate_post_quiet args w r w' evs :
  r <> OutOfFuel -> trace w' = trace w ++ evs -> Forall quiet evs ->
  separate_post args w (r, w').
Proof.
  intros Hr Ht Hq. split; [assumption|]. exists evs. split; [assumption|].
  left. auto using pod_quiet_created, quiet_terminates.
Qed.

Lemma pod_cmd_separate_trace api_key args w :
  separate_post args w (cmd_separate E api_key args w).
Proof.
  unfold cmd_separate.
  destruct (negb (truthy_str api_key)).
  { apply pod_separate_post_quiet with (evs := []); cbn;
      [discriminate|rewrite app_nil_r; reflexivity|constructor]. }
  unfold bind at 1.
  destruct (runs_get_ranked_gpus 10 w) as (Hf1 & _ & evs1 & Ht1 & Hq1).
  destruct (get_ranked_gpus E 10 w) as [[gpus|e|] w1]; cbn [fst snd] in *;
    [|apply pod_separate_post_quiet with (evs := evs1); auto; discriminate
     |congruence].
  destruct gpus as [|gpu gpus].
  { apply pod_separate_post_quiet with (evs := evs1); auto; discriminate. }
  unfold bind at 1.
  destruct (runs_try_gpus (gpu :: gpus) w1) as (Hf2 & _ & evs2 & Ht2 & Hq2).
  destruct (try_gpus E (gpu :: gpus) w1) as [[[[pod selected]|]|e|] w2];
    cbn [fst snd] in *; try congruence.
  2,3: apply pod_separate_post_quiet with (evs := evs1 ++ evs2);
       [discriminate|rewrite Ht2, Ht1, app_assoc; reflexivity
       |apply Forall_app; auto].
  unfold bind at 1, emit at 1, modify at 1.
  set (w3 := mk_World (now w2) (trace w2 ++ [PrintPodCreated (pod_id pod)])).
  unfold try_finally.
  destruct (pod_runs_run_job args (pod_id pod) w3) as (Hf4 & _ & evs4 & Ht4 & Hq4).
  destruct (pod_teardown_trace args (pod_id pod)
              (run_job E args (pod_id pod) w3).2) as (Hf5 & Ht5).
  assert (Hall : forall r w5, r <> OutOfFuel ->
            trace w5 = trace (run_job E args (pod_id pod) w3).2
                   ++ (if keep_pod args then [] else [TerminatePod (pod_id pod)]) ->
            separate_post args w (r, w5)).
  { intros r w5 Hr Ht. split; [assumption|].
    exists (evs1 ++ evs2 ++ [PrintPodCreated (pod_id pod)] ++ evs4
            ++ (if keep_pod args then [] else [TerminatePod (pod_id pod)])).
    split.
    { cbn [snd]. rewrite Ht, Ht4. subst w3. cbn [trace]. rewrite Ht2, Ht1.
      rewrite <- !app_assoc. reflexivity. }
    right. exists (pod_id pod).
    rewrite !pod_created_app, !terminates_app.
    rewrite (pod_quiet_created evs1), (pod_quiet_created evs2), (pod_quiet_created evs4),
      (quiet_terminates evs1), (quiet_terminates evs2), (quiet_terminates evs4)
      by assumption.
    destruct (keep_pod args); cbn; repeat split; try reflexivity;
      try discriminate.
    intros _.
    change (PrintPodCreated (pod_id pod) :: evs4 ++ [TerminatePod (pod_id pod)])
      with ((PrintPodCreated (pod_id pod) :: evs4) ++ [TerminatePod (pod_id pod)]).
    rewrite !app_assoc. apply last_snoc. }
  destruct (run_job E args (pod_id pod) w3) as [[u|e|] w4];
    cbn [fst snd] in *; try congruence.
  all: destruct (teardown E args (pod_id pod) w4) as [[u'|e'|] w5];
    cbn [fst snd] in *; try congruence.
  all: apply Hall; [discriminate|assumption].
Qed.

(** When the GPU loop ends with a pod, the run reports it and then makes
    only quiet calls until the [finally] suite. *)
Lemma pod_provisioned_trace api_key args w gpus w1 pod selected w2 :
  truthy_str api_key = true ->
  get_ranked_gpus E 10 w = (Ret gpus, w1) ->
  try_gpus E gpus w1 = (Ret (Some (pod, selected)), w2) ->
  exists evs,
    trace (cmd_separate E api_key args w).2
    = trace w2 ++ [PrintPodCreated (pod_id pod)] ++ evs
        ++ (if keep_pod args then [] else [TerminatePod (pod_id pod)])
    /\ Forall quiet evs.
Proof.
  intros Hkey Hrank Htry. unfold cmd_separate. rewrite Hkey. cbn [negb].
  unfold bind at 1. rewrite Hrank.
  destruct gpus as [|gpu gpus]; [discriminate|].
  unfold bind at 1. rewrite Htry.
  unfold bind at 1, emit at 1, modify at 1.
  set (w3 := mk_World (now w2) (trace w2 ++ [PrintPodCreated (pod_id pod)])).
  unfold try_finally.
  destruct (pod_runs_run_job args (pod_id pod) w3) as (Hf4 & _ & evs4 & Ht4 & Hq4).
  destruct (pod_teardown_trace args (pod_id pod)
              (run_job E args (pod_id pod) w3).2) as (Hf5 & Ht5).
  exists evs4. split; [|assumption].
  destruct (run_job E args (pod_id pod) w3) as [[u|e|] w4];
    cbn [fst snd] in *; try congruence.
  all: destruct (teardown E args (pod_id pod) w4) as [[u'|e'|] w5];
    cbn [fst snd] in *; try congruence.
  all: rewrite Ht5, Ht4; subst w3; cbn [trace]; rewrite <- !app_assoc;
    reflexivity.
Qed.

Lemma pod_provisioned_created api_key args t0 gpus w1 pod selected w2 :
  truthy_str api_key = true ->
  get_ranked_gpus E 10 (init t0) = (Ret gpus, w1) ->
  try_gpus E gpus w1 = (Ret (Some (pod, selected)), w2) ->
  created (trace (cmd_separate E api_key args (init t0)).2) = [pod_id pod].
Proof.
  intros Hkey Hrank Htry.
  destruct (pod_provisioned_trace api_key args _ _ _ _ _ _ Hkey Hrank Htry)
    as (evs & Ht & Hq).
  rewrite Ht.
  destruct (runs_get_ranked_gpus 10 (init t0)) as (_ & _ & evs1 & Ht1 & Hq1).
  rewrite Hrank in Ht1. cbn [snd init trace] in Ht1.
  destruct (runs_try_gpus gpus w1) as (_ & _ & evs2 & Ht2 & Hq2).
  rewrite Htry in Ht2. cbn [snd] in Ht2.
  cbn [app] in Ht1. rewrite Ht2, Ht1.
  rewrite !pod_created_app.
  rewrite (pod_quiet_created evs1), (pod_quiet_created evs2), (pod_quiet_created evs)
    by assumption.
  destruct (keep_pod args); reflexivity.
Qed.

(** *** Provisioning *)

(** The GPU types a trace asks a pod for, in order. *)
Definition creates (tr : list event) : list string :=
  flat_map (fun ev => match ev with CreatePod g _ => [g] | _ => [] end) tr.

Lemma pod_creates_app tr1 tr2 : creates (tr1 ++ tr2) = creates tr1 ++ creates tr2.
Proof. unfold creates. apply flat_map_app. Qed.

(** The pod of an answer, as [create_pod] reads it:
    [result.get("data", {}).get("podFindAndDeployOnDemand", {})].
    [None] is the [AttributeError] of a [data] that is [null], [Absent]
    the empty dict. *)
Definition deployed (resp : create_pod_response) : option (field created_pod) :=
  dict_get_default (cp_data resp) Absent.

(** An answer to the create mutation that [try_create_pod] takes for
    "this GPU type is not to be had": an error whose text has
    "resources" or "not have" in it, in the answer or raised by the
    request, or an answer with no pod in it. *)
Definition no_capacity (r : reply create_pod_response) : Prop :=
  match r with
  | Ok resp =>
      match cp_errors resp with
      | Some errors =>
          gpu_unavailable
            (mk_exn Exception ("Failed to create pod: " +:+ errors)) = true
      | None => deployed resp = Some Absent
      end
  | Fail e => is_Exception e = true /\ gpu_unavailable e = true
  end.

(** An answer that holds the pod [pod]. *)
Definition holds_pod (r : reply create_pod_response) (pod : created_pod) : Prop :=
  exists resp, r = Ok resp /\ cp_errors resp = None
               /\ deployed resp = Some (Val pod).

(** Any other answer, with the exception it comes out as. *)
Definition other_failure (r : reply create_pod_response) (e : exn) : Prop :=
  match r with
  | Ok resp =>
      match cp_errors resp with
      | Some errors =>
          e = mk_exn Exception ("Failed to create pod: " +:+ errors)
          /\ gpu_unavailable e = false
      | None =>
          (deployed resp = None \/ deployed resp = Some Null)
          /\ e = AttributeError_get
      end
  | Fail e' => e = e' /\ (is_Exception e' = false \/ gpu_unavailable e' = false)
  end.

Lemma attribute_error_is_other : gpu_unavailable AttributeError_get = false.
Proof. vm_compute. reflexivity. Qed.

Lemma try_create_pod_cases gpu_id name w :
  let r := gql_create_pod E w gpu_id name in
  (try_create_pod E gpu_id name w).2
  = mk_World (now w + Z.of_N (latency E w)) (trace w ++ [CreatePod gpu_id name])
  /\ (no_capacity r -> (try_create_pod E gpu_id name w).1 = Ret None)
  /\ (forall pod, holds_pod r pod ->
        (try_create_pod E gpu_id name w).1 = Ret (Some pod))
  /\ (forall e, other_failure r e -> (try_create_pod E gpu_id name w).1 = Raise e).
Proof.
  cbv zeta.
  unfold try_create_pod, create_pod, try_except, bind, call, ret, raise_cls,
    raise, no_capacity, holds_pod, other_failure, deployed.
  destruct (gql_create_pod E w gpu_id name) as [[[errors|] [| |[| |pod]]]|e];
    cbn [result_of cp_errors cp_data dict_get_default is_Exception exn_cls
         AttributeError_get].
  all: fold AttributeError_get; rewrite ?attribute_error_is_other.
  all: try (destruct (gpu_unavailable (mk_exn Exception _)) eqn:Hcap).
  all: try (destruct (is_Exception e) eqn:Hexn;
            [destruct (gpu_unavailable e) eqn:Hcap|]).
  all: cbn [fst snd]; repeat split; try reflexivity; intros;
    repeat match goal with
           | H : _ /\ _ |- _ => destruct H
           | H : ex _ |- _ => destruct H
           | H : _ \/ _ |- _ => destruct H
           | H : Ok _ = Ok _ |- _ => injection H as <-
           end;
    cbn [cp_errors cp_data dict_get_default] in *;
    subst; try congruence.
Qed.

(** The GPU loop stops at the first GPU type that yields a pod, having
    asked once for each type before it and once for this one. *)
Lemma try_gpus_first_success pre g post pod : forall w,
  (forall g' w', In g' pre ->
     no_capacity (gql_create_pod E w' (id g') "demucs-worker")) ->
  (forall w', holds_pod (gql_create_pod E w' (id g) "demucs-worker") pod) ->
  (try_gpus E (pre ++ g :: post) w).1 = Ret (Some (pod, g))
  /\ creates (trace (try_gpus E (pre ++ g :: post) w).2)
     = creates (trace w) ++ map id (pre ++ [g]).
Proof.
  induction pre as [|g0 pre IH]; intros w Hpre Hg.
  - cbn [app try_gpus map]. unfold bind.
    destruct (try_create_pod_cases (id g) "demucs-worker" w) as (Hw & _ & Hok & _).
    specialize (Hok pod (Hg w)).
    destruct (try_create_pod E (id g) "demucs-worker" w) as [r w1].
    cbn [fst snd] in *. subst. cbn [ret fst snd trace].
    split; [reflexivity|]. rewrite pod_creates_app. reflexivity.
  - cbn [app try_gpus map]. unfold bind at 1 2.
    destruct (try_create_pod_cases (id g0) "demucs-worker" w) as (Hw & Hno & _ & _).
    specialize (Hno (Hpre g0 w (or_introl eq_refl))).
    destruct (try_create_pod E (id g0) "demucs-worker" w) as [r w1].
    cbn [fst snd] in *. subst.
    destruct (IH (mk_World (now w + Z.of_N (latency E w))
                    (trace w ++ [CreatePod (id g0) "demucs-worker"])))
      as (Hr & Hc); [intros; apply Hpre; right; assumption|assumption|].
    split; [assumption|].
    rewrite Hc. cbn [trace]. rewrite pod_creates_app, <- app_assoc. reflexivity.
Qed.

(** The GPU loop is left at the first failure of another kind, with no
    further attempt. *)
Lemma try_gpus_abort pre g post e : forall w,
  (forall g' w', In g' pre ->
     no_capacity (gql_create_pod E w' (id g') "demucs-worker")) ->
  (forall w', other_failure (gql_create_pod E w' (id g) "demucs-worker") e) ->
  (try_gpus E (pre ++ g :: post) w).1 = Raise e
  /\ creates (trace (try_gpus E (pre ++ g :: post) w).2)
     = creates (trace w) ++ map id (pre ++ [g]).
Proof.
  induction pre as [|g0 pre IH]; intros w Hpre Hg.
  - cbn [app try_gpus map]. unfold bind.
    destruct (try_create_pod_cases (id g) "demucs-worker" w) as (Hw & _ & _ & Hko).
    specialize (Hko e (Hg w)).
    destruct (try_create_pod E (id g) "demucs-worker" w) as [r w1].
    cbn [fst snd] in *. subst. cbn [ret fst snd trace].
    split; [reflexivity|]. rewrite pod_creates_app. reflexivity.
  - cbn [app try_gpus map]. unfold bind at 1 2.
    destruct (try_create_pod_cases (id g0) "demucs-worker" w) as (Hw & Hno & _ & _).
    specialize (Hno (Hpre g0 w (or_introl eq_refl))).
    destruct (try_create_pod E (id g0) "demucs-worker" w) as [r w1].
    cbn [fst snd] in *. subst.
    destruct (IH (mk_World (now w + Z.of_N (latency E w))
                    (trace w ++ [CreatePod (id g0) "demucs-worker"])))
      as (Hr & Hc); [intros; apply Hpre; right; assumption|assumption|].
    split; [assumption|].
    rewrite Hc. cbn [trace]. rewrite pod_creates_app, <- app_assoc. reflexivity.
Qed.

(** With no GPU type to be had the loop ends without a pod, having asked
    once for each. *)
Lemma try_gpus_exhausted gpus : forall w,
  (forall g' w', In g' gpus ->
     no_capacity (gql_create_pod E w' (id g') "demucs-worker")) ->
  (try_gpus E gpus w).1 = Ret None
  /\ creates (trace (try_gpus E gpus w).2) = creates (trace w) ++ map id gpus.
Proof.
  induction gpus as [|g0 gpus IH]; intros w Hall.
  - cbn. rewrite app_nil_r. auto.
  - cbn [try_gpus map]. unfold bind at 1 2.
    destruct (try_create_pod_cases (id g0) "demucs-worker" w) as (Hw & Hno & _ & _).
    specialize (Hno (Hall g0 w (or_introl eq_refl))).
    destruct (try_create_pod E (id g0) "demucs-worker" w) as [r w1].
    cbn [fst snd] in *. subst.
    destruct (IH (mk_World (now w + Z.of_N (latency E w))
                    (trace w ++ [CreatePod (id g0) "demucs-worker"])))
      as (Hr & Hc); [intros; apply Hall; right; assumption|].
    split; [assumption|].
    rewrite Hc. cbn [trace]. rewrite pod_creates_app, <- app_assoc. reflexivity.
Qed.

(** [cmd_separate] turns a loop that ends without a pod into
    [sys.exit(1)]. *)
Lemma cmd_separate_no_capacity api_key args w gpus w1 :
  truthy_str api_key = true ->
  get_ranked_gpus E 10 w = (Ret gpus, w1) ->
  (forall g' w', In g' gpus ->
     no_capacity (gql_create_pod E w' (id g') "demucs-worker")) ->
  (cmd_separate E api_key args w).1 = Raise (mk_exn (SystemExit 1) "").
Proof.
  intros Hkey Hrank Hall. unfold cmd_separate. rewrite Hkey. cbn [negb].
  unfold bind at 1. rewrite Hrank.
  destruct gpus as [|g gpus]; [reflexivity|].
  unfold bind at 1.
  destruct (try_gpus_exhausted (g :: gpus) w1 Hall) as (Hr & _).
  destruct (try_gpus E (g :: gpus) w1) as [r w2]. cbn [fst] in Hr. subst r.
  reflexivity.
Qed.

(** *** Readiness *)

(** The world in which the answer to the poll made in [w] arrives. *)
Definition polled (pod_id : string) (w : World event) : World event :=
  mk_World (now w + Z.of_N (latency E w)) (trace w ++ [GetPod pod_id]).

(** The world after the health probe sent to [url] in [w]. *)
Definition probed (url : string) (w : World event) : World event :=
  mk_World (now w + Z.of_N (latency E w)) (trace w ++ [Health url]).

(** The pod polled in [w] lists the port mappings [ports]: the answer
    has no errors, and neither its [data], its [pod], the pod's
    [runtime] nor the runtime's [ports] is [null] (a missing one is
    read as empty). *)
Definition listed (pod_id : string) (w : World event) (ports : list port)
    : Prop :=
  exists resp data pod rt,
    gql_get_pod E w pod_id = Ok resp /\ gp_errors resp = None
    /\ dict_get_default (gp_data resp) Absent = Some data
    /\ dict_get_default data (mk_pod_info Absent) = Some pod
    /\ dict_get_default (runtime pod) (mk_runtime_info Absent) = Some rt
    /\ dict_get_default (rt_ports rt) [] = Some ports.

(** The answer to the poll made in [w] has a [null] where the round
    reads through it, and [e] is what reading through it raises. *)
Definition nulled (pod_id : string) (w : World event) (e : exn) : Prop :=
  exists resp,
    gql_get_pod E w pod_id = Ok resp /\ gp_errors resp = None
    /\ match dict_get_default (gp_data resp) Absent with
       | None => e = AttributeError_get
       | Some data =>
           match dict_get_default data (mk_pod_info Absent) with
           | None => e = AttributeError_get
           | Some pod =>
               match dict_get_default (runtime pod) (mk_runtime_info Absent) with
               | None => e = AttributeError_get
               | Some rt =>
                   rt_ports rt = Null
                   /\ e = mk_exn TypeError "'NoneType' object is not iterable"
               end
           end
       end.

(** The port [port] maps the API's private port to [url]. *)
Definition maps_api (port : port) (url : string) : Prop :=
  exists address public,
    privatePort port = Some API_PORT
    /\ ip port = Some address /\ address <> ""
    /\ publicPort port = Some public /\ public <> 0
    /\ url = "http://" +:+ address +:+ ":" +:+ str_Z public.

(** The probes of [ports], started in [w], come to the port that maps
    the API to [url] in world [w1]: the ports before it were passed or
    probed without success. *)
Definition comes_to (ports : list port) (w : World event) (url : string)
    (w1 : World event) : Prop :=
  exists before port after,
    ports = before ++ port :: after
    /\ probe_ports E before w = (Ret None, w1)
    /\ maps_api port url.

(** A probe that finds the API at [url]. *)
Definition healthy_probe (ports : list port) (w : World event) (url : string)
    (w' : World event) : Prop :=
  exists w1, comes_to ports w url w1
             /\ http_health E w1 url = Ok 200 /\ w' = probed url w1.

(** A probe that raises [e]: it failed outside [requests]. *)
Definition broken_probe (ports : list port) (w : World event) (e : exn) : Prop :=
  exists url w1, comes_to ports w url w1
                 /\ http_health E w1 url = Fail e
                 /\ is_RequestException e = false.

Lemma truthy_Z_Some z : truthy_Z z = true -> exists n, z = Some n /\ n <> 0.
Proof.
  destruct z as [n|]; cbn; [|discriminate].
  intros H. exists n. split; [reflexivity|].
  apply negb_true_iff, Z.eqb_neq in H. assumption.
Qed.

Lemma pod_truthy_str_Some s : truthy_str s = true -> exists t, s = Some t /\ t <> "".
Proof.
  destruct s as [[|c t]|]; cbn; try discriminate.
  intros _. eexists. split; [reflexivity|discriminate].
Qed.

(** A port that does not map the API is passed without a probe. *)
Lemma probe_ports_pass port ports w :
  bool_decide (privatePort port = Some API_PORT)
  && truthy_str (ip port) && truthy_Z (publicPort port) = false ->
  probe_ports E (port :: ports) w = probe_ports E ports w.
Proof. intros H. cbn [probe_ports]. rewrite H. reflexivity. Qed.

(** A port that maps the API to [url] is probed there, and the
    outcome of the probe decides. *)
Lemma probe_ports_api port ports url w :
  maps_api port url ->
  probe_ports E (port :: ports) w
  = match http_health E w url with
    | Ok code =>
        if code =? 200 then (Ret (Some url), probed url w)
        else probe_ports E ports (probed url w)
    | Fail e =>
        if is_RequestException e then probe_ports E ports (probed url w)
        else (Raise e, probed url w)
    end.
Proof.
  intros (address & public & Hpriv & Hip & Hane & Hpub & Hpbne & ->).
  cbn [probe_ports].
  rewrite bool_decide_eq_true_2 by assumption.
  rewrite Hip, Hpub.
  destruct address as [|c a]; [congruence|].
  cbn [truthy_str truthy_Z andb default from_option]. unfold id.
  replace (negb (public =? 0)) with true
    by (symmetry; apply negb_true_iff, Z.eqb_neq; assumption).
  unfold bind at 1, try_except at 1, bind at 1, call at 1.
  destruct (http_health E w _) as [code|e]; cbn [result_of].
  - unfold ret at 1 2. destruct (code =? 200); reflexivity.
  - destruct (is_RequestException e); reflexivity.
Qed.

Lemma maps_api_dec port :
  (exists url, maps_api port url)
  \/ bool_decide (privatePort port = Some API_PORT)
     && truthy_str (ip port) && truthy_Z (publicPort port) = false.
Proof.
  destruct (bool_decide (privatePort port = Some API_PORT)) eqn:Hpriv;
    [|right; reflexivity].
  destruct (truthy_str (ip port)) eqn:Hip; [|right; reflexivity].
  destruct (truthy_Z (publicPort port)) eqn:Hpub; [|right; reflexivity].
  left. apply bool_decide_eq_true in Hpriv.
  apply pod_truthy_str_Some in Hip. destruct Hip as (a & Hip & Hane).
  apply truthy_Z_Some in Hpub. destruct Hpub as (pb & Hpub & Hpbne).
  eexists. exists a, pb. repeat split; eassumption.
Qed.

Lemma comes_to_here port after w url :
  maps_api port url -> comes_to (port :: after) w url w.
Proof.
  intros Hmap. exists [], port, after.
  split; [reflexivity|]. split; [reflexivity|exact Hmap].
Qed.

Lemma comes_to_cons port ports w w1 url w2 :
  probe_ports E [port] w = (Ret None, w1) ->
  comes_to ports w1 url w2 -> comes_to (port :: ports) w url w2.
Proof.
  intros Hport (before & p & after & -> & Hbefore & Hmap).
  exists (port :: before), p, after. split; [reflexivity|]. split; [|exact Hmap].
  destruct (maps_api_dec port) as [[url0 Hmap0]|Hpass].
  - rewrite (probe_ports_api port [] _ _ Hmap0) in Hport.
    rewrite (probe_ports_api port before _ _ Hmap0).
    destruct (http_health E w url0) as [code|e].
    + destruct (code =? 200); [discriminate|].
      cbn [probe_ports ret] in Hport. injection Hport as <-. exact Hbefore.
    + destruct (is_RequestException e); [|discriminate].
      cbn [probe_ports ret] in Hport. injection Hport as <-. exact Hbefore.
  - rewrite (probe_ports_pass port [] _ Hpass) in Hport.
    rewrite (probe_ports_pass port before _ Hpass).
    cbn [probe_ports ret] in Hport. injection Hport as <-. exact Hbefore.
Qed.

(** How the probes of a round can end. *)
Lemma probe_ports_cases ports : forall w,
  now w <= now (probe_ports E ports w).2
  /\ match probe_ports E ports w with
     | (Ret (Some url), w') => healthy_probe ports w url w'
     | (Ret None, _) => True
     | (Raise e, _) => broken_probe ports w e
     | (OutOfFuel, _) => False
     end.
Proof.
  induction ports as [|port ports IH]; intros w.
  - cbn. split; [lia|exact I].
  - destruct (maps_api_dec port) as [[url Hmap]|Hpass].
    + rewrite (probe_ports_api _ _ _ _ Hmap).
      assert (Hrest :
        probe_ports E [port] w = (Ret None, probed url w) ->
        now w <= now (probe_ports E ports (probed url w)).2
        /\ match probe_ports E ports (probed url w) with
           | (Ret (Some url'), w') => healthy_probe (port :: ports) w url' w'
           | (Ret None, _) => True
           | (Raise e, _) => broken_probe (port :: ports) w e
           | (OutOfFuel, _) => False
           end).
      { intros Hport. destruct (IH (probed url w)) as [Hn Hcase].
        split; [cbn [probed now] in Hn; lia|].
        destruct (probe_ports E ports (probed url w)) as [[[url'|]|e|] w'];
          try assumption.
        - destruct Hcase as (w1 & Hcome & Hh & ->).
          exists w1. split; [eapply comes_to_cons; eassumption|]. auto.
        - destruct Hcase as (url' & w1 & Hcome & Hh & He).
          exists url', w1. split; [eapply comes_to_cons; eassumption|]. auto. }
      rewrite (probe_ports_api port [] _ _ Hmap) in Hrest.
      cbn [probe_ports ret] in Hrest.
      destruct (http_health E w url) as [code|e] eqn:Hh.
      * destruct (code =? 200) eqn:Hcode; [|apply Hrest; reflexivity].
        apply Z.eqb_eq in Hcode. subst code. cbn [snd probed now].
        split; [lia|]. exists w. split; [apply comes_to_here; exact Hmap|]. auto.
      * destruct (is_RequestException e) eqn:He; [apply Hrest; reflexivity|].
        cbn [snd probed now]. split; [lia|].
        exists url, w. split; [apply comes_to_here; exact Hmap|]. auto.
    + rewrite (probe_ports_pass _ _ _ Hpass).
      destruct (IH w) as [Hn Hcase]. split; [exact Hn|].
      assert (Hport : probe_ports E [port] w = (Ret None, w)).
      { rewrite (probe_ports_pass _ _ _ Hpass). reflexivity. }
      destruct (probe_ports E ports w) as [[[url'|]|e|] w']; try assumption.
      * destruct Hcase as (w1 & Hcome & Hh & ->).
        exists w1. split; [eapply comes_to_cons; eassumption|]. auto.
      * destruct Hcase as (url' & w1 & Hcome & Hh & He).
        exists url', w1. split; [eapply comes_to_cons; eassumption|]. auto.
Qed.

(** What the probes do once they come to a port that maps the API. *)
Lemma comes_to_probe ports w url w1 :
  comes_to ports w url w1 ->
  match http_health E w1 url with
  | Ok code =>
      if code =? 200 then probe_ports E ports w = (Ret (Some url), probed url w1)
      else True
  | Fail e =>
      if is_RequestException e then True
      else probe_ports E ports w = (Raise e, probed url w1)
  end.
Proof.
  intros (before & port & after & -> & Hbefore & Hmap).
  assert (Hgo : probe_ports E (before ++ port :: after) w
                = probe_ports E (port :: after) w1).
  { clear Hmap. revert w Hbefore.
    induction before as [|p before IH]; intros w Hbefore.
    - cbn in Hbefore. injection Hbefore as <-. reflexivity.
    - cbn [app]. destruct (maps_api_dec p) as [[url0 Hmap0]|Hpass].
      + rewrite (probe_ports_api p before _ _ Hmap0) in Hbefore.
        rewrite (probe_ports_api p (before ++ port :: after) _ _ Hmap0).
        destruct (http_health E w url0) as [code|e].
        * destruct (code =? 200); [discriminate|]. apply IH. exact Hbefore.
        * destruct (is_RequestException e); [|discriminate].
          apply IH. exact Hbefore.
      + rewrite (probe_ports_pass p before _ Hpass) in Hbefore.
        rewrite (probe_ports_pass p (before ++ port :: after) _ Hpass).
        apply IH. exact Hbefore. }
  rewrite Hgo, (probe_ports_api _ _ _ _ Hmap).
  destruct (http_health E w1 url) as [code|e].
  - destruct (code =? 200); [reflexivity|exact I].
  - destruct (is_RequestException e); [exact I|reflexivity].
Qed.

(** A probe that answers anything but 200, or fails inside [requests],
    does not stop the round: the remaining ports are tried. *)
Lemma pod_unhealthy_probe_goes_on port ports url w :
  maps_api port url ->
  match http_health E w url with
  | Ok code => code <> 200
  | Fail e => is_RequestException e = true
  end ->
  probe_ports E (port :: ports) w = probe_ports E ports (probed url w).
Proof.
  intros Hmap Hprobe. rewrite (probe_ports_api _ _ _ _ Hmap).
  destruct (http_health E w url) as [code|e].
  - destruct (code =? 200) eqn:Hc; [apply Z.eqb_eq in Hc; congruence|reflexivity].
  - rewrite Hprobe. reflexivity.
Qed.

(** The ways a round of the readiness loop raises: the poll itself
    fails or answers with errors, the answer has a [null] on the way
    to the ports, or a probe fails outside [requests]. *)
Definition pod_round_raises (pod_id : string) (w : World event) (e : exn)
    : Prop :=
  gql_get_pod E w pod_id = Fail e
  \/ (exists resp errors,
        gql_get_pod E w pod_id = Ok resp /\ gp_errors resp = Some errors
        /\ e = mk_exn Exception ("Failed to get pod: " +:+ errors))
  \/ nulled pod_id w e
  \/ (exists ports, listed pod_id w ports
                    /\ broken_probe ports (polled pod_id w) e).

(** How one round of the readiness loop can end. *)
Definition pod_ready_round_post (pod_id : string) (w : World event)
    (out : result (unit + string) * World event) : Prop :=
  now w <= now out.2
  /\ match out with
     | (Ret (inl _), w') => True
     | (Ret (inr url), w') =>
         exists ports, listed pod_id w ports
                       /\ healthy_probe ports (polled pod_id w) url w'
     | (Raise e, _) => pod_round_raises pod_id w e
     | (OutOfFuel, _) => False
     end.

(** A round on a pod that lists [ports] is the probes of these. *)
Lemma listed_round pod_id w ports :
  listed pod_id w ports ->
  ready_round E pod_id tt w
  = (found <- probe_ports E ports ;;
     match found with
     | Some url => ret (inr url)
     | None => ret (inl tt)
     end) (polled pod_id w).
Proof.
  intros (resp & data & pod & rt & Hget & Herr & Hdata & Hpod & Hrt & Hports).
  unfold ready_round. unfold bind at 1.
  unfold get_pod, bind at 1, call at 1. fold (polled pod_id w).
  rewrite Hget. cbn [result_of]. rewrite Herr, Hdata. unfold ret at 1.
  rewrite Hpod, Hrt, Hports. reflexivity.
Qed.

Lemma pod_ready_round_cases pod_id w :
  pod_ready_round_post pod_id w (ready_round E pod_id tt w).
Proof.
  unfold pod_ready_round_post.
  destruct (ready_round E pod_id tt w) as [r w'] eqn:Hr. revert Hr.
  unfold pod_round_raises, nulled.
  unfold ready_round. unfold bind at 1.
  unfold get_pod, bind at 1, call at 1. fold (polled pod_id w).
  assert (Hw1 : now w <= now (polled pod_id w)) by (cbn; lia).
  destruct (gql_get_pod E w pod_id) as [resp|e] eqn:Hget; cbn [result_of].
  2: { intros [= <- <-]. split; [exact Hw1|]. left. reflexivity. }
  destruct (gp_errors resp) as [errors|] eqn:Herr.
  { intros [= <- <-]. split; [exact Hw1|]. right. left. eauto. }
  destruct (dict_get_default (gp_data resp) Absent) as [data|] eqn:Hdata.
  2: { intros [= <- <-]. split; [exact Hw1|]. right. right. left.
       exists resp. rewrite Hdata. auto. }
  unfold ret at 1.
  destruct (dict_get_default data (mk_pod_info Absent)) as [pod|] eqn:Hpod.
  2: { intros [= <- <-]. split; [exact Hw1|]. right. right. left.
       exists resp. rewrite Hdata, Hpod. auto. }
  destruct (dict_get_default (runtime pod) (mk_runtime_info Absent))
    as [rt|] eqn:Hrt.
  2: { intros [= <- <-]. split; [exact Hw1|]. right. right. left.
       exists resp. rewrite Hdata, Hpod, Hrt. auto. }
  destruct (dict_get_default (rt_ports rt) []) as [ports|] eqn:Hports.
  2: { intros [= <- <-]. split; [exact Hw1|]. right. right. left.
       exists resp. rewrite Hdata, Hpod, Hrt.
       destruct (rt_ports rt); try discriminate. auto. }
  assert (Hlisted : listed pod_id w ports).
  { exists resp, data, pod, rt. auto 10. }
  unfold bind.
  destruct (probe_ports_cases ports (polled pod_id w)) as [Hn Hprobe].
  destruct (probe_ports E ports (polled pod_id w)) as [[[url'|]|e|] w2];
    cbn [ret snd] in *; intros [= <- <-]; (split; [lia|]); try exact I.
  - exists ports. auto.
  - right. right. right. exists ports. auto.
  - contradiction.
Qed.

(** A round raises [e] exactly for one of these causes. *)
Lemma pod_ready_round_raises pod_id w e :
  (ready_round E pod_id tt w).1 = Raise e <-> pod_round_raises pod_id w e.
Proof.
  split.
  - intros Hr. pose proof (pod_ready_round_cases pod_id w) as [_ Hpost].
    destruct (ready_round E pod_id tt w) as [[[[]|url]|e'|] w'];
      cbn [fst] in Hr; try discriminate.
    injection Hr as <-. exact Hpost.
  - intros [Hget|[(resp & errors & Hget & Herr & ->)
                 |[(resp & Hget & Herr & Hnull)|(ports & Hlisted & Hbroken)]]].
    + unfold ready_round. unfold bind at 1. unfold get_pod, bind at 1, call at 1.
      rewrite Hget. reflexivity.
    + unfold ready_round. unfold bind at 1. unfold get_pod, bind at 1, call at 1.
      rewrite Hget. cbn [result_of]. rewrite Herr. reflexivity.
    + unfold ready_round. unfold bind at 1. unfold get_pod, bind at 1, call at 1.
      rewrite Hget. cbn [result_of]. rewrite Herr.
      destruct (dict_get_default (gp_data resp) Absent) as [data|];
        [|subst e; reflexivity].
      unfold ret at 1.
      destruct (dict_get_default data (mk_pod_info Absent)) as [pod|];
        [|subst e; reflexivity].
      destruct (dict_get_default (runtime pod) (mk_runtime_info Absent))
        as [rt|]; [|subst e; reflexivity].
      destruct Hnull as [Hports ->]. rewrite Hports. reflexivity.
    + rewrite (listed_round _ _ _ Hlisted). unfold bind.
      destruct Hbroken as (url & w1 & Hcome & Hh & He).
      pose proof (comes_to_probe _ _ _ _ Hcome) as Hprobe.
      rewrite Hh, He in Hprobe. rewrite Hprobe. reflexivity.
Qed.

Lemma pod_ready_round_later pod_id st w :
  now w <= now (ready_round E pod_id st w).2.
Proof. destruct st. apply pod_ready_round_cases. Qed.

(** The exception of a wait whose time is up. *)
Definition not_ready (pod_id : string) (timeout : Z) : exn :=
  mk_exn TimeoutError
    ("Pod " +:+ pod_id +:+ " did not become ready in " +:+ str_Z timeout
     +:+ "s").

(** How the whole wait can end: at the head [w1] of a round it reached. *)
Definition pod_wait_post (pod_id : string) (timeout : Z) (w : World event)
    (out : result string * World event) : Prop :=
  exists w1,
    reaches (now w) timeout 5 (ready_round E pod_id) tt w tt w1
    /\ match out with
       | (Ret url, w') =>
           now w1 - now w < timeout
           /\ exists ports, listed pod_id w1 ports
                            /\ healthy_probe ports (polled pod_id w1) url w'
       | (Raise e, w') =>
           (timeout <= now w1 - now w /\ e = not_ready pod_id timeout /\ w' = w1)
           \/ (now w1 - now w < timeout /\ pod_round_raises pod_id w1 e
               /\ w' = (ready_round E pod_id tt w1).2)
       | (OutOfFuel, _) => False
       end.

Lemma wait_for_pod_ready_cases pod_id timeout w :
  pod_wait_post pod_id timeout w (wait_for_pod_ready E pod_id timeout w).
Proof.
  unfold wait_for_pod_ready. unfold bind at 1, time_time at 1.
  destruct (poll_ends (now w) timeout 5 (ready_round E pod_id)
              (raise_cls TimeoutError
                 ("Pod " +:+ pod_id +:+ " did not become ready in "
                  +:+ str_Z timeout +:+ "s"))
              (enough timeout) tt w)
    as ([] & w1 & Hreach & Hend);
    [lia|intros; apply pod_ready_round_later|unfold enough; lia|].
  exists w1. split; [exact Hreach|].
  destruct Hend as [[Hup ->]|(Hlt & Hended & Hw)].
  - cbn. left. auto.
  - pose proof (pod_ready_round_cases pod_id w1) as [_ Hpost].
    destruct (poll _ _ _ _ _ _ _ _) as [r w']. cbn [fst snd] in *. subst w'.
    destruct (ready_round E pod_id tt w1) as [[[[]|url]|e|] w2];
      cbn [fst snd ended] in *; try contradiction; subst r; auto.
Qed.

(** A wait none of whose rounds returns a URL or raises ends in the
    [TimeoutError] that names the pod. *)
Lemma wait_for_pod_ready_timeout pod_id timeout w :
  (forall w1,
     reaches (now w) timeout 5 (ready_round E pod_id) tt w tt w1 ->
     now w1 - now w < timeout ->
     (ready_round E pod_id tt w1).1 = Ret (inl tt)) ->
  (wait_for_pod_ready E pod_id timeout w).1 = Raise (not_ready pod_id timeout).
Proof.
  intros Hall.
  destruct (wait_for_pod_ready_cases pod_id timeout w) as (w1 & Hreach & Hpost).
  destruct (wait_for_pod_ready E pod_id timeout w) as [[url|e|] w'];
    cbn [fst]; try contradiction.
  - destruct Hpost as (Hlt & ports & Hlisted & w2 & Hcome & Hh & _).
    specialize (Hall w1 Hreach Hlt).
    rewrite (listed_round _ _ _ Hlisted) in Hall. unfold bind in Hall.
    pose proof (comes_to_probe _ _ _ _ Hcome) as Hprobe.
    rewrite Hh in Hprobe. cbn in Hprobe. rewrite Hprobe in Hall. discriminate.
  - destruct Hpost as [(_ & -> & _)|(Hlt & Hraise & _)]; [reflexivity|].
    apply pod_ready_round_raises in Hraise. specialize (Hall w1 Hreach Hlt).
    congruence.
Qed.

(** *** Waiting for the job *)

(** A round of the RunPod job loop that polls a terminal status ends at
    once, having made the one status call and nothing else. *)
Lemma pod_terminal_round base_url job_id last_progress w job :
  http_get_job E w base_url job_id = Ok job ->
  let w1 := mk_World (now w + Z.of_N (latency E w))
              (trace w ++ [GetJob base_url job_id]) in
  (job_status job = Some "completed" ->
     job_round E base_url job_id last_progress w = (Ret (inr job), w1))
  /\ (job_status job = Some "failed" ->
        job_round E base_url job_id last_progress w
        = (Raise (mk_exn Exception ("Job failed: " +:+ str_opt (job_error job))),
           w1)).
Proof.
  intros Hjob. cbv zeta. unfold job_round, get_job.
  unfold bind, call, ret, raise_cls, raise. rewrite Hjob. cbn [result_of].
  split; intros Hs; rewrite Hs.
  - rewrite bool_decide_eq_true_2 by reflexivity. reflexivity.
  - rewrite bool_decide_eq_false_2 by discriminate.
    rewrite bool_decide_eq_true_2 by reflexivity. reflexivity.
Qed.

(** *** How often the two loops poll *)

Definition no_get_pod (ev : event) : Prop :=
  match ev with GetPod _ => False | _ => True end.

Definition no_get_job (ev : event) : Prop :=
  match ev with GetJob _ _ => False | _ => True end.

Lemma no_get_pod_count ev :
  no_get_pod ev -> Scenarios.Pod.is_get_pod ev = false.
Proof. destruct ev; cbn; intros H; try reflexivity; destruct H. Qed.

Lemma no_get_job_count ev :
  no_get_job ev -> Scenarios.Pod.is_get_job ev = false.
Proof. destruct ev; cbn; intros H; try reflexivity; destruct H. Qed.

Lemma probe_ports_no_get_pod ports : runs no_get_pod (probe_ports E ports).
Proof.
  induction ports as [|port ports IH]; cbn [probe_ports]; runs_go.
Qed.

Lemma pod_ready_round_one_poll pod_id st :
  one_poll Scenarios.Pod.is_get_pod (ready_round E pod_id st).
Proof.
  unfold ready_round. apply one_poll_bind.
  - unfold get_pod. apply one_poll_bind; [apply one_poll_call|].
    intros result.
    apply (runs_weaken no_get_pod); [apply no_get_pod_count|]. runs_go.
  - intros pod.
    apply (runs_weaken no_get_pod); [apply no_get_pod_count|].
    pose proof probe_ports_no_get_pod. runs_go.
Qed.

Lemma pod_job_round_one_poll base_url job_id last_progress :
  one_poll Scenarios.Pod.is_get_job (job_round E base_url job_id last_progress).
Proof.
  unfold job_round. apply one_poll_bind; [apply one_poll_call|].
  intros job.
  apply (runs_weaken no_get_job); [apply no_get_job_count|]. runs_go.
Qed.

(** *** Waiting for the models *)

(** [status] makes one call and answers what it reads. *)
Lemma status_unfold base_url w :
  status E base_url w =
  (match http_status E w base_url with
   | Ok models_ready => Ret (default false models_ready)
   | Fail e => Raise e
   end,
   mk_World (now w + Z.of_N (latency E w)) (trace w ++ [Status base_url])).
Proof.
  unfold status, bind, call, ret.
  destruct (http_status E w base_url); reflexivity.
Qed.

(** What the loop that waits for the models leaves behind: [k] status
    calls, each after a sleep of five seconds. *)
Definition wait_models_post (rounds : nat) (base_url : string)
    (w : World event) (out : result unit * World event) : Prop :=
  exists k : nat,
    (k <= rounds)%nat
    /\ Scenarios.count Scenarios.Pod.is_status out.2
       = (Scenarios.count Scenarios.Pod.is_status w + k)%nat
    /\ 5 * Z.of_nat k <= now out.2 - now w
    /\ match out.1 with
       | Ret _ => True
       | Raise e => exists w1, http_status E w1 base_url = Fail e
       | OutOfFuel => False
       end
    /\ ((forall w1, http_status E w1 base_url = Ok (Some false)) ->
        out.1 = Ret tt /\ k = rounds).

Lemma wait_models_spec rounds base_url : forall w,
  wait_models_post rounds base_url w (wait_models E rounds base_url w).
Proof.
  induction rounds as [|rounds IH]; intros w.
  - cbn [wait_models]. exists 0%nat. cbn [fst snd ret].
    split; [lia|]. split; [lia|]. split; [lia|]. split; [exact I|].
    intros _. split; reflexivity.
  - cbn [wait_models]. unfold bind at 1, time_sleep, modify. unfold bind at 1.
    set (w0 := mk_World (now w + 5) (trace w)).
    rewrite (status_unfold base_url w0).
    set (w1 := mk_World (now w0 + Z.of_N (latency E w0))
                 (trace w0 ++ [Status base_url])).
    assert (Hc1 : Scenarios.count Scenarios.Pod.is_status w1
                  = (Scenarios.count Scenarios.Pod.is_status w + 1)%nat).
    { unfold Scenarios.count. subst w1 w0. cbn [trace].
      rewrite filter_app, length_app. reflexivity. }
    assert (Hn1 : now w + 5 <= now w1) by (subst w1 w0; cbn; lia).
    destruct (http_status E w0 base_url) as [models_ready|e] eqn:Hs.
    + destruct (default false models_ready) eqn:Hready.
      * exists 1%nat. cbn [fst snd ret].
        split; [lia|]. split; [exact Hc1|]. split; [lia|]. split; [exact I|].
        intros Hnever. rewrite Hnever in Hs. injection Hs as <-.
        discriminate Hready.
      * destruct (IH w1) as (k & Hk & Hc & Hn & Hcase & Hnever).
        exists (S k). split; [lia|]. split; [lia|]. split; [lia|].
        split; [exact Hcase|].
        intros Hall. destruct (Hnever Hall) as [-> ->]. split; reflexivity.
    + exists 1%nat. cbn [fst snd].
      split; [lia|]. split; [exact Hc1|]. split; [lia|].
      split; [exists w0; exact Hs|].
      intros Hnever. rewrite Hnever in Hs. discriminate Hs.
Qed.

(** *** When the result is fetched *)

Definition no_download (ev : event) : Prop :=
  match ev with DownloadResult _ _ _ => False | _ => True end.

Lemma probe_ports_no_download ports : runs no_download (probe_ports E ports).
Proof.
  induction ports as [|port ports IH]; cbn [probe_ports]; runs_go.
Qed.

Lemma no_download_wait_for_pod_ready pod_id timeout :
  runs no_download (wait_for_pod_ready E pod_id timeout).
Proof.
  unfold wait_for_pod_ready.
  apply runs_timed_poll; [lia| |apply runs_raise_cls].
  intros st. unfold ready_round, get_pod.
  pose proof probe_ports_no_download. runs_go.
Qed.

Lemma no_download_status base_url : runs no_download (status E base_url).
Proof. unfold status. runs_go. Qed.

Lemma no_download_wait_models rounds base_url :
  runs no_download (wait_models E rounds base_url).
Proof.
  induction rounds as [|rounds IH]; cbn [wait_models];
    pose proof (no_download_status base_url); runs_go.
Qed.

Lemma pod_no_download_create_job base_url input_url interval_cut all_stems :
  runs no_download (create_job E base_url input_url interval_cut all_stems).
Proof. unfold create_job. runs_go. Qed.

Lemma pod_no_download_wait_for_job base_url job_id timeout :
  runs no_download (wait_for_job E base_url job_id timeout).
Proof.
  unfold wait_for_job.
  apply runs_timed_poll; [lia| |apply runs_raise_cls].
  intros last_progress. unfold job_round, get_job. runs_go.
Qed.

(** A job wait returns a job only when a poll shows it [completed]. *)
Lemma wait_for_job_completed base_url job_id timeout w job :
  (wait_for_job E base_url job_id timeout w).1 = Ret job ->
  job_status job = Some "completed".
Proof.
  unfold wait_for_job. unfold bind at 1, time_time at 1.
  apply (poll_rule (fun _ _ => True)
           (fun out => out.1 = Ret job -> job_status job = Some "completed")
           (now w) timeout 5 (job_round E base_url job_id) _);
    [lia| | |exact I|unfold enough; lia].
  - intros last_progress w1 _ _. unfold job_round, bind, get_job, call.
    destruct (http_get_job E w1 base_url job_id) as [j|e]; cbn [result_of];
      [|discriminate].
    destruct (bool_decide (job_status j = Some "completed")) eqn:Hc.
    + apply bool_decide_eq_true in Hc. cbn. intros [= <-]. exact Hc.
    + destruct (bool_decide (job_status j = Some "failed")); [discriminate|].
      cbv zeta.
      destruct (bool_decide (_ = last_progress)); cbn; split; try lia; exact I.
  - intros _ w1 _ _. discriminate.
Qed.

(** The two ways the [try] suite of [cmd_separate] can go: without a
    download, or with one download as its last call, of the job it
    submitted and right after a wait that returned [completed]. *)
Definition fetch_post (args : args) (w : World event)
    (out : result unit * World event) : Prop :=
  out.1 <> OutOfFuel
  /\ ((exists e evs, out.1 = Raise e /\ trace out.2 = trace w ++ evs
                      /\ Forall no_download evs)
      \/ (exists base_url job_id job w1,
            let created :=
              create_job E base_url (input args) (interval_cut args)
                (all_stems args) w1 in
            let waited := wait_for_job E base_url job_id 1800 created.2 in
            created.1 = Ret job_id
            /\ waited.1 = Ret job
            /\ job_status job = Some "completed"
            /\ (exists evs, trace waited.2 = trace w ++ evs
                            /\ Forall no_download evs)
            /\ trace out.2
               = trace waited.2
                   ++ [DownloadResult base_url job_id
                         (Path_div (output args) "instrumental.mp3")])).

Lemma pod_run_job_fetches args pod_id w :
  fetch_post args w (run_job E args pod_id w).
Proof.
  unfold run_job. unfold bind at 1.
  destruct (no_download_wait_for_pod_ready pod_id 300 w)
    as (Hf1 & _ & evs1 & Ht1 & Hq1).
  destruct (wait_for_pod_ready E pod_id 300 w) as [[url|e|] w1];
    cbn [fst snd] in *; [| |congruence].
  2: { split; [discriminate|]. left. cbn [fst snd]. eexists _, evs1.
       split; [reflexivity|]. split; assumption. }
  cbv zeta. set (demucs := rstrip_slash url).
  unfold bind at 1.
  destruct (no_download_status demucs w1) as (Hf2 & _ & evs2 & Ht2 & Hq2).
  destruct (status E demucs w1) as [[models_ready|e|] w2];
    cbn [fst snd] in *; [| |congruence].
  2: { split; [discriminate|]. left. cbn [fst snd]. eexists _, (evs1 ++ evs2).
       split; [reflexivity|]. rewrite Ht2, Ht1, app_assoc. split; [reflexivity|].
       apply Forall_app. split; assumption. }
  unfold bind at 1.
  assert (Hmodels : runs no_download
                      (if negb models_ready then wait_models E 60 demucs
                       else ret tt)).
  { destruct models_ready; cbn [negb];
      [apply runs_ret|apply no_download_wait_models]. }
  destruct (Hmodels w2) as (Hf3 & _ & evs3 & Ht3 & Hq3).
  destruct ((if negb models_ready then wait_models E 60 demucs else ret tt) w2)
    as [[[]|e|] w3]; cbn [fst snd] in *; [| |congruence].
  2: { split; [discriminate|]. left. cbn [fst snd]. eexists _, (evs1 ++ evs2 ++ evs3).
       split; [reflexivity|]. rewrite Ht3, Ht2, Ht1, <- !app_assoc. split; [reflexivity|].
       repeat (apply Forall_app; split); assumption. }
  unfold bind at 1.
  destruct (pod_no_download_create_job demucs (input args) (interval_cut args)
              (all_stems args) w3) as (Hf4 & _ & evs4 & Ht4 & Hq4).
  destruct (create_job E demucs (input args) (interval_cut args)
              (all_stems args) w3) as [[job_id|e|] w4] eqn:Hcreate;
    cbn [fst snd] in *; [| |congruence].
  2: { split; [discriminate|]. left. cbn [fst snd]. eexists _, (evs1 ++ evs2 ++ evs3 ++ evs4).
       split; [reflexivity|]. rewrite Ht4, Ht3, Ht2, Ht1, <- !app_assoc. split; [reflexivity|].
       repeat (apply Forall_app; split); assumption. }
  unfold bind at 1.
  destruct (pod_no_download_wait_for_job demucs job_id 1800 w4)
    as (Hf5 & _ & evs5 & Ht5 & Hq5).
  pose proof (wait_for_job_completed demucs job_id 1800 w4) as Hwait.
  destruct (wait_for_job E demucs job_id 1800 w4) as [[job|e|] w5] eqn:Hw;
    cbn [fst snd] in *; [| |congruence].
  2: { split; [discriminate|]. left. cbn [fst snd]. eexists _, (evs1 ++ evs2 ++ evs3 ++ evs4 ++ evs5).
       split; [reflexivity|]. rewrite Ht5, Ht4, Ht3, Ht2, Ht1, <- !app_assoc. split; [reflexivity|].
       repeat (apply Forall_app; split); assumption. }
  specialize (Hwait job eq_refl).
  unfold download_result, call, fetch_post. cbn [fst snd trace].
  split; [match goal with |- context [http_download ?a ?b ?c ?d ?e] =>
            destruct (http_download a b c d e) end; discriminate|]. right.
  exists demucs, job_id, job, w3. cbv zeta.
  rewrite Hcreate. cbn [fst snd]. rewrite Hw. cbn [fst snd].
  split; [reflexivity|]. split; [reflexivity|]. split; [exact Hwait|].
  split; [|reflexivity].
  exists (evs1 ++ evs2 ++ evs3 ++ evs4 ++ evs5).
  rewrite Ht5, Ht4, Ht3, Ht2, Ht1, <- !app_assoc. split; [reflexivity|].
  repeat (apply Forall_app; split); assumption.
Qed.

Lemma pod_no_download_count evs :
  Forall no_download evs ->
  length (filter Scenarios.Pod.is_download evs) = 0%nat.
Proof.
  intros Hq. apply count_none. eapply Forall_impl; [exact Hq|].
  intros ev. destruct ev; cbn; intros H; try reflexivity; destruct H.
Qed.

Lemma no_download_get_ranked_gpus max_results :
  runs no_download (get_ranked_gpus E max_results).
Proof. unfold get_ranked_gpus, get_available_gpus. runs_go. Qed.

Lemma no_download_try_gpus gpus : runs no_download (try_gpus E gpus).
Proof.
  induction gpus as [|gpu gpus IH]; cbn [try_gpus];
    unfold try_create_pod, create_pod; runs_go.
Qed.

Lemma pod_no_download_teardown args pod_id :
  runs no_download (teardown E args pod_id).
Proof. unfold teardown, stop_pod. runs_go. Qed.

(** A [cmd_separate] that returns has fetched the result, once. *)
Lemma pod_cmd_separate_success api_key args w :
  (cmd_separate E api_key args w).1 = Ret tt ->
  Scenarios.count Scenarios.Pod.is_download (cmd_separate E api_key args w).2
  = (Scenarios.count Scenarios.Pod.is_download w + 1)%nat.
Proof.
  remember (cmd_separate E api_key args w) as out eqn:Hout.
  unfold cmd_separate in Hout. destruct (truthy_str api_key); cbn [negb] in Hout;
    [|subst out; discriminate].
  unfold bind at 1 in Hout.
  destruct (no_download_get_ranked_gpus 10 w) as (_ & _ & evs1 & Ht1 & Hq1).
  destruct (get_ranked_gpus E 10 w) as [[gpus|e|] w1]; cbn [fst snd] in *;
    try (subst out; discriminate).
  destruct gpus as [|gpu gpus]; [subst out; discriminate|].
  unfold bind at 1 in Hout.
  destruct (no_download_try_gpus (gpu :: gpus) w1)
    as (_ & _ & evs2 & Ht2 & Hq2).
  destruct (try_gpus E (gpu :: gpus) w1) as [[[[pod selected]|]|e|] w2];
    cbn [fst snd] in *; try (subst out; discriminate).
  unfold bind at 1, emit, modify in Hout.
  set (w3 := mk_World (now w2)
               (trace w2 ++ [PrintPodCreated (RunPod.pod_id pod)])) in Hout.
  unfold try_finally in Hout.
  pose proof (pod_run_job_fetches args (RunPod.pod_id pod) w3) as [_ Hfetch].
  destruct (run_job E args (RunPod.pod_id pod) w3) as [[[]|e|] w4];
    cbn [fst snd] in *.
  - destruct (pod_no_download_teardown args (RunPod.pod_id pod) w4)
      as (_ & _ & evs5 & Ht5 & Hq5).
    destruct (teardown E args (RunPod.pod_id pod) w4) as [[[]|e|] w5];
      cbn [fst snd] in *; try (subst out; discriminate).
    subst out. cbn [fst snd]. intros _.
    destruct Hfetch as [(e & evs & He & _)|Hfetch]; [discriminate He|].
    destruct Hfetch as (base_url & job_id & job & w0 & Hfetch).
    cbv zeta in Hfetch.
    destruct Hfetch as (_ & _ & _ & (evs4 & Ht4 & Hq4) & Hlast).
    rewrite (count_trace _ w4 w5 evs5 Ht5), (pod_no_download_count _ Hq5).
    unfold Scenarios.count. rewrite Hlast, Ht4. subst w3. cbn [trace].
    rewrite Ht2, Ht1, !filter_app, !length_app.
    rewrite (pod_no_download_count _ Hq1), (pod_no_download_count _ Hq2),
      (pod_no_download_count _ Hq4).
    generalize (length (filter (fun x => Scenarios.Pod.is_download x) (trace w))).
    intros n. vm_compute length. lia.
  - destruct (teardown E args (RunPod.pod_id pod) w4) as [[[]|e'|] w5];
      subst out; discriminate.
  - subst out; discriminate.
Qed.

End Facts.

End RunPodProps.

(** ** The batch launcher and the destroy-all pass *)

Module BatchProps.

Import VastAI Batch.

(** The offers picked, in order, as the "Launching" lines show them. *)
Definition launchings (out : list line) : list (Z * offer) :=
  flat_map (fun l => match l with Launching i o => [(i, o)] | _ => [] end) out.

(** The attempts that came to an end, either way. *)
Definition is_finished (l : line) : bool :=
  match l with
  | Launched _ | LaunchFailed _ => true
  | _ => false
  end.

Definition finished (out : list line) : Z :=
  Z.of_nat (length (filter is_finished out)).

(** Offer [i mod len] of the list, for the attempts [first], ...,
    [first + n - 1]. *)
Fixpoint round_robin (offers : list offer) (first : Z) (n : nat)
    : list (Z * option offer) :=
  match n with
  | O => []
  | S n' =>
      (first, offers !! Z.to_nat (first mod Z.of_nat (length offers)))
        :: round_robin offers (first + 1) n'
  end.

Lemma launchings_app out1 out2 :
  launchings (out1 ++ out2) = launchings out1 ++ launchings out2.
Proof. unfold launchings. apply flat_map_app. Qed.

Lemma finished_app out1 out2 : finished (out1 ++ out2) = finished out1 + finished out2.
Proof. unfold finished. rewrite filter_app, length_app. lia. Qed.

Section Facts.

Variable E : env.

(** One attempt, written out. *)
Lemma launch_instance_unfold i num insts succ failc idx offers file out w picked :
  0 < Z.of_nat (length offers) ->
  offers !! Z.to_nat (idx mod Z.of_nat (length offers)) = Some picked ->
  launch_instance E i
    (mk_state (mk_tester num insts succ failc idx offers) file out w) =
  let label := "test-concurrent-" +:+ pad2 i in
  let w' := mk_World (now w + Z.of_N (latency E w))
              (trace w ++ [CreateInstance (offer_id picked) label]) in
  let failed msg :=
    (Ret None,
     mk_state (mk_tester num insts succ (failc + 1) (idx + 1) offers) file
       (out ++ [Launching i picked; LaunchFailed msg]) w') in
  match api_create E w (offer_id picked) label with
  | Ok resp =>
      if success resp then
        let info :=
          mk_instance_info i (new_contract resp) (offer_id picked)
            (gpu_name picked) (VastAI.price_per_hour picked) (str_Z (now w')) in
        (Ret (Some info),
         mk_state
           (mk_tester num (insts ++ [info]) (succ + 1) failc (idx + 1) offers)
           file (out ++ [Launching i picked; Launched (new_contract resp)]) w')
      else
        failed ("Failed to create instance: "
                +:+ ("Failed to create instance: " +:+ create_repr resp))
  | Fail e =>
      if is_Exception e then
        failed ("Failed to create instance: " +:+ exn_str e)
      else
        (Raise e,
         mk_state (mk_tester num insts succ failc (idx + 1) offers) file
           (out ++ [Launching i picked]) w')
  end.
Proof.
  intros Hlen Hpick. cbv zeta.
  unfold launch_instance, get_next_offer.
  unfold try_except at 1, bind at 1, bind at 1, get at 1.
  cbn [self available_offers offer_index].
  replace (Z.of_nat (length offers) =? 0) with false
    by (symmetry; apply Z.eqb_neq; lia).
  rewrite Hpick.
  unfold bind at 1, update at 1, modify at 1, ret at 1.
  unfold bind at 1, print at 1, modify at 1.
  cbn [self instances_file stdout world num_instances instances success_count
       fail_count offer_index available_offers].
  unfold bind at 1, lift at 1.
  cbn [world self instances_file stdout].
  unfold create_instance, try_except, bind, call, ret, raise_cls, raise.
  destruct (api_create E w (offer_id picked) _) as [resp|e]; cbn [result_of].
  - destruct (success resp); cbn; rewrite <- ?app_assoc; reflexivity.
  - destruct (is_Exception e) eqn:He; cbn; rewrite ?He; cbn;
      rewrite <- ?app_assoc; reflexivity.
Qed.

(** One attempt: the offer at [offer_index mod len] is announced and
    [offer_index] goes up by one; then exactly one of the two counters
    goes up by one, unless an exception that is no [Exception] (an
    interrupt) cuts the attempt short. *)
Definition step_post (i : Z) (s : state) (out : result (option instance_info) * state)
    : Prop :=
  let t := self s in
  let t' := self out.2 in
  exists picked tail,
    available_offers t
      !! Z.to_nat (offer_index t mod Z.of_nat (length (available_offers t)))
      = Some picked
    /\ out.1 <> OutOfFuel
    /\ available_offers t' = available_offers t
    /\ offer_index t' = offer_index t + 1
    /\ instances_file out.2 = instances_file s
    /\ stdout out.2 = stdout s ++ Launching i picked :: tail
    /\ launchings tail = []
    /\ ((exists info, out.1 = Ret (Some info)
                      /\ success_count t' = success_count t + 1
                      /\ fail_count t' = fail_count t /\ finished tail = 1)
        \/ (out.1 = Ret None
            /\ success_count t' = success_count t
            /\ fail_count t' = fail_count t + 1 /\ finished tail = 1)
        \/ (exists e, out.1 = Raise e /\ is_Exception e = false
                      /\ success_count t' = success_count t
                      /\ fail_count t' = fail_count t /\ finished tail = 0)).

Lemma launch_instance_step (i : Z) (s : state) :
  available_offers (self s) <> [] ->
  0 <= offer_index (self s) ->
  step_post i s (launch_instance E i s).
Proof.
  intros Hne Hidx.
  destruct s as [[num insts succ failc idx offers] file out w].
  cbn [self available_offers offer_index] in *.
  assert (Hlen : 0 < Z.of_nat (length offers)).
  { destruct offers; [congruence|]. cbn [length]. lia. }
  destruct (offers !! Z.to_nat (idx mod Z.of_nat (length offers)))
    as [picked|] eqn:Hpick.
  2: { apply lookup_ge_None in Hpick.
       pose proof (Z.mod_pos_bound idx _ Hlen). lia. }
  rewrite (launch_instance_unfold i _ _ _ _ _ _ _ _ _ picked Hlen Hpick).
  cbv zeta. unfold step_post.
  cbn [self available_offers offer_index success_count fail_count stdout
       instances_file].
  exists picked.
  destruct (api_create E w (offer_id picked) _) as [resp|e];
    [destruct (success resp)|destruct (is_Exception e) eqn:He];
    cbn [fst snd self available_offers offer_index success_count fail_count
         stdout instances_file].
  - exists [Launched (new_contract resp)].
    repeat split; try discriminate; try reflexivity; try assumption.
    left. eexists. repeat split.
  - eexists [_]. repeat split; try discriminate; try reflexivity; try assumption.
    right. left. repeat split.
  - eexists [_]. repeat split; try discriminate; try reflexivity; try assumption.
    right. left. repeat split.
  - exists []. repeat split; try discriminate; try reflexivity; try assumption.
    right. right. exists e. repeat split. assumption.
Qed.

(** The state after the first [a] attempts of a batch is the state
    [launch_from] reaches with [a] for the number of attempts. *)
Lemma launch_from_split a b : forall first s,
  launch_from E first (a + b) s
  = bind (launch_from E first a)
      (fun _ => launch_from E (first + Z.of_nat a) b) s.
Proof.
  induction a as [|a IH]; intros first s.
  - cbn [launch_from Nat.add]. unfold bind, ret.
    replace (first + Z.of_nat 0) with first by lia. reflexivity.
  - cbn [launch_from Nat.add]. unfold bind at 1 2 3.
    destruct (launch_instance E first s) as [[r|e|] s1]; try reflexivity.
    rewrite IH. unfold bind.
    replace (first + 1 + Z.of_nat a) with (first + Z.of_nat (S a)) by lia.
    reflexivity.
Qed.

(** What the loop of [run] has done when it stops, having started
    [started] attempts. *)
Definition batch_post (first : Z) (n : nat) (s : state)
    (out : result unit * state) : Prop :=
  let t := self s in
  let t' := self out.2 in
  out.1 <> OutOfFuel
  /\ available_offers t' = available_offers t
  /\ instances_file out.2 = instances_file s
  /\ exists (started : nat) lines,
       (started <= n)%nat
       /\ offer_index t' = first + Z.of_nat started
       /\ stdout out.2 = stdout s ++ lines
       /\ map (fun p => (p.1, Some p.2)) (launchings lines)
          = round_robin (available_offers t) first started
       /\ success_count t' + fail_count t'
          = success_count t + fail_count t + finished lines
       /\ (out.1 = Ret tt -> started = n /\ finished lines = Z.of_nat n)
       /\ (forall e, out.1 = Raise e ->
             is_Exception e = false
             /\ finished lines = Z.of_nat started - 1).

Lemma launch_from_post n : forall first s,
  available_offers (self s) <> [] ->
  offer_index (self s) = first -> 0 <= first ->
  batch_post first n s (launch_from E first n s).
Proof.
  induction n as [|n IH]; intros first s Hne Hidx Hpos.
  - cbn [launch_from]. unfold batch_post, ret; cbn [fst snd].
    repeat split; try discriminate.
    exists 0%nat, []. rewrite app_nil_r.
    change (finished []) with 0.
    repeat split; try reflexivity; try lia; try discriminate.
  - cbn [launch_from]. unfold bind at 1.
    assert (Hpos' : 0 <= offer_index (self s)) by lia.
    destruct (launch_instance_step first s Hne Hpos')
      as (picked & tail & Hpick & Hf & Hoff & Hi & Hfile & Hout & Hl & Hcase).
    destruct (launch_instance E first s) as [[r|e|] s1]; cbn [fst snd] in *;
      [|clear IH|congruence].
    + assert (Hne1 : available_offers (self s1) <> []) by (rewrite Hoff; assumption).
      assert (Hidx1 : offer_index (self s1) = first + 1) by lia.
      assert (Hpos1 : 0 <= first + 1) by lia.
      specialize (IH (first + 1) s1 Hne1 Hidx1 Hpos1).
      destruct IH as (Hf' & Hoff' & Hfile' & started & lines & Hle & Hi' & Hout'
                      & Hrr & Hcnt & Hret & Hraise).
      assert (Hfin : finished tail = 1 /\
                     success_count (self s1) + fail_count (self s1)
                     = success_count (self s) + fail_count (self s) + 1).
      { destruct Hcase as [(info & _ & H1 & H2 & H3)
                          |[(_ & H1 & H2 & H3)|(e & He & _)]];
          [split; [assumption|lia]|split; [assumption|lia]|discriminate]. }
      destruct Hfin as [Hft Hsum].
      unfold batch_post. cbv zeta.
      repeat split; [assumption|congruence|congruence|].
      assert (Hfl : finished (Launching first picked :: tail ++ lines)
                    = 1 + finished lines).
      { change (Launching first picked :: tail ++ lines)
          with ([Launching first picked] ++ tail ++ lines).
        rewrite !finished_app, Hft.
        change (finished [Launching first picked]) with 0. lia. }
      exists (S started), (Launching first picked :: tail ++ lines).
      rewrite Hfl.
      split; [lia|]. split; [lia|].
      split; [rewrite Hout', Hout, <- app_assoc; reflexivity|].
      split.
      { change (Launching first picked :: tail ++ lines)
          with ([Launching first picked] ++ tail ++ lines).
        rewrite !launchings_app, Hl. cbn [launchings flat_map app map fst snd].
        cbn [round_robin]. rewrite Hidx in Hpick. rewrite Hpick.
        rewrite Hoff in Hrr. rewrite Hrr. reflexivity. }
      split; [lia|]. split.
      * intros Hr. destruct (Hret Hr). split; lia.
      * intros e He. destruct (Hraise e He). split; [assumption|lia].
    + destruct Hcase as [(info & He & _)|[(He & _)|(e' & He & Hexn & H1 & H2 & H3)]];
        try discriminate.
      injection He as <-.
      unfold batch_post. cbv zeta. cbn [fst snd].
      repeat split; [discriminate|assumption|assumption|].
      assert (Hfl : finished (Launching first picked :: tail) = 0).
      { change (Launching first picked :: tail)
          with ([Launching first picked] ++ tail).
        rewrite finished_app, H3. reflexivity. }
      exists 1%nat, (Launching first picked :: tail).
      rewrite Hfl.
      split; [lia|]. split; [lia|]. split; [assumption|].
      split.
      { change (Launching first picked :: tail)
          with ([Launching first picked] ++ tail).
        rewrite launchings_app, Hl. cbn. rewrite Hidx in Hpick. rewrite Hpick.
        reflexivity. }
      split; [lia|]. split.
      * discriminate.
      * intros e0 He0. injection He0 as <-. split; [assumption|lia].
Qed.

(** Entry [i] of the round-robin list is offer [i mod len]. *)
Lemma round_robin_lookup offers : forall n first i,
  (i < n)%nat -> 0 <= first ->
  round_robin offers first n !! i
  = Some (first + Z.of_nat i,
          offers !! Z.to_nat ((first + Z.of_nat i) mod Z.of_nat (length offers))).
Proof.
  induction n as [|n IH]; intros first i Hi Hpos; [lia|].
  destruct i as [|i]; cbn [round_robin lookup list_lookup].
  - replace (first + Z.of_nat 0) with first by lia. reflexivity.
  - rewrite IH by lia.
    replace (first + 1 + Z.of_nat i) with (first + Z.of_nat (S i)) by lia.
    reflexivity.
Qed.

Lemma round_robin_length offers n first : length (round_robin offers first n) = n.
Proof. revert first. induction n; intros; cbn; auto. Qed.

(** *** The destroy-all pass *)

(** The instances of a saved list the pass can name: those whose entry
    has both keys. *)
Definition wanted (instances : list saved_instance) : list (option Z) :=
  flat_map (fun inst => match saved_id inst, saved_index inst with
                        | Some inst_id, Some _ => [inst_id]
                        | _, _ => []
                        end) instances.

(** One round of the loop, written out. *)
Lemma destroy_each_cons inst instances tally s :
  destroy_each E (inst :: instances) tally s =
  match saved_id inst, saved_index inst with
  | None, _ =>
      destroy_each E instances (tally.1, tally.2 + 1)
        (mk_state (self s) (instances_file s)
           (stdout s ++ [DestroyFailed "'id'"]) (world s))
  | Some _, None =>
      destroy_each E instances (tally.1, tally.2 + 1)
        (mk_state (self s) (instances_file s)
           (stdout s ++ [DestroyFailed "'index'"]) (world s))
  | Some inst_id, Some _ =>
      let w' := mk_World (now (world s) + Z.of_N (latency E (world s)))
                  (trace (world s) ++ [DestroyInstance inst_id]) in
      match api_delete E (world s) inst_id with
      | Fail e =>
          if is_Exception e then
            destroy_each E instances (tally.1 + 1, tally.2)
              (mk_state (self s) (instances_file s)
                 (stdout s ++ [Destroying inst_id; DestroyDone]) w')
          else
            (Raise e,
             mk_state (self s) (instances_file s)
               (stdout s ++ [Destroying inst_id]) w')
      | Ok _ =>
          destroy_each E instances (tally.1 + 1, tally.2)
            (mk_state (self s) (instances_file s)
               (stdout s ++ [Destroying inst_id; DestroyDone]) w')
      end
  end.
Proof.
  cbn [destroy_each]. unfold bind at 1, try_except at 1.
  destruct (saved_id inst) as [inst_id|]; [destruct (saved_index inst) as [idx|]|].
  - unfold bind at 1, print at 1, modify at 1.
    unfold bind at 1, lift at 1. cbn [world self instances_file stdout].
    unfold destroy_instance, try_except, bind, call, ret.
    destruct (api_delete E (world s) inst_id) as [r|e]; cbn [result_of].
    + cbn. rewrite <- app_assoc. reflexivity.
    + destruct (is_Exception e) eqn:He; cbn.
      * rewrite <- app_assoc. reflexivity.
      * rewrite He. reflexivity.
  - reflexivity.
  - reflexivity.
Qed.

(** What the loop has done when it stops. *)
Definition destroy_each_post (instances : list saved_instance) (tally : Z * Z)
    (s : state) (out : result (Z * Z) * state) : Prop :=
  out.1 <> OutOfFuel
  /\ instances_file out.2 = instances_file s
  /\ self out.2 = self s
  /\ (forall tally', out.1 = Ret tally' ->
        tally'.1 = tally.1 + Z.of_nat (length (wanted instances))
        /\ tally'.1 + tally'.2 = tally.1 + tally.2 + Z.of_nat (length instances)
        /\ VastAIProps.destroys (trace (world out.2))
           = VastAIProps.destroys (trace (world s)) ++ wanted instances)
  /\ (forall e, out.1 = Raise e -> is_Exception e = false).

Lemma destroy_each_post_cons inst instances tally tally1 s s1 out ids :
  destroy_each_post instances tally1 s1 out ->
  instances_file s1 = instances_file s -> self s1 = self s ->
  tally1.1 = tally.1 + Z.of_nat (length ids) ->
  tally1.1 + tally1.2 = tally.1 + tally.2 + 1 ->
  VastAIProps.destroys (trace (world s1))
  = VastAIProps.destroys (trace (world s)) ++ ids ->
  wanted (inst :: instances) = ids ++ wanted instances ->
  destroy_each_post (inst :: instances) tally s out.
Proof.
  intros (Hf & Hfile & Hself & Hret & Hraise) Hfile1 Hself1 Ht1 Ht2 Hd Hw.
  split; [assumption|]. split; [congruence|]. split; [congruence|].
  split; [|assumption].
  intros tally' Hr. destruct (Hret tally' Hr) as (H1 & H2 & H3).
  rewrite Hw, H3, Hd, length_app, <- app_assoc. cbn [length].
  repeat split; lia.
Qed.

Lemma destroy_each_spec instances : forall tally s,
  destroy_each_post instances tally s (destroy_each E instances tally s).
Proof.
  induction instances as [|inst instances IH]; intros tally s.
  - cbn [destroy_each]. unfold destroy_each_post, ret; cbn [fst snd].
    repeat split; try discriminate.
    + injection H as <-. cbn. lia.
    + injection H as <-. cbn. lia.
    + cbn. rewrite app_nil_r. reflexivity.
  - rewrite destroy_each_cons.
    assert (Hw : wanted (inst :: instances)
                 = match saved_id inst, saved_index inst with
                   | Some inst_id, Some _ => [inst_id]
                   | _, _ => []
                   end ++ wanted instances) by reflexivity.
    destruct (saved_id inst) as [inst_id|]; [destruct (saved_index inst) as [idx|]|].
    + cbv zeta.
      destruct (api_delete E (world s) inst_id) as [r|e];
        [|destruct (is_Exception e) eqn:He].
      * eapply destroy_each_post_cons with (ids := [inst_id]);
          [apply IH|reflexivity|reflexivity|cbn; lia|cbn; lia| |assumption].
        cbn [world trace]. apply VastAIProps.destroys_app.
      * eapply destroy_each_post_cons with (ids := [inst_id]);
          [apply IH|reflexivity|reflexivity|cbn; lia|cbn; lia| |assumption].
        cbn [world trace]. apply VastAIProps.destroys_app.
      * unfold destroy_each_post; cbn [fst snd].
        repeat split; try discriminate. intros e0 He0. congruence.
    + eapply destroy_each_post_cons with (ids := []);
        [apply IH|reflexivity|reflexivity|cbn; lia|cbn; lia| |assumption].
      cbn [world trace]. rewrite app_nil_r. reflexivity.
    + eapply destroy_each_post_cons with (ids := []);
        [apply IH|reflexivity|reflexivity|cbn; lia|cbn; lia| |assumption].
      cbn [world trace]. rewrite app_nil_r. reflexivity.
Qed.

(** The whole pass, written out. *)
Lemma destroy_all_unfold api_key s :
  destroy_all_instances E api_key s =
  match instances_file s with
  | None => (Ret tt, s)
  | Some [] => (Ret tt, s)
  | Some instances =>
      if truthy_str api_key then
        match destroy_each E instances (0, 0) s with
        | (Ret tally, s1) =>
            (Ret tt,
             mk_state (self s1) None
               (stdout s1
                ++ [Destroyed tally.1 (Z.of_nat (length instances))]
                ++ (if 0 <? tally.2 then [Failed tally.2] else [])
                ++ [Removed])
               (world s1))
        | (Raise e, s1) => (Raise e, s1)
        | (OutOfFuel, s1) => (OutOfFuel, s1)
        end
      else (Ret tt, s)
  end.
Proof.
  unfold destroy_all_instances. unfold bind at 1, get at 1.
  destruct (instances_file s) as [[|inst instances]|]; try reflexivity.
  destruct (truthy_str api_key); [|reflexivity].
  cbn [negb]. unfold bind at 1.
  destruct (destroy_each E (inst :: instances) (0, 0) s)
    as [[[success failed]|e|] s1]; try reflexivity.
  unfold bind, print, modify. cbn [fst snd].
  destruct (0 <? failed); cbn; rewrite <- ?app_assoc; reflexivity.
Qed.

(** *** What a batch records *)

(** The ids the check marks of the launches show. *)
Definition launched (out : list line) : list (option Z) :=
  flat_map (fun l => match l with Launched i => [i] | _ => [] end) out.

Lemma launched_app out1 out2 :
  launched (out1 ++ out2) = launched out1 ++ launched out2.
Proof. unfold launched. apply flat_map_app. Qed.

(** A stretch of a batch that numbers its attempts from [lo] up to
    [hi], not included: it appends to [self.instances] one entry per
    check mark, counts them, and neither writes the file nor destroys
    anything. *)
Definition records_post {A} (lo hi : Z) (s : state) (out : result A * state)
    : Prop :=
  let t := self s in
  let t' := self out.2 in
  out.1 <> OutOfFuel
  /\ (forall e, out.1 = Raise e -> is_Exception e = false)
  /\ num_instances t' = num_instances t
  /\ available_offers t' = available_offers t
  /\ offer_index t <= offer_index t'
  /\ instances_file out.2 = instances_file s
  /\ VastAIProps.destroys (trace (world out.2))
     = VastAIProps.destroys (trace (world s))
  /\ exists new lines,
       instances t' = instances t ++ new
       /\ stdout out.2 = stdout s ++ lines
       /\ map info_id new = launched lines
       /\ success_count t' = success_count t + Z.of_nat (length new)
       /\ Forall (fun info => lo <= index info < hi) new.

Lemma launch_instance_records (i : Z) (s : state) :
  available_offers (self s) <> [] ->
  0 <= offer_index (self s) ->
  records_post i (i + 1) s (launch_instance E i s).
Proof.
  intros Hne Hidx.
  destruct s as [[num insts succ failc idx offers] file out w].
  cbn [self available_offers offer_index] in *.
  assert (Hlen : 0 < Z.of_nat (length offers)).
  { destruct offers; [congruence|]. cbn [length]. lia. }
  destruct (offers !! Z.to_nat (idx mod Z.of_nat (length offers)))
    as [picked|] eqn:Hpick.
  2: { apply lookup_ge_None in Hpick.
       pose proof (Z.mod_pos_bound idx _ Hlen). lia. }
  rewrite (launch_instance_unfold i _ _ _ _ _ _ _ _ _ picked Hlen Hpick).
  cbv zeta. unfold records_post.
  assert (Hd : forall l,
            VastAIProps.destroys (trace w ++ [CreateInstance (offer_id picked) l])
            = VastAIProps.destroys (trace w)).
  { intros l. rewrite VastAIProps.destroys_app. cbn. apply app_nil_r. }
  destruct (api_create E w (offer_id picked) _) as [resp|e];
    [destruct (success resp)|destruct (is_Exception e) eqn:He];
    cbn [fst snd self num_instances available_offers offer_index success_count
         instances stdout instances_file world trace].
  - split; [discriminate|]. split; [discriminate|].
    split; [reflexivity|]. split; [reflexivity|]. split; [lia|].
    split; [reflexivity|]. split; [apply Hd|].
    eexists [_], [_; _]. split; [reflexivity|]. split; [reflexivity|].
    split; [reflexivity|]. split; [cbn [length]; lia|].
    constructor; [cbn [index]; lia|constructor].
  - split; [discriminate|]. split; [discriminate|].
    split; [reflexivity|]. split; [reflexivity|]. split; [lia|].
    split; [reflexivity|]. split; [apply Hd|].
    exists [], [Launching i picked;
                LaunchFailed ("Failed to create instance: "
                  +:+ ("Failed to create instance: " +:+ create_repr resp))].
    rewrite app_nil_r. split; [reflexivity|]. split; [reflexivity|].
    split; [reflexivity|]. split; [cbn [length]; lia|constructor].
  - split; [discriminate|]. split; [discriminate|].
    split; [reflexivity|]. split; [reflexivity|]. split; [lia|].
    split; [reflexivity|]. split; [apply Hd|].
    exists [], [Launching i picked;
                LaunchFailed ("Failed to create instance: " +:+ exn_str e)].
    rewrite app_nil_r. split; [reflexivity|]. split; [reflexivity|].
    split; [reflexivity|]. split; [cbn [length]; lia|constructor].
  - split; [discriminate|].
    split; [intros e' He'; injection He' as <-; exact He|].
    split; [reflexivity|]. split; [reflexivity|]. split; [lia|].
    split; [reflexivity|]. split; [apply Hd|].
    exists [], [Launching i picked].
    rewrite app_nil_r. split; [reflexivity|]. split; [reflexivity|].
    split; [reflexivity|]. split; [cbn [length]; lia|constructor].
Qed.

Lemma launch_from_records n : forall first s,
  available_offers (self s) <> [] ->
  0 <= offer_index (self s) ->
  records_post first (first + Z.of_nat n) s (launch_from E first n s).
Proof.
  induction n as [|n IH]; intros first s Hne Hidx.
  - cbn [launch_from]. unfold records_post, ret; cbn [fst snd].
    split; [discriminate|]. split; [discriminate|].
    split; [reflexivity|]. split; [reflexivity|]. split; [lia|].
    split; [reflexivity|]. split; [reflexivity|].
    exists [], []. rewrite !app_nil_r.
    split; [reflexivity|]. split; [reflexivity|]. split; [reflexivity|].
    split; [cbn [length]; lia|constructor].
  - cbn [launch_from]. unfold bind at 1.
    destruct (launch_instance_records first s Hne Hidx)
      as (Hf & Hexn & Hnum & Hoff & Hi & Hfile & Hd & new & lines & Hinst
          & Hout & Hids & Hsucc & Hrange).
    destruct (launch_instance E first s) as [[r|e|] s1]; cbn [fst snd] in *;
      [|clear IH|congruence].
    + assert (Hne1 : available_offers (self s1) <> []) by (rewrite Hoff; exact Hne).
      assert (Hidx1 : 0 <= offer_index (self s1)) by lia.
      destruct (IH (first + 1) s1 Hne1 Hidx1)
        as (Hf' & Hexn' & Hnum' & Hoff' & Hi' & Hfile' & Hd' & new' & lines'
            & Hinst' & Hout' & Hids' & Hsucc' & Hrange').
      unfold records_post. cbv zeta.
      split; [exact Hf'|]. split; [exact Hexn'|].
      split; [congruence|]. split; [congruence|]. split; [lia|].
      split; [congruence|]. split; [congruence|].
      exists (new ++ new'), (lines ++ lines').
      split; [rewrite Hinst', Hinst, app_assoc; reflexivity|].
      split; [rewrite Hout', Hout, app_assoc; reflexivity|].
      split; [rewrite map_app, launched_app, Hids, Hids'; reflexivity|].
      split; [rewrite length_app; lia|].
      apply Forall_app. split.
      * eapply Forall_impl; [exact Hrange|]. cbv beta. intros info Hr. lia.
      * eapply Forall_impl; [exact Hrange'|]. cbv beta. intros info Hr. lia.
    + unfold records_post. cbv zeta. cbn [fst snd].
      split; [discriminate|].
      split; [intros e' He'; injection He' as <-; apply (Hexn e); reflexivity|].
      split; [exact Hnum|]. split; [exact Hoff|]. split; [exact Hi|].
      split; [exact Hfile|]. split; [exact Hd|].
      exists new, lines.
      split; [exact Hinst|]. split; [exact Hout|]. split; [exact Hids|].
      split; [exact Hsucc|].
      eapply Forall_impl; [exact Hrange|]. cbv beta. intros info Hr. lia.
Qed.

(** [save_instances] writes a record with both keys for every entry. *)
Lemma wanted_saved insts : wanted (map saved insts) = map info_id insts.
Proof.
  induction insts as [|i insts IH]; [reflexivity|].
  cbn [map]. unfold wanted in *. cbn [flat_map saved saved_id saved_index].
  rewrite IH. reflexivity.
Qed.

(** The lines of the offers change nothing; they can only raise. *)
Lemma print_offers_state offers s :
  (print_offers offers s).2 = s /\ (print_offers offers s).1 <> OutOfFuel.
Proof.
  induction offers as [|o offers IH]; cbn [print_offers].
  - split; [reflexivity|discriminate].
  - unfold bind, print_offer.
    destruct (VastAI.price_per_hour o), (reliability o); cbn;
      try (split; [reflexivity|discriminate]).
    exact IH.
Qed.

(** The constructor leaves a fresh tester with at least one offer, or
    raises; it writes no file, prints none of the lines above and
    destroys nothing. *)
Lemma new_tester_post api_key n s :
  truthy_str api_key = true ->
  instances_file (new_tester E api_key n s).2 = instances_file s
  /\ stdout (new_tester E api_key n s).2 = stdout s
  /\ VastAIProps.destroys (trace (world (new_tester E api_key n s).2))
     = VastAIProps.destroys (trace (world s))
  /\ match (new_tester E api_key n s).1 with
     | Ret _ =>
         exists offers, offers <> []
           /\ self (new_tester E api_key n s).2 = mk_tester n [] 0 0 0 offers
     | Raise _ => True
     | OutOfFuel => False
     end.
Proof.
  intros Hkey. unfold new_tester. rewrite Hkey. cbn [negb].
  unfold bind, update, modify, lift.
  cbn [self instances_file stdout world].
  destruct (VastAIProps.runs_get_ranked_offers E 20 (world s))
    as (Hf & _ & evs & Htr & Hq).
  destruct (get_ranked_offers E 20 (world s)) as [[offers|e|] w1];
    cbn [fst snd] in *; [|cbn|congruence].
  - assert (Hd : VastAIProps.destroys (trace w1)
                 = VastAIProps.destroys (trace (world s))).
    { rewrite Htr, VastAIProps.destroys_app, (VastAIProps.quiet_destroys _ Hq).
      apply app_nil_r. }
    destruct offers as [|o offers]; [cbn; repeat split; try reflexivity; exact Hd|].
    match goal with
    | |- context [print_offers ?l ?s0] =>
        destruct (print_offers_state l s0) as [Hs Hfuel];
        destruct (print_offers l s0) as [[[]|e|] s1]
    end; cbn [fst snd] in *; try congruence; subst s1; cbn.
    + split; [reflexivity|]. split; [reflexivity|]. split; [exact Hd|].
      eexists. split; [|reflexivity]. discriminate.
    + repeat split; try reflexivity. exact Hd.
  - repeat split; try reflexivity.
    rewrite Htr, VastAIProps.destroys_app, (VastAIProps.quiet_destroys _ Hq).
    apply app_nil_r.
Qed.

(** Instances whose GPU names are [None] for some and a text for
    others: the groups of such a batch cannot be sorted. *)
Definition mixed (instances : list instance_info) : Prop :=
  (exists i, In i instances /\ gpu i = None)
  /\ (exists i, In i instances /\ is_Some (gpu i)).

(** What [sorted] raises on such groups. *)
Definition unsortable : exn :=
  mk_exn TypeError "'<' not supported between instances of 'NoneType' and 'str'".

Lemma sorted_groups_cases instances s :
  (sorted_groups instances s = (Ret tt, s) /\ ~ mixed instances)
  \/ (sorted_groups instances s = (Raise unsortable, s) /\ mixed instances).
Proof.
  unfold sorted_groups, mixed.
  destruct (existsb (fun i => bool_decide (gpu i = None)) instances) eqn:Hnone.
  - destruct (existsb (fun i => bool_decide (is_Some (gpu i))) instances)
      eqn:Hsome; cbn [andb].
    + right. split; [reflexivity|].
      apply existsb_exists in Hnone as (i & Hi & Hn).
      apply existsb_exists in Hsome as (j & Hj & Hs).
      apply bool_decide_eq_true in Hn, Hs. split; eauto.
    + left. split; [reflexivity|]. intros [_ (j & Hj & Hs)].
      apply not_true_iff_false in Hsome. apply Hsome.
      apply existsb_exists. exists j. split; [exact Hj|].
      apply bool_decide_eq_true_2. exact Hs.
  - left. cbn [andb]. split; [reflexivity|]. intros [(i & Hi & Hn) _].
    apply not_true_iff_false in Hnone. apply Hnone.
    apply existsb_exists. exists i. split; [exact Hi|].
    apply bool_decide_eq_true_2. exact Hn.
Qed.

(** What a launch run leaves behind. *)
Definition main_post (s : state) (out : result unit * state) : Prop :=
  exists lines,
    stdout out.2 = stdout s ++ lines
    /\ VastAIProps.destroys (trace (world out.2))
       = VastAIProps.destroys (trace (world s))
    /\ match out.1 with
       | Ret _ =>
           map info_id (instances (self out.2)) = launched lines
           /\ instances_file out.2
              = match launched lines with
                | [] => instances_file s
                | _ => Some (map saved (instances (self out.2)))
                end
       | Raise e =>
           instances_file out.2 = instances_file s
           /\ (launched lines <> [] ->
               (is_Exception e = false /\ exn_cls e <> KeyboardInterrupt)
               \/ (e = unsortable /\ mixed (instances (self out.2))))
       | OutOfFuel => False
       end.

(** [run] on a tester that has launched nothing yet. *)
Definition run_post (s : state) (out : result unit * state) : Prop :=
  exists lines,
    stdout out.2 = stdout s ++ lines
    /\ VastAIProps.destroys (trace (world out.2))
       = VastAIProps.destroys (trace (world s))
    /\ map info_id (instances (self out.2)) = launched lines
    /\ match out.1 with
       | Ret _ =>
           instances_file out.2
           = match instances (self out.2) with
             | [] => instances_file s
             | _ => Some (map saved (instances (self out.2)))
             end
       | Raise e =>
           instances_file out.2 = instances_file s
           /\ (is_Exception e = true ->
               instances (self out.2) = []
               \/ (e = unsortable /\ mixed (instances (self out.2))))
       | OutOfFuel => False
       end.

Lemma run_fresh s :
  available_offers (self s) <> [] ->
  offer_index (self s) = 0 ->
  instances (self s) = [] ->
  success_count (self s) = 0 ->
  run_post s (run E s).
Proof.
  intros Hne Hidx Hinst0 Hsucc0. unfold run. unfold bind at 1, get at 1.
  unfold bind at 1.
  assert (Hidx' : 0 <= offer_index (self s)) by lia.
  destruct (launch_from_records (Z.to_nat (num_instances (self s))) 0 s Hne Hidx')
    as (Hf & Hexn & Hnum & Hoff & Hi & Hfile & Hd & new & lines & Hinst
        & Hout & Hids & Hsucc & Hrange).
  rewrite Hinst0 in Hinst. cbn [app] in Hinst. rewrite Hsucc0 in Hsucc.
  destruct (launch_from E 0 (Z.to_nat (num_instances (self s))) s)
    as [[[]|e|] s1]; cbn [fst snd] in *; [| |congruence].
  - unfold bind at 1, get at 1. rewrite Hnum.
    destruct (num_instances (self s) =? 0) eqn:Hn0.
    + apply Z.eqb_eq in Hn0. rewrite Hn0 in Hrange. cbn in Hrange.
      assert (Hnew : new = []).
      { destruct new as [|info new]; [reflexivity|].
        apply Forall_inv in Hrange. lia. }
      exists lines. cbn [fst snd raise_cls raise].
      split; [exact Hout|]. split; [exact Hd|].
      split; [rewrite Hinst; exact Hids|].
      split; [exact Hfile|]. intros _. left. rewrite Hinst. exact Hnew.
    + destruct (success_count (self s1) =? 0) eqn:Hs0.
      * apply Z.eqb_eq in Hs0.
        assert (Hnew : new = []) by (destruct new; [reflexivity|cbn in Hsucc; lia]).
        exists lines. cbn [fst snd ret].
        split; [exact Hout|]. split; [exact Hd|].
        split; [rewrite Hinst; exact Hids|].
        rewrite Hinst, Hnew. exact Hfile.
      * apply Z.eqb_neq in Hs0.
        assert (Hnew : new <> []) by (intros ->; cbn in Hsucc; lia).
        exists lines. unfold bind.
        destruct (sorted_groups_cases (instances (self s1)) s1)
          as [[-> _]|[-> Hmixed]].
        -- unfold save_instances, modify.
           cbn [fst snd self instances_file stdout world].
           split; [exact Hout|]. split; [exact Hd|].
           split; [rewrite Hinst; exact Hids|].
           rewrite Hinst. destruct new; [congruence|reflexivity].
        -- cbn [fst snd].
           split; [exact Hout|]. split; [exact Hd|].
           split; [rewrite Hinst; exact Hids|].
           split; [exact Hfile|]. intros _. right. auto.
  - exists lines. cbn [fst snd]. split; [exact Hout|]. split; [exact Hd|].
    split; [rewrite Hinst; exact Hids|].
    split; [exact Hfile|]. intros He. rewrite (Hexn e eq_refl) in He.
    discriminate He.
Qed.

Lemma main_spec api_key n s : main_post s (main E api_key false n s).
Proof.
  unfold main. destruct (truthy_str api_key) eqn:Hkey; cbn [negb].
  2: { exists []. rewrite app_nil_r. cbn.
       split; [reflexivity|]. split; [reflexivity|].
       split; [reflexivity|]. intros H. congruence. }
  unfold bind at 1.
  destruct (new_tester_post api_key n s Hkey) as (Hfile0 & Hout0 & Hd0 & Hnew).
  destruct (new_tester E api_key n s) as [[[]|e|] s0]; cbn [fst snd] in *;
    [|exists []; rewrite app_nil_r; cbn|contradiction].
  2: { split; [exact Hout0|]. split; [exact Hd0|].
       split; [exact Hfile0|]. intros H. congruence. }
  destruct Hnew as (offers & Hne & Hself).
  assert (Hrun : run_post s0 (run E s0)).
  { apply run_fresh; rewrite Hself; cbn; try reflexivity. exact Hne. }
  destruct Hrun as (lines & Hout & Hd & Hids & Hcase).
  unfold try_except.
  destruct (run E s0) as [[[]|e|] s1]; cbn [fst snd] in *; [| |contradiction].
  - exists lines. cbn [fst snd].
    split; [congruence|]. split; [congruence|]. split; [exact Hids|].
    rewrite Hcase, <- Hids, Hfile0. destruct (instances (self s1)); reflexivity.
  - destruct Hcase as [Hfile Hexn].
    destruct (exn_cls e) eqn:Hcls.
    all: try (exists lines; cbn [fst snd];
              split; [congruence|]; split; [congruence|];
              split; [congruence|]; intros Hl;
              destruct (is_Exception e) eqn:He;
              [destruct (Hexn eq_refl) as [Hnil|Hmixed];
               [rewrite Hnil in Hids; cbn in Hids; congruence
               |right; exact Hmixed]
              |left; split; [reflexivity|congruence]]).
    exists lines. unfold bind, get.
    destruct (instances (self s1)) as [|info insts] eqn:Hi.
    + cbn [fst snd ret]. split; [congruence|]. split; [congruence|].
      split; [rewrite Hi; exact Hids|].
      rewrite <- Hids. cbn. congruence.
    + unfold save_instances, modify.
      cbn [fst snd self instances_file stdout world].
      split; [congruence|]. split; [congruence|].
      rewrite Hi. split; [exact Hids|]. rewrite <- Hids. reflexivity.
Qed.

End Facts.

End BatchProps.

(** ** Ranking *)

Module RankingProps.

Import RunPod.

Lemma sublist_In {A} (l k : list A) x : sublist l k -> In x l -> In x k.
Proof.
  intros Hs Hx. apply list_elem_of_In. eapply elem_of_sublist; [|exact Hs].
  apply list_elem_of_In. exact Hx.
Qed.

Lemma sublist_sorted {A} (R : A -> A -> Prop) (l k : list A) :
  sublist l k -> StronglySorted R k -> StronglySorted R l.
Proof.
  induction 1 as [|x l k Hs IH|x l k Hs IH]; intros Hk.
  - constructor.
  - apply StronglySorted_inv in Hk as [Hk Hx].
    constructor; [apply IH; exact Hk|].
    rewrite List.Forall_forall in *. intros y Hy. apply Hx.
    eapply sublist_In; eassumption.
  - apply StronglySorted_inv in Hk as [Hk _]. apply IH. exact Hk.
Qed.

(** *** The list of available GPUs *)

(** [available] fails exactly when an entry has a null [memoryInGb]. *)
Lemma available_None gpus :
  available gpus = None <-> exists t, In t gpus /\ memoryInGb t = Null.
Proof.
  unfold available.
  destruct (forallb (fun g => bool_decide (is_Some (memory g))) gpus) eqn:Hall.
  - split; [discriminate|]. intros (t & Ht & Hnull).
    rewrite forallb_forall in Hall. specialize (Hall t Ht).
    apply bool_decide_eq_true in Hall. unfold memory in Hall.
    rewrite Hnull in Hall. destruct Hall as [? Hall]. discriminate.
  - split; [intros _|reflexivity].
    induction gpus as [|g gpus IH]; [discriminate|].
    cbn [forallb] in Hall. apply andb_false_iff in Hall as [Hg|Hall].
    + exists g. split; [left; reflexivity|].
      apply bool_decide_eq_false in Hg. unfold memory in Hg.
      destruct (memoryInGb g); cbn in Hg; try reflexivity;
        exfalso; apply Hg; eauto.
    + destruct (IH Hall) as (t & Ht & Hnull). exists t.
      split; [right; exact Ht|exact Hnull].
Qed.

Lemma available_Some gpus l :
  available gpus = Some l ->
  l = sort_by price_per_hour
        (map format_gpu (filter (fun g => big_enough g = true) gpus)).
Proof.
  unfold available. destruct (forallb _ gpus); [|discriminate].
  intros [= <-]. f_equal. f_equal. apply list_filter_iff. intros g.
  destruct (big_enough g); split; intros H; try reflexivity; try exact I;
    try discriminate; contradiction.
Qed.

(** What [get_available_gpus] answers, read off the marketplace's
    answer. *)
Lemma get_available_gpus_run (E : env) (w : World event) :
  (get_available_gpus E w).1 =
  match gql_gpu_types E w with
  | Fail e => Raise e
  | Ok r =>
      match gt_errors r with
      | Some errors => Raise (mk_exn Exception ("GraphQL error: " +:+ errors))
      | None =>
          match dict_get_default (gt_data r) Absent with
          | None => Raise AttributeError_get
          | Some data =>
              match dict_get_default data [] with
              | None =>
                  Raise (mk_exn TypeError "'NoneType' object is not iterable")
              | Some types =>
                  match available types with
                  | None =>
                      Raise (mk_exn TypeError
                        "'>=' not supported between instances of 'NoneType' and 'int'")
                  | Some gpus => Ret gpus
                  end
              end
          end
      end
  end.
Proof.
  unfold get_available_gpus, bind, call.
  destruct (gql_gpu_types E w) as [r|e]; cbn [result_of]; [|reflexivity].
  destruct (gt_errors r); [reflexivity|].
  destruct (dict_get_default (gt_data r) Absent) as [data|]; [|reflexivity].
  destruct (dict_get_default data []) as [types|]; [|reflexivity].
  destruct (available types); reflexivity.
Qed.

(** *** The ranking *)

(** A GPU with a name. *)
Definition named (g : gpu) : Prop := is_Some (name g).

(** [gpu] answers to the preferred model [preferred]. *)
Definition matches (preferred : string) (gpu : gpu) : bool :=
  match name gpu with
  | Some name => contains (lower preferred) (lower name)
  | None => false
  end.

(** The GPU the inner loop stops at, when it raises nothing. *)
Fixpoint pick (preferred : string) (used : gset string) (top : list gpu)
    : option gpu :=
  match top with
  | [] => None
  | g :: top' =>
      if matches preferred g && bool_decide (id g ∉ used) then Some g
      else pick preferred used top'
  end.

Lemma first_match_pick p used top r :
  first_match p used top = Some r -> r = pick p used top.
Proof.
  induction top as [|g top IH]; cbn [first_match pick]; [congruence|].
  unfold matches. destruct (name g) as [n|]; [|discriminate].
  destruct (contains (lower p) (lower n) && bool_decide (id g ∉ used));
    [congruence|exact IH].
Qed.

Lemma first_match_named p used top :
  Forall named top -> first_match p used top = Some (pick p used top).
Proof.
  induction 1 as [|g top [n Hn] _ IH]; cbn [first_match pick]; [reflexivity|].
  unfold matches. rewrite Hn.
  destruct (contains (lower p) (lower n) && bool_decide (id g ∉ used));
    [reflexivity|exact IH].
Qed.

Lemma first_match_raises p used top :
  first_match p used top = None -> exists g, In g top /\ name g = None.
Proof.
  induction top as [|g top IH]; cbn [first_match]; [discriminate|].
  destruct (name g) as [n|] eqn:Hn.
  - destruct (contains (lower p) (lower n) && bool_decide (id g ∉ used));
      [discriminate|].
    intros H. destruct (IH H) as (g' & Hin & Hnone).
    exists g'. split; [right; exact Hin|exact Hnone].
  - intros _. exists g. split; [left; reflexivity|exact Hn].
Qed.

(** The GPUs the loop over [PREFERRED_GPUS] appends, with [top] the ten
    cheapest and [used] the ids taken so far. *)
Fixpoint picks (preferred_gpus : list string) (top : list gpu)
    (used : gset string) : list gpu :=
  match preferred_gpus with
  | [] => []
  | p :: ps =>
      match pick p used top with
      | Some g => g :: picks ps top ({[id g]} ∪ used)
      | None => picks ps top used
      end
  end.

(** The GPUs the second loop appends. *)
Fixpoint rest (gpus : list gpu) (used : gset string) : list gpu :=
  match gpus with
  | [] => []
  | g :: gpus' =>
      if bool_decide (id g ∈ used) then rest gpus' used
      else g :: rest gpus' ({[id g]} ∪ used)
  end.

Definition ids (l : list gpu) : gset string := list_to_set (map id l).

Lemma ids_cons g l : ids (g :: l) = {[id g]} ∪ ids l.
Proof. reflexivity. Qed.

Lemma elem_of_ids x l : x ∈ ids l <-> In x (map id l).
Proof.
  unfold ids. rewrite elem_of_list_to_set. apply list_elem_of_In.
Qed.

Lemma add_preferred_picks ps gpus : forall ranked used acc,
  add_preferred ps gpus (ranked, used) = Some acc ->
  acc = (ranked ++ picks ps (firstn 10 gpus) used,
         ids (picks ps (firstn 10 gpus) used) ∪ used).
Proof.
  induction ps as [|p ps IH]; intros ranked used acc.
  - cbn [add_preferred picks]. intros [= <-]. rewrite app_nil_r. f_equal.
    unfold ids. cbn. rewrite (left_id_L ∅ (∪)). reflexivity.
  - cbn [add_preferred picks fst snd].
    destruct (first_match p used (firstn 10 gpus)) as [r|] eqn:Hf;
      [|discriminate].
    apply first_match_pick in Hf. subst r.
    destruct (pick p used (firstn 10 gpus)) as [g|].
    + intros H. apply IH in H. subst acc.
      rewrite <- app_assoc. cbn [app]. f_equal.
      rewrite ids_cons. apply set_eq. intros x. rewrite !elem_of_union. tauto.
    + apply IH.
Qed.

Lemma add_preferred_named ps gpus : forall acc,
  Forall named (firstn 10 gpus) -> add_preferred ps gpus acc <> None.
Proof.
  intros acc Hnamed. revert acc.
  induction ps as [|p ps IH]; intros acc; cbn [add_preferred]; [discriminate|].
  rewrite (first_match_named _ _ _ Hnamed).
  destruct (pick p acc.2 (firstn 10 gpus)); apply IH.
Qed.

Lemma add_preferred_raises ps gpus : forall acc,
  add_preferred ps gpus acc = None ->
  exists g, In g (firstn 10 gpus) /\ name g = None.
Proof.
  induction ps as [|p ps IH]; intros acc; cbn [add_preferred]; [discriminate|].
  destruct (first_match p acc.2 (firstn 10 gpus)) as [[g|]|] eqn:Hf.
  - apply IH.
  - apply IH.
  - intros _. eapply first_match_raises. exact Hf.
Qed.

Lemma add_remaining_rest gpus : forall ranked used,
  add_remaining gpus (ranked, used) =
  (ranked ++ rest gpus used, ids (rest gpus used) ∪ used).
Proof.
  unfold add_remaining.
  induction gpus as [|g gpus IH]; intros ranked used.
  - cbn [fold_left rest]. rewrite app_nil_r. f_equal.
    unfold ids. cbn. rewrite (left_id_L ∅ (∪)). reflexivity.
  - cbn [fold_left rest].
    destruct (bool_decide (id g ∈ used)).
    + apply IH.
    + rewrite IH. rewrite <- app_assoc. cbn [app]. f_equal.
      rewrite ids_cons. apply set_eq. intros x. rewrite !elem_of_union. tauto.
Qed.

Lemma picks_nil_top ps used : picks ps [] used = [].
Proof. induction ps as [|p ps IH]; cbn; [reflexivity|apply IH]. Qed.

(** The two lists a ranking is made of. *)
Definition ranking (max_results : Z) (gpus : list gpu) : list gpu :=
  slice_to max_results
    (picks PREFERRED_GPUS (firstn 10 gpus) ∅
     ++ rest gpus (ids (picks PREFERRED_GPUS (firstn 10 gpus) ∅) ∪ ∅)).

(** [rank], when it raises nothing, written with the two lists. *)
Lemma rank_picks_rest max_results gpus ranked :
  rank max_results gpus = Some ranked -> ranked = ranking max_results gpus.
Proof.
  unfold rank, ranking. destruct gpus as [|g gpus].
  - intros [= <-]. cbn [firstn]. rewrite picks_nil_top. cbn [rest app].
    symmetry. apply slice_to_nil.
  - destruct (add_preferred PREFERRED_GPUS (g :: gpus) ([], ∅)) as [acc|] eqn:Ha;
      [|discriminate].
    intros Heq.
    assert (Hranked : ranked
                      = slice_to max_results (add_remaining (g :: gpus) acc).1)
      by congruence.
    apply add_preferred_picks in Ha. rewrite Hranked, Ha.
    rewrite add_remaining_rest. reflexivity.
Qed.

Lemma rank_named max_results gpus :
  Forall named (firstn 10 gpus) ->
  rank max_results gpus = Some (ranking max_results gpus).
Proof.
  intros Hnamed. destruct (rank max_results gpus) as [ranked|] eqn:Hr.
  - f_equal. apply rank_picks_rest. exact Hr.
  - exfalso. unfold rank in Hr. destruct gpus as [|g gpus]; [discriminate|].
    pose proof (add_preferred_named PREFERRED_GPUS (g :: gpus) ([], ∅) Hnamed).
    destruct (add_preferred PREFERRED_GPUS (g :: gpus) ([], ∅));
      [discriminate|congruence].
Qed.

Lemma rank_raises max_results gpus :
  rank max_results gpus = None ->
  exists g, In g (firstn 10 gpus) /\ name g = None.
Proof.
  unfold rank. destruct gpus as [|g gpus]; [discriminate|].
  destruct (add_preferred PREFERRED_GPUS (g :: gpus) ([], ∅)) eqn:Ha;
    [discriminate|].
  intros _. eapply add_preferred_raises. exact Ha.
Qed.

Lemma pick_Some p used top g :
  pick p used top = Some g ->
  In g top /\ matches p g = true /\ id g ∉ used.
Proof.
  induction top as [|g' top IH]; cbn [pick]; [discriminate|].
  destruct (matches p g' && bool_decide (id g' ∉ used)) eqn:Hm.
  - intros [= <-]. apply andb_true_iff in Hm as [Hm Hu].
    apply bool_decide_eq_true in Hu. split; [left; reflexivity|]. split; assumption.
  - intros H. destruct (IH H) as (Hin & Hp & Hu).
    split; [right; exact Hin|]. split; assumption.
Qed.

Lemma pick_None p used top :
  pick p used top = None ->
  Forall (fun g => matches p g = false \/ id g ∈ used) top.
Proof.
  induction top as [|g' top IH]; cbn [pick]; [constructor|].
  destruct (matches p g' && bool_decide (id g' ∉ used)) eqn:Hm; [discriminate|].
  intros H. constructor; [|apply IH; exact H].
  apply andb_false_iff in Hm as [Hm|Hm]; [left; exact Hm|right].
  apply bool_decide_eq_false in Hm. destruct (decide (id g' ∈ used)); tauto.
Qed.

Lemma pick_unmatched p used top :
  Forall (fun g => matches p g = false) top -> pick p used top = None.
Proof.
  induction 1 as [|g top Hg _ IH]; cbn [pick]; [reflexivity|].
  rewrite Hg. cbn. exact IH.
Qed.

Lemma matches_name p g :
  matches p g = true ->
  exists n, name g = Some n /\ contains (lower p) (lower n) = true.
Proof.
  unfold matches. destruct (name g) as [n|]; [|discriminate]. eauto.
Qed.

Lemma picks_length ps top : forall used,
  (length (picks ps top used) <= length ps)%nat.
Proof.
  induction ps as [|p ps IH]; intros used; cbn [picks length]; [lia|].
  destruct (pick p used top) as [g|]; cbn [length].
  - specialize (IH ({[id g]} ∪ used)). lia.
  - specialize (IH used). lia.
Qed.

Lemma picks_preferred ps top : forall used,
  Forall (fun g => In g top /\ exists p, In p ps /\ matches p g = true)
    (picks ps top used).
Proof.
  induction ps as [|p ps IH]; intros used; cbn [picks]; [constructor|].
  assert (Hw : forall u, Forall (fun g => In g top /\
             exists p0, In p0 (p :: ps) /\ matches p0 g = true) (picks ps top u)).
  { intros u. eapply Forall_impl; [apply IH|].
    intros g (Hin & p0 & Hp0 & Hm). split; [exact Hin|].
    exists p0. split; [right; exact Hp0|exact Hm]. }
  destruct (pick p used top) as [g|] eqn:Hf; [|apply Hw].
  apply pick_Some in Hf as (Hin & Hm & _).
  constructor; [|apply Hw].
  split; [exact Hin|]. exists p. split; [left; reflexivity|exact Hm].
Qed.

Lemma picks_fresh ps top : forall used g,
  In g (picks ps top used) -> id g ∉ used.
Proof.
  induction ps as [|p ps IH]; intros used g; cbn [picks]; [intros []|].
  destruct (pick p used top) as [g'|] eqn:Hf; [|apply IH].
  apply pick_Some in Hf as (_ & _ & Hu).
  intros [<-|Hin]; [exact Hu|].
  apply IH in Hin. intros Hg. apply Hin. apply elem_of_union. right. exact Hg.
Qed.

Lemma picks_NoDup ps top : forall used, NoDup (map id (picks ps top used)).
Proof.
  induction ps as [|p ps IH]; intros used; cbn [picks map]; [constructor|].
  destruct (pick p used top) as [g|] eqn:Hf; [|apply IH].
  cbn [map]. constructor; [|apply IH].
  rewrite list_elem_of_In, in_map_iff. intros (g' & Hid & Hin).
  apply picks_fresh in Hin. apply Hin. rewrite Hid.
  apply elem_of_union. left. apply elem_of_singleton. reflexivity.
Qed.

Lemma picks_unmatched ps top used :
  Forall (fun g => forall p, In p ps -> matches p g = false) top ->
  picks ps top used = [].
Proof.
  intros Hno. induction ps as [|p ps IH]; cbn [picks]; [reflexivity|].
  rewrite pick_unmatched.
  - apply IH. eapply Forall_impl; [exact Hno|].
    intros g Hg p0 Hp0. apply Hg. right. exact Hp0.
  - eapply Forall_impl; [exact Hno|]. intros g Hg. apply Hg. left. reflexivity.
Qed.

Lemma picks_first ps1 p ps2 top used g :
  (forall p', In p' ps1 -> pick p' used top = None) ->
  pick p used top = Some g ->
  exists l, picks (ps1 ++ p :: ps2) top used = g :: l.
Proof.
  intros Hnone Hsome. induction ps1 as [|p1 ps1 IH]; cbn [app picks].
  - rewrite Hsome. eexists. reflexivity.
  - rewrite (Hnone p1) by (left; reflexivity).
    apply IH. intros p' Hp'. apply Hnone. right. exact Hp'.
Qed.

Lemma rest_sublist gpus : forall used, sublist (rest gpus used) gpus.
Proof.
  induction gpus as [|g gpus IH]; intros used; cbn [rest]; [constructor|].
  destruct (bool_decide (id g ∈ used)); [apply sublist_cons|apply sublist_skip];
    apply IH.
Qed.

Lemma rest_fresh gpus : forall used g, In g (rest gpus used) -> id g ∉ used.
Proof.
  induction gpus as [|g' gpus IH]; intros used g; cbn [rest]; [intros []|].
  destruct (bool_decide (id g' ∈ used)) eqn:Hu; [apply IH|].
  apply bool_decide_eq_false in Hu.
  intros [<-|Hin]; [exact Hu|].
  apply IH in Hin. intros Hg. apply Hin. apply elem_of_union. right. exact Hg.
Qed.

Lemma rest_NoDup gpus : forall used, NoDup (map id (rest gpus used)).
Proof.
  induction gpus as [|g gpus IH]; intros used; cbn [rest map]; [constructor|].
  destruct (bool_decide (id g ∈ used)); [apply IH|].
  cbn [map]. constructor; [|apply IH].
  rewrite list_elem_of_In, in_map_iff. intros (g' & Hid & Hin).
  apply rest_fresh in Hin. apply Hin. rewrite Hid.
  apply elem_of_union. left. apply elem_of_singleton. reflexivity.
Qed.

Lemma rest_covers gpus : forall used g,
  In g gpus -> id g ∈ used \/ In (id g) (map id (rest gpus used)).
Proof.
  induction gpus as [|g' gpus IH]; intros used g; cbn [rest]; [intros []|].
  destruct (bool_decide (id g' ∈ used)) eqn:Hu.
  - apply bool_decide_eq_true in Hu.
    intros [<-|Hin]; [left; exact Hu|apply IH; exact Hin].
  - intros [<-|Hin]; [right; left; reflexivity|].
    destruct (IH ({[id g']} ∪ used) g Hin) as [Hg|Hg].
    + apply elem_of_union in Hg as [Hg|Hg]; [|left; exact Hg].
      apply elem_of_singleton in Hg. right. left. symmetry. exact Hg.
    + right. right. exact Hg.
Qed.

Lemma rest_all gpus : forall used,
  NoDup (map id gpus) -> (forall g, In g gpus -> id g ∉ used) ->
  rest gpus used = gpus.
Proof.
  induction gpus as [|g gpus IH]; intros used Hnd Hfresh; cbn [rest];
    [reflexivity|].
  cbn [map] in Hnd. apply NoDup_cons in Hnd as [Hg Hnd].
  rewrite bool_decide_eq_false_2 by (apply Hfresh; left; reflexivity).
  f_equal. apply IH; [exact Hnd|].
  intros g' Hin Hu. apply elem_of_union in Hu as [Hu|Hu].
  - apply elem_of_singleton in Hu. apply Hg. rewrite <- Hu.
    apply list_elem_of_In, in_map. exact Hin.
  - eapply Hfresh; [right; exact Hin|exact Hu].
Qed.

Lemma rest_head g gpus used :
  id g ∉ used -> rest (g :: gpus) used = g :: rest gpus ({[id g]} ∪ used).
Proof. intros Hu. cbn [rest]. rewrite bool_decide_eq_false_2 by exact Hu. reflexivity. Qed.

Lemma picks_nil_inv ps top used :
  picks ps top used = [] -> forall p, In p ps -> pick p used top = None.
Proof.
  induction ps as [|p ps IH]; cbn [picks]; [intros _ p []|].
  destruct (pick p used top) as [g|] eqn:Hf; [discriminate|].
  intros Hnil p' [<-|Hp']; [exact Hf|apply IH; assumption].
Qed.

Lemma slice_to_head {A} (n : Z) (x : A) (l : list A) :
  0 < n -> exists l', slice_to n (x :: l) = x :: l'.
Proof.
  intros Hn. unfold slice_to.
  replace (0 <=? n) with true by (symmetry; apply Z.leb_le; lia).
  destruct (Z.to_nat n) as [|k] eqn:Hk; [lia|].
  cbn [firstn]. eexists. reflexivity.
Qed.

(** What [get_ranked_gpus] answers, read off what [get_available_gpus]
    answers. *)
Lemma get_ranked_gpus_run (E : env) max_results (w : World event) :
  (get_ranked_gpus E max_results w).1 =
  match (get_available_gpus E w).1 with
  | Ret gpus =>
      match rank max_results gpus with
      | Some ranked => Ret ranked
      | None =>
          Raise (mk_exn AttributeError
                   "'NoneType' object has no attribute 'lower'")
      end
  | Raise e => Raise e
  | OutOfFuel => OutOfFuel
  end.
Proof.
  unfold get_ranked_gpus, bind.
  destruct (get_available_gpus E w) as [[gpus|e|] w1]; cbn [fst];
    try reflexivity.
  destruct (rank max_results gpus); reflexivity.
Qed.

(** *** The offers of Vast.ai *)

Lemma format_offers_In offers : forall formatted o,
  VastAI.format_offers offers = Some formatted ->
  In o formatted ->
  exists raw, In raw offers /\ VastAI.format_offer raw = Some o.
Proof.
  induction offers as [|raw offers IH]; intros formatted o;
    cbn [VastAI.format_offers].
  - intros [= <-] [].
  - destruct (VastAI.format_offer raw) as [f|] eqn:Hf; [|discriminate].
    destruct (VastAI.format_offers offers) as [fs|]; [|discriminate].
    intros [= <-] [<-|Hin].
    + exists raw. split; [left; reflexivity|exact Hf].
    + destruct (IH fs o eq_refl Hin) as (raw' & Hraw & Hfo).
      exists raw'. split; [right; exact Hraw|exact Hfo].
Qed.

Lemma format_offers_length offers : forall formatted,
  VastAI.format_offers offers = Some formatted ->
  length formatted = length offers.
Proof.
  induction offers as [|raw offers IH]; intros formatted;
    cbn [VastAI.format_offers].
  - intros [= <-]. reflexivity.
  - destruct (VastAI.format_offer raw); [|discriminate].
    destruct (VastAI.format_offers offers) as [fs|]; [|discriminate].
    intros [= <-]. cbn [length]. rewrite (IH fs eq_refl). reflexivity.
Qed.

(** [format_offers] fails exactly when an offer has a null [gpu_ram]. *)
Lemma format_offers_None offers :
  VastAI.format_offers offers = None
  <-> exists raw, In raw offers /\ VastAI.raw_gpu_ram raw = Null.
Proof.
  induction offers as [|raw offers IH]; cbn [VastAI.format_offers].
  - split; [discriminate|intros (? & [] & _)].
  - unfold VastAI.format_offer at 1.
    destruct (VastAI.raw_gpu_ram raw) eqn:Hram; cbn [dict_get_default].
    + destruct (VastAI.format_offers offers) as [fs|].
      * split; [discriminate|]. intros (r & [<-|Hr] & Hnull); [congruence|].
        destruct IH as [_ IH]. discriminate IH. eauto.
      * split; [intros _|reflexivity].
        destruct IH as [IH _]. destruct (IH eq_refl) as (r & Hr & Hnull).
        exists r. split; [right; exact Hr|exact Hnull].
    + split; [intros _|reflexivity]. exists raw. split; [left; reflexivity|exact Hram].
    + destruct (VastAI.format_offers offers) as [fs|].
      * split; [discriminate|]. intros (r & [<-|Hr] & Hnull); [congruence|].
        destruct IH as [_ IH]. discriminate IH. eauto.
      * split; [intros _|reflexivity].
        destruct IH as [IH _]. destruct (IH eq_refl) as (r & Hr & Hnull).
        exists r. split; [right; exact Hr|exact Hnull].
Qed.

(** [reliable] fails exactly when an offer has no reliability. *)
Lemma reliable_None offers :
  VastAI.reliable offers = None
  <-> exists o, In o offers /\ VastAI.reliability o = None.
Proof.
  unfold VastAI.reliable.
  destruct (forallb (fun o => bool_decide (is_Some (VastAI.reliability o)))
              offers) eqn:Hall.
  - split; [discriminate|]. intros (o & Ho & Hnone).
    rewrite forallb_forall in Hall. specialize (Hall o Ho).
    apply bool_decide_eq_true in Hall. rewrite Hnone in Hall.
    destruct Hall as [? Hall]. discriminate.
  - split; [intros _|reflexivity].
    induction offers as [|o offers IH]; [discriminate|].
    cbn [forallb] in Hall. apply andb_false_iff in Hall as [Ho|Hall].
    + exists o. split; [left; reflexivity|].
      apply bool_decide_eq_false in Ho.
      destruct (VastAI.reliability o); [exfalso; apply Ho; eauto|reflexivity].
    + destruct (IH Hall) as (o' & Ho' & Hnone). exists o'.
      split; [right; exact Ho'|exact Hnone].
Qed.

Lemma reliable_In offers l o :
  VastAI.reliable offers = Some l -> In o l ->
  In o offers /\ exists r, VastAI.reliability o = Some r /\ (9 # 10 <= r)%Q.
Proof.
  unfold VastAI.reliable.
  destruct (forallb _ offers) eqn:Hall; [|discriminate].
  intros [= <-] Ho.
  apply list_elem_of_In, list_elem_of_filter in Ho as [Hr Ho].
  apply list_elem_of_In in Ho. split; [exact Ho|].
  rewrite forallb_forall in Hall. specialize (Hall o Ho).
  apply bool_decide_eq_true in Hall. destruct Hall as [r Hrel].
  exists r. split; [exact Hrel|]. rewrite Hrel in Hr. cbn in Hr.
  apply Qle_bool_iff. destruct (Qle_bool _ _); [reflexivity|contradiction].
Qed.

Definition TypeError_ge : exn :=
  mk_exn TypeError
    "'>=' not supported between instances of 'NoneType' and 'float'".

Definition TypeError_lt : exn :=
  mk_exn TypeError
    "'<' not supported between instances of 'NoneType' and 'float'".

(** What [VastAIClient.get_ranked_offers] answers, read off the
    marketplace's answer. *)
Lemma get_ranked_offers_run (E : VastAI.env) max_results (w : World VastAI.event) :
  (VastAI.get_ranked_offers E max_results w).1 =
  match VastAI.api_search E w with
  | Ok (Some raw) =>
      match VastAI.format_offers (slice_to (max_results * 2) raw) with
      | None | Some [] => Ret []
      | Some offers =>
          match VastAI.reliable offers with
          | None => Raise TypeError_ge
          | Some reliable =>
              match sort_by_opt VastAI.price_per_hour reliable with
              | None => Raise TypeError_lt
              | Some sorted => Ret (slice_to max_results sorted)
              end
          end
      end
  | Ok None => Ret []
  | Fail e => if is_Exception e then Ret [] else Raise e
  end.
Proof.
  unfold VastAI.get_ranked_offers, VastAI.search_offers, bind, try_except, call.
  cbn [truthy_str].
  destruct (VastAI.api_search E w) as [[raw|]|e]; cbn [result_of].
  - destruct (VastAI.format_offers (slice_to (max_results * 2) raw))
      as [[|o offers]|]; cbn; try reflexivity.
    destruct (VastAI.reliable (o :: offers)) as [rel|]; [|reflexivity].
    destruct (sort_by_opt VastAI.price_per_hour rel); reflexivity.
  - reflexivity.
  - destruct (is_Exception e); reflexivity.
Qed.

End RankingProps.

(** * The claims *)

Module Claims.










(** C3, as stated, fails for the Vast.ai client: when the instance never
    gets to [running], [wait_for_instance_ready] raises nothing; it
    returns [None] once the ten minutes are over, and the exception
    [cmd_separate] then raises does not name the instance. *)
Lemma vastai_wait_returns_none_on_timeout :
  (VastAI.wait_for_instance_ready Scenarios.Vast.never_running (Some 77) 600
     (init 0)).1 = Ret None
  /\ (VastAI.cmd_separate Scenarios.Vast.never_running (Some "key")
        Scenarios.Vast.args_destroy (init 0)).1
     = Raise (mk_exn Exception "Instance failed to start").
Proof. vm_compute. repeat split. Qed.

(** C3, amended.  Both waits always end, at the head of a round they
    reached, and in one of three ways.
    Vast.ai: [wait_for_instance_ready] returns a URL from a round at
    which the marketplace reported [running], a public address and a
    host port bound to [8185/tcp], and the health probe sent to that
    address and port answered 200; it returns [None] when the time is
    up, after at least [timeout] seconds, and raises no error of its
    own; or it raises what a round raised, which happens exactly when
    the poll or the probe fails with an exception that is no
    [Exception], or the instance is [running] with a [ports] that is
    [null].  A probe that answers otherwise or fails with an
    [Exception], and a poll that fails with an [Exception], only send
    the loop to its next round.
    RunPod: [wait_for_pod_ready] returns a URL from a round at which
    the pod listed a port mapping for private port 8185 with an address
    and a public port, and the probe sent there answered 200 (the pod's
    status is not looked at); when the time is up, after at least
    [timeout] seconds, it raises a [TimeoutError] whose text names the
    pod; or it raises what a round raised, which happens exactly when
    the poll fails or answers with errors, the answer has a [null] on
    the way to the ports, or a probe fails outside [requests].  A probe
    that answers otherwise or fails inside [requests] only sends the
    loop on.
    So a wait none of whose rounds returns a URL or raises ends in
    [None], respectively in the [TimeoutError]. *)
Theorem readiness_wait :
  (forall (E : VastAI.env) instance_id timeout w,
     let out := VastAI.wait_for_instance_ready E instance_id timeout w in
     exists w1,
       reaches (now w) timeout 10 (VastAI.ready_round E instance_id) tt w tt w1
       /\ match out.1 with
          | Ret (Some api_url) =>
              now w1 - now w < timeout
              /\ VastAIProps.healthy_poll E instance_id w1 api_url out.2
          | Ret None => timeout <= now w1 - now w /\ out.2 = w1
          | Raise e =>
              now w1 - now w < timeout
              /\ VastAIProps.round_raises E instance_id w1 e
          | OutOfFuel => False
          end)
  /\ (forall (E : VastAI.env) instance_id w e,
        (VastAI.ready_round E instance_id tt w).1 = Raise e
        <-> VastAIProps.round_raises E instance_id w e)
  /\ (forall (E : VastAI.env) instance_id w,
        (forall api_url,
           VastAIProps.announced E instance_id w api_url ->
           match VastAI.http_health E (VastAIProps.polled E instance_id w)
                   api_url with
           | Ok code => code <> 200
           | Fail e => is_Exception e = true
           end ->
           (VastAI.ready_round E instance_id tt w).1 = Ret (inl tt))
        /\ (forall e,
              VastAI.api_get E w instance_id = Fail e ->
              is_Exception e = true ->
              (VastAI.ready_round E instance_id tt w).1 = Ret (inl tt)))
  /\ (forall (E : VastAI.env) instance_id timeout w,
        (forall w1,
           reaches (now w) timeout 10 (VastAI.ready_round E instance_id) tt w
             tt w1 ->
           now w1 - now w < timeout ->
           (VastAI.ready_round E instance_id tt w1).1 = Ret (inl tt)) ->
        (VastAI.wait_for_instance_ready E instance_id timeout w).1 = Ret None)
  /\ (forall (E : RunPod.env) pod_id timeout w,
        let out := RunPod.wait_for_pod_ready E pod_id timeout w in
        exists w1,
          reaches (now w) timeout 5 (RunPod.ready_round E pod_id) tt w tt w1
          /\ match out.1 with
             | Ret url =>
                 now w1 - now w < timeout
                 /\ exists ports,
                      RunPodProps.listed E pod_id w1 ports
                      /\ RunPodProps.healthy_probe E ports
                           (RunPodProps.polled E pod_id w1) url out.2
             | Raise e =>
                 (timeout <= now w1 - now w
                  /\ e = mk_exn TimeoutError
                           ("Pod " +:+ pod_id +:+ " did not become ready in "
                            +:+ str_Z timeout +:+ "s")
                  /\ out.2 = w1)
                 \/ (now w1 - now w < timeout
                     /\ RunPodProps.pod_round_raises E pod_id w1 e)
             | OutOfFuel => False
             end)
  /\ (forall (E : RunPod.env) pod_id w e,
        (RunPod.ready_round E pod_id tt w).1 = Raise e
        <-> RunPodProps.pod_round_raises E pod_id w e)
  /\ (forall (E : RunPod.env) port ports url w,
        RunPodProps.maps_api port url ->
        match RunPod.http_health E w url with
        | Ok code => code <> 200
        | Fail e => is_RequestException e = true
        end ->
        RunPod.probe_ports E (port :: ports) w
        = RunPod.probe_ports E ports (RunPodProps.probed E url w))
  /\ (forall (E : RunPod.env) pod_id timeout w,
        (forall w1,
           reaches (now w) timeout 5 (RunPod.ready_round E pod_id) tt w tt w1 ->
           now w1 - now w < timeout ->
           (RunPod.ready_round E pod_id tt w1).1 = Ret (inl tt)) ->
        (RunPod.wait_for_pod_ready E pod_id timeout w).1
        = Raise (mk_exn TimeoutError
                   ("Pod " +:+ pod_id +:+ " did not become ready in "
                    +:+ str_Z timeout +:+ "s"))).
Proof.
  split; [|split; [|split; [|split; [|split; [|split; [|split]]]]]].
  - intros E instance_id timeout w out.
    destruct (VastAIProps.wait_for_instance_ready_cases E instance_id timeout w)
      as (w1 & Hreach & Hpost).
    fold out in Hpost. exists w1. split; [exact Hreach|].
    destruct out as [[[api_url|]|e|] w']; cbn [fst snd]; try exact Hpost.
    destruct Hpost as (Hlt & Hraise & _). auto.
  - intros. apply VastAIProps.ready_round_raises.
  - intros E instance_id w. split.
    + intros. eapply VastAIProps.unhealthy_probe_goes_on; eassumption.
    + intros e Hget He.
      rewrite (VastAIProps.failed_poll_goes_on E instance_id w e Hget He).
      reflexivity.
  - intros. apply VastAIProps.wait_for_instance_ready_none. assumption.
  - intros E pod_id timeout w out.
    destruct (RunPodProps.wait_for_pod_ready_cases E pod_id timeout w)
      as (w1 & Hreach & Hpost).
    fold out in Hpost. exists w1. split; [exact Hreach|].
    destruct out as [[url|e|] w']; cbn [fst snd]; try exact Hpost.
    destruct Hpost as [Hup|(Hlt & Hraise & _)]; [left; exact Hup|right; auto].
  - intros. apply RunPodProps.pod_ready_round_raises.
  - intros. apply RunPodProps.pod_unhealthy_probe_goes_on; assumption.
  - intros. apply RunPodProps.wait_for_pod_ready_timeout. assumption.
Qed.




(** C5, where the code parts from it: the final log fetch is not
    guarded as the fetch of the streaming step is.  Against the server
    of this repository, which has no route for the logs, a wait that
    streams and polls [completed] raises the 404 of the fetch instead
    of returning the status, and one that polls [failed] raises the
    same 404 instead of the error the server reported. *)
Lemma failed_final_fetch_replaces_the_outcome :
  VastAI.http_job_status (Scenarios.Vast.no_log_route "failed") (init 0)
    "http://h" "job1"
  = Ok (VastAI.mk_job_status "failed" (Some "boom") None)
  /\ (VastAI.wait_for_job (Scenarios.Vast.no_log_route "failed") "http://h"
        "job1" 1800 true (init 0)).1
     = Raise (mk_exn HTTPError "404 Client Error: Not Found")
  /\ (VastAI.wait_for_job (Scenarios.Vast.no_log_route "completed") "http://h"
        "job1" 1800 true (init 0)).1
     = Raise (mk_exn HTTPError "404 Client Error: Not Found")
  /\ trace (VastAI.wait_for_job (Scenarios.Vast.no_log_route "completed")
              "http://h" "job1" 1800 true (init 0)).2
     = [VastAI.GetJobStatus "http://h" "job1";
        VastAI.GetJobLogs "http://h" "job1" (Some 0)].
Proof. vm_compute. repeat split. Qed.

(** C5, as the code has it.  A round of the Vast.ai wait that polls
    [completed] or [failed] makes one final log fetch exactly when
    streaming is still on, from the current offset.  With streaming
    off, or with that fetch returned (what it brings is printed),
    [completed] returns the status polled and [failed] raises
    [Exception("Job failed: ...")] with the error the server reported.
    With that fetch failed, the round raises what the fetch raised,
    whatever the status polled.  The wait ends at the head of a round
    it reached: it returns only a completed status, the one that round
    returned; it raises the timeout once the time is up, and otherwise
    what that round raised.  The RunPod wait returns or raises in the
    same way without any log fetch. *)
Theorem terminal_status :
  (forall (E : VastAI.env) base_url job_id cursor stream w status,
     VastAI.http_job_status E w base_url job_id = Ok status ->
     VastAI.job_state status = "completed" \/ VastAI.job_state status = "failed" ->
     let w1 := VastAIProps.status_polled E base_url job_id w in
     let ending : result (option Z * bool + VastAI.job_status) :=
       if String.eqb (VastAI.job_state status) "completed" then Ret (inr status)
       else Raise (mk_exn Exception
                     ("Job failed: " +:+ str_opt (VastAI.job_error status))) in
     (stream = false ->
        VastAI.job_round E base_url job_id (cursor, stream) w = (ending, w1))
     /\ (stream = true -> forall r,
           VastAI.http_job_logs E w1 base_url job_id cursor = Ok r ->
           VastAI.job_round E base_url job_id (cursor, stream) w
           = (ending,
              mk_World (now w1 + Z.of_N (VastAI.latency E w1))
                (trace w1 ++ VastAI.GetJobLogs base_url job_id cursor
                   :: (if truthy_str (VastAI.logs r)
                       then [VastAI.PrintLogs (default "" (VastAI.logs r))]
                       else []))))
     /\ (stream = true -> forall e,
           VastAI.http_job_logs E w1 base_url job_id cursor = Fail e ->
           VastAI.job_round E base_url job_id (cursor, stream) w
           = (Raise e, VastAIProps.logs_fetched E base_url job_id cursor w1)))
  /\ (forall (E : VastAI.env) base_url job_id timeout stream w,
        let out := VastAI.wait_for_job E base_url job_id timeout stream w in
        exists st w1,
          reaches (now w) timeout 5 (VastAI.job_round E base_url job_id)
            (Some 0, stream) w st w1
          /\ match out.1 with
             | Ret status =>
                 now w1 - now w < timeout
                 /\ VastAI.job_state status = "completed"
                 /\ VastAI.job_round E base_url job_id st w1
                    = (Ret (inr status), out.2)
             | Raise e =>
                 (timeout <= now w1 - now w
                  /\ e = mk_exn Exception
                           ("Job timeout after " +:+ str_Z timeout +:+ "s")
                  /\ out.2 = w1)
                 \/ (now w1 - now w < timeout
                     /\ VastAI.job_round E base_url job_id st w1
                        = (Raise e, out.2))
             | OutOfFuel => False
             end)
  /\ (forall (E : RunPod.env) base_url job_id last_progress w job,
        RunPod.http_get_job E w base_url job_id = Ok job ->
        let w1 := mk_World (now w + Z.of_N (RunPod.latency E w))
                    (trace w ++ [RunPod.GetJob base_url job_id]) in
        (RunPod.job_status job = Some "completed" ->
           RunPod.job_round E base_url job_id last_progress w
           = (Ret (inr job), w1))
        /\ (RunPod.job_status job = Some "failed" ->
              RunPod.job_round E base_url job_id last_progress w
              = (Raise (mk_exn Exception
                          ("Job failed: " +:+ str_opt (RunPod.job_error job))),
                 w1))).
Proof.
  split; [|split].
  - intros E base_url job_id cursor stream w status Hst Hterm.
    exact (VastAIProps.terminal_round E base_url job_id cursor stream w status
             Hst Hterm).
  - intros E base_url job_id timeout stream w out.
    destruct (VastAIProps.wait_for_job_cases E base_url job_id timeout stream w)
      as (st & w1 & Hreach & Hpost).
    fold out in Hpost. exists st, w1. split; [exact Hreach|].
    destruct out as [[status|e|] w']; cbn [fst snd]; exact Hpost.
  - intros E base_url job_id last_progress w job Hjob.
    exact (RunPodProps.pod_terminal_round E base_url job_id last_progress w job
             Hjob).
Qed.

End Claims.

(** * Further properties of the code *)

Module Further.

Import RankingProps.

(** X1.  The list [get_available_gpus] builds from the marketplace's
    [gpuTypes] is in ascending order of price, holds exactly the
    formatted entries whose [memoryInGb] is at least [MIN_VRAM_GB] (an
    entry without the key counts as 0 GB), each as often as the
    marketplace listed it, and so never holds a GPU below 8 GB.  No
    list is built exactly when some entry has a [memoryInGb] that is
    [null]: [get_available_gpus] then raises [TypeError], as it does
    for a [gpuTypes] that is [null], and [AttributeError] for a [data]
    that is [null]. *)
Theorem available_is_sorted_and_filtered :
  (forall gpus : list RunPod.gpu_type,
     match RunPod.available gpus with
     | Some listed =>
         StronglySorted (key_le RunPod.price_per_hour) listed
         /\ Permutation listed
              (map RunPod.format_gpu
                 (filter (fun g => RunPod.big_enough g = true) gpus))
         /\ Forall (fun g => exists m, RunPod.vram_gb g = Some m
                                       /\ RunPod.MIN_VRAM_GB <= m) listed
         /\ (forall t, In t gpus ->
               (In (RunPod.format_gpu t) listed
                <-> exists m, dict_get_default (RunPod.memoryInGb t) 0 = Some m
                              /\ RunPod.MIN_VRAM_GB <= m))
     | None => exists t, In t gpus /\ RunPod.memoryInGb t = Null
     end)
  /\ (forall gpus : list RunPod.gpu_type,
        RunPod.available gpus = None
        <-> exists t, In t gpus /\ RunPod.memoryInGb t = Null)
  /\ (forall (E : RunPod.env) (w : World RunPod.event),
        (RunPod.get_available_gpus E w).1 =
        match RunPod.gql_gpu_types E w with
        | Fail e => Raise e
        | Ok r =>
            match RunPod.gt_errors r with
            | Some errors =>
                Raise (mk_exn Exception ("GraphQL error: " +:+ errors))
            | None =>
                match dict_get_default (RunPod.gt_data r) Absent with
                | None =>
                    Raise (mk_exn AttributeError
                             "'NoneType' object has no attribute 'get'")
                | Some data =>
                    match dict_get_default data [] with
                    | None =>
                        Raise (mk_exn TypeError
                                 "'NoneType' object is not iterable")
                    | Some gpus =>
                        match RunPod.available gpus with
                        | None =>
                            Raise (mk_exn TypeError
                              "'>=' not supported between instances of 'NoneType' and 'int'")
                        | Some listed => Ret listed
                        end
                    end
                end
            end
        end).
Proof.
  split; [|split].
  - intros gpus. destruct (RunPod.available gpus) as [listed|] eqn:Ha;
      [|apply available_None; exact Ha].
    apply available_Some in Ha.
    set (kept := filter (fun g => RunPod.big_enough g = true) gpus) in *.
    assert (Hin : forall g, In g listed <->
              exists t, RunPod.format_gpu t = g /\ In t gpus
                        /\ RunPod.big_enough t = true).
    { intros g. subst listed. rewrite sort_by_In, in_map_iff.
      split; intros (t & Hf & Ht); exists t; (split; [exact Hf|]).
      - apply list_elem_of_In, list_elem_of_filter in Ht as [Hm Ht].
        split; [apply list_elem_of_In; exact Ht|exact Hm].
      - destruct Ht as [Ht Hm]. apply list_elem_of_In, list_elem_of_filter.
        split; [exact Hm|apply list_elem_of_In; exact Ht]. }
    assert (Hbig : forall t, RunPod.big_enough t = true <->
              exists m, dict_get_default (RunPod.memoryInGb t) 0 = Some m
                        /\ RunPod.MIN_VRAM_GB <= m).
    { intros t. unfold RunPod.big_enough, RunPod.memory.
      destruct (dict_get_default (RunPod.memoryInGb t) 0) as [m|].
      - rewrite Z.leb_le. split; [eauto|]. intros (m' & [= <-] & Hm). exact Hm.
      - split; [discriminate|]. intros (m' & Hm & _). discriminate. }
    split; [subst listed; apply sort_by_sorted|].
    split; [subst listed; apply sort_by_perm|]. split.
    + apply List.Forall_forall. intros g Hg.
      apply Hin in Hg as (t & <- & _ & Hm). apply Hbig in Hm. exact Hm.
    + intros t Ht. rewrite Hin. split.
      * intros (t' & Hf & _ & Hm). apply Hbig in Hm as (m & Hm & Hle).
        assert (Hv : RunPod.vram_gb (RunPod.format_gpu t')
                     = RunPod.vram_gb (RunPod.format_gpu t))
          by (rewrite Hf; reflexivity).
        cbn in Hv. unfold RunPod.memory in Hv. exists m.
        split; [rewrite <- Hv; exact Hm|exact Hle].
      * intros Hm. exists t. split; [reflexivity|]. split; [exact Ht|].
        apply Hbig. exact Hm.
  - apply available_None.
  - intros E w. apply get_available_gpus_run.
Qed.

(** X2.  Whatever list of GPUs [get_ranked_gpus] ranks, its answer is
    the first [max_results] entries of two lists laid end to end.  The
    first holds at most one GPU per preferred model, each taken from the
    ten leading entries and carrying the name of a preferred model
    (case-insensitive substring).  The second is the input with entries
    left out, in the input's order.  No id comes twice in the two lists
    together, and every id of the input is in them.  There is no
    answer only when one of the ten leading entries has no name (the
    [AttributeError] of [None.lower()]), and there is one whenever all
    ten have names. *)
Theorem rank_is_preferred_then_others (max_results : Z) (gpus : list RunPod.gpu) :
  match RunPod.rank max_results gpus with
  | Some ranked =>
      exists preferred others,
        ranked = slice_to max_results (preferred ++ others)
        /\ (length preferred <= length RunPod.PREFERRED_GPUS)%nat
        /\ Forall (fun g =>
                     In g (firstn 10 gpus)
                     /\ exists p name,
                          In p RunPod.PREFERRED_GPUS
                          /\ RunPod.name g = Some name
                          /\ contains (lower p) (lower name) = true)
             preferred
        /\ sublist others gpus
        /\ NoDup (map RunPod.id (preferred ++ others))
        /\ (forall g, In g gpus ->
              In (RunPod.id g) (map RunPod.id (preferred ++ others)))
  | None => exists g, In g (firstn 10 gpus) /\ RunPod.name g = None
  end
  /\ (Forall (fun g => is_Some (RunPod.name g)) (firstn 10 gpus) ->
      RunPod.rank max_results gpus <> None).
Proof.
  split.
  2: { intros Hnamed. rewrite (rank_named _ _ Hnamed). discriminate. }
  destruct (RunPod.rank max_results gpus) as [ranked|] eqn:Hr;
    [|apply (rank_raises _ _ Hr)].
  apply rank_picks_rest in Hr. subst ranked. unfold ranking.
  exists (picks RunPod.PREFERRED_GPUS (firstn 10 gpus) ∅).
  exists (rest gpus (ids (picks RunPod.PREFERRED_GPUS (firstn 10 gpus) ∅) ∪ ∅)).
  split; [reflexivity|].
  split; [apply picks_length|].
  split.
  { eapply Forall_impl; [apply picks_preferred|].
    intros g (Hin & p & Hp & Hm). split; [exact Hin|].
    apply matches_name in Hm as (n & Hn & Hc). eauto. }
  split; [apply rest_sublist|].
  split.
  - rewrite map_app. apply NoDup_app.
    split; [apply picks_NoDup|]. split; [|apply rest_NoDup].
    intros x Hx Hx'. apply list_elem_of_In, in_map_iff in Hx' as (g & <- & Hg).
    apply rest_fresh in Hg. apply Hg. apply elem_of_union. left.
    apply elem_of_ids, list_elem_of_In. exact Hx.
  - intros g Hg. rewrite map_app, in_app_iff.
    destruct (rest_covers gpus
      (ids (picks RunPod.PREFERRED_GPUS (firstn 10 gpus) ∅) ∪ ∅) g Hg)
      as [Hu|Hr]; [left|right; exact Hr].
    apply elem_of_union in Hu as [Hu|Hu]; [|apply elem_of_empty in Hu as []].
    apply elem_of_ids. exact Hu.
Qed.

(** X3.  When none of the ten leading GPUs carries the name of a
    preferred model (each has a name) and no id comes twice,
    [get_ranked_gpus] leaves the order alone: the ranking is the first
    [max_results] entries of its input, that is of the marketplace's
    list by ascending price. *)
Theorem rank_without_preferred (max_results : Z) (gpus : list RunPod.gpu) :
  Forall (fun g => exists name,
                     RunPod.name g = Some name
                     /\ forall p, In p RunPod.PREFERRED_GPUS ->
                                  contains (lower p) (lower name) = false)
    (firstn 10 gpus) ->
  NoDup (map RunPod.id gpus) ->
  RunPod.rank max_results gpus = Some (slice_to max_results gpus).
Proof.
  intros Hno Hnd.
  rewrite rank_named.
  2: { eapply Forall_impl; [exact Hno|]. intros g (n & Hn & _). exists n. exact Hn. }
  f_equal. unfold ranking.
  rewrite picks_unmatched.
  2: { eapply Forall_impl; [exact Hno|]. intros g (n & Hn & Hc) p Hp.
       unfold matches. rewrite Hn. apply Hc. exact Hp. }
  cbn [app].
  rewrite rest_all; [reflexivity|exact Hnd|].
  intros g _ Hu. apply elem_of_union in Hu as [Hu|Hu];
    apply elem_of_empty in Hu as [].
Qed.

Lemma rank_without_preferred_witness :
  RunPod.rank 10
    (map RunPod.format_gpu [Scenarios.Pod.gpu_t4; Scenarios.Pod.gpu_small])
  = Some (slice_to 10
            (map RunPod.format_gpu
               [Scenarios.Pod.gpu_t4; Scenarios.Pod.gpu_small])).
Proof.
  apply rank_without_preferred.
  - repeat constructor; eexists; (split; [reflexivity|]); intros p Hp;
      cbn in Hp;
      repeat (destruct Hp as [<-|Hp]; [vm_compute; reflexivity|]); destruct Hp.
  - apply (bool_decide_unpack _). vm_compute. exact I.
Defined.

(** X4.  [find_cheapest_gpu] answers [None] exactly when the marketplace
    lists no GPU of at least 8 GB.  Otherwise it answers one of the ten
    cheapest such GPUs: one that carries the name of a preferred model
    or, when none of the ten does, the cheapest of all.  It raises what
    [get_available_gpus] raises (a failed query, a GraphQL error, the
    errors of a [null] in the answer), and [AttributeError] when it
    comes to one of the ten cheapest that has no name. *)
Theorem find_cheapest_gpu_answer (E : RunPod.env) (w : World RunPod.event) :
  match (RunPod.get_available_gpus E w).1 with
  | Ret gpus =>
      match (RunPod.find_cheapest_gpu E w).1 with
      | Ret None => gpus = []
      | Ret (Some g) =>
          In g (firstn 10 gpus)
          /\ ((exists p name,
                 In p RunPod.PREFERRED_GPUS
                 /\ RunPod.name g = Some name
                 /\ contains (lower p) (lower name) = true)
              \/ (Forall (fun g' => forall p name,
                            In p RunPod.PREFERRED_GPUS ->
                            RunPod.name g' = Some name ->
                            contains (lower p) (lower name) = false)
                    (firstn 10 gpus)
                  /\ Forall (fun g' => (RunPod.price_per_hour g
                                        <= RunPod.price_per_hour g')%Q) gpus))
      | Raise e =>
          e = mk_exn AttributeError "'NoneType' object has no attribute 'lower'"
          /\ exists g, In g (firstn 10 gpus) /\ RunPod.name g = None
      | OutOfFuel => False
      end
  | Raise e => (RunPod.find_cheapest_gpu E w).1 = Raise e
  | OutOfFuel => False
  end.
Proof.
  pose proof (get_ranked_gpus_run E 10 w) as Hrun.
  pose proof (get_available_gpus_run E w) as Havail.
  unfold RunPod.find_cheapest_gpu, bind.
  destruct (RunPod.get_ranked_gpus E 10 w) as [out w1]. cbn [fst] in Hrun.
  destruct (RunPod.get_available_gpus E w) as [[gpus|e|] w0]; cbn [fst] in *.
  3: { destruct (RunPod.gql_gpu_types E w) as [r|e]; [|discriminate].
       destruct (RunPod.gt_errors r); [discriminate|].
       destruct (dict_get_default (RunPod.gt_data r) Absent) as [data|];
         [|discriminate].
       destruct (dict_get_default data []) as [types|]; [|discriminate].
       destruct (RunPod.available types); discriminate. }
  2: { subst out. reflexivity. }
  assert (Hsorted : StronglySorted (key_le RunPod.price_per_hour) gpus).
  { destruct (RunPod.gql_gpu_types E w) as [r|e]; [|discriminate].
    destruct (RunPod.gt_errors r); [discriminate|].
    destruct (dict_get_default (RunPod.gt_data r) Absent) as [data|];
      [|discriminate].
    destruct (dict_get_default data []) as [types|]; [|discriminate].
    destruct (RunPod.available types) as [l|] eqn:Ha; [|discriminate].
    injection Havail as <-. apply available_Some in Ha. rewrite Ha.
    apply sort_by_sorted. }
  destruct (RunPod.rank 10 gpus) as [ranked|] eqn:Hr; subst out; cbn [fst ret].
  2: { split; [reflexivity|]. apply (rank_raises _ _ Hr). }
  apply rank_picks_rest in Hr. subst ranked. unfold ranking.
  destruct (picks RunPod.PREFERRED_GPUS (firstn 10 gpus) ∅) as [|g0 l] eqn:Hp.
  - cbn [app].
    destruct gpus as [|g gpus'] eqn:Hg.
    + cbn [rest]. rewrite slice_to_nil. reflexivity.
    + rewrite rest_head.
      2:{ intros Hu. apply elem_of_union in Hu as [Hu|Hu];
            apply elem_of_empty in Hu as []. }
      destruct (slice_to_head 10 g (rest gpus' ({[RunPod.id g]} ∪ (ids [] ∪ ∅))))
        as [l' ->]; [lia|].
      split; [left; reflexivity|]. right. split.
      * apply List.Forall_forall. intros g' Hg' p n Hin Hn.
        pose proof (picks_nil_inv _ _ _ Hp p Hin) as Hnone.
        apply pick_None in Hnone.
        rewrite List.Forall_forall in Hnone.
        destruct (Hnone g' Hg') as [Hm|Hu].
        -- unfold matches in Hm. rewrite Hn in Hm. exact Hm.
        -- apply elem_of_empty in Hu as [].
      * apply StronglySorted_inv in Hsorted as [_ Hs].
        constructor; [apply Qle_refl|exact Hs].
  - cbn [app].
    destruct (slice_to_head 10 g0
                (l ++ rest gpus (ids (g0 :: l) ∪ ∅))) as [l' ->]; [lia|].
    pose proof (picks_preferred RunPod.PREFERRED_GPUS (firstn 10 gpus) ∅) as Hpref.
    rewrite Hp in Hpref. apply Forall_inv in Hpref as [Hin (p & Hp' & Hm)].
    split; [exact Hin|]. left.
    apply matches_name in Hm as (n & Hn & Hc). eauto.
Qed.

(** The orders below are on offers that have a price. *)
Definition cheaper (a b : VastAI.offer) : Prop :=
  exists pa pb, VastAI.price_per_hour a = Some pa
                /\ VastAI.price_per_hour b = Some pb /\ (pa <= pb)%Q.

Lemma sort_by_opt_cheaper (l sorted : list VastAI.offer) :
  sort_by_opt VastAI.price_per_hour l = Some sorted ->
  StronglySorted cheaper sorted.
Proof.
  intros Hs. pose proof (sort_by_opt_Some _ _ _ Hs) as Heq.
  destruct l as [|x [|y l]].
  - subst sorted. constructor.
  - subst sorted. cbn. repeat constructor.
  - unfold sort_by_opt in Hs.
    destruct (forallb _ (x :: y :: l)) eqn:Hall; [|discriminate].
    rewrite forallb_forall in Hall.
    assert (Hpriced : forall o, In o sorted ->
              is_Some (VastAI.price_per_hour o)).
    { intros o Ho. subst sorted. apply sort_by_In in Ho.
      specialize (Hall o Ho). apply bool_decide_eq_true in Hall. exact Hall. }
    pose proof (sort_by_sorted (fun o => default 0%Q (VastAI.price_per_hour o))
                  (x :: y :: l)) as Hsorted.
    rewrite <- Heq in Hsorted. clear Heq Hs Hall.
    induction Hsorted as [|o sorted Hsorted IH Ho]; [constructor|].
    constructor; [apply IH; intros; apply Hpriced; right; assumption|].
    rewrite List.Forall_forall in *. intros o' Ho'.
    destruct (Hpriced o (or_introl eq_refl)) as [pa Hpa].
    destruct (Hpriced o' (or_intror Ho')) as [pb Hpb].
    exists pa, pb. split; [exact Hpa|]. split; [exact Hpb|].
    specialize (Ho o' Ho'). unfold key_le in Ho. rewrite Hpa, Hpb in Ho.
    exact Ho.
Qed.


(** X6.  The background task of a job that is in [JOBS] settles it once
    its directory is made, whatever the server does while the
    subprocess runs: requests of any kind (a [DELETE] or a second
    [POST] for this very job included) and stretches of the tasks of
    other jobs.  With exit code 0 the job ends [completed] with its
    [completed_at]; with another exit code it ends [failed] with the
    output as its error, ['Unknown error'] for an empty output, or the
    text of the decoding error for an output that does not decode;
    when the subprocess raises an [Exception] it ends [failed] with the
    text of the exception.  The task itself returns in these cases, and
    the job keeps the [started_at] the task gave it.  When the
    directory cannot be made (the [mkdir] is before the [try]), the
    task raises what [mkdir] raised and has changed nothing: the job
    stays as it was. *)
Theorem running_job_is_settled
    (job_id input_url : string) (interval_cut : option string)
    (all_stems : bool) (job_dir started completed : string)
    (meanwhile : list Server.activity) (made : reply unit)
    (r : reply (Z * Server.captured))
    (h : Server.host) (j : Server.job) :
  Server.JOBS (Server.app h) !! job_id = Some j ->
  Forall (fun a => Server.task_of a <> Some job_id) meanwhile ->
  let subprocess := fun _ : list string =>
    bind (Server.acts meanwhile) (fun _ h => (result_of r, h)) in
  let out :=
    Server.run_demucs_job job_id input_url interval_cut all_stems job_dir
      started completed made subprocess h in
  let running :=
    Server.with_started_at started (Server.with_status "running" j) in
  match made with
  | Fail e => out = (Raise e, h)
  | Ok _ =>
      match r with
      | Ok (returncode, stdout) =>
          out.1 = Ret tt
          /\ Server.JOBS (Server.app out.2) !! job_id
             = Some (if returncode =? 0
                     then Server.with_completed_at completed
                            (Server.with_status "completed" running)
                     else Server.with_error
                            match stdout with
                            | Server.NoBytes => "Unknown error"
                            | Server.Text text => text
                            | Server.Garbled msg => msg
                            end
                            (Server.with_status "failed" running))
      | Fail e =>
          if is_Exception e then
            out.1 = Ret tt
            /\ Server.JOBS (Server.app out.2) !! job_id
               = Some (Server.with_error (exn_str e)
                         (Server.with_status "failed" running))
          else
            out.1 = Raise e
            /\ Server.JOBS (Server.app out.2) !! job_id = Some running
      end
  end.
Proof.
  intros Hj Hothers subprocess out running.
  destruct made as [u|e0]; [|reflexivity].
  assert (Hout : out =
            Server.run_demucs_job job_id input_url interval_cut all_stems
              job_dir started completed (Ok u) subprocess h) by reflexivity.
  clearbody out. subst subprocess.
  destruct (ServerProps.started_suite_present job_id started u h j Hj)
    as [Hr1 Hj1].
  destruct (Server.started_suite job_id started (Ok u) h) as [o1 h1] eqn:Hstart.
  cbn [fst snd] in Hr1, Hj1. subst o1. fold running in Hj1.
  destruct (ServerProps.acts_spares_running job_id running meanwhile h1
              Hothers Hj1 eq_refl) as [Hr2 Hj2].
  destruct (Server.acts meanwhile h1) as [o2 h2] eqn:Hacts.
  cbn [fst snd] in Hr2, Hj2. subst o2.
  destruct r as [[returncode stdout]|e]; cbn [result_of] in Hout.
  - rewrite (ServerProps.run_demucs_job_returned _ _ _ _ _ _ _ _ _ h h1
               (returncode, stdout) h2 Hstart) in Hout
      by (unfold bind; rewrite Hacts; reflexivity).
    subst out.
    destruct (ServerProps.task_end_present job_id completed (returncode, stdout)
                h2 running Hj2) as [Hr3 Hj3].
    split; [exact Hr3|]. rewrite Hj3. unfold ServerProps.exited. cbn [fst snd].
    destruct (returncode =? 0); [reflexivity|]. destruct stdout; reflexivity.
  - unfold Server.run_demucs_job in Hout. unfold bind at 1 in Hout.
    rewrite Hstart in Hout. cbv zeta in Hout.
    unfold try_except, bind in Hout. rewrite Hacts in Hout.
    destruct (is_Exception e); [|subst out; split; [reflexivity|exact Hj2]].
    destruct (ServerProps.except_suite_present job_id e h2 running Hj2)
      as [Hr3 Hj3].
    destruct (Server.except_suite job_id e h2) as [o3 h3].
    cbn [fst snd] in Hr3, Hj3. subst o3 out. split; [reflexivity|exact Hj3].
Qed.

Lemma running_job_is_settled_witness :
  let out :=
    Server.run_demucs_job "abc" "http://in/a.mp3" None false
      "/workspace/jobs/abc" "2024-01-01T00:00:01" "2024-01-01T00:03:00"
      (Ok tt)
      (fun _ => bind (Server.acts Scenarios.Jobs.busy)
                  (fun _ h => (Ret (0, Server.Text "done"), h)))
      Scenarios.Jobs.one_pending in
  out.1 = Ret tt
  /\ Server.JOBS (Server.app out.2) !! "abc"
     = Some (Server.mk_job "completed" "http://in/a.mp3" None false
               "2024-01-01T00:00:00" (Some "2024-01-01T00:00:01")
               (Some "2024-01-01T00:03:00") None).
Proof.
  apply (running_job_is_settled "abc" "http://in/a.mp3" None false
           "/workspace/jobs/abc" "2024-01-01T00:00:01" "2024-01-01T00:03:00"
           Scenarios.Jobs.busy (Ok tt) (Ok (0, Server.Text "done"))
           Scenarios.Jobs.one_pending Scenarios.Jobs.pending_abc).
  - vm_compute. reflexivity.
  - repeat constructor; intros H; discriminate H.
Defined.




(** X9.  [GET /job/{id}] answers 404 for an unknown id and never
    changes [JOBS].  For a known job the answer carries the job's
    status and error, and progress only while the job is running or
    completed: a pending or failed job is reported without progress
    whatever [progress.txt] holds.  A missing or unreadable
    [progress.txt] does not fail the request, it is reported as no
    progress; one that holds a JSON object is reported key by key; one
    that holds a non-empty JSON value that is no object makes the
    handler raise (a 500). *)
Theorem get_job_status_answer (job_id : string) (file : Server.progress_file)
    (s : Server.state) :
  let out := Server.get_job_status job_id file s in
  out.2 = s
  /\ match Server.JOBS s !! job_id with
     | None => Server.http_status out.1 = 404
     | Some job =>
         let bare :=
           Server.mk_JobStatus job_id (Server.status job) None None None None
             (Server.error job) in
         if String.eqb (Server.status job) "running"
            || String.eqb (Server.status job) "completed"
         then
           match file with
           | Server.Missing | Server.Unreadable
           | Server.NotObject false => out.1 = Ret bare
           | Server.Object p =>
               out.1 = Ret (Server.mk_JobStatus job_id (Server.status job)
                              (Server.progress_state p)
                              (Server.progress_tasks p)
                              (Server.progress_details p)
                              (Server.progress_elapsed_seconds p)
                              (Server.error job))
           | Server.NotObject true => Server.http_status out.1 = 500
           end
         else out.1 = Ret bare
     end.
Proof.
  intros out. subst out. split; [apply ServerProps.get_job_status_reads|].
  unfold Server.get_job_status, bind, get. cbn [fst snd].
  destruct (Server.JOBS s !! job_id) as [j|]; [|reflexivity].
  cbv zeta.
  destruct (String.eqb (Server.status j) "running");
    [|destruct (String.eqb (Server.status j) "completed")];
    cbn [orb]; try reflexivity; destruct file as [| |p|[|]]; reflexivity.
Qed.



(** X12.  What a launch run started, the destroy-all pass ends: in a
    directory without a record file, when both [main] of a launch run
    and the [destroy_all_instances] that follows it return, the destroy
    calls made are exactly one per check mark of the launch, for the id
    it shows and in the order of the launches, and the record file is
    gone again. *)
Theorem destroy_all_undoes_the_batch (E : VastAI.env) (api_key : option string)
    (num_instances : Z) (s : Batch.state) :
  Batch.instances_file s = None ->
  let launch := Batch.main E api_key false num_instances s in
  let out := Batch.destroy_all_instances E api_key launch.2 in
  launch.1 = Ret tt -> out.1 = Ret tt ->
  exists lines,
    Batch.stdout launch.2 = Batch.stdout s ++ lines
    /\ VastAIProps.destroys (trace (Batch.world out.2))
       = VastAIProps.destroys (trace (Batch.world s)) ++ BatchProps.launched lines
    /\ Batch.instances_file out.2 = None.
Proof.
  intros Hnone launch out Hlaunch Hdone.
  assert (Hkey : truthy_str api_key = true).
  { destruct (truthy_str api_key) eqn:Hkey; [reflexivity|].
    subst launch. unfold Batch.main in Hlaunch. rewrite Hkey in Hlaunch.
    discriminate Hlaunch. }
  destruct (BatchProps.main_spec E api_key num_instances s)
    as (lines & Hout & Hd & Hcase).
  fold launch in Hout, Hd, Hcase. rewrite Hlaunch in Hcase.
  destruct Hcase as [Hids Hfile].
  exists lines. split; [exact Hout|].
  subst out. rewrite BatchProps.destroy_all_unfold in Hdone |- *.
  destruct (BatchProps.launched lines) as [|i ids] eqn:Hl.
  - rewrite Hfile, Hnone in Hdone |- *. cbn [fst snd].
    rewrite app_nil_r. split; [exact Hd|]. rewrite Hfile. exact Hnone.
  - rewrite Hfile in Hdone |- *.
    destruct (Batch.instances (Batch.self launch.2)) as [|info insts] eqn:Hi;
      [discriminate Hids|].
    cbn [map] in Hdone |- *. rewrite Hkey in Hdone |- *.
    pose proof (BatchProps.destroy_each_spec E
                  (Batch.saved info :: map Batch.saved insts) (0, 0) launch.2)
      as (_ & _ & _ & Hret & _).
    destruct (Batch.destroy_each E (Batch.saved info :: map Batch.saved insts)
                (0, 0) launch.2) as [[tally|e|] s2];
      cbn [fst snd] in *; try discriminate Hdone.
    destruct (Hret tally eq_refl) as (_ & _ & Htr).
    cbn [Batch.world Batch.instances_file]. split; [|reflexivity].
    rewrite Htr, Hd. f_equal.
    change (Batch.saved info :: map Batch.saved insts)
      with (map Batch.saved (info :: insts)).
    rewrite BatchProps.wanted_saved. exact Hids.
Qed.

Lemma destroy_all_undoes_the_batch_witness :
  exists lines,
    Batch.stdout
      (Batch.main Scenarios.Registry.destroys_once (Some "key") false 2
         Scenarios.Registry.empty_directory).2
    = Batch.stdout Scenarios.Registry.empty_directory ++ lines
    /\ VastAIProps.destroys
         (trace (Batch.world
            (Batch.destroy_all_instances Scenarios.Registry.destroys_once
               (Some "key")
               (Batch.main Scenarios.Registry.destroys_once (Some "key") false 2
                  Scenarios.Registry.empty_directory).2).2))
       = VastAIProps.destroys (trace (Batch.world Scenarios.Registry.empty_directory))
           ++ BatchProps.launched lines
    /\ Batch.instances_file
         (Batch.destroy_all_instances Scenarios.Registry.destroys_once
            (Some "key")
            (Batch.main Scenarios.Registry.destroys_once (Some "key") false 2
               Scenarios.Registry.empty_directory).2).2
       = None.
Proof.
  apply (destroy_all_undoes_the_batch Scenarios.Registry.destroys_once
           (Some "key") 2 Scenarios.Registry.empty_directory);
    vm_compute; reflexivity.
Defined.

(** X13.  The two readiness waits poll the marketplace at a bounded
    rate.  [wait_for_instance_ready] asks for the instance at most once
    per 10 seconds of its timeout and [wait_for_pod_ready] for the pod
    at most once per 5 seconds: a wait makes [k] such calls only if
    [(k - 1)] intervals fit strictly below the timeout, and none at all
    for a timeout that is not positive.  Both waits end. *)
Theorem readiness_polls_are_rate_limited
    (EV : VastAI.env) (instance_id : option Z) (wv : World VastAI.event)
    (EP : RunPod.env) (pod_id : string) (wp : World RunPod.event)
    (timeout : Z) :
  let outv := VastAI.wait_for_instance_ready EV instance_id timeout wv in
  let outp := RunPod.wait_for_pod_ready EP pod_id timeout wp in
  (outv.1 <> OutOfFuel
   /\ exists k : nat,
        (Scenarios.count Scenarios.Vast.is_get_instance outv.2
         <= Scenarios.count Scenarios.Vast.is_get_instance wv + k)%nat
        /\ (k = 0%nat \/ 10 * (Z.of_nat k - 1) < timeout))
  /\ (outp.1 <> OutOfFuel
      /\ exists k : nat,
           (Scenarios.count Scenarios.Pod.is_get_pod outp.2
            <= Scenarios.count Scenarios.Pod.is_get_pod wp + k)%nat
           /\ (k = 0%nat \/ 5 * (Z.of_nat k - 1) < timeout)).
Proof.
  cbv zeta. split.
  - apply (poll_rate Scenarios.Vast.is_get_instance timeout 10
             (VastAI.ready_round EV instance_id) (ret None) tt wv); [lia| |].
    + intros st w. apply VastAIProps.ready_round_one_poll.
    + apply runs_ret.
  - apply (poll_rate Scenarios.Pod.is_get_pod timeout 5
             (RunPod.ready_round EP pod_id) _ tt wp); [lia| |].
    + intros st w. apply RunPodProps.pod_ready_round_one_poll.
    + apply runs_raise_cls.
Qed.

(** X14.  The two job waits poll the instance's API at a bounded rate:
    [wait_for_job], of either client, asks for the status of the job at
    most once per 5 seconds of its timeout, and not at all for a
    timeout that is not positive.  Both waits end. *)
Theorem job_polls_are_rate_limited
    (EV : VastAI.env) (wv : World VastAI.event) (stream_logs : bool)
    (EP : RunPod.env) (wp : World RunPod.event)
    (base_url job_id : string) (timeout : Z) :
  let outv := VastAI.wait_for_job EV base_url job_id timeout stream_logs wv in
  let outp := RunPod.wait_for_job EP base_url job_id timeout wp in
  (outv.1 <> OutOfFuel
   /\ exists k : nat,
        (Scenarios.count Scenarios.Vast.is_job_status outv.2
         <= Scenarios.count Scenarios.Vast.is_job_status wv + k)%nat
        /\ (k = 0%nat \/ 5 * (Z.of_nat k - 1) < timeout))
  /\ (outp.1 <> OutOfFuel
      /\ exists k : nat,
           (Scenarios.count Scenarios.Pod.is_get_job outp.2
            <= Scenarios.count Scenarios.Pod.is_get_job wp + k)%nat
           /\ (k = 0%nat \/ 5 * (Z.of_nat k - 1) < timeout)).
Proof.
  cbv zeta. split.
  - apply (poll_rate Scenarios.Vast.is_job_status timeout 5
             (VastAI.job_round EV base_url job_id) _ (Some 0, stream_logs) wv);
      [lia| |].
    + intros st w. apply VastAIProps.job_round_one_poll.
    + apply runs_raise_cls.
  - apply (poll_rate Scenarios.Pod.is_get_job timeout 5
             (RunPod.job_round EP base_url job_id) _ "" wp); [lia| |].
    + intros st w. apply RunPodProps.pod_job_round_one_poll.
    + apply runs_raise_cls.
Qed.

(** X15.  [VastAIClient.create_instance] makes one create request and
    either returns an instance marked as a success, for the offer asked
    for and with the [new_contract] of the marketplace's answer as its
    id, or raises.  Whatever [Exception] the request raised, the caller
    sees a plain [Exception] whose text starts with ["Failed to create
    instance: "]; for an answer without [success] the text carries that
    prefix twice, since the [raise] of the [else] branch is caught by
    the method's own [except].  So a caller never gets an instance with a
    false [success]. *)
Theorem create_instance_outcomes (E : VastAI.env) (offer_id : option Z)
    (label : string) (w : World VastAI.event) :
  let out := VastAI.create_instance E offer_id label w in
  trace out.2 = trace w ++ [VastAI.CreateInstance offer_id label]
  /\ match VastAI.api_create E w offer_id label with
     | Ok resp =>
         if VastAI.success resp then
           out.1 = Ret (VastAI.mk_instance (VastAI.new_contract resp) offer_id true)
         else
           out.1 = Raise (mk_exn Exception
                            ("Failed to create instance: "
                             +:+ ("Failed to create instance: "
                                  +:+ VastAI.create_repr resp)))
     | Fail e =>
         if is_Exception e then
           out.1 = Raise (mk_exn Exception
                            ("Failed to create instance: " +:+ exn_str e))
         else out.1 = Raise e
     end
  /\ (forall i, out.1 = Ret i -> VastAI.instance_success i = true)
  /\ (forall e, out.1 = Raise e -> is_Exception e = true ->
        exn_cls e = Exception
        /\ String.prefix "Failed to create instance: " (exn_str e) = true).
Proof.
  cbv zeta.
  unfold VastAI.create_instance, try_except, bind, call, raise_cls, raise, ret.
  destruct (VastAI.api_create E w offer_id label) as [resp|e]; cbn [result_of].
  - destruct (VastAI.success resp); cbn [fst snd trace is_Exception exn_cls].
    + split; [reflexivity|]. split; [reflexivity|].
      split; [intros i [= <-]; reflexivity|]. intros e He. discriminate He.
    + split; [reflexivity|]. split; [reflexivity|].
      split; [intros i Hi; discriminate Hi|].
      intros e [= <-] _. split; [reflexivity|apply prefix_app].
  - destruct (is_Exception e) eqn:He; cbn [fst snd trace].
    + split; [reflexivity|]. split; [reflexivity|].
      split; [intros i Hi; discriminate Hi|].
      intros e' [= <-] _. split; [reflexivity|apply prefix_app].
    + split; [reflexivity|]. split; [reflexivity|].
      split; [intros i Hi; discriminate Hi|].
      intros e' [= <-] He'. congruence.
Qed.


(** X17.  The counts of [GET /status] follow the background task of a
    pending job whose directory can be made: once the task has marked
    the job as running, [active_jobs] is one more than before and
    [completed_jobs] is unchanged; once the task has ended,
    [active_jobs] is back to what it was and [completed_jobs] is one
    more for exit code 0 and unchanged for a failure.  When the
    directory cannot be made, the task changes nothing, and the counts
    stay as they were. *)
Theorem status_counts_follow_the_task
    (job_id input_url : string) (interval_cut : option string)
    (all_stems : bool) (job_dir started completed : string)
    (made : reply unit) (returncode : Z) (stdout : Server.captured)
    (uptime : Z) (h : Server.host) (j : Server.job) :
  Server.JOBS (Server.app h) !! job_id = Some j ->
  Server.status j = "pending" ->
  let report := fun h : Server.host =>
    (Server.get_status uptime (Server.app h)).1 in
  let during := (Server.started_suite job_id started made h).2 in
  let after :=
    (Server.run_demucs_job job_id input_url interval_cut all_stems job_dir
       started completed made (fun _ => ret (returncode, stdout)) h).2 in
  match made with
  | Ok _ =>
      exists b d a,
        report h = Ret b /\ report during = Ret d /\ report after = Ret a
        /\ Server.ss_active_jobs d = Server.ss_active_jobs b + 1
        /\ Server.ss_completed_jobs d = Server.ss_completed_jobs b
        /\ Server.ss_active_jobs a = Server.ss_active_jobs b
        /\ Server.ss_completed_jobs a
           = Server.ss_completed_jobs b + (if returncode =? 0 then 1 else 0)
  | Fail _ => during = h /\ after = h
  end.
Proof.
  intros Hj Hpending report during after.
  destruct made as [u|e]; [|split; reflexivity].
  set (running := Server.with_started_at started (Server.with_status "running" j)).
  assert (Hduring : Server.JOBS (Server.app during)
                    = <[job_id := running]> (Server.JOBS (Server.app h))).
  { subst during. apply ServerProps.started_suite_jobs. exact Hj. }
  set (final := ServerProps.exited completed (returncode, stdout) running).
  assert (Hj1 : Server.JOBS (Server.app during) !! job_id = Some running)
    by (rewrite Hduring; apply lookup_insert_eq).
  assert (Hafter : Server.JOBS (Server.app after)
                   = <[job_id := final]> (Server.JOBS (Server.app during))).
  { subst after.
    destruct (Server.started_suite job_id started (Ok u) h) as [o1 h1] eqn:Hstart.
    pose proof (ServerProps.started_suite_present job_id started u h j Hj)
      as [Hr1 _].
    rewrite Hstart in Hr1. cbn [fst] in Hr1. subst o1.
    rewrite (ServerProps.run_demucs_job_returned _ _ _ _ _ _ _ _ _ h h1
               (returncode, stdout) h1 Hstart eq_refl).
    subst during. cbn [snd] in *.
    apply (ServerProps.task_end_jobs job_id completed (returncode, stdout) h1
             running Hj1). }
  exists (Server.mk_ServerStatus "running"
            (Server.models_ready_file_exists (Server.app h))
            (Server.count_status "running" (Server.JOBS (Server.app h)))
            (Server.count_status "completed" (Server.JOBS (Server.app h)))
            uptime).
  exists (Server.mk_ServerStatus "running"
            (Server.models_ready_file_exists (Server.app during))
            (Server.count_status "running" (Server.JOBS (Server.app during)))
            (Server.count_status "completed" (Server.JOBS (Server.app during)))
            uptime).
  exists (Server.mk_ServerStatus "running"
            (Server.models_ready_file_exists (Server.app after))
            (Server.count_status "running" (Server.JOBS (Server.app after)))
            (Server.count_status "completed" (Server.JOBS (Server.app after)))
            uptime).
  split; [reflexivity|]. split; [reflexivity|]. split; [reflexivity|].
  cbn [Server.ss_active_jobs Server.ss_completed_jobs].
  rewrite Hafter.
  rewrite !(ServerProps.count_status_update _ _ _ running final Hj1).
  rewrite Hduring.
  rewrite !(ServerProps.count_status_update _ _ _ j running Hj).
  rewrite Hpending. subst final running. unfold ServerProps.exited.
  cbn [fst snd].
  destruct (returncode =? 0); cbn; lia.
Qed.

Lemma status_counts_follow_the_task_witness :
  exists b d a,
    (Server.get_status 30 (Server.app Scenarios.Jobs.one_pending)).1 = Ret b
    /\ (Server.get_status 30
          (Server.app
             (Server.started_suite "abc" "2024-01-01T00:00:01" (Ok tt)
                Scenarios.Jobs.one_pending).2)).1 = Ret d
    /\ (Server.get_status 30
          (Server.app
             (Server.run_demucs_job "abc" "http://in/a.mp3" None false
                "/workspace/jobs/abc" "2024-01-01T00:00:01"
                "2024-01-01T00:03:00" (Ok tt)
                (fun _ => ret (0, Server.Text "done"))
                Scenarios.Jobs.one_pending).2)).1 = Ret a
    /\ Server.ss_active_jobs d = Server.ss_active_jobs b + 1
    /\ Server.ss_completed_jobs d = Server.ss_completed_jobs b
    /\ Server.ss_active_jobs a = Server.ss_active_jobs b
    /\ Server.ss_completed_jobs a = Server.ss_completed_jobs b + 1.
Proof.
  apply (status_counts_follow_the_task "abc" "http://in/a.mp3" None false
           "/workspace/jobs/abc" "2024-01-01T00:00:01" "2024-01-01T00:03:00"
           (Ok tt) 0 (Server.Text "done") 30 Scenarios.Jobs.one_pending
           Scenarios.Jobs.pending_abc);
    vm_compute; reflexivity.
Defined.

(** X18.  The loop of the RunPod [cmd_separate] that waits for the
    models is bounded and gives up without an error: with [rounds]
    rounds (60 in the command) it makes at most [rounds] status calls,
    each after a sleep of five seconds, and it ends.  It raises only
    what a status call raised.  When the server never reports its
    models as ready, the loop makes all its [rounds] calls and then
    returns normally, so the command goes on to submit the job
    anyway. *)
Theorem models_wait_is_bounded (E : RunPod.env) (rounds : nat)
    (base_url : string) (w : World RunPod.event) :
  let out := RunPod.wait_models E rounds base_url w in
  exists k : nat,
    (k <= rounds)%nat
    /\ Scenarios.count Scenarios.Pod.is_status out.2
       = (Scenarios.count Scenarios.Pod.is_status w + k)%nat
    /\ 5 * Z.of_nat k <= now out.2 - now w
    /\ match out.1 with
       | Ret _ => True
       | Raise e => exists w1, RunPod.http_status E w1 base_url = Fail e
       | OutOfFuel => False
       end
    /\ ((forall w1, RunPod.http_status E w1 base_url = Ok (Some false)) ->
        out.1 = Ret tt /\ k = rounds).
Proof.
  cbv zeta. exact (RunPodProps.wait_models_spec E rounds base_url w).
Qed.

(** X19.  Neither client fetches the result of a job that did not
    complete.  The [try] suite of [cmd_separate] ends; either it raises
    without any download call, or its last call is its only download: of
    the job that [create_job] has returned, from the URL the job was
    submitted to, into [instrumental.mp3] under the output directory as
    [pathlib] joins the two, and it comes right after a [wait_for_job]
    for that job has returned a status that says [completed] (with only
    the [mkdir] of the output directory in between, for the Vast.ai
    client).  For the output [./results] the file is
    [results/instrumental.mp3], for an empty output it is
    [instrumental.mp3], and the directory made is [results],
    respectively [.]. *)
Theorem result_is_fetched_only_when_completed
    (EV : VastAI.env) (argsv : VastAI.args) (instance_id : option Z)
    (wv : World VastAI.event)
    (EP : RunPod.env) (argsp : RunPod.args) (pod_id : string)
    (wp : World RunPod.event) :
  let outv := VastAI.run_job EV argsv instance_id wv in
  let outp := RunPod.run_job EP argsp pod_id wp in
  (outv.1 <> OutOfFuel
   /\ ((exists e evs, outv.1 = Raise e /\ trace outv.2 = trace wv ++ evs
                      /\ Forall VastAIProps.no_download evs)
       \/ (exists base_url job_id status w1,
             let created :=
               VastAI.create_job EV base_url (VastAI.input_url argsv)
                 (VastAI.interval_cut argsv) w1 in
             let waited :=
               VastAI.wait_for_job EV base_url job_id 1800 true created.2 in
             created.1 = Ret job_id
             /\ waited.1 = Ret status
             /\ VastAI.job_state status = "completed"
             /\ (exists evs, trace waited.2 = trace wv ++ evs
                             /\ Forall VastAIProps.no_download evs)
             /\ trace outv.2
                = trace waited.2
                    ++ [VastAI.Mkdir (Path (VastAI.output argsv));
                        VastAI.DownloadResult base_url job_id
                          (Path_div (VastAI.output argsv)
                             "instrumental.mp3")])))
  /\ (outp.1 <> OutOfFuel
      /\ ((exists e evs, outp.1 = Raise e /\ trace outp.2 = trace wp ++ evs
                         /\ Forall RunPodProps.no_download evs)
          \/ (exists base_url job_id job w1,
                let created :=
                  RunPod.create_job EP base_url (RunPod.input argsp)
                    (RunPod.interval_cut argsp) (RunPod.all_stems argsp) w1 in
                let waited :=
                  RunPod.wait_for_job EP base_url job_id 1800 created.2 in
                created.1 = Ret job_id
                /\ waited.1 = Ret job
                /\ RunPod.job_status job = Some "completed"
                /\ (exists evs, trace waited.2 = trace wp ++ evs
                                /\ Forall RunPodProps.no_download evs)
                /\ trace outp.2
                   = trace waited.2
                       ++ [RunPod.DownloadResult base_url job_id
                             (Path_div (RunPod.output argsp)
                                "instrumental.mp3")])))
  /\ (Path_div "./results" "instrumental.mp3" = "results/instrumental.mp3"
      /\ Path_div "" "instrumental.mp3" = "instrumental.mp3"
      /\ Path_div "/data/out/" "instrumental.mp3" = "/data/out/instrumental.mp3"
      /\ Path "./results" = "results" /\ Path "" = ".").
Proof.
  cbv zeta. split; [|split].
  - exact (VastAIProps.run_job_fetches EV argsv instance_id wv).
  - exact (RunPodProps.pod_run_job_fetches EP argsp pod_id wp).
  - vm_compute. repeat split.
Qed.


(** The offers of price [q]. *)
Definition priced_at (q : Q) (o : VastAI.offer) : bool :=
  match VastAI.price_per_hour o with
  | Some p => Qeq_bool p q
  | None => false
  end.

Lemma filter_ext_in {A} (P1 P2 : A -> Prop) `{forall x, Decision (P1 x)}
    `{forall x, Decision (P2 x)} (l : list A) :
  (forall x, In x l -> (P1 x <-> P2 x)) -> filter P1 l = filter P2 l.
Proof.
  induction l as [|x l IH]; intros Hiff; [reflexivity|].
  rewrite !filter_cons.
  assert (Hx : P1 x <-> P2 x) by (apply Hiff; left; reflexivity).
  rewrite IH by (intros y Hy; apply Hiff; right; exact Hy).
  destruct (decide (P1 x)), (decide (P2 x)); tauto.
Qed.

Lemma sort_by_opt_stable (q : Q) (l sorted : list VastAI.offer) :
  sort_by_opt VastAI.price_per_hour l = Some sorted ->
  filter (fun o => priced_at q o = true) sorted
  = filter (fun o => priced_at q o = true) l.
Proof.
  intros Hs. pose proof (sort_by_opt_Some _ _ _ Hs) as Heq.
  destruct l as [|x [|y l]]; [subst; reflexivity|subst; reflexivity|].
  unfold sort_by_opt in Hs.
  destruct (forallb _ (x :: y :: l)) eqn:Hall; [|discriminate].
  rewrite forallb_forall in Hall.
  assert (Hkey : forall o, In o (x :: y :: l) ->
            (priced_at q o = true
             <-> Qeq_bool (default 0%Q (VastAI.price_per_hour o)) q = true)).
  { intros o Ho. specialize (Hall o Ho). apply bool_decide_eq_true in Hall.
    destruct Hall as [p Hp]. unfold priced_at. rewrite Hp. reflexivity. }
  rewrite (filter_ext_in _ _ (x :: y :: l) Hkey).
  rewrite <- (sort_by_stable (fun o => default 0%Q (VastAI.price_per_hour o)) q).
  rewrite <- Heq. apply filter_ext_in.
  intros o Ho. apply Hkey. rewrite Heq in Ho. apply sort_by_In in Ho. exact Ho.
Qed.

(** X21.  Both rankers break ties the marketplace's way.  Among the
    GPUs of any one price, the list [get_available_gpus] builds keeps
    the order in which the marketplace listed them (there is no list
    only for an entry with a [null] [memoryInGb]); and among the offers
    of any one price that [get_ranked_offers] returns, the order is
    that of the reliable ones among the formatted offers of the
    marketplace's answer, the list being cut at its end only. *)
Theorem ties_keep_the_marketplace_order
    (gpus : list RunPod.gpu_type) (E : VastAI.env) (max_results : Z)
    (w : World VastAI.event) (q : Q) :
  match RunPod.available gpus with
  | Some listed =>
      filter (fun g => Qeq_bool (RunPod.price_per_hour g) q = true) listed
      = filter (fun g => Qeq_bool (RunPod.price_per_hour g) q = true)
          (map RunPod.format_gpu
             (filter (fun g => RunPod.big_enough g = true) gpus))
  | None => exists t, In t gpus /\ RunPod.memoryInGb t = Null
  end
  /\ match (VastAI.get_ranked_offers E max_results w).1 with
     | Ret (o :: offers) =>
         exists raws formatted reliable,
           VastAI.api_search E w = Ok (Some raws)
           /\ VastAI.format_offers (slice_to (max_results * 2) raws)
              = Some formatted
           /\ VastAI.reliable formatted = Some reliable
           /\ filter (fun o => priced_at q o = true) (o :: offers)
              `prefix_of` filter (fun o => priced_at q o = true) reliable
     | _ => True
     end.
Proof.
  split.
  { destruct (RunPod.available gpus) as [listed|] eqn:Ha;
      [|apply available_None; exact Ha].
    apply available_Some in Ha. subst listed. apply sort_by_stable. }
  rewrite get_ranked_offers_run.
  destruct (VastAI.api_search E w) as [[raws|]|e]; try exact I.
  2: { destruct (is_Exception e); exact I. }
  destruct (VastAI.format_offers (slice_to (max_results * 2) raws))
    as [[|f formatted]|] eqn:Hf; try exact I.
  destruct (VastAI.reliable (f :: formatted)) as [rel|] eqn:Hrel; [|exact I].
  destruct (sort_by_opt VastAI.price_per_hour rel) as [sorted|] eqn:Hs;
    [|exact I].
  destruct (slice_to max_results sorted) as [|o offers] eqn:Hcut; [exact I|].
  exists raws, (f :: formatted), rel.
  split; [reflexivity|]. split; [exact Hf|]. split; [exact Hrel|].
  rewrite <- (sort_by_opt_stable q rel sorted Hs), <- Hcut.
  apply filter_slice_to_prefix.
Qed.

(** X22.  [GET /jobs] cuts before it filters, and a limit of 0 is no
    limit.  With a positive [limit] the answer is drawn from the
    [limit] entries inserted last: those of them with the status asked
    for, in the order of insertion, so at most [limit] jobs, and
    possibly none although older jobs have that status.  With
    [limit = 0] every job with the status asked for is listed.  With a
    negative [limit] the oldest [-limit] entries are left out.  The
    [total] is the number of all jobs whatever the status and the
    limit. *)
Theorem list_jobs_limits (items : list (string * Server.job))
    (filter_status : option string) (limit : Z) :
  let out := Server.list_jobs items filter_status limit in
  let listed := fun l : list (string * Server.job) =>
    map Server.job_entry_of
      (filter (fun item => Server.status_matches filter_status item = true) l) in
  out.2 = Z.of_nat (length items)
  /\ (0 < limit ->
      out.1 = listed (skipn (length items - Z.to_nat limit) items)
      /\ (length out.1 <= Z.to_nat limit)%nat)
  /\ (limit = 0 -> out.1 = listed items)
  /\ (limit < 0 -> out.1 = listed (skipn (Z.to_nat (- limit)) items))
  /\ sublist out.1 (listed items).
Proof.
  cbv zeta. unfold Server.list_jobs, Server.slice_from. cbn [fst snd].
  split; [reflexivity|]. split; [|split; [|split]].
  - intros Hpos.
    replace (0 <=? - limit) with false by (symmetry; apply Z.leb_gt; lia).
    replace (- - limit) with limit by lia. split; [reflexivity|].
    rewrite length_map.
    etransitivity; [apply length_filter|]. rewrite length_skipn. lia.
  - intros ->. reflexivity.
  - intros Hneg.
    replace (0 <=? - limit) with true by (symmetry; apply Z.leb_le; lia).
    reflexivity.
  - apply sublist_map_filter.
    destruct (0 <=? - limit); apply sublist_drop.
Qed.



(** X24.  The two commands that tear an instance down by hand differ in
    what a failure does.  Without an API key (and, for [stop], without a
    pod id) both exit with status 1 and make no call.  Otherwise both
    make exactly one call to the marketplace.  The Vast.ai [destroy]
    then never fails: it reports the instance as destroyed only when the
    marketplace answered [success], prints a failure for any other
    answer and for any [Exception], and returns.  The RunPod [stop]
    reports the pod as stopped when the answer holds no errors, and
    raises otherwise. *)
Theorem manual_teardown_commands
    (EV : VastAI.env) (keyv : option string) (instance_id : Z)
    (wv : World VastAI.event)
    (EP : RunPod.env) (keyp pod_id : option string)
    (wp : World RunPod.event) :
  let outv := VastAI.cmd_destroy EV keyv instance_id wv in
  let outp := RunPod.cmd_stop EP keyp pod_id wp in
  (if truthy_str keyv then
     trace outv.2 = trace wv ++ [VastAI.DestroyInstance (Some instance_id)]
     /\ match VastAI.api_delete EV wv (Some instance_id) with
        | Ok (Some true) =>
            outv.1 = Ret ("Instance " +:+ str_Z instance_id +:+ " destroyed")
        | Ok _ =>
            outv.1 = Ret ("Failed to destroy instance " +:+ str_Z instance_id)
        | Fail e =>
            if is_Exception e then
              outv.1 = Ret ("Failed to destroy instance " +:+ str_Z instance_id)
            else outv.1 = Raise e
        end
   else outv = (Raise (mk_exn (SystemExit 1) ""), wv))
  /\ (if truthy_str keyp && truthy_str pod_id then
        trace outp.2 = trace wp ++ [RunPod.TerminatePod (default "" pod_id)]
        /\ match RunPod.gql_terminate EP wp (default "" pod_id) with
           | Ok None =>
               outp.1 = Ret ("Pod " +:+ default "" pod_id +:+ " stopped.")
           | Ok (Some errors) =>
               outp.1 = Raise (mk_exn Exception
                                 ("Failed to stop pod: " +:+ errors))
           | Fail e => outp.1 = Raise e
           end
      else outp = (Raise (mk_exn (SystemExit 1) ""), wp)).
Proof.
  cbv zeta. split.
  - unfold VastAI.cmd_destroy. destruct (truthy_str keyv); [|reflexivity].
    cbv beta iota delta [negb bind VastAI.destroy_instance try_except call ret].
    destruct (VastAI.api_delete EV wv (Some instance_id)) as [[[|]|]|e];
      cbn [result_of fst snd trace default]; try (split; reflexivity).
    destruct (is_Exception e); split; reflexivity.
  - unfold RunPod.cmd_stop.
    destruct (truthy_str keyp); [|reflexivity].
    destruct (truthy_str pod_id); [|reflexivity].
    cbv beta iota delta [negb andb bind RunPod.stop_pod call ret raise_cls raise].
    destruct (RunPod.gql_terminate EP wp (default "" pod_id)) as [[errors|]|e];
      cbn [result_of fst snd trace]; split; reflexivity.
Qed.

(** X25.  A [cmd_separate] that returns has the result: in either
    client, when the command returns (exit status 0), it has made
    exactly one download call. *)
Theorem success_means_fetched
    (EV : VastAI.env) (keyv : option string) (argsv : VastAI.args)
    (wv : World VastAI.event)
    (EP : RunPod.env) (keyp : option string) (argsp : RunPod.args)
    (wp : World RunPod.event) :
  let outv := VastAI.cmd_separate EV keyv argsv wv in
  let outp := RunPod.cmd_separate EP keyp argsp wp in
  (outv.1 = Ret tt ->
   Scenarios.count Scenarios.Vast.is_download outv.2
   = (Scenarios.count Scenarios.Vast.is_download wv + 1)%nat)
  /\ (outp.1 = Ret tt ->
      Scenarios.count Scenarios.Pod.is_download outp.2
      = (Scenarios.count Scenarios.Pod.is_download wp + 1)%nat).
Proof.
  cbv zeta. split.
  - apply VastAIProps.cmd_separate_success.
  - apply RunPodProps.pod_cmd_separate_success.
Qed.

Lemma success_means_fetched_witness :
  Scenarios.count Scenarios.Vast.is_download
    (VastAI.cmd_separate (Scenarios.Vast.smooth "completed") (Some "key")
       Scenarios.Vast.args_destroy (init 0)).2
  = 1%nat
  /\ Scenarios.count Scenarios.Pod.is_download
       (RunPod.cmd_separate
          (Scenarios.Pod.smooth "NVIDIA GeForce RTX 3090" "completed")
          (Some "key") Scenarios.Pod.args_stop (init 0)).2
     = 1%nat.
Proof.
  pose proof (success_means_fetched
                (Scenarios.Vast.smooth "completed") (Some "key")
                Scenarios.Vast.args_destroy (init 0)
                (Scenarios.Pod.smooth "NVIDIA GeForce RTX 3090" "completed")
                (Some "key") Scenarios.Pod.args_stop (init 0)) as [Hv Hp].
  split; [apply Hv|apply Hp]; vm_compute; reflexivity.
Defined.

(** X26. Whatever the server does, in whatever order (requests, and
    background tasks that start, exit or fail, also tasks of jobs that
    were deleted, filed again or never filed), every job of [JOBS] keeps
    one of the statuses pending, running, completed and failed, and is a
    job a background task was queued for, provided this held before. *)
Theorem jobs_keep_a_status_and_a_task (l : list Server.activity)
    (h : Server.host) :
  (forall id j,
     Server.JOBS (Server.app h) !! id = Some j ->
     In (Server.status j) ["pending"; "running"; "completed"; "failed"]
     /\ In id (map Server.task_job_id
                 (Server.background_tasks (Server.app h)))) ->
  let h' := (Server.acts l h).2 in
  forall id j,
    Server.JOBS (Server.app h') !! id = Some j ->
    In (Server.status j) ["pending"; "running"; "completed"; "failed"]
    /\ In id (map Server.task_job_id
                (Server.background_tasks (Server.app h'))).
Proof.
  intros Hok h'. exact (ServerProps.preserves_acts l h Hok).
Qed.

Lemma jobs_keep_a_status_and_a_task_witness :
  let l :=
    Server.TaskStarts "abc" "2024-01-01T00:00:01" (Ok tt)
    :: Scenarios.Jobs.busy
    ++ [Server.TaskExits "abc" "2024-01-01T00:03:00"
          (1, Server.Text "boom")] in
  let h' := (Server.acts l Scenarios.Jobs.one_pending).2 in
  In "failed" ["pending"; "running"; "completed"; "failed"]
  /\ In "abc" (map Server.task_job_id
                 (Server.background_tasks (Server.app h'))).
Proof.
  intros l h'.
  apply (jobs_keep_a_status_and_a_task l Scenarios.Jobs.one_pending)
    with (id := "abc")
         (j := Server.mk_job "failed" "http://in/a.mp3" None false
                 "2024-01-01T00:00:00" (Some "2024-01-01T00:00:01") None
                 (Some "boom")).
  - intros id j Hl. unfold Scenarios.Jobs.one_pending in Hl.
    cbn [Server.app Server.JOBS] in Hl.
    apply lookup_singleton_Some in Hl as [<- <-].
    split; left; reflexivity.
  - vm_compute. reflexivity.
Defined.

End Further.
